(* ===== verification/_CoqProject ===== *)
-Q . S2P
Prelude.v
PyBase.v
PyDict.v
Bytes.v
Sha256.v
CanonicalJson.v
CanonicalFacts.v
PyText.v
Keys.v
Signatures.v
ContractModels.v
Authority.v
Partners.v
Contracts.v
Routing.v
ExecutionStore.v
Execution.v
ExecutionFacts.v
ExecutionProtocol.v
ExecutionClaims.v
OperationsStore.v
Operations.v
OutboxFacts.v
OutboxClaims.v
DispatchProtocol.v
DispatchFacts.v
DispatchClaims.v
Identity.v
IdentityClaims.v
Projection.v
ProjectionClaims.v
PyJson.v
PyJsonFacts.v
History.v
HistoryFacts.v
HistoryInvariant.v
HistoryPaging.v
HistoryIndex.v
HistoryClaims.v
Notifications.v
NotificationFacts.v
NotificationClaims.v
Callbacks.v
CallbackFacts.v
CallbackClaims.v
PyJsonBytes.v
AccessTokens.v
TokenFacts.v
ApiGuard.v
ApiFacts.v
ApiClaims.v
Institutions.v
InstitutionClaims.v
Certification.v
CertificationRun.v
CertificationFacts.v
CertificationClaims.v
Sandbox.v
SandboxFacts.v
SandboxClaims.v
Security.v
SecurityFacts.v
SecurityClaims.v
