(* ===== verification/Prelude.v ===== *)
(** * RailOne Core: a verified model of the execution-continuity engine

    RailOne takes a signed financial intent, selects a route, submits an
    execution request to an existing rail and keeps evidence until the money
    is known to have moved, or not.  This library is a shallow embedding of the
    packages [railone_*] at the top of the tree of [src/]: every definition is
    a function with the name it has there where Rocq allows it, and every
    store operation is a function on an explicit state.

    ** The parts and how they interact

    - Foundations.  [Prelude] (this file): exceptions, the result type [res],
      the state-and-exception monad [M], the inversion tactics [inv_ok],
      [err_keeps], [run_paths] and [guards] that most proofs are made of.
      [PyBase], [PyText], [PyDict], [Bytes], [Sha256]: what the code uses of
      Python's [str], [datetime], [dict], [bytes], [base64], [hashlib] and
      [hmac], executable.  [PyJson], [PyJsonFacts], [PyJsonBytes]:
      [json.loads] and its round trip with [json.dumps].
    - Signatures.  [CanonicalJson], [CanonicalFacts]
      ([railone_crypto/canonical_json.py]), [Keys] ([key_provider.py]: the
      class [SigningKeyProvider] is the code's protocol, the class
      [SigningKeyProviderSpec] states what its clients rely on, and the
      in-memory provider is an instance of both), [Signatures]
      ([signature_service.py]).  Everything that is signed below goes through
      them, polymorphic in the provider.
    - Contracts.  [ContractModels], [Authority], [Partners], [Contracts]
      ([railone_contracts], [railone_authority], [railone_partners]): a signed
      quote is accepted once, which creates the UTT and the sender authority.
    - Execution.  [Routing] ([scoring.py]), [ExecutionStore], [Execution]
      ([railone_execution]): a plan ranks the routes of a UTT and starts one
      RTT attempt at a time.  [ExecutionFacts]: the operations as atomic steps
      with their invariant; [ExecutionProtocol]: workers whose every access to
      the store (reading an attempt, later its plan, committing under the
      plan's version) is a step of its own, in any interleaving;
      [ExecutionClaims]: the guarantees.
    - Operations.  [OperationsStore], [Operations] ([railone_operations]): the
      submission of an attempt to a provider and the outbox of signed events.
      [OutboxFacts], [OutboxClaims]: the outbox as a labelled transition
      system; [DispatchProtocol], [DispatchFacts], [DispatchClaims]: dispatch
      as a protocol of workers that may crash between any two parts.
    - Callbacks and settlement.  [Callbacks], [CallbackFacts],
      [CallbackClaims] ([railone_callbacks/mpesa.py]): a provider's callback
      is authenticated, recorded once and turned into the outcome of the
      attempt.  [Notifications], [NotificationFacts], [NotificationClaims]
      ([railone_notifications]): a success becomes one settlement evidence and
      two SMS, delivered at most once each.
    - Read side.  [Projection], [ProjectionClaims] ([railone_projection]): the
      projection of signed provider events.  [History], [HistoryFacts],
      [HistoryInvariant], [HistoryPaging], [HistoryIndex], [HistoryClaims]
      ([railone_history]): the permissioned history of accepted UTTs.
    - Identity.  [Identity], [IdentityClaims] ([railone_identity]): the
      attested, immutable identity anchor.
    - API boundary.  [AccessTokens], [TokenFacts] ([railone_api/auth.py]):
      access tokens; [ApiGuard], [ApiFacts], [ApiClaims]
      ([railone_api/guard.py], [facade.py]): the guard around every request,
      and the facade over [History] and [Projection].
    - Partner integration.  [Institutions], [InstitutionClaims]
      ([railone_institutions]): signed capability manifests, the registry of
      adapters pinned to a version, and the bridge that makes one of them the
      provider of [Operations]; an adapter is the class [InstitutionAdapter].
      [Certification] ([railone_certification/models.py], [evaluator.py]),
      [CertificationRun] ([runner.py], [store.py], [service.py]),
      [CertificationFacts], [CertificationClaims]: a partner's sandbox runs
      are recorded, judged and signed as a report on one adapter version.
    - Simulated providers.  [Sandbox], [SandboxFacts], [SandboxClaims]
      ([railone_sandbox]): two adapters of [Operations] over a broker that
      schedules a provider's effects, a store that leases due effects on a
      logical clock, and the worker and supervisor that deliver them.
    - Secrets.  [Security], [SecurityFacts], [SecurityClaims]
      ([railone_security]): envelope encryption of account endpoints, contact
      destinations and provider credentials; a vault is an account resolver of
      [Operations].  The class [KeyEncryptionProvider] is the code's protocol,
      [KeyEncryptionSpec] what the service relies on.

    A file [XClaims] holds the properties of component X, their witnesses and
    the data on which the witnesses evaluate the code (Modules [Demo...]);
    [XFacts], [XProtocol], [XInvariant] hold what they are proved from.

    ** State and operations

    A store of the code is a [Record] or an association list; each of its
    methods, which hold the store's lock, is one atomic [M] computation.  A
    service method that makes several store calls is their composition; where
    other workers may act between the calls (attempt updates, dispatch, SMS
    delivery, the outbox relay) the parts are steps of a transition relation
    and a refinement theorem shows that the code's method is a run of it.  An
    exception is a value [Err (Exn class message)]; [except] clauses test the
    class hierarchy [subclass].  A state reached before a [raise] is kept,
    exactly as Python keeps it.

    ** What the theorems show

    - Money moves at most once: [failover_safe], [interleavings_serialize],
      [provider_called_at_most_once], [provider_calls_replay],
      [callback_effects], [settlement_exactly_once].
    - Evidence is authentic: [valid_is_authentic], [sign_then_verify],
      [callback_authentic], [verified_token], [issued_token_verifies],
      [audit_trail_signed].
    - Stores stay well formed and histories complete: [submission_journal],
      [outbox_lifecycle], [history_invariant], [identity_anchor_immutable].
    - Things end: [plans_terminate], [active_plan_startable],
      [callback_redelivery], [worker_drains].
    - Access is what it should be: [guard_mediates], [transaction_disclosed],
      [rate_limit_bound]; a stored secret is readable where it belongs and
      nowhere else: [envelope_context_bound], [registered_secret_resolves].
    - Partners run what they signed: [registry_pins],
      [certification_authentic], [trace_conforms]; the simulated provider is
      one that RailOne may call twice: [simulated_submission_idempotent].

    ** Parameters, bounds and fuel

    Ed25519, AES-GCM, the provider adapters, the SMS gateway, the contact
    resolver, the Unicode normalisation tables and fresh values ([uuid4],
    private keys, random bytes) are parameters; [Ed25519Laws] states that a signature verifies under the
    key that made it, and is witnessed by a toy instance.  Unforgeability and
    collision resistance are never assumed: theorems name the colliding
    payloads, the forged signature or the key that signed instead.  An instant is an integer number
    of microseconds, and arithmetic that leaves the years 1 to 9999 raises as
    in Python.  A method called with [at=None] reads the clock; one [clock]
    argument stands for all readings of a call.  Integers of Python are
    unbounded, so [Z]; the 4,300-digit limit of [int] to [str] conversions and
    the interpreter's recursion limit are modelled ([printable_ints], the
    argument [depth] of the JSON scanner).  The JSON scanner runs with fuel
    2 * length + 2, and [PyJsonFacts] proves that it never runs out.

    ** Not modelled

    [str.upper], [str.lower], [str.strip] and [str.isdigit] are those of ASCII
    text.  A [RecursionError] of [canonical_json_bytes], on values nested
    deeper than the interpreter's stack allows, is left out: that depth is a
    property of the caller's stack, and the payloads that the code builds nest
    a handful of levels.  [railone_api/http.py] is a translation between HTTP and the facade.
    [railone_providers] does network calls; a provider is the parameter of
    [Operations].  [railone_postgres] and [migrations] hold SQL for the same store contracts
    that the in-memory stores implement.  Of
    [railone_institutions] the HTTP transport, the authentication headers and
    the message codecs, of [railone_certification] the command line and the
    scripted driver, and of [railone_sandbox] the composition roots are left
    out: they are glue around HTTP, XML, JSON files and databases.
    The directories [step_XX_*] are earlier copies of these packages;
    [scripts], [tests] and [docs] are not part of the engine. *)

From stdpp Require Export base tactics option list gmap strings sorting fin_maps.
From Stdlib Require Export ZArith Lia.
From Stdlib Require Import Ascii String.

#[global] Open Scope Z_scope.
#[global] Open Scope stdpp_scope.

Declare Scope railone_scope.
Delimit Scope railone_scope with railone.
#[global] Open Scope railone_scope.

(** ** Python exceptions

    One constructor per exception class that the modelled code raises or
    catches: the builtin classes, then the classes the repository declares. *)
Inductive exn_kind :=
  | ValueError | TypeError | KeyError | LookupError | PermissionError
  | RuntimeError | OverflowError | OSError | BinasciiError | InvalidSignature
  | CanonicalizationError
  | IdempotencyConflictError | QuoteAlreadyAcceptedError | UttNotFoundError
  | NoEligibleRouteError | PlanNotExecutableError
  | ExecutionPlanNotFoundError | RttNotFoundError
  | ConcurrentPlanUpdateError | ExecutionPlanConflictError
  | SubmissionNotFoundError | ConcurrentSubmissionUpdateError
  | SubmissionNotDispatchableError
  | ProjectionEventConflictError | CallbackPayloadConflictError
  | SettlementConflictError
  | TransactionProjectionNotFoundError | TransactionAccessDeniedError
  | AccessTokenError | ApiRateLimitExceededError | EnvelopeIntegrityError | InvalidTag
  | JSONDecodeError | UnicodeDecodeError | UnicodeEncodeError | RecursionError
  | OtherException.

#[global] Instance exn_kind_eq_dec : EqDecision exn_kind.
Proof. solve_decision. Defined.

(** The direct base class, as the class statements (and the builtin
    hierarchy) give it; [None] for a class whose base is [Exception]. *)
Definition exn_base (k : exn_kind) : option exn_kind :=
  match k with
  | KeyError => Some LookupError
  | PermissionError => Some OSError
  | BinasciiError | CanonicalizationError
  | JSONDecodeError | UnicodeDecodeError | UnicodeEncodeError => Some ValueError
  | IdempotencyConflictError | QuoteAlreadyAcceptedError
  | NoEligibleRouteError | PlanNotExecutableError
  | ConcurrentPlanUpdateError | ExecutionPlanConflictError
  | ConcurrentSubmissionUpdateError | SubmissionNotDispatchableError
  | ProjectionEventConflictError | CallbackPayloadConflictError
  | SettlementConflictError | ApiRateLimitExceededError
  | RecursionError => Some RuntimeError
  | UttNotFoundError | ExecutionPlanNotFoundError | RttNotFoundError
  | SubmissionNotFoundError | TransactionProjectionNotFoundError =>
      Some LookupError
  | TransactionAccessDeniedError | AccessTokenError | EnvelopeIntegrityError =>
      Some PermissionError
  | _ => None
  end.

(** [subclass k c]: would [except c] catch an exception of class [k]?  The
    hierarchy is at most three classes deep below [Exception]. *)
Definition subclass (k c : exn_kind) : bool :=
  bool_decide (k = c) ||
  match exn_base k with
  | None => false
  | Some b =>
      bool_decide (b = c) ||
      match exn_base b with
      | None => false
      | Some b' => bool_decide (b' = c)
      end
  end.

Record exn := Exn { exn_class : exn_kind; exn_msg : string }.

#[global] Instance exn_eq_dec : EqDecision exn.
Proof. solve_decision. Defined.

(** ** Fallible computations *)
Inductive res (A : Type) :=
  | Ok (a : A)
  | Err (e : exn).
Arguments Ok {A} a.
Arguments Err {A} e.

#[global] Instance res_eq_dec `{EqDecision A} : EqDecision (res A).
Proof. solve_decision. Defined.

#[global] Instance res_ret : MRet res := λ A a, Ok a.
#[global] Instance res_bind : MBind res := λ A B f m,
  match m with Ok a => f a | Err e => Err e end.

(** ** Stateful computations

    A Python method that mutates the object [S]: an exception keeps the
    mutations made before it was raised. *)
Definition M (S A : Type) : Type := S → res A * S.

#[global] Instance M_ret {S} : MRet (M S) := λ A a s, (Ok a, s).
#[global] Instance M_bind {S} : MBind (M S) := λ A B f m s,
  match m s with
  | (Ok a, s') => f a s'
  | (Err e, s') => (Err e, s')
  end.

(** Raising, in either monad. *)
Class MRaise (m : Type → Type) := raise_exn : ∀ A, exn → m A.
#[global] Instance res_raise : MRaise res := λ A e, Err e.
#[global] Instance M_raise {S} : MRaise (M S) := λ A e s, (Err e, s).

Definition raise `{MRaise m} {A} (k : exn_kind) (msg : string) : m A :=
  raise_exn A (Exn k msg).

(** [if c: raise k(msg)] *)
Definition raise_if `{MRaise m, MRet m} (c : bool) (k : exn_kind)
    (msg : string) : m unit :=
  if c then raise k msg else mret tt.

(** [x = o; if x is None: raise k(msg)] *)
Definition require `{MRaise m, MRet m} {A} (o : option A) (k : exn_kind)
    (msg : string) : m A :=
  match o with Some a => mret a | None => raise k msg end.

Definition lift {S A} (r : res A) : M S A := λ s, (r, s).
Definition getS {S} : M S S := λ s, (Ok s, s).
Definition putS {S} (s' : S) : M S unit := λ _, (Ok tt, s').
Definition modifyS {S} (f : S → S) : M S unit := λ s, (Ok tt, f s).

(** Running a computation on a component of a larger state. *)
Definition zoom {S T A} (view : T → S) (set : S → T → T) (m : M S A) : M T A :=
  λ t, let '(r, s) := m (view t) in (r, set s t).

(** [try: m except c: h(exc)] for the class test [c]. *)
Definition catch {S A} (c : exn_kind → bool) (m : M S A) (h : exn → M S A)
    : M S A := λ s,
  match m s with
  | (Err e, s') => if c (exn_class e) then h e s' else (Err e, s')
  | r => r
  end.

Definition catch_res {A} (c : exn_kind → bool) (m : res A) (h : exn → res A)
    : res A :=
  match m with
  | Err e => if c (exn_class e) then h e else Err e
  | r => r
  end.

(** The outcome of [m], an exception included; its effects stay. *)
Definition outcome {S A} (m : M S A) : M S (res A) := λ s,
  let '(r, s') := m s in (Ok r, s').

(** Computations on one half of a pair of states. *)
Definition on_fst {S T A} : M S A → M (S * T) A := zoom fst (λ s t, (s, t.2)).
Definition on_snd {S T A} : M T A → M (S * T) A := zoom snd (λ u t, (t.1, u)).

Definition is_ok {A} (r : res A) : bool :=
  match r with Ok _ => true | Err _ => false end.

Definition from_ok {A} (d : A) (r : res A) : A :=
  match r with Ok a => a | Err _ => d end.

Lemma from_ok_run {A S} (d : A) (run : res A * S) :
  is_ok run.1 = true → run = (Ok (from_ok d run.1), run.2).
Proof. by destruct run as [[a|e] s]. Qed.

Lemma run_result {A S} (run : A * S) a : run.1 = a → run = (a, run.2).
Proof. by destruct run as [x s]; cbn; intros ->. Qed.

(** [for x in l: ...] collecting the results. *)
Fixpoint mapM_ {S A B} (f : A → M S B) (l : list A) : M S (list B) :=
  match l with
  | [] => mret []
  | x :: l' => y ← f x; ys ← mapM_ f l'; mret (y :: ys)
  end.

Fixpoint mapR {A B} (f : A → res B) (l : list A) : res (list B) :=
  match l with
  | [] => mret []
  | x :: l' => y ← f x; ys ← mapR f l'; mret (y :: ys)
  end.

(** ** Inversion of successful runs *)
Ltac crush_iff :=
  split;
  [ intros; simplify_eq/=; eauto 10
  | intros; repeat match goal with
      | H : ∃ _, _ |- _ => destruct H
      | H : _ ∧ _ |- _ => destruct H
      | H : False |- _ => destruct H
      end; simplify_eq/=; eauto 10 ].

Section runs.
Context {S A B : Type}.
Implicit Types (m : M S A) (f : A → M S B) (s : S).

Lemma run_bind_ok m f s b s' :
  (m ≫= f) s = (Ok b, s') ↔
  ∃ a s1, m s = (Ok a, s1) ∧ f a s1 = (Ok b, s').
Proof. unfold mbind, M_bind. destruct (m s) as [[a|e] s1]; crush_iff. Qed.

Lemma run_bind_eq m f s a s1 :
  m s = (Ok a, s1) → (m ≫= f) s = f a s1.
Proof. intros Hm. unfold mbind, M_bind. by rewrite Hm. Qed.

Lemma run_bind_err m f s e s1 :
  m s = (Err e, s1) → (m ≫= f) s = (Err e, s1).
Proof. intros Hm. unfold mbind, M_bind. by rewrite Hm. Qed.

Lemma run_lift_ok (r : res A) s a s' :
  lift r s = (Ok a, s') ↔ r = Ok a ∧ s' = s.
Proof. unfold lift. crush_iff. Qed.

Lemma run_ret_ok (a : A) s b s' :
  (mret a : M S A) s = (Ok b, s') ↔ b = a ∧ s' = s.
Proof. unfold mret, M_ret. crush_iff. Qed.

Lemma run_raise_ok k msg s (a : A) s' :
  (raise k msg : M S A) s = (Ok a, s') ↔ False.
Proof. unfold raise, raise_exn, M_raise. crush_iff. Qed.

Lemma run_raise_if_ok c k msg s u s' :
  (raise_if c k msg : M S unit) s = (Ok u, s') ↔ c = false ∧ s' = s.
Proof. destruct c, u; cbv; crush_iff. Qed.

Lemma run_require_ok (o : option A) k msg s a s' :
  (require o k msg : M S A) s = (Ok a, s') ↔ o = Some a ∧ s' = s.
Proof. destruct o; cbv; crush_iff. Qed.

Lemma run_get_ok s a s' : getS s = (Ok a, s') ↔ a = s ∧ s' = s.
Proof. unfold getS. crush_iff. Qed.

Lemma run_put_ok s0 s u s' : putS s0 s = (Ok u, s') ↔ s' = s0.
Proof. unfold putS. destruct u. crush_iff. Qed.

Lemma run_modify_ok (g : S → S) s u s' :
  modifyS g s = (Ok u, s') ↔ s' = g s.
Proof. unfold modifyS. destruct u. crush_iff. Qed.
End runs.

Section results.
Context {A B : Type}.

Lemma res_bind_ok (m : res A) (f : A → res B) b :
  m ≫= f = Ok b ↔ ∃ a, m = Ok a ∧ f a = Ok b.
Proof. destruct m; cbv; crush_iff. Qed.

Lemma res_raise_ok k msg (a : A) : (raise k msg : res A) = Ok a ↔ False.
Proof. cbv. crush_iff. Qed.

Lemma res_raise_if_ok c k msg u :
  (raise_if c k msg : res unit) = Ok u ↔ c = false.
Proof. destruct c, u; cbv; crush_iff. Qed.

Lemma res_require_ok (o : option A) k msg a :
  (require o k msg : res A) = Ok a ↔ o = Some a.
Proof. destruct o; cbv; crush_iff. Qed.

Lemma res_ret_ok (a b : A) : (mret a : res A) = Ok b ↔ b = a.
Proof. cbv. crush_iff. Qed.
End results.

(** [inv_ok H] decomposes the successful run [H] into the runs of its steps;
    [inv_oks] does it for every such hypothesis. *)
Ltac inv_ok H :=
  lazymatch type of H with
  | (_ ≫= _) _ = (Ok _, _) =>
      let a := fresh "v" in let s := fresh "s" in
      let H1 := fresh "H" in
      apply (proj1 (run_bind_ok _ _ _ _ _)) in H as (a & s & H1 & H); lazy beta iota zeta in H; inv_ok H1; inv_ok H
  | lift _ _ = (Ok _, _) =>
      let E := fresh "E" in
      apply (proj1 (run_lift_ok _ _ _ _)) in H as [H E]; try subst; inv_ok H
  | mret _ _ = (Ok _, _) =>
      let E := fresh "E" in
      apply (proj1 (run_ret_ok _ _ _ _)) in H as [H E]; try subst
  | (raise _ _) _ = (Ok _, _) => apply (proj1 (run_raise_ok _ _ _ _ _)) in H as []
  | (raise_if _ _ _) _ = (Ok _, _) =>
      let E := fresh "E" in apply (proj1 (run_raise_if_ok _ _ _ _ _ _)) in H as [H E]; try subst
  | (require _ _ _) _ = (Ok _, _) =>
      let E := fresh "E" in apply (proj1 (run_require_ok _ _ _ _ _ _)) in H as [H E]; try subst
  | getS _ = (Ok _, _) =>
      let E := fresh "E" in apply (proj1 (run_get_ok _ _ _)) in H as [H E]; try subst
  | putS _ _ = (Ok _, _) => apply (proj1 (run_put_ok _ _ _ _)) in H; try subst
  | modifyS _ _ = (Ok _, _) => apply (proj1 (run_modify_ok _ _ _ _)) in H; try subst
  | _ ≫= _ = Ok _ =>
      let a := fresh "v" in let H1 := fresh "H" in
      apply (proj1 (res_bind_ok _ _ _)) in H as (a & H1 & H); lazy beta iota zeta in H; inv_ok H1; inv_ok H
  | raise _ _ = Ok _ => apply (proj1 (res_raise_ok _ _ _)) in H as []
  | raise_if _ _ _ = Ok _ => apply (proj1 (res_raise_if_ok _ _ _ _)) in H
  | require _ _ _ = Ok _ => apply (proj1 (res_require_ok _ _ _ _)) in H
  | mret _ = Ok _ => apply (proj1 (res_ret_ok _ _)) in H; try subst
  | (Ok _, _) = (Ok _, _) => injection H as ? ?; try subst
  | Ok _ = Ok _ => injection H as ?; try subst
  | (Err _, _) = (Ok _, _) => discriminate H
  | Err _ = Ok _ => discriminate H
  | _ => idtac
  end.

(** A run that failed did so in one of its steps. *)
Lemma run_bind_err_inv {S A B} (m : M S A) (f : A → M S B) s e s' :
  (m ≫= f) s = (Err e, s') →
  m s = (Err e, s') ∨ ∃ a s1, m s = (Ok a, s1) ∧ f a s1 = (Err e, s').
Proof. unfold mbind, M_bind. destruct (m s) as [[a|x] s1]; naive_solver. Qed.

(** Steps whose outcome is known. *)
Lemma run_lift_bind {S A B} (r : res A) (f : A → M S B) a s :
  r = Ok a → (lift r ≫= f) s = f a s.
Proof. by intros ->. Qed.
Lemma run_guard_bind {S B} (c : bool) k msg (f : unit → M S B) s :
  c = false → (raise_if c k msg ≫= f) s = f tt s.
Proof. by intros ->. Qed.
Lemma run_get_bind {S B} (f : S → M S B) s : (getS ≫= f) s = f s s.
Proof. done. Qed.

(** Runs on a component. *)
Lemma zoom_run {S T A} (view : T → S) (set : S → T → T) (m : M S A) w x w' :
  zoom view set m w = (x, w') ↔ ∃ s, m (view w) = (x, s) ∧ w' = set s w.
Proof.
  unfold zoom. destruct (m (view w)) as [y s]. split.
  - intros [= <- <-]. eauto.
  - by intros (s' & [= <- <-] & ->).
Qed.

Lemma on_fst_run {S T A} (m : M S A) (u : S) (v : T) x u' :
  m u = (x, u') → on_fst m (u, v) = (x, (u', v)).
Proof. intros Hm. unfold on_fst, zoom. cbn. by rewrite Hm. Qed.

(** [err_keeps H] proves that the failed run [H] left the state alone, when
    every step of it before an assignment does. *)
Ltac err_leaf H :=
  solve [ unfold lift, raise_if, require, raise, raise_exn, M_raise, getS, putS, mret, M_ret in H;
          repeat case_match; simplify_eq/=; done ].
Ltac err_keeps H :=
  lazymatch type of H with
  | (_ ≫= _) _ = (Err _, _) =>
      let a := fresh "v" in let s := fresh "s" in let H1 := fresh "H" in
      apply run_bind_err_inv in H as [H|(a & s & H1 & H)];
      [err_leaf H | lazy beta iota zeta in H; inv_ok H1; err_keeps H]
  | _ => err_leaf H
  end.

(** A run that failed or succeeded: destruct every scrutinee of the goal. *)
Ltac run_cases :=
  repeat (case_match; simpl in *; simplify_eq/=).

(** Runs a computation symbolically: all its paths. *)
Ltac run_paths :=
  unfold mbind, M_bind, lift, getS, putS, modifyS, raise_if, require, raise, raise_exn,
    M_raise, mret, M_ret in *;
  repeat (case_match; simplify_eq/=; try done).

(** ** Boolean tests *)
Definition is_some_b {A} (o : option A) : bool :=
  match o with Some _ => true | None => false end.

Lemma is_some_b_spec {A} (o : option A) : is_some_b o = true ↔ is_Some o.
Proof. destruct o; simpl; split; [eauto|done|done|by intros []]. Qed.

Lemma is_some_b_false {A} (o : option A) : is_some_b o = false ↔ o = None.
Proof. by destruct o. Qed.

(** Boolean guards in the hypotheses become propositions. *)
Ltac guards :=
  repeat match goal with
  | H : negb _ = false |- _ => apply negb_false_iff in H
  | H : negb _ = true |- _ => apply negb_true_iff in H
  | H : _ || _ = false |- _ => apply orb_false_iff in H as [? ?]
  | H : _ && _ = true |- _ => apply andb_true_iff in H as [? ?]
  | H : is_some_b _ = false |- _ => apply is_some_b_false in H
  | H : is_some_b _ = true |- _ => apply is_some_b_spec in H
  | H : bool_decide _ = true |- _ => apply bool_decide_eq_true in H
  | H : bool_decide _ = false |- _ => apply bool_decide_eq_false in H
  | H : String.eqb _ _ = true |- _ => apply String.eqb_eq in H
  | H : String.eqb _ _ = false |- _ => apply String.eqb_neq in H
  | H : Z.leb _ _ = true |- _ => apply Z.leb_le in H
  | H : Z.leb _ _ = false |- _ => apply Z.leb_gt in H
  | H : Z.ltb _ _ = true |- _ => apply Z.ltb_lt in H
  | H : Z.ltb _ _ = false |- _ => apply Z.ltb_ge in H
  | H : Z.eqb _ _ = true |- _ => apply Z.eqb_eq in H
  | H : Z.eqb _ _ = false |- _ => apply Z.eqb_neq in H
  end.

(** Turns boolean hypotheses and goals into propositions. *)
Ltac bool_solve :=
  rewrite ?andb_true_iff, ?orb_true_iff, ?negb_true_iff, ?andb_false_iff,
    ?orb_false_iff, ?negb_false_iff, ?bool_decide_eq_true, ?bool_decide_eq_false,
    ?Z.leb_le, ?Z.leb_gt, ?Z.ltb_lt, ?Z.ltb_ge, ?Z.eqb_eq, ?Z.eqb_neq,
    ?String.eqb_eq, ?String.eqb_neq in *.

Create HintDb railone.
#[export] Hint Rewrite @bool_decide_eq_true @bool_decide_eq_false
  @andb_true_iff @orb_true_iff @negb_true_iff @negb_false_iff
  Z.leb_le Z.leb_gt Z.ltb_lt Z.ltb_ge Z.eqb_eq Z.eqb_neq
  String.eqb_eq String.eqb_neq : railone.
