(* ===== verification/PyBase.v ===== *)
(** Python's text, decimal, clock and sorting primitives as the modelled code
    uses them.  A [str] is the [string] of its UTF-8 encoding (a lone surrogate
    stands as the three bytes of its code point): equality, concatenation and
    ordering are exact for every text;
    [strip], [upper], [len] and slices act on bytes, which is exact for ASCII
    text (other characters are left alone). *)

From Stdlib Require Import Ascii String DecimalString DecimalZ DecimalFacts.
From S2P Require Import Prelude.

(** ** Characters *)
Definition code (c : ascii) : Z := Z.of_N (N_of_ascii c).
Definition chr (n : Z) : ascii := ascii_of_N (Z.to_N n).

(** [str.isspace] on one character: TAB..CR, FS..US and the space. *)
Definition is_space (c : ascii) : bool :=
  (9 <=? code c) && (code c <=? 13) || (28 <=? code c) && (code c <=? 32).
Definition is_digit (c : ascii) : bool := (48 <=? code c) && (code c <=? 57).
Definition is_lower (c : ascii) : bool := (97 <=? code c) && (code c <=? 122).
Definition is_upper (c : ascii) : bool := (65 <=? code c) && (code c <=? 90).

Definition upper_char (c : ascii) : ascii :=
  if is_lower c then chr (code c - 32) else c.
Definition lower_char (c : ascii) : ascii :=
  if is_upper c then chr (code c + 32) else c.

(** ** [str] methods *)
Fixpoint str_map (f : ascii → ascii) (s : string) : string :=
  match s with
  | EmptyString => EmptyString
  | String c s' => String (f c) (str_map f s')
  end.
Definition upper : string → string := str_map upper_char.
Definition lower : string → string := str_map lower_char.

Fixpoint str_forall (p : ascii → bool) (s : string) : bool :=
  match s with
  | EmptyString => true
  | String c s' => p c && str_forall p s'
  end.

Fixpoint lstrip (s : string) : string :=
  match s with
  | String c s' => if is_space c then lstrip s' else s
  | EmptyString => EmptyString
  end.
Fixpoint rstrip (s : string) : string :=
  match s with
  | EmptyString => EmptyString
  | String c s' =>
      match rstrip s' with
      | EmptyString => if is_space c then EmptyString else String c EmptyString
      | t => String c t
      end
  end.
Definition strip (s : string) : string := rstrip (lstrip s).

(** [s[:n]] *)
Definition str_take (n : nat) (s : string) : string := substring 0 n s.
Definition len (s : string) : Z := Z.of_nat (String.length s).
Definition startswith (s p : string) : bool := String.prefix p s.
(** [not s] *)
Definition str_empty (s : string) : bool :=
  match s with EmptyString => true | _ => false end.
Definition blank (s : string) : bool := str_empty (strip s).
(** [s.isdigit()] *)
Definition isdigit (s : string) : bool :=
  negb (str_empty s) && str_forall is_digit s.

(** [str(n)] *)
Definition str_int (z : Z) : string := NilZero.string_of_int (Z.to_int z).

(** ** Facts about characters: finitely many cases *)
Lemma ascii_forall (P : ascii → Prop) `{∀ c, Decision (P c)} :
  forallb (λ n, bool_decide (P (ascii_of_nat n))) (seq 0 256) = true →
  ∀ c, P c.
Proof.
  intros Hall c. rewrite <- (ascii_nat_embedding c).
  rewrite forallb_forall in Hall.
  specialize (Hall (nat_of_ascii c)). rewrite bool_decide_eq_true in Hall.
  apply Hall. apply in_seq. pose proof (nat_ascii_bounded c). lia.
Qed.

Ltac ascii_cases := apply ascii_forall; [intros; apply _ | vm_compute; reflexivity].

Lemma upper_char_space c : is_space (upper_char c) = is_space c.
Proof. revert c. apply (ascii_forall (λ c, is_space (upper_char c) = is_space c)). reflexivity. Qed.
Lemma upper_char_idemp c : upper_char (upper_char c) = upper_char c.
Proof. revert c. apply (ascii_forall (λ c, upper_char (upper_char c) = upper_char c)). reflexivity. Qed.

(** ** Facts about the string methods *)
Lemma str_map_idemp f s :
  (∀ c, f (f c) = f c) → str_map f (str_map f s) = str_map f s.
Proof. intros Hf. induction s; simpl; congruence. Qed.

Lemma upper_idemp s : upper (upper s) = upper s.
Proof. apply str_map_idemp, upper_char_idemp. Qed.

Lemma lstrip_upper s : lstrip (upper s) = upper (lstrip s).
Proof.
  induction s as [|c s IH]; [done|]. unfold upper in *. simpl.
  rewrite upper_char_space. by destruct (is_space c).
Qed.

Lemma rstrip_upper s : rstrip (upper s) = upper (rstrip s).
Proof.
  induction s as [|c s IH]; [done|]. unfold upper in *. simpl. rewrite IH.
  destruct (rstrip s); simpl; [|done].
  rewrite upper_char_space. by destruct (is_space c).
Qed.

Lemma strip_upper s : strip (upper s) = upper (strip s).
Proof. unfold strip. by rewrite lstrip_upper, rstrip_upper. Qed.

Lemma lstrip_idemp s : lstrip (lstrip s) = lstrip s.
Proof.
  induction s as [|c s IH]; simpl; [done|].
  destruct (is_space c) eqn:E; simpl; [done|]. by rewrite E.
Qed.

Lemma rstrip_idemp s : rstrip (rstrip s) = rstrip s.
Proof.
  induction s as [|c s IH]; simpl; [done|].
  destruct (rstrip s) as [|d t] eqn:E.
  - destruct (is_space c) eqn:Ec; simpl; [done|]. by rewrite Ec.
  - simpl in IH |- *. by rewrite IH.
Qed.

Lemma lstrip_head s :
  lstrip s = s ↔ match s with String c _ => is_space c = false | _ => True end.
Proof.
  destruct s as [|c s]; simpl; [done|].
  destruct (is_space c) eqn:E; [|done]. split; [|done]. intros Hs.
  assert (String.length (lstrip s) <= String.length s)%nat as Hl.
  { clear. induction s as [|c s IH]; simpl; [done|].
    destruct (is_space c); simpl; lia. }
  rewrite Hs in Hl. simpl in Hl. lia.
Qed.

Lemma rstrip_head c s t :
  rstrip (String c s) = t → t ≠ EmptyString → ∃ t', t = String c t'.
Proof.
  simpl. intros <- Hne. destruct (rstrip s); [|by eexists].
  destruct (is_space c); [done | by eexists].
Qed.

Lemma strip_idemp s : strip (strip s) = strip s.
Proof.
  unfold strip. remember (lstrip s) as u eqn:Hu.
  assert (lstrip u = u) as Hh by (subst; apply lstrip_idemp).
  destruct u as [|c u]; [done|]. apply lstrip_head in Hh.
  destruct (rstrip (String c u)) as [|d v] eqn:E; [done|].
  destruct (rstrip_head c u _ E) as [t' [= -> ->]]; [done|].
  assert (lstrip (String c t') = String c t') as -> by (by apply lstrip_head).
  rewrite <- E. apply rstrip_idemp.
Qed.

(** ** [require_text]: non-blank text, stripped *)
Definition require_text (name value : string) : res string :=
  if blank value then raise ValueError (name +:+ " is required")
  else mret (strip value).

Lemma require_text_ok name value t :
  require_text name value = Ok t ↔ t = strip value ∧ t ≠ EmptyString.
Proof.
  unfold require_text, blank.
  destruct (strip value) as [|c u]; cbv [str_empty].
  - rewrite res_raise_ok. naive_solver.
  - rewrite res_ret_ok. naive_solver.
Qed.

(** ** [str(n)] is injective *)
Lemma to_int_not_nil z :
  Z.to_int z ≠ Decimal.Pos Decimal.Nil ∧ Z.to_int z ≠ Decimal.Neg Decimal.Nil.
Proof.
  destruct z as [|p|p]; simpl; split; try done; intros [= Hp];
    by apply (DecimalPos.Unsigned.to_uint_nonnil p).
Qed.

Lemma int_of_str_int z : NilZero.int_of_string (str_int z) = Some (Z.to_int z).
Proof.
  unfold str_int. destruct (to_int_not_nil z). by rewrite NilZero.isi.
Qed.

Lemma str_int_inj z z' : str_int z = str_int z' → z = z'.
Proof.
  intros Heq. apply (f_equal NilZero.int_of_string) in Heq.
  rewrite !int_of_str_int in Heq. injection Heq as Heq.
  rewrite <- (DecimalZ.of_to z), <- (DecimalZ.of_to z'). by f_equal.
Qed.

(** ** Instants

    An aware [datetime] is its instant in microseconds since the epoch (UTC);
    [astimezone(timezone.utc)] keeps it.  A naive one has no instant. *)
Abbreviation instant := Z.
Inductive datetime := Aware (us : instant) | Naive (us : Z).

#[global] Instance datetime_eq_dec : EqDecision datetime.
Proof. solve_decision. Defined.

(** [at or datetime.now(timezone.utc)] *)
Definition or_now (at_ : option datetime) (now : instant) : datetime :=
  default (Aware now) at_.

(** [if value.tzinfo is None: raise ValueError]; then [.astimezone(utc)]. *)
Definition aware (msg : string) (value : datetime) : res instant :=
  match value with
  | Aware us => mret us
  | Naive _ => raise ValueError msg
  end.

Definition seconds (n : Z) : Z := n * 1000000.

(** [int(t.timestamp())]: truncation toward zero (the float quotient is exact
    enough not to cross a second for instants before year 2242). *)
Definition epoch (t : instant) : Z := Z.quot t 1000000.

(** [datetime.fromtimestamp(n, tz=timezone.utc)] *)
Definition fromtimestamp (n : Z) : res instant :=
  if (-9223372036854775808 <=? n) && (n <=? 9223372036854775807) then
    if (-67768040609740800 <=? n) && (n <=? 67768036191676799) then
      if (-62135596800 <=? n) && (n <=? 253402300799) then mret (seconds n)
      else raise ValueError "year is out of range"
    else raise OSError "Value too large for defined data type"
  else raise OverflowError "timestamp out of range for platform time_t".

Lemma epoch_seconds n : epoch (seconds n) = n.
Proof. unfold epoch, seconds. by rewrite Z.quot_mul. Qed.

Lemma epoch_mono t u : 0 <= t → t <= u → epoch t <= epoch u.
Proof. intros. unfold epoch. apply Z.quot_le_mono; lia. Qed.

Lemma epoch_le t : 0 <= t → seconds (epoch t) <= t.
Proof.
  intros. unfold epoch, seconds.
  rewrite Z.quot_div_nonneg by lia. pose proof (Z.mul_div_le t 1000000). lia.
Qed.

Lemma fromtimestamp_ok n t :
  fromtimestamp n = Ok t ↔ t = seconds n ∧ -62135596800 <= n <= 253402300799.
Proof.
  unfold fromtimestamp.
  repeat match goal with |- context [if ?b then _ else _] =>
    destruct b eqn:? end;
    rewrite ?res_ret_ok, ?res_raise_ok; lia.
Qed.

(** ** Sorting: [sorted(l, key=...)] for keys that are pairwise different *)
Definition str_le : string → string → Prop := String.le.

(** Lexicographic order on two-component keys. *)
Definition lex_le {A} (le1 : A → A → Prop) `{EqDecision A}
    (p q : A * string) : Prop :=
  if decide (p.1 = q.1) then str_le p.2 q.2 else le1 p.1 q.1.

#[global] Instance lex_le_dec {A} (le1 : A → A → Prop) `{EqDecision A}
  `{!RelDecision le1} : RelDecision (lex_le le1).
Proof. intros p q. unfold lex_le. case_decide; apply _. Defined.

#[global] Instance lex_le_total {A} (le1 : A → A → Prop) `{EqDecision A}
  `{!Total le1} : Total (lex_le le1).
Proof.
  intros [a s] [b t]. unfold lex_le; simpl.
  destruct (decide (a = b)) as [->|Hne].
  - rewrite decide_True by done. apply (total str_le).
  - rewrite decide_False by done. apply (total le1).
Qed.

#[global] Instance lex_le_trans {A} (le1 : A → A → Prop) `{EqDecision A}
  `{!Transitive le1, !AntiSymm (=) le1} : Transitive (lex_le le1).
Proof.
  intros [a s] [b t] [c u]. unfold lex_le; simpl.
  repeat case_decide; subst; intros; try done.
  - by etrans.
  - exfalso. apply H0. by apply (anti_symm le1).
  - by etrans.
Qed.

#[global] Instance lex_le_antisymm {A} (le1 : A → A → Prop) `{EqDecision A}
  `{!AntiSymm (=) le1} : AntiSymm (=) (lex_le le1).
Proof.
  intros [a s] [b t]. unfold lex_le; simpl.
  destruct (decide (a = b)) as [->|Hne].
  - rewrite decide_True by done. intros H1 H2. f_equal. by apply (anti_symm str_le).
  - rewrite decide_False by done. intros H1 H2. by destruct Hne; apply (anti_symm le1).
Qed.

(** The relation that a [key=] function induces. *)
Definition on_key {A B} (f : A → B) (R : B → B → Prop) (x y : A) : Prop :=
  R (f x) (f y).
#[global] Instance on_key_dec {A B} (f : A → B) R `{!RelDecision R} :
  RelDecision (on_key f R).
Proof. intros x y. unfold on_key. apply _. Defined.
#[global] Instance on_key_total {A B} (f : A → B) R `{!Total R} :
  Total (on_key f R).
Proof. intros x y. apply (total R). Qed.
#[global] Instance on_key_trans {A B} (f : A → B) R `{!Transitive R} :
  Transitive (on_key f R).
Proof. intros x y z. unfold on_key. apply transitivity. Qed.

(** [sorted] is stable: an element goes before the first one that it may
    precede. *)
Fixpoint insert_sorted {A} (R : A → A → Prop) `{!RelDecision R} (x : A)
    (l : list A) : list A :=
  match l with
  | [] => [x]
  | y :: l' => if decide (R x y) then x :: l else y :: insert_sorted R x l'
  end.
Definition py_sorted {A} (R : A → A → Prop) `{!RelDecision R} (l : list A)
    : list A := foldr (insert_sorted R) [] l.
Definition sort_on {A B} (f : A → B) (R : B → B → Prop) `{!RelDecision R}
  (l : list A) : list A := py_sorted (on_key f R) l.

Section py_sorted.
Context {A : Type} (R : A → A → Prop) `{!RelDecision R}.

Lemma insert_sorted_perm x l : insert_sorted R x l ≡ₚ x :: l.
Proof.
  induction l as [|y l IH]; simpl; [done|].
  case_decide; [done|]. rewrite IH. by apply perm_swap.
Qed.

Lemma py_sorted_perm l : py_sorted R l ≡ₚ l.
Proof.
  induction l as [|x l IH]; simpl; [done|].
  by rewrite insert_sorted_perm, IH.
Qed.

Lemma insert_sorted_sorted `{!Total R, !Transitive R} x l :
  StronglySorted R l → StronglySorted R (insert_sorted R x l).
Proof.
  induction l as [|y l IH]; simpl; [by repeat constructor|].
  intros [Hs Hy]%StronglySorted_inv. case_decide as Hxy.
  - constructor; [by constructor|]. constructor; [done|].
    eapply Forall_impl; [done|]. intros z Hz. by etrans.
  - constructor; [by apply IH|].
    rewrite insert_sorted_perm. constructor; [|done].
    by destruct (total R x y).
Qed.

Lemma py_sorted_sorted `{!Total R, !Transitive R} l :
  StronglySorted R (py_sorted R l).
Proof.
  induction l; simpl; [constructor|]. by apply insert_sorted_sorted.
Qed.
End py_sorted.

Lemma StronglySorted_lookup {A} (R : A → A → Prop) l i j x y :
  StronglySorted R l → (i < j)%nat → l !! i = Some x → l !! j = Some y → R x y.
Proof.
  intros Hs. revert i j. induction Hs as [|z l _ IH Hz]; intros i j Hij Hx Hy; [done|].
  destruct j as [|j]; [lia|]. destruct i as [|i]; simplify_eq/=.
  - rewrite Forall_forall in Hz. by apply Hz, list_elem_of_lookup_2 with j.
  - apply (IH i j); [lia|done|done].
Qed.

Lemma insert_sorted_fmap {A B} (R : A → A → Prop) `{!RelDecision R}
    (Q : B → B → Prop) `{!RelDecision Q} (g : A → B) x l :
  (∀ a b, Q (g a) (g b) ↔ R a b) →
  insert_sorted Q (g x) (g <$> l) = g <$> insert_sorted R x l.
Proof.
  intros Hg. induction l as [|y l IH]; simpl; [done|].
  destruct (decide (R x y)) as [HR|HR].
  - rewrite decide_True by (by apply Hg). done.
  - rewrite decide_False by (by rewrite Hg). simpl. f_equal. exact IH.
Qed.

Lemma py_sorted_fmap {A B} (R : A → A → Prop) `{!RelDecision R}
    (Q : B → B → Prop) `{!RelDecision Q} (g : A → B) l :
  (∀ a b, Q (g a) (g b) ↔ R a b) →
  py_sorted Q (g <$> l) = g <$> py_sorted R l.
Proof.
  intros Hg. induction l as [|x l IH]; simpl; [done|].
  etrans; [|by apply (insert_sorted_fmap R Q g)]. f_equal. exact IH.
Qed.

Section sort_on.
Context {A B : Type} (f : A → B) (R : B → B → Prop) `{!RelDecision R}.

Lemma sort_on_perm l : sort_on f R l ≡ₚ l.
Proof. apply py_sorted_perm. Qed.

Lemma sort_on_length l : length (sort_on f R l) = length l.
Proof. by rewrite sort_on_perm. Qed.

Lemma elem_of_sort_on x l : x ∈ sort_on f R l ↔ x ∈ l.
Proof. by rewrite sort_on_perm. Qed.

Lemma sort_on_sorted `{!Total R, !Transitive R} l :
  StronglySorted (on_key f R) (sort_on f R l).
Proof. apply (py_sorted_sorted (on_key f R)). Qed.

(** Sorting on pairwise different keys does not depend on the input order. *)
Lemma sort_on_unique `{!Total R, !Transitive R, !AntiSymm (=) R} l l' :
  NoDup (f <$> l) → l ≡ₚ l' → sort_on f R l = sort_on f R l'.
Proof.
  intros Hnd Hp.
  apply (StronglySorted_unique_strong (on_key f R));
    [|apply sort_on_sorted..|by rewrite !sort_on_perm].
  intros x y Hx Hy Hxy Hyx. rewrite elem_of_sort_on in Hx, Hy.
  assert (f x = f y) as Hf by by apply (anti_symm R).
  rewrite <- Hp in Hy.
  apply list_elem_of_lookup in Hx as [i Hi].
  apply list_elem_of_lookup in Hy as [j Hj].
  assert (i = j) as <-; [|congruence].
  eapply (NoDup_lookup _ i j (f x)); [done|..];
    rewrite list_lookup_fmap; [by rewrite Hi|rewrite Hj; simpl; congruence].
Qed.
End sort_on.

Lemma sort_on_fmap {A B C} (f : A → C) (h : B → C) (R : C → C → Prop)
    `{!RelDecision R} (g : A → B) l :
  (∀ a, h (g a) = f a) → sort_on h R (g <$> l) = g <$> sort_on f R l.
Proof.
  intros Hg. apply py_sorted_fmap. intros a b. unfold on_key. by rewrite !Hg.
Qed.

(** ** String concatenation *)
Lemma str_app_assoc (s t u : string) : (s +:+ t) +:+ u = s +:+ (t +:+ u).
Proof.
  induction s as [|c s IH]; [done|].
  change (String c ((s +:+ t) +:+ u) = String c (s +:+ (t +:+ u))). by rewrite IH.
Qed.
Lemma str_app_nil_r (s : string) : s +:+ EmptyString = s.
Proof.
  induction s as [|c s IH]; [done|].
  change (String c (s +:+ EmptyString) = String c s). by rewrite IH.
Qed.
Lemma str_app_cons c (s t : string) : String c s +:+ t = String c (s +:+ t).
Proof. done. Qed.
Lemma str_app_nil_l (s : string) : EmptyString +:+ s = s.
Proof. done. Qed.
Lemma str_app_inv_l (s t u : string) : s +:+ t = s +:+ u → t = u.
Proof. apply (inj (String.app s)). Qed.

(** [t + timedelta(seconds=n)]: a [datetime] ends with year 9999. *)
Definition plus_seconds (t : instant) (n : Z) : res instant :=
  let u := t + seconds n in
  _ ← raise_if (negb ((seconds (-62135596800) <=? u) && (u <? seconds 253402300800)))
        OverflowError "date value out of range";
  mret u.

Lemma plus_seconds_ok t n u :
  plus_seconds t n = Ok u ↔
  u = t + seconds n ∧ seconds (-62135596800) <= u < seconds 253402300800.
Proof.
  unfold plus_seconds. rewrite res_bind_ok. setoid_rewrite res_raise_if_ok.
  setoid_rewrite res_ret_ok. split.
  - intros (a & Hc & ->). guards. auto.
  - intros [-> Hr]. exists tt. split; [|done]. lia.
Qed.
