(* ===== verification/PyDict.v ===== *)
(** Python's [dict] where its iteration order is observable: an association
    list in insertion order.  Assigning to a present key keeps its position;
    a new key goes last. *)

From S2P Require Import Prelude.

Definition dict (K V : Type) : Type := list (K * V).

Section dict.
Context {K V : Type} `{EqDecision K}.
Implicit Types (d : dict K V) (k : K) (v : V).

(** [d.get(k)] *)
Fixpoint dget d k : option V :=
  match d with
  | [] => None
  | (k', v) :: d' => if decide (k' = k) then Some v else dget d' k
  end.

(** [d[k] = v] *)
Fixpoint dset d k v : dict K V :=
  match d with
  | [] => [(k, v)]
  | (k', v') :: d' => if decide (k' = k) then (k', v) :: d' else (k', v') :: dset d' k v
  end.

(** [d.values()] *)
Definition dvalues d : list V := d.*2.

(** [k in d] *)
Definition dmem d k : bool := is_some_b (dget d k).

Definition dict_wf d : Prop := NoDup d.*1.

Lemma dget_dset d k v j :
  dget (dset d k v) j = if decide (k = j) then Some v else dget d j.
Proof.
  induction d as [|[k' v'] d IH]; simpl; [done|].
  destruct (decide (k' = k)) as [->|Hne]; simpl; [by case_decide|].
  rewrite IH. repeat case_decide; congruence.
Qed.

Lemma dget_dset_eq d k v : dget (dset d k v) k = Some v.
Proof. rewrite dget_dset. by case_decide. Qed.
Lemma dget_dset_ne d k v j : k ≠ j → dget (dset d k v) j = dget d j.
Proof. intros. rewrite dget_dset. by case_decide. Qed.

Lemma dget_dset_Some d k v j w :
  dget (dset d k v) j = Some w ↔ (k = j ∧ v = w) ∨ (k ≠ j ∧ dget d j = Some w).
Proof. rewrite dget_dset. case_decide; naive_solver. Qed.

Lemma dkeys_dset d k v :
  (dset d k v).*1 = if decide (k ∈ d.*1) then d.*1 else d.*1 ++ [k].
Proof.
  induction d as [|[k' v'] d IH]; cbn [dset fmap list_fmap fst]; [done|].
  destruct (decide (k' = k)) as [->|Hne]; cbn [fmap list_fmap fst].
  - by rewrite decide_True by constructor.
  - change (list_fmap _ _ fst (dset d k v)) with ((dset d k v).*1). rewrite IH.
    destruct (decide (k ∈ d.*1)).
    + by rewrite decide_True by by constructor.
    + rewrite decide_False; [done|]. rewrite elem_of_cons. naive_solver.
Qed.

Lemma dict_wf_empty : dict_wf [].
Proof. constructor. Qed.

Lemma dict_wf_dset d k v : dict_wf d → dict_wf (dset d k v).
Proof.
  unfold dict_wf. rewrite dkeys_dset. intros Hd. case_decide; [done|].
  apply NoDup_app. repeat split; [done| |repeat constructor; set_solver].
  intros x Hx ->%list_elem_of_singleton. done.
Qed.

Lemma dget_elem d k v : dget d k = Some v → (k, v) ∈ d.
Proof.
  induction d as [|[k' v'] d IH]; simpl; [done|].
  case_decide; [intros [= ->]; subst; constructor|]. intros. constructor. by apply IH.
Qed.

Lemma elem_dget d k v : dict_wf d → (k, v) ∈ d → dget d k = Some v.
Proof.
  unfold dict_wf. induction d as [|[k' v'] d IH]; simpl; [set_solver|].
  intros [Hk Hd]%NoDup_cons [Hin|Hin]%elem_of_cons.
  - injection Hin as -> ->. by rewrite decide_True.
  - rewrite decide_False; [by apply IH|]. intros ->. apply Hk.
    apply list_elem_of_fmap. by exists (k, v).
Qed.

(** The values of a dict, by key. *)
Lemma elem_of_dvalues d v :
  dict_wf d → v ∈ dvalues d ↔ ∃ k, dget d k = Some v.
Proof.
  intros Hd. unfold dvalues. rewrite list_elem_of_fmap. split.
  - intros ([k w] & -> & Hin). exists k. by apply elem_dget.
  - intros [k Hk]. exists (k, v). split; [done|]. by apply dget_elem.
Qed.

(** What an assignment does to the values: appended when the key is new,
    replaced in place otherwise. *)
Lemma dset_new d k v : dget d k = None → dset d k v = d ++ [(k, v)].
Proof.
  induction d as [|[k' v'] d IH]; simpl; [done|].
  case_decide; [done|]. intros Hn. by rewrite IH.
Qed.

Lemma dset_replace d k v v0 :
  dget d k = Some v0 → ∃ l1 l2, d = l1 ++ (k, v0) :: l2 ∧ dset d k v = l1 ++ (k, v) :: l2.
Proof.
  induction d as [|[k' v'] d IH]; simpl; [done|].
  case_decide as Hk.
  - intros [= ->]. subst. by exists [], d.
  - intros (l1 & l2 & -> & ->)%IH. by exists ((k', v') :: l1), l2.
Qed.
End dict.

#[export] Hint Resolve dict_wf_empty dict_wf_dset : railone.
