(* ===== verification/Bytes.v ===== *)
(** Bytes, hexadecimal text and URL-safe base64: what the code takes from
    Python's [bytes.hex], [base64] and [binascii]. *)

From Stdlib Require Import Ascii String Strings.Byte.
From S2P Require Import Prelude.
From S2P Require Import PyBase.

Abbreviation bytes := (list Byte.byte).

#[global] Instance byte_eq_dec : EqDecision Byte.byte := Byte.byte_eq_dec.

Ltac div_lia := Z.to_euclidean_division_equations; lia.

(** [s.encode("utf-8")], when no character of [s] is a lone surrogate. *)
Definition encode_utf8 (s : string) : bytes := list_byte_of_string s.

Definition bz (b : Byte.byte) : Z := Z.of_N (Byte.to_N b).
Definition byte_of (z : Z) : Byte.byte :=
  default Byte.x00 (Byte.of_N (Z.to_N (z mod 256))).

Lemma bz_range b : 0 <= bz b < 256.
Proof. unfold bz. pose proof (Byte.to_N_bounded b). lia. Qed.

Lemma byte_of_bz b : byte_of (bz b) = b.
Proof.
  unfold byte_of. rewrite Z.mod_small by apply bz_range.
  unfold bz. rewrite N2Z.id. by rewrite Byte.of_to_N.
Qed.

(** A lone surrogate is kept as its three bytes ED A0..BF xx, which no
    well-formed UTF-8 text contains: the codec refuses it. *)
Fixpoint has_surrogate (s : string) : bool :=
  match s with
  | String a ((String b _) as s') =>
      (code a =? 237) && (160 <=? code b) && (code b <=? 191) || has_surrogate s'
  | _ => false
  end.
Definition utf8_encode (s : string) : res bytes :=
  _ ← raise_if (has_surrogate s) UnicodeEncodeError "surrogates not allowed";
  mret (encode_utf8 s).

Lemma utf8_encode_ok s b : utf8_encode s = Ok b ↔ has_surrogate s = false ∧ b = encode_utf8 s.
Proof.
  unfold utf8_encode. rewrite res_bind_ok. split.
  - intros ([] & Hc & Hb). inv_ok Hc. by inv_ok Hb.
  - intros [-> ->]. by exists tt.
Qed.

Lemma encode_utf8_inj s t : encode_utf8 s = encode_utf8 t → s = t.
Proof.
  intros Heq. rewrite <- (string_of_list_byte_of_string s).
  rewrite <- (string_of_list_byte_of_string t). by f_equal.
Qed.

(** ** Hexadecimal *)
Definition hex_char (n : Z) : ascii := chr (if n <? 10 then 48 + n else 87 + n).
Fixpoint hex (l : bytes) : string :=
  match l with
  | [] => EmptyString
  | b :: l' => String (hex_char (bz b / 16)) (String (hex_char (bz b mod 16)) (hex l'))
  end.

Lemma hex_length l : String.length (hex l) = (2 * length l)%nat.
Proof. induction l; simpl; lia. Qed.

Definition hex_pair (b : Byte.byte) : ascii * ascii :=
  (hex_char (bz b / 16), hex_char (bz b mod 16)).

Lemma hex_char_inj_check :
  forallb (λ n, forallb (λ m, negb (Ascii.eqb (hex_char (Z.of_nat n)) (hex_char (Z.of_nat m)))
    || (n =? m)%nat) (seq 0 16)) (seq 0 16) = true.
Proof. reflexivity. Qed.

Lemma hex_char_inj n m :
  0 <= n < 16 → 0 <= m < 16 → hex_char n = hex_char m → n = m.
Proof.
  intros Hn Hm Heq. pose proof hex_char_inj_check as Hall.
  rewrite forallb_forall in Hall. specialize (Hall (Z.to_nat n)).
  rewrite forallb_forall in Hall. specialize (Hall ltac:(apply in_seq; lia) (Z.to_nat m)
    ltac:(apply in_seq; lia)).
  rewrite !Z2Nat.id in Hall by lia.
  rewrite Heq, Ascii.eqb_refl in Hall. simpl in Hall.
  apply Nat.eqb_eq in Hall. lia.
Qed.

Lemma hex_inj l l' : hex l = hex l' → l = l'.
Proof.
  revert l'. induction l as [|b l IH]; intros [|b' l']; cbn [hex]; try done.
  intros [= H1 H2 Hl]. f_equal; [|by apply IH].
  pose proof (bz_range b). pose proof (bz_range b').
  apply hex_char_inj in H1; [|div_lia..]. apply hex_char_inj in H2; [|div_lia..].
  rewrite <- (byte_of_bz b), <- (byte_of_bz b'). f_equal. div_lia.
Qed.

(** ** base64 *)
Definition b64_char (v : Z) : ascii :=
  if v <? 26 then chr (65 + v)
  else if v <? 52 then chr (71 + v)
  else if v <? 62 then chr (v - 4)
  else if v =? 62 then "-"%char else "_"%char.

(** The decoding table, after [-_] has been translated to [+/]. *)
Definition b64_value (c : ascii) : option Z :=
  let n := code c in
  if is_upper c then Some (n - 65)
  else if is_lower c then Some (n - 71)
  else if is_digit c then Some (n + 4)
  else if Ascii.eqb c "-" || Ascii.eqb c "+" then Some 62
  else if Ascii.eqb c "_" || Ascii.eqb c "/" then Some 63
  else None.

Definition b64_pad : ascii := "="%char.

(** [base64.urlsafe_b64encode]: three bytes to four characters. *)
Fixpoint urlsafe_b64encode (l : bytes) : string :=
  match l with
  | [] => EmptyString
  | [a] =>
      String (b64_char (bz a / 4)) (String (b64_char (bz a mod 4 * 16))
        (String b64_pad (String b64_pad EmptyString)))
  | [a; b] =>
      String (b64_char (bz a / 4)) (String (b64_char (bz a mod 4 * 16 + bz b / 16))
        (String (b64_char (bz b mod 16 * 4)) (String b64_pad EmptyString)))
  | a :: b :: c :: l' =>
      String (b64_char (bz a / 4)) (String (b64_char (bz a mod 4 * 16 + bz b / 16))
        (String (b64_char (bz b mod 16 * 4 + bz c / 64))
          (String (b64_char (bz c mod 64)) (urlsafe_b64encode l'))))
  end.

(** [binascii.a2b_base64] in its default non-strict mode: characters outside
    the alphabet are skipped, a complete pad sequence ends the input. *)
Fixpoint a2b_base64 (s : string) (quad_pos : nat) (leftchar : Z) (pads : nat)
    : res bytes :=
  match s with
  | EmptyString =>
      if (quad_pos =? 0)%nat then mret []
      else raise BinasciiError "Incorrect padding"
  | String c s' =>
      if Ascii.eqb c b64_pad then
        if (2 <=? quad_pos)%nat && (4 <=? quad_pos + S pads)%nat then mret []
        else a2b_base64 s' quad_pos leftchar
               (if (2 <=? quad_pos)%nat then S pads else pads)
      else
        match b64_value c with
        | None => a2b_base64 s' quad_pos leftchar pads
        | Some v =>
            match quad_pos with
            | 0%nat => a2b_base64 s' 1 v 0
            | 1%nat => l ← a2b_base64 s' 2 (v mod 16) 0;
                       mret (byte_of (leftchar * 4 + v / 16) :: l)
            | 2%nat => l ← a2b_base64 s' 3 (v mod 4) 0;
                       mret (byte_of (leftchar * 16 + v / 4) :: l)
            | _ => l ← a2b_base64 s' 0 0 0;
                   mret (byte_of (leftchar * 64 + v) :: l)
            end
        end
  end.

(** [base64.urlsafe_b64decode] of a [str]. *)
Definition urlsafe_b64decode (s : string) : res bytes :=
  if str_forall (λ c, code c <? 128) s then a2b_base64 s 0 0 0
  else raise ValueError "string argument should contain only ASCII characters".

(** [.rstrip(b"=")] *)
Fixpoint rstrip_pad (s : string) : string :=
  match s with
  | EmptyString => EmptyString
  | String c s' =>
      match rstrip_pad s' with
      | EmptyString => if Ascii.eqb c b64_pad then EmptyString
                       else String c EmptyString
      | t => String c t
      end
  end.

(** The padding that the decoders restore: four minus the length mod 4. *)
Fixpoint pad_text (n : nat) : string :=
  match n with O => EmptyString | S n' => String b64_pad (pad_text n') end.
Definition b64_repad (s : string) : string :=
  s +:+ pad_text (Z.to_nat ((- len s) mod 4)).

(** *** Round trip *)
Lemma b64_char_check :
  forallb (λ n, bool_decide (b64_value (b64_char (Z.of_nat n)) = Some (Z.of_nat n))
    && negb (Ascii.eqb (b64_char (Z.of_nat n)) b64_pad)
    && (code (b64_char (Z.of_nat n)) <? 128)) (seq 0 64) = true.
Proof. vm_compute. reflexivity. Qed.

Lemma b64_char_spec v : 0 <= v < 64 →
  b64_value (b64_char v) = Some v ∧
  Ascii.eqb (b64_char v) b64_pad = false ∧ (code (b64_char v) <? 128) = true.
Proof.
  intros Hv. pose proof b64_char_check as Hall.
  rewrite forallb_forall in Hall. specialize (Hall (Z.to_nat v)).
  rewrite Z2Nat.id in Hall by lia.
  specialize (Hall ltac:(apply in_seq; lia)).
  rewrite !andb_true_iff, bool_decide_eq_true, negb_true_iff in Hall.
  naive_solver.
Qed.

Ltac b64_chars :=
  repeat match goal with
  | |- context [b64_char ?v] =>
      lazymatch goal with
      | H : b64_value (b64_char v) = Some v ∧ _ |- _ => fail
      | _ => assert (b64_value (b64_char v) = Some v ∧
                Ascii.eqb (b64_char v) b64_pad = false ∧
                (code (b64_char v) <? 128) = true)
               by (apply b64_char_spec; div_lia)
      end
  end;
  repeat match goal with
  | H : b64_value (b64_char ?v) = Some ?v ∧ _ |- _ =>
      let H1 := fresh in let H2 := fresh in let H3 := fresh in
      destruct H as (H1 & H2 & H3); generalize dependent (b64_char v); intros
  end.

Ltac bz_ranges :=
  repeat match goal with
  | b : Byte.byte |- _ =>
      lazymatch goal with
      | H : 0 <= bz b < 256 |- _ => fail
      | _ => pose proof (bz_range b)
      end
  end.

(** Bytes in groups of three. *)
Lemma bytes_ind3 (P : bytes → Prop) :
  P [] → (∀ a, P [a]) → (∀ a b, P [a; b]) →
  (∀ a b c l, P l → P (a :: b :: c :: l)) → ∀ l, P l.
Proof.
  intros H0 H1 H2 H3. fix IH 1. intros [|a [|b [|c l]]];
    [exact H0 | apply H1 | apply H2 | apply H3, IH].
Qed.

Lemma byte_of_eq z b : z = bz b → byte_of z = b.
Proof. intros ->. apply byte_of_bz. Qed.

Lemma a2b_encode l : a2b_base64 (urlsafe_b64encode l) 0 0 0 = Ok l.
Proof.
  induction l as [|a|a b|a b c l IH] using bytes_ind3; [done|..]; bz_ranges.
  all: cbn [urlsafe_b64encode]; b64_chars; cbn [a2b_base64];
    repeat match goal with H : _ = _ |- _ => rewrite H end; cbn.
  all: unfold mret, res_ret; repeat f_equal; apply byte_of_eq; div_lia.
Qed.

(** The unpadded text, and how it relates to the padded one. *)
Fixpoint b64_text (l : bytes) : string :=
  match l with
  | [] => EmptyString
  | [a] => String (b64_char (bz a / 4)) (String (b64_char (bz a mod 4 * 16)) EmptyString)
  | [a; b] =>
      String (b64_char (bz a / 4)) (String (b64_char (bz a mod 4 * 16 + bz b / 16))
        (String (b64_char (bz b mod 16 * 4)) EmptyString))
  | a :: b :: c :: l' =>
      String (b64_char (bz a / 4)) (String (b64_char (bz a mod 4 * 16 + bz b / 16))
        (String (b64_char (bz b mod 16 * 4 + bz c / 64))
          (String (b64_char (bz c mod 64)) (b64_text l'))))
  end.

Lemma rstrip_pad_encode l : rstrip_pad (urlsafe_b64encode l) = b64_text l.
Proof.
  induction l as [|a|a b|a b c l IH] using bytes_ind3; [done|..]; bz_ranges.
  all: cbn [urlsafe_b64encode b64_text]; b64_chars; cbn [rstrip_pad];
    rewrite ?Ascii.eqb_refl, ?IH;
    repeat match goal with H : Ascii.eqb _ _ = false |- _ => rewrite H end;
    try done.
  by destruct (b64_text l).
Qed.

Lemma repad_text l : b64_repad (b64_text l) = urlsafe_b64encode l.
Proof.
  induction l as [|a|a b|a b c l IH] using bytes_ind3; [done..|].
  unfold b64_repad in *.
  cbn [urlsafe_b64encode]. rewrite <- IH.
  assert (len (b64_text (a :: b :: c :: l)) = 4 + len (b64_text l)) as ->
    by (unfold len; cbn [b64_text String.length]; lia).
  replace (- (4 + len (b64_text l))) with (- len (b64_text l) + (-1) * 4) by lia.
  rewrite Z.mod_add by lia. done.
Qed.

Lemma text_ascii l : str_forall (λ c, code c <? 128) (urlsafe_b64encode l) = true.
Proof.
  induction l as [|a|a b|a b c l IH] using bytes_ind3; [done|..]; bz_ranges.
  all: cbn [urlsafe_b64encode]; b64_chars; cbn [str_forall];
    repeat match goal with H : _ = _ |- _ => rewrite H end; done.
Qed.

(** [base64.urlsafe_b64decode(v + "=" * (-len(v) % 4))] inverts
    [base64.urlsafe_b64encode(b).rstrip(b"=")]. *)
Lemma b64_roundtrip l :
  urlsafe_b64decode (b64_repad (rstrip_pad (urlsafe_b64encode l))) = Ok l.
Proof.
  rewrite rstrip_pad_encode, repad_text. unfold urlsafe_b64decode.
  by rewrite text_ascii, a2b_encode.
Qed.
