(* ===== verification/Sha256.v ===== *)
(** [hashlib.sha256] and [hmac.new(key, msg, sha256)] of the Python standard
    library (FIPS 180-4 and RFC 2104), executable.  The round constants are
    computed from the primes instead of being listed. *)

From Stdlib Require Import Ascii String Strings.Byte.
From S2P Require Import Prelude.
From S2P Require Import PyBase.
From S2P Require Import Bytes.

(** ** 32-bit words *)
Definition word_mask : Z := Z.ones 32.
Definition w32 (x : Z) : Z := Z.land x word_mask.
Definition wadd (x y : Z) : Z := w32 (x + y).
Definition rotr (n x : Z) : Z :=
  Z.lor (Z.shiftr x n) (w32 (Z.shiftl x (32 - n))).
Definition xor3 (x y z : Z) : Z := Z.lxor x (Z.lxor y z).

(** ** Constants: fractional parts of square and cube roots of primes *)
Definition prime (n : nat) : bool :=
  forallb (λ d, negb (n mod d =? 0)%nat) (seq 2 (Nat.sqrt n - 1)).
Definition primes (bound : nat) : list nat := List.filter prime (seq 2 bound).

(** Greatest [r] with [r^3 <= n], one bit at a time. *)
Fixpoint cube_root (bits : nat) (n r : Z) : Z :=
  match bits with
  | O => r
  | S b =>
      let r' := r + 2 ^ Z.of_nat b in
      cube_root b n (if r' * r' * r' <=? n then r' else r)
  end.

Definition round_constants : list Z := Eval vm_compute in
  (λ p, w32 (cube_root 36 (Z.of_nat p * 2 ^ 96) 0)) <$> take 64 (primes 320).
Definition initial_words : list Z := Eval vm_compute in
  (λ p, w32 (Z.sqrt (Z.of_nat p * 2 ^ 64))) <$> take 8 (primes 320).

(** ** Compression *)
Record digest_state := Digest {
  da : Z; db : Z; dc : Z; dd : Z; de : Z; df : Z; dg : Z; dh : Z }.

Definition round (k w : Z) (h : digest_state) : digest_state :=
  let s1 := xor3 (rotr 6 (de h)) (rotr 11 (de h)) (rotr 25 (de h)) in
  let ch := Z.lxor (Z.land (de h) (df h))
                   (Z.land (Z.lxor (de h) word_mask) (dg h)) in
  let t1 := w32 (dh h + s1 + ch + k + w) in
  let s0 := xor3 (rotr 2 (da h)) (rotr 13 (da h)) (rotr 22 (da h)) in
  let maj := xor3 (Z.land (da h) (db h)) (Z.land (da h) (dc h))
                  (Z.land (db h) (dc h)) in
  Digest (w32 (t1 + s0 + maj)) (da h) (db h) (dc h)
         (wadd (dd h) t1) (de h) (df h) (dg h).

(** The message schedule is a window of the next sixteen words. *)
Definition next_word (win : list Z) : Z :=
  let at_ i := default 0 (win !! i) in
  let g0 x := xor3 (rotr 7 x) (rotr 18 x) (Z.shiftr x 3) in
  let g1 x := xor3 (rotr 17 x) (rotr 19 x) (Z.shiftr x 10) in
  w32 (g1 (at_ 14%nat) + at_ 9%nat + g0 (at_ 1%nat) + at_ 0%nat).

Fixpoint rounds (ks win : list Z) (h : digest_state) : digest_state :=
  match ks, win with
  | k :: ks', w :: win' => rounds ks' (win' ++ [next_word win]) (round k w h)
  | _, _ => h
  end.

Definition add_state (x y : digest_state) : digest_state :=
  Digest (wadd (da x) (da y)) (wadd (db x) (db y)) (wadd (dc x) (dc y))
         (wadd (dd x) (dd y)) (wadd (de x) (de y)) (wadd (df x) (df y))
         (wadd (dg x) (dg y)) (wadd (dh x) (dh y)).

Definition compress (h : digest_state) (block : list Z) : digest_state :=
  add_state h (rounds round_constants block h).

(** ** Padding and parsing *)
Definition be_bytes (n : nat) (z : Z) : bytes :=
  (λ i, byte_of (Z.shiftr z (8 * (Z.of_nat (n - S i))))) <$> seq 0 n.

Definition pad_message (m : bytes) : bytes :=
  let zeros := Z.to_nat ((55 - Z.of_nat (length m)) mod 64) in
  m ++ Byte.x80 :: replicate zeros Byte.x00
    ++ be_bytes 8 (8 * Z.of_nat (length m)).

Fixpoint words_of (l : bytes) : list Z :=
  match l with
  | a :: b :: c :: d :: l' =>
      (bz a * 16777216 + bz b * 65536 + bz c * 256 + bz d) :: words_of l'
  | _ => []
  end.

Fixpoint blocks_of (fuel : nat) (ws : list Z) : list (list Z) :=
  match fuel, ws with
  | S f, _ :: _ => take 16 ws :: blocks_of f (drop 16 ws)
  | _, _ => []
  end.

Definition initial_state : digest_state :=
  let at_ i := default 0 (initial_words !! i) in
  Digest (at_ 0%nat) (at_ 1%nat) (at_ 2%nat) (at_ 3%nat)
         (at_ 4%nat) (at_ 5%nat) (at_ 6%nat) (at_ 7%nat).

Definition digest_bytes (h : digest_state) : bytes :=
  be_bytes 4 (da h) ++ be_bytes 4 (db h) ++ be_bytes 4 (dc h) ++
  be_bytes 4 (dd h) ++ be_bytes 4 (de h) ++ be_bytes 4 (df h) ++
  be_bytes 4 (dg h) ++ be_bytes 4 (dh h).

(** [hashlib.sha256(m).digest()] and [.hexdigest()] *)
Definition sha256 (m : bytes) : bytes :=
  let ws := words_of (pad_message m) in
  digest_bytes (foldl compress initial_state (blocks_of (length ws) ws)).

Definition sha256_hex (m : bytes) : string := hex (sha256 m).

(** ** HMAC *)
Definition hmac_key (key : bytes) : bytes :=
  let k := if (64 <? length key)%nat then sha256 key else key in
  k ++ replicate (64 - length k)%nat Byte.x00.

Definition xor_pad (pad : Z) (key : bytes) : bytes :=
  (λ b, byte_of (Z.lxor (bz b) pad)) <$> key.

Definition hmac_sha256 (key msg : bytes) : bytes :=
  let k := hmac_key key in
  sha256 (xor_pad 92 k ++ sha256 (xor_pad 54 k ++ msg)).

(** ** Digest sizes *)
Lemma be_bytes_length n z : length (be_bytes n z) = n.
Proof. unfold be_bytes. by rewrite length_fmap, length_seq. Qed.

Lemma digest_bytes_length h : length (digest_bytes h) = 32%nat.
Proof. unfold digest_bytes. rewrite !length_app, !be_bytes_length. done. Qed.

Lemma sha256_length m : length (sha256 m) = 32%nat.
Proof. apply digest_bytes_length. Qed.

Lemma sha256_hex_length m : String.length (sha256_hex m) = 64%nat.
Proof. unfold sha256_hex. by rewrite hex_length, sha256_length. Qed.

Lemma sha256_hex_inj m m' : sha256_hex m = sha256_hex m' → sha256 m = sha256 m'.
Proof. apply hex_inj. Qed.

(** A collision of SHA-256: what a proof of binding exhibits otherwise. *)
Definition sha256_collision (m m' : bytes) : Prop :=
  m ≠ m' ∧ sha256 m = sha256 m'.

(** ** Published test vectors *)
Example sha256_abc :
  sha256_hex (encode_utf8 "abc") =
  "ba7816bf8f01cfea414140de5dae2223b00361a396177a9cb410ff61f20015ad".
Proof. vm_compute. reflexivity. Qed.

Example sha256_two_blocks :
  sha256_hex (encode_utf8 "abcdbcdecdefdefgefghfghighijhijkijkljklmklmnlmnomnopnopq") =
  "248d6a61d20638b8e5c026930c3e6039a33ce45964ff2167f6ecedd419db06c1".
Proof. vm_compute. reflexivity. Qed.

Example hmac_rfc4231_2 :
  hex (hmac_sha256 (encode_utf8 "Jefe") (encode_utf8 "what do ya want for nothing?")) =
  "5bdcc146bf60754e6a042426089575c75a003f089d2739839dec58b964ec3843".
Proof. vm_compute. reflexivity. Qed.

#[global] Opaque sha256 hmac_sha256.
