(* ===== verification/CanonicalJson.v ===== *)
(** [railone_crypto/canonical_json.py]: dynamic values, their validation and
    the canonical UTF-8 serialisation that every signature and content
    identifier is computed from.  Main result: two values have the same
    canonical bytes exactly when they are equal up to the order of dictionary
    entries and the list/tuple distinction. *)

From Stdlib Require Import Ascii String Strings.Byte DecimalString.
From S2P Require Import Prelude.
From S2P Require Import PyBase.
From S2P Require Import Bytes.

(** ** Python values that reach the serialiser *)
Inductive pykey := KStr (s : string) | KInt (z : Z).

Inductive pyval :=
  | PNone
  | PBool (b : bool)
  | PInt (z : Z)
  | PFloat (repr : string)
  | PStr (s : string)
  | PBytes (b : bytes)
  | PList (l : list pyval)
  | PTuple (l : list pyval)
  | PDict (l : list (pykey * pyval))
  | PObj (type_name : string).

#[global] Instance pykey_eq_dec : EqDecision pykey.
Proof. solve_decision. Defined.

Section pyval_ind.
Context (P : pyval → Prop)
  (HNone : P PNone) (HBool : ∀ b, P (PBool b)) (HInt : ∀ z, P (PInt z))
  (HFloat : ∀ r, P (PFloat r)) (HStr : ∀ s, P (PStr s))
  (HBytes : ∀ b, P (PBytes b))
  (HList : ∀ l, Forall P l → P (PList l))
  (HTuple : ∀ l, Forall P l → P (PTuple l))
  (HDict : ∀ l, Forall (λ kv, P kv.2) l → P (PDict l))
  (HObj : ∀ t, P (PObj t)).

Fixpoint pyval_deep_ind (v : pyval) : P v :=
  match v with
  | PNone => HNone
  | PBool b => HBool b
  | PInt z => HInt z
  | PFloat r => HFloat r
  | PStr s => HStr s
  | PBytes b => HBytes b
  | PObj t => HObj t
  | PList l => HList l
      ((fix go l : Forall P l :=
          match l with
          | [] => Forall_nil_2 _
          | x :: l' => Forall_cons_2 _ _ _ (pyval_deep_ind x) (go l')
          end) l)
  | PTuple l => HTuple l
      ((fix go l : Forall P l :=
          match l with
          | [] => Forall_nil_2 _
          | x :: l' => Forall_cons_2 _ _ _ (pyval_deep_ind x) (go l')
          end) l)
  | PDict l => HDict l
      ((fix go l : Forall (λ kv, P kv.2) l :=
          match l with
          | [] => Forall_nil_2 _
          | x :: l' => Forall_cons_2 _ _ _ (pyval_deep_ind x.2) (go l')
          end) l)
  end.
End pyval_ind.

#[global] Instance pyval_eq_dec : EqDecision pyval.
Proof.
  unfold EqDecision, Decision. fix go 1. intros v w.
  destruct v, w; try (right; discriminate).
  - by left.
  - destruct (decide (b = b0)); [left|right]; congruence.
  - destruct (decide (z = z0)); [left|right]; congruence.
  - destruct (decide (repr = repr0)); [left|right]; congruence.
  - destruct (decide (s = s0)); [left|right]; congruence.
  - destruct (decide (b = b0)); [left|right]; congruence.
  - destruct (@list_eq_dec pyval go l l0); [left|right]; congruence.
  - destruct (@list_eq_dec pyval go l l0); [left|right]; congruence.
  - destruct (@list_eq_dec (pykey * pyval)
      (λ p q : pykey * pyval,
         match decide (p.1 = q.1), go p.2 q.2 with
         | left E1, left E2 => left (match p, q return p.1 = q.1 → p.2 = q.2 → p = q with
                                     (a, b), (c, d) => λ E1 E2, f_equal2 pair E1 E2 end E1 E2)
         | right N, _ => right (λ E, N (f_equal fst E))
         | _, right N => right (λ E, N (f_equal snd E))
         end) l l0); [left|right]; congruence.
  - destruct (decide (type_name = type_name0)); [left|right]; congruence.
Defined.

(** A dictionary literal with text keys. *)
Definition pdict (l : list (string * pyval)) : pyval :=
  PDict ((λ p, (KStr p.1, p.2)) <$> l).

Definition opt_str (o : option string) : pyval :=
  match o with Some s => PStr s | None => PNone end.

(** [type(v).__name__] *)
Definition type_name_of (v : pyval) : string :=
  match v with
  | PNone => "NoneType" | PBool _ => "bool" | PInt _ => "int"
  | PFloat _ => "float" | PStr _ => "str" | PBytes _ => "bytes"
  | PList _ => "list" | PTuple _ => "tuple" | PDict _ => "dict"
  | PObj t => t
  end.

(** ** [_validate] *)
Fixpoint validate (v : pyval) (path : string) : res unit :=
  match v with
  | PFloat _ =>
      raise CanonicalizationError
        ("floating-point value is forbidden at " +:+ path +:+
         "; use integer minor units")
  | PStr _ | PInt _ | PBool _ | PNone => mret tt
  | PDict l =>
      (fix go (l : list (pykey * pyval)) : res unit :=
         match l with
         | [] => mret tt
         | (KInt _, _) :: _ =>
             raise CanonicalizationError
               ("JSON object key must be a string at " +:+ path)
         | (KStr k, child) :: l' =>
             match validate child (path +:+ "." +:+ k) with
             | Ok _ => go l'
             | Err e => Err e
             end
         end) l
  | PList l | PTuple l =>
      (fix go (i : Z) (l : list pyval) : res unit :=
         match l with
         | [] => mret tt
         | child :: l' =>
             match validate child (path +:+ "[" +:+ str_int i +:+ "]") with
             | Ok _ => go (i + 1) l'
             | Err e => Err e
             end
         end) 0 l
  | PBytes _ | PObj _ =>
      raise CanonicalizationError
        ("unsupported value of type " +:+ type_name_of v +:+ " at " +:+ path)
  end.

(** ** [_materialize]: tuples become lists, mappings become dicts *)
Fixpoint materialize (v : pyval) : pyval :=
  match v with
  | PDict l => PDict (map (λ kv, (kv.1, materialize kv.2)) l)
  | PList l | PTuple l => PList (map materialize l)
  | _ => v
  end.

(** ** [json.dumps(..., ensure_ascii=False, sort_keys=True,
    separators=(",", ":"))] *)
Definition dquote : ascii := "034"%char.
Definition backslash : ascii := "092"%char.

Definition escape_char (c : ascii) : string :=
  if Ascii.eqb c dquote then String backslash (String dquote EmptyString)
  else if Ascii.eqb c backslash then String backslash (String backslash EmptyString)
  else match code c with
  | 8 => String backslash "b"
  | 9 => String backslash "t"
  | 10 => String backslash "n"
  | 12 => String backslash "f"
  | 13 => String backslash "r"
  | n => if n <? 32
         then String backslash
                ("u00" +:+ String (hex_char (n / 16))
                  (String (hex_char (n mod 16)) EmptyString))
         else String c EmptyString
  end.

Fixpoint escape (s : string) : string :=
  match s with
  | EmptyString => EmptyString
  | String c s' => escape_char c +:+ escape s'
  end.

Definition quote (s : string) : string :=
  String dquote (escape s +:+ String dquote EmptyString).

Definition key_text (k : pykey) : string :=
  match k with KStr s => s | KInt z => str_int z end.

(** The values [validate] refuses have no JSON text: [json.dumps] never sees
    them. *)
Fixpoint json_dumps (v : pyval) : string :=
  match v with
  | PNone => "null"
  | PBool true => "true"
  | PBool false => "false"
  | PInt z => str_int z
  | PFloat r => r
  | PStr s => quote s
  | PList l | PTuple l =>
      "[" +:+ String.concat "," (map json_dumps l) +:+ "]"
  | PDict l =>
      "{" +:+ String.concat ","
        (map (λ kd, quote kd.1 +:+ ":" +:+ kd.2)
           (sort_on fst str_le (map (λ kv, (key_text kv.1, json_dumps kv.2)) l)))
      +:+ "}"
  | PBytes _ | PObj _ => EmptyString
  end.

(** [|z| < 10^4300], without computing the bound for small integers. *)
Definition int_printable (z : Z) : bool :=
  if Z.log2 (Z.abs z) <? 14284 then true else Z.abs z <? 10 ^ 4300.

Lemma log2_below n b z : 2 ^ n < b → 0 < b → Z.log2 (Z.abs z) < n → Z.abs z < b.
Proof.
  intros Hb Hpos Hl. destruct (decide (Z.abs z = 0)) as [->|Hz]; [done|].
  etrans; [|exact Hb]. apply Z.log2_lt_pow2; lia.
Qed.

Lemma int_printable_spec z : int_printable z = true ↔ Z.abs z < 10 ^ 4300.
Proof.
  unfold int_printable. destruct (Z.ltb_spec (Z.log2 (Z.abs z)) 14284) as [Hl|_];
    [|apply Z.ltb_lt].
  split; [intros _|reflexivity]. apply (log2_below 14284); [..|exact Hl].
  - apply Z.ltb_lt. vm_compute. reflexivity.
  - apply Z.ltb_lt. vm_compute. reflexivity.
Qed.

(** [int.__repr__] refuses integers of more than 4300 digits with a
    [ValueError], which the encoder rewraps. *)
Fixpoint printable_ints (v : pyval) : bool :=
  match v with
  | PInt z => int_printable z
  | PList l | PTuple l => forallb printable_ints l
  | PDict l => forallb (λ kv, printable_ints kv.2) l
  | _ => true
  end.

(** ** [canonical_json_bytes] *)
Definition canonical_json_bytes (v : pyval) : res bytes :=
  _ ← validate v "$";
  _ ← raise_if (negb (printable_ints v)) CanonicalizationError
        "Exceeds the limit (4300 digits) for integer string conversion";
  utf8_encode (json_dumps (materialize v)).

(** ** The canonical form *)
Fixpoint canon (v : pyval) : pyval :=
  match v with
  | PList l | PTuple l => PList (map canon l)
  | PDict l => PDict (sort_on (λ kv : pykey * pyval, key_text kv.1) str_le
                        (map (λ kv, (kv.1, canon kv.2)) l))
  | _ => v
  end.

(** The values that validation accepts. *)
Fixpoint storable (v : pyval) : bool :=
  match v with
  | PNone | PBool _ | PInt _ | PStr _ => true
  | PFloat _ | PBytes _ | PObj _ => false
  | PList l | PTuple l => forallb storable l
  | PDict l =>
      forallb (λ kv : pykey * pyval,
        match kv.1 with KStr _ => true | KInt _ => false end && storable kv.2) l
  end.

(** ** Reading mappings *)
Abbreviation mapping := (list (pykey * pyval)).

(** [m.get(k)] *)
Fixpoint get (m : mapping) (k : string) : option pyval :=
  match m with
  | [] => None
  | (k', v) :: m' => if decide (k' = KStr k) then Some v else get m' k
  end.

(** [m[k]] *)
Definition item (m : mapping) (k : string) : res pyval :=
  match get m k with
  | Some v => mret v
  | None => raise KeyError k
  end.

(** [v[k]] on a value that must be a mapping. *)
Definition as_mapping (v : pyval) : res mapping :=
  match v with
  | PDict m => mret m
  | _ => raise TypeError "object is not subscriptable by a string"
  end.
(** Reads of persisted artifact fields at the type that RailOne writes them;
    a field of another type is a [TypeError]. *)
Definition as_str (v : pyval) : res string :=
  match v with PStr s => mret s | _ => raise TypeError "expected str" end.
Definition as_int (v : pyval) : res Z :=
  match v with
  | PInt z => mret z
  | PBool b => mret (Z.b2z b)
  | _ => raise TypeError "expected int"
  end.

Definition sub_mapping (m : mapping) (k : string) : res mapping :=
  v ← item m k; as_mapping v.
Definition str_item (m : mapping) (k : string) : res string :=
  v ← item m k; as_str v.
Definition int_item (m : mapping) (k : string) : res Z :=
  v ← item m k; as_int v.

(** [v == s] for a [str] [s]. *)
Definition eq_str (o : option pyval) (s : string) : bool :=
  match o with Some (PStr t) => String.eqb t s | _ => false end.

(** Entries of a dictionary literal. *)
Definition fields (l : list (string * pyval)) : mapping :=
  (λ p, (KStr p.1, p.2)) <$> l.

(** *** [_freeze] and [_thaw] *)
Fixpoint freeze (v : pyval) : pyval :=
  match v with
  | PDict l => PDict (map (λ kv, (kv.1, freeze kv.2)) l)
  | PList l | PTuple l => PTuple (map freeze l)
  | _ => v
  end.
Definition freeze_mapping (m : mapping) : mapping :=
  map (λ kv, (kv.1, freeze kv.2)) m.

Fixpoint thaw (v : pyval) : pyval :=
  match v with
  | PDict l => PDict (map (λ kv, (kv.1, thaw kv.2)) l)
  | PTuple l => PList (map thaw l)
  | _ => v
  end.
Definition thaw_mapping (m : mapping) : mapping :=
  map (λ kv, (kv.1, thaw kv.2)) m.
