(* ===== verification/CanonicalFacts.v ===== *)
(** The canonical serialisation determines the value: lemmas about
    [CanonicalJson] and the two theorems that the signature layer relies on. *)

From Stdlib Require Import Ascii String Strings.Byte DecimalString.
From S2P Require Import Prelude.
From S2P Require Import PyBase.
From S2P Require Import Bytes.
From S2P Require Import CanonicalJson.

(** ** Validation and materialisation *)
Lemma validate_ok v : ∀ p, validate v p = Ok tt ↔ storable v = true.
Proof.
  induction v as [| | | | | |l IH|l IH|l IH|] using pyval_deep_ind; intros p;
    try (cbv; split; congruence).
  1, 2: cbn [validate storable]; generalize 0;
    induction IH as [|x l Hx _ IHl]; intros i; cbn [forallb]; [done|];
    rewrite andb_true_iff, <- (Hx (p +:+ "[" +:+ str_int i +:+ "]"));
    destruct (validate x _) as [[]|]; [rewrite IHl|]; naive_solver.
  cbn [validate storable].
  induction IH as [|[[k|k] x] l Hx _ IHl]; cbn [forallb fst snd]; [done| |done].
  cbn in Hx. rewrite !andb_true_iff, <- (Hx (p +:+ "." +:+ k)).
  destruct (validate x _) as [[]|]; [rewrite IHl|]; naive_solver.
Qed.

Lemma dumps_materialize v : json_dumps (materialize v) = json_dumps v.
Proof.
  induction v as [| | | | | |l IH|l IH|l IH|] using pyval_deep_ind; try done;
    cbn [materialize json_dumps]; rewrite map_map; do 2 f_equal.
  1, 2: f_equal; induction IH; cbn [map]; congruence.
  do 3 f_equal. induction IH as [|[k x] l Hx]; cbn [map fst snd] in *; congruence.
Qed.

(** ** Printing sorted entries *)
Definition entry (kv : pykey * pyval) : string :=
  quote (key_text kv.1) +:+ ":" +:+ json_dumps kv.2.
Definition by_key : list (pykey * pyval) → list (pykey * pyval) :=
  sort_on (λ kv, key_text kv.1) str_le.

Lemma dumps_dict l :
  json_dumps (PDict l) = "{" +:+ String.concat "," (map entry (by_key l)) +:+ "}".
Proof.
  cbn [json_dumps]. do 3 f_equal. unfold by_key.
  rewrite (sort_on_fmap (λ kv : pykey * pyval, key_text kv.1) fst str_le
    (λ kv, (key_text kv.1, json_dumps kv.2))) by done.
  by rewrite map_map.
Qed.

Lemma canon_dict l :
  canon (PDict l) = PDict (map (λ kv, (kv.1, canon kv.2)) (by_key l)).
Proof.
  cbn [canon]. f_equal. unfold by_key.
  by rewrite (sort_on_fmap (λ kv : pykey * pyval, key_text kv.1)
    (λ kv : pykey * pyval, key_text kv.1) str_le (λ kv, (kv.1, canon kv.2))).
Qed.

Lemma py_sorted_id {A} (R : A → A → Prop) `{!RelDecision R} l :
  StronglySorted R l → py_sorted R l = l.
Proof.
  induction 1 as [|x l _ IH Hx]; [done|]. simpl. rewrite IH.
  destruct l; [done|]. simpl. by rewrite decide_True by (by inversion Hx).
Qed.

Lemma by_key_idemp l : by_key (by_key l) = by_key l.
Proof. apply py_sorted_id, sort_on_sorted; apply _. Qed.

Lemma by_key_canon l :
  by_key (map (λ kv, (kv.1, canon kv.2)) l)
  = map (λ kv, (kv.1, canon kv.2)) (by_key l).
Proof.
  apply (sort_on_fmap (λ kv : pykey * pyval, key_text kv.1)
    (λ kv : pykey * pyval, key_text kv.1) str_le (λ kv, (kv.1, canon kv.2))).
  done.
Qed.

Lemma Forall_by_key (P : pykey * pyval → Prop) l :
  Forall P (by_key l) ↔ Forall P l.
Proof. unfold by_key. by rewrite sort_on_perm. Qed.

Lemma Forall_forallb {A} (p : A → bool) l :
  forallb p l = true ↔ Forall (λ x, p x = true) l.
Proof. rewrite forallb_forall, Forall_forall. setoid_rewrite list_elem_of_In. done. Qed.

Lemma dumps_canon v : json_dumps (canon v) = json_dumps v.
Proof.
  induction v as [| | | | | |l IH|l IH|l IH|] using pyval_deep_ind; try done.
  1, 2: cbn [canon json_dumps]; rewrite map_map; do 3 f_equal;
    induction IH; cbn [map]; congruence.
  rewrite canon_dict, !dumps_dict, by_key_canon, by_key_idemp, map_map.
  do 3 f_equal. rewrite <- Forall_by_key in IH.
  induction IH as [|[k x] l' Hx _ IHl]; cbn [map fst snd] in *; [done|].
  unfold entry at 1 3. cbn [fst snd]. congruence.
Qed.

Lemma storable_canon v : storable (canon v) = storable v.
Proof.
  induction v as [| | | | | |l IH|l IH|l IH|] using pyval_deep_ind; try done.
  1, 2: cbn [canon storable]; induction IH; cbn [map forallb]; congruence.
  rewrite canon_dict. apply eq_true_iff_eq. cbn [storable].
  rewrite !Forall_forallb.
  rewrite <- (Forall_by_key (λ kv, _ && storable kv.2 = true) l).
  rewrite <- Forall_by_key in IH.
  induction IH as [|[k x] l' Hx _ IHl]; cbn [map fst snd] in *; [done|].
  rewrite !Forall_cons, IHl. cbn [fst snd]. by rewrite Hx.
Qed.

Lemma printable_canon v : printable_ints (canon v) = printable_ints v.
Proof.
  induction v as [| | | | | |l IH|l IH|l IH|] using pyval_deep_ind; try done.
  1, 2: cbn [canon printable_ints]; induction IH; cbn [map forallb]; congruence.
  rewrite canon_dict. apply eq_true_iff_eq. cbn [printable_ints].
  rewrite !Forall_forallb.
  rewrite <- (Forall_by_key (λ kv, printable_ints kv.2 = true) l).
  rewrite <- Forall_by_key in IH.
  induction IH as [|[k x] l' Hx _ IHl]; cbn [map fst snd] in *; [done|].
  rewrite !Forall_cons, IHl. cbn [fst snd]. by rewrite Hx.
Qed.

(** What a successful serialisation says. *)
Lemma canonical_ok v b :
  canonical_json_bytes v = Ok b ↔
  storable v = true ∧ printable_ints v = true ∧ has_surrogate (json_dumps v) = false ∧
  b = encode_utf8 (json_dumps v).
Proof.
  unfold canonical_json_bytes.
  rewrite res_bind_ok. split.
  - intros ([] & Hv & H). apply validate_ok in Hv.
    inv_ok H. apply negb_false_iff in H0. apply utf8_encode_ok in H.
    by rewrite dumps_materialize in H.
  - intros (Hs & Hp & Hu & ->). exists tt. split; [by apply validate_ok|].
    rewrite Hp, dumps_materialize. by apply utf8_encode_ok.
Qed.

(** ** Lexical facts *)
Definition is_num (c : ascii) : bool := is_digit c || Ascii.eqb c "-".
Definition safe (r : string) : Prop :=
  match r with String c _ => is_num c = false | EmptyString => True end.

Lemma num_prefix_free s t r u :
  str_forall is_num s = true → str_forall is_num t = true →
  safe r → safe u → s +:+ r = t +:+ u → s = t ∧ r = u.
Proof.
  revert t. induction s as [|c s IH]; intros [|d t] Hs Ht Hr Hu Heq.
  - done.
  - rewrite str_app_nil_l in Heq. subst r. simpl in Ht, Hr.
    rewrite Hr in Ht. done.
  - rewrite str_app_nil_l in Heq. subst u. simpl in Hs, Hu.
    rewrite Hu in Hs. done.
  - rewrite !str_app_cons in Heq. injection Heq as -> Heq.
    simpl in Hs, Ht. apply andb_true_iff in Hs as [_ Hs], Ht as [_ Ht].
    destruct (IH t) as [-> ->]; auto.
Qed.

Lemma uint_text_num d : str_forall is_num (NilEmpty.string_of_uint d) = true.
Proof. induction d; simpl; auto. Qed.

Lemma str_int_num z : str_forall is_num (str_int z) = true.
Proof.
  unfold str_int. destruct (Z.to_int z) as [d|d]; simpl;
    destruct d; try done; apply (uint_text_num (_ d)).
Qed.

Lemma str_int_nonempty z : str_int z ≠ EmptyString.
Proof.
  unfold str_int. destruct (Z.to_int z) as [d|d]; simpl; by destruct d.
Qed.

Lemma str_app_prefix s t x y :
  s +:+ x = t +:+ y → String.prefix s t = true ∨ String.prefix t s = true.
Proof.
  revert t. induction s as [|c s IH]; intros [|d t]; try (by auto).
  rewrite !str_app_cons. intros [= -> Heq]. simpl.
  destruct (ascii_dec d d); [by apply IH|done].
Qed.

Lemma escape_check :
  forallb (λ n, forallb (λ m,
    let c := ascii_of_nat n in let d := ascii_of_nat m in
    (n =? m)%nat || negb (String.prefix (escape_char c) (escape_char d))) (seq 0 256))
    (seq 0 256)
  && forallb (λ n, negb (String.prefix (escape_char (ascii_of_nat n))
                          (String dquote EmptyString)) &&
                   negb (String.prefix (String dquote EmptyString)
                          (escape_char (ascii_of_nat n)))) (seq 0 256) = true.
Proof. vm_compute. reflexivity. Qed.

Lemma escape_char_distinct c d :
  String.prefix (escape_char c) (escape_char d) = true → c = d.
Proof.
  intros Hp. pose proof escape_check as [Hall _]%andb_true_iff.
  rewrite forallb_forall in Hall.
  pose proof (nat_ascii_bounded c). pose proof (nat_ascii_bounded d).
  specialize (Hall (nat_of_ascii c) ltac:(apply in_seq; lia)).
  rewrite forallb_forall in Hall.
  specialize (Hall (nat_of_ascii d) ltac:(apply in_seq; lia)). cbv zeta in Hall.
  rewrite !ascii_nat_embedding, Hp, orb_false_r in Hall.
  apply Nat.eqb_eq in Hall.
  by rewrite <- (ascii_nat_embedding c), Hall, ascii_nat_embedding.
Qed.

Lemma escape_char_quote c x y :
  escape_char c +:+ x ≠ String dquote y.
Proof.
  pose proof escape_check as [_ Hall]%andb_true_iff.
  rewrite forallb_forall in Hall. pose proof (nat_ascii_bounded c).
  specialize (Hall (nat_of_ascii c) ltac:(apply in_seq; lia)).
  rewrite ascii_nat_embedding, andb_true_iff, !negb_true_iff in Hall.
  intros Heq.
  change (String dquote y) with (String dquote EmptyString +:+ y) in Heq.
  apply str_app_prefix in Heq. destruct Hall. intuition congruence.
Qed.

Lemma escape_prefix_free s t x y :
  escape s +:+ String dquote x = escape t +:+ String dquote y → s = t ∧ x = y.
Proof.
  revert t. induction s as [|c s IH]; intros [|d t]; simpl;
    rewrite ?str_app_assoc, ?str_app_nil_l.
  - by intros [= ->].
  - intros Heq. symmetry in Heq. by apply escape_char_quote in Heq.
  - intros Heq. by apply escape_char_quote in Heq.
  - intros Heq.
    assert (c = d) as ->.
    { destruct (str_app_prefix _ _ _ _ Heq) as [Hp|Hp];
        by apply escape_char_distinct in Hp. }
    apply str_app_inv_l in Heq. by destruct (IH _ Heq) as [-> ->].
Qed.

Lemma quote_prefix_free s t x y :
  quote s +:+ x = quote t +:+ y → s = t ∧ x = y.
Proof.
  unfold quote. rewrite !str_app_cons, !str_app_assoc, !str_app_cons, !str_app_nil_l.
  intros [= Heq]. by apply escape_prefix_free.
Qed.

(** ** Leading characters tell the kinds apart *)
Definition lead (v : pyval) (c : ascii) : bool :=
  match v with
  | PNone => Ascii.eqb c "n"
  | PBool true => Ascii.eqb c "t"
  | PBool false => Ascii.eqb c "f"
  | PInt _ => is_num c
  | PStr _ => Ascii.eqb c dquote
  | PList _ | PTuple _ => Ascii.eqb c "["
  | PDict _ => Ascii.eqb c "{"
  | _ => false
  end.

Lemma dumps_lead v : storable v = true →
  ∃ c t, json_dumps v = String c t ∧ lead v c = true.
Proof.
  destruct v as [|[]|z| | | | | | |]; try done; intros _; try (by eexists _, _).
  - cbn [json_dumps lead]. pose proof (str_int_num z) as Hn.
    pose proof (str_int_nonempty z) as Hne.
    destruct (str_int z) as [|c t]; [done|]. exists c, t.
    by apply andb_true_iff in Hn as [? _].
Qed.

Lemma lead_not_close v c :
  lead v c = true → c ≠ ","%char ∧ c ≠ "]"%char ∧ c ≠ "}"%char.
Proof.
  intros Hl. repeat split; intros ->; by destruct v as [|[]| | | | | | | |].
Qed.

(** ** Comma-separated sequences *)
Definition tail_text {A} (pr : A → string) (l : list A) : string :=
  foldr (λ x acc, String ","%char (pr x +:+ acc)) EmptyString l.

Lemma concat_cons {A} (pr : A → string) x l :
  String.concat "," (map pr (x :: l)) = pr x +:+ tail_text pr l.
Proof.
  revert x. induction l as [|y l IH]; intros x; [by rewrite str_app_nil_r|].
  change (pr x +:+ "," +:+ String.concat "," (map pr (y :: l)) =
    pr x +:+ tail_text pr (y :: l)).
  by rewrite IH.
Qed.

Section sequences.
Context {A B : Type} (pr : A → string) (cn : A → B) (good : A → Prop)
  (close : ascii).
Hypothesis close_sep : close ≠ ","%char.
Hypothesis close_safe : is_num close = false.
Hypothesis good_head : ∀ x r t, good x → pr x +:+ r ≠ String close t.

Definition element_ok (x : A) : Prop :=
  ∀ y r u, good y → safe r → safe u →
  pr x +:+ r = pr y +:+ u → cn x = cn y ∧ r = u.

Lemma tail_safe l r : safe (tail_text pr l +:+ String close r).
Proof. by destruct l. Qed.

Lemma tail_prefix_free l l' r u :
  Forall element_ok l → Forall good l' →
  tail_text pr l +:+ String close r = tail_text pr l' +:+ String close u →
  map cn l = map cn l' ∧ r = u.
Proof.
  intros Hl. revert l'.
  induction Hl as [|x l Hx Hl IH]; intros [|y l'] Hg; simpl;
    rewrite ?str_app_cons, ?str_app_nil_l, ?str_app_assoc.
  - by intros [= ->].
  - intros [= Hc _]. congruence.
  - intros [= Hc _]. congruence.
  - intros [= Heq]. inversion Hg as [|?? Hy Hg']; subst.
    destruct (Hx y _ _ Hy (tail_safe _ _) (tail_safe _ _) Heq) as [-> Heq'].
    destruct (IH _ Hg' Heq') as [-> ->]. done.
Qed.

Lemma concat_prefix_free l l' r u :
  Forall element_ok l → Forall good l → Forall good l' →
  String.concat "," (map pr l) +:+ String close r =
  String.concat "," (map pr l') +:+ String close u →
  map cn l = map cn l' ∧ r = u.
Proof.
  intros Hl Hg Hg'. destruct l as [|x l], l' as [|y l'];
    rewrite ?concat_cons, ?str_app_assoc.
  - cbn [map String.concat]. rewrite !str_app_nil_l. by intros [= ->].
  - cbn [map String.concat]. rewrite !str_app_nil_l. intros Heq. symmetry in Heq.
    inversion Hg'; subst. by apply good_head in Heq.
  - cbn [map String.concat]. rewrite !str_app_nil_l. intros Heq.
    inversion Hg; subst. by apply good_head in Heq.
  - intros Heq. inversion Hl as [|?? Hx Hl']; subst.
    inversion Hg' as [|?? Hy Hg'']; subst.
    destruct (Hx y _ _ Hy (tail_safe _ _) (tail_safe _ _) Heq) as [Hxy Heq'].
    destruct (tail_prefix_free _ _ _ _ Hl' Hg'' Heq') as [Hll ->].
    simpl. by rewrite Hxy, Hll.
Qed.
End sequences.

Lemma dumps_not_close v r close :
  storable v = true → close = "]"%char ∨ close = "}"%char →
  ∀ t, json_dumps v +:+ r ≠ String close t.
Proof.
  intros Hs Hc t Heq. destruct (dumps_lead v Hs) as (c & u & Hd & Hl).
  rewrite Hd, str_app_cons in Heq. injection Heq as -> _.
  apply lead_not_close in Hl. intuition congruence.
Qed.

(** ** Injectivity *)
Definition dumps_ok (v : pyval) : Prop :=
  ∀ w r u, storable v = true → storable w = true → safe r → safe u →
  json_dumps v +:+ r = json_dumps w +:+ u → canon v = canon w ∧ r = u.

Lemma dumps_ok_kinds v w r u :
  storable v = true → storable w = true →
  json_dumps v +:+ r = json_dumps w +:+ u → ∃ c, lead v c = true ∧ lead w c = true.
Proof.
  intros Hv Hw Heq.
  destruct (dumps_lead v Hv) as (c & t & Hd & Hl).
  destruct (dumps_lead w Hw) as (c' & t' & Hd' & Hl').
  rewrite Hd, Hd', !str_app_cons in Heq. injection Heq as -> _. by exists c'.
Qed.

Lemma list_dumps_ok l l' r u :
  Forall dumps_ok l → forallb storable l = true → forallb storable l' = true →
  ("[" +:+ String.concat "," (map json_dumps l) +:+ "]") +:+ r =
  ("[" +:+ String.concat "," (map json_dumps l') +:+ "]") +:+ u →
  map canon l = map canon l' ∧ r = u.
Proof.
  rewrite !Forall_forallb. intros IH Hs Hs'.
  rewrite !str_app_cons, !str_app_nil_l, !str_app_assoc. intros [= Heq].
  rewrite !str_app_cons, !str_app_nil_l in Heq.
  eapply (concat_prefix_free json_dumps canon (λ v, storable v = true) "]"%char);
    try done.
  - intros x ? t Hx. by apply dumps_not_close; [|left].
  - apply Forall_forall. intros x Hx y r' u' Hy. rewrite Forall_forall in IH, Hs.
    by apply IH; [|apply Hs|].
Qed.

Definition storable_entry (kv : pykey * pyval) : Prop :=
  (match kv.1 with KStr _ => true | KInt _ => false end && storable kv.2) = true.

Lemma dict_dumps_ok l l' r u :
  Forall (λ kv, dumps_ok kv.2) l →
  Forall storable_entry l → Forall storable_entry l' →
  json_dumps (PDict l) +:+ r = json_dumps (PDict l') +:+ u →
  canon (PDict l) = canon (PDict l') ∧ r = u.
Proof.
  rewrite !dumps_dict, !canon_dict.
  rewrite <- (Forall_by_key _ l), <- (Forall_by_key storable_entry l),
    <- (Forall_by_key storable_entry l').
  intros IH Hs Hs'.
  rewrite !str_app_cons, !str_app_nil_l, !str_app_assoc. intros [= Heq].
  rewrite !str_app_cons, !str_app_nil_l in Heq.
  pose (g := λ kv : pykey * pyval, (kv.1, canon kv.2)).
  assert (map g (by_key l) = map g (by_key l') ∧ r = u) as [Hmap ->];
    [|by unfold g in Hmap; rewrite Hmap].
  eapply (concat_prefix_free entry g storable_entry "}"%char); try done.
  - apply Forall_forall. intros [k x] Hx [k' y] r' u' Hy Hr Hu.
    rewrite Forall_forall in IH, Hs. specialize (IH _ Hx). specialize (Hs _ Hx).
    apply andb_true_iff in Hs as [Hk Hsx], Hy as [Hk' Hsy]. simpl in *.
    destruct k as [k|], k' as [k'|]; try done. unfold entry. simpl.
    rewrite !str_app_assoc. intros [-> Heq']%quote_prefix_free.
    rewrite !str_app_cons, !str_app_nil_l in Heq'. injection Heq' as Heq'.
    destruct (IH y _ _ Hsx Hsy Hr Hu Heq') as [Hxy ->]. unfold g. simpl.
    by rewrite Hxy.
Qed.

Lemma json_dumps_prefix_free v : dumps_ok v.
Proof.
  induction v as [|b|z|fl|s|bs|l IH|l IH|l IH|ty] using pyval_deep_ind;
    intros w r u Hv Hw Hr Hu Heq; try done;
    destruct (dumps_ok_kinds _ _ _ _ Hv Hw Heq) as (c & Hc & Hc').
  - destruct w as [|[]| | | | | | | |]; try done;
      simpl in Hc, Hc'; try (apply Ascii.eqb_eq in Hc; subst; done).
    apply str_app_inv_l in Heq. done.
  - destruct b, w as [|[]| | | | | | | |]; try done;
      simpl in Hc, Hc'; try (apply Ascii.eqb_eq in Hc; subst; done);
      by apply str_app_inv_l in Heq.
  - destruct w as [|[]|z'| | | | | | |]; try done; simpl in Hc, Hc';
      try (apply Ascii.eqb_eq in Hc'; subst; done).
    cbn [json_dumps] in Heq.
    apply num_prefix_free in Heq as [Heq ->]; try done; [|apply str_int_num..].
    by apply str_int_inj in Heq as ->.
  - destruct w as [|[]| | |s'| | | | |]; try done; simpl in Hc, Hc';
      try (apply Ascii.eqb_eq in Hc; subst; done).
    by apply quote_prefix_free in Heq as [-> ->].
  - destruct w as [|[]| | | | |l'|l'| |]; try done; simpl in Hc, Hc';
      try (apply Ascii.eqb_eq in Hc; subst; done);
      cbn [canon]; by destruct (list_dumps_ok l l' r u) as [-> ->].
  - destruct w as [|[]| | | | |l'|l'| |]; try done; simpl in Hc, Hc';
      try (apply Ascii.eqb_eq in Hc; subst; done);
      cbn [canon]; by destruct (list_dumps_ok l l' r u) as [-> ->].
  - destruct w as [|[]| | | | | | |l'|]; try done; simpl in Hc, Hc';
      try (apply Ascii.eqb_eq in Hc; subst; done).
    apply dict_dumps_ok; [done|by apply Forall_forallb..|done].
Qed.

Lemma json_dumps_canon_inj v w :
  storable v = true → storable w = true →
  json_dumps v = json_dumps w → canon v = canon w.
Proof.
  intros Hv Hw Heq.
  destruct (json_dumps_prefix_free v w EmptyString EmptyString) as [? _];
    rewrite ?str_app_nil_r; done.
Qed.

(** Equality of canonical forms: the equality that the serialiser sees. *)
Definition py_same (v w : pyval) : Prop := canon v = canon w.
#[export] Instance py_same_equiv : Equivalence py_same.
Proof. unfold py_same. split; [done|by intros ??|intros ??? -> ->; done]. Qed.

Lemma canonical_same v w b :
  canonical_json_bytes v = Ok b → py_same v w → canonical_json_bytes w = Ok b.
Proof.
  rewrite !canonical_ok. unfold py_same. intros (Hs & Hp & Hu & ->) Heq.
  rewrite <- (storable_canon w), <- (printable_canon w), <- (dumps_canon w), <- Heq.
  by rewrite storable_canon, printable_canon, dumps_canon.
Qed.

Lemma canonical_bytes_inj v w b :
  canonical_json_bytes v = Ok b → canonical_json_bytes w = Ok b → py_same v w.
Proof.
  rewrite !canonical_ok. intros (Hs & _ & _ & ->) (Hs' & _ & _ & Heq).
  apply encode_utf8_inj in Heq. by apply json_dumps_canon_inj.
Qed.

(** Dictionaries that differ only in the order of their entries are the same
    value, when no key is repeated. *)
Lemma py_same_dict l l' :
  NoDup (key_text ∘ fst <$> l) → l ≡ₚ l' → py_same (PDict l) (PDict l').
Proof.
  intros Hnd Hp. unfold py_same. rewrite !canon_dict. do 2 f_equal.
  apply sort_on_unique; [apply _..| |done]. done.
Qed.

(** [to_dict] thaws tuples to lists, which canonical bytes do not see. *)
Lemma materialize_same v : py_same (materialize v) v.
Proof.
  unfold py_same.
  induction v as [| | | | | |l IH|l IH|l IH|] using pyval_deep_ind; try done;
    cbn [materialize canon]; f_equal.
  1, 2: rewrite map_map; induction IH; cbn [map]; congruence.
  f_equal. rewrite map_map.
  induction IH as [|[k x] l Hx]; cbn [map fst snd] in *; congruence.
Qed.

Lemma freeze_same v : py_same (freeze v) v.
Proof.
  unfold py_same.
  induction v as [| | | | | |l IH|l IH|l IH|] using pyval_deep_ind; try done;
    cbn [freeze canon]; f_equal.
  1, 2: rewrite map_map; induction IH; cbn [map]; congruence.
  f_equal. rewrite map_map.
  induction IH as [|[k x] l Hx]; cbn [map fst snd] in *; congruence.
Qed.

(** A signed value thawed for transport is the dictionary that was signed,
    with every sequence a list. *)
Lemma thaw_freeze v : thaw (freeze v) = materialize v.
Proof.
  induction v as [| | | | | |l IH|l IH|l IH|] using pyval_deep_ind; try done;
    cbn [freeze thaw materialize]; f_equal; rewrite map_map.
  1, 2: induction IH; cbn [map]; congruence.
  induction IH as [|[k x] l Hx]; cbn [map fst snd] in *; congruence.
Qed.

Lemma freeze_mapping_same m : py_same (PDict (freeze_mapping m)) (PDict m).
Proof. apply (freeze_same (PDict m)). Qed.

Lemma get_freeze m k : get (freeze_mapping m) k = freeze <$> get m k.
Proof.
  induction m as [|[k' v] m IH]; [done|]. cbn [freeze_mapping map get fst snd].
  case_decide; [done|]. apply IH.
Qed.

Lemma get_elem m k v : get m k = Some v → (KStr k, v) ∈ m.
Proof.
  induction m as [|[k' w] m IH]; [done|]. cbn [get]. case_decide as Hk; simplify_eq.
  - intros [= ->]. left.
  - intros Hg. right. by apply IH.
Qed.

Lemma elem_get m k v : NoDup (fst <$> m) → (KStr k, v) ∈ m → get m k = Some v.
Proof.
  induction m as [|[k' w] m IH]; intros Hnd Hin; [by apply elem_of_nil in Hin|].
  cbn [fmap list_fmap fst] in Hnd. apply NoDup_cons in Hnd as [Hni Hnd]. cbn [get].
  apply elem_of_cons in Hin as [[= <- <-]|Hin]; [by rewrite decide_True|].
  rewrite decide_False; [by apply IH|]. intros ->. apply Hni.
  by apply (list_elem_of_fmap_2 fst) in Hin.
Qed.

(** Equal dictionaries have equal entries. *)
Lemma py_same_get l l' k v :
  py_same (PDict l) (PDict l') → NoDup (fst <$> l') → get l k = Some v →
  ∃ v', get l' k = Some v' ∧ py_same v v'.
Proof.
  unfold py_same. rewrite !canon_dict. intros [= Heq] Hnd Hg.
  apply get_elem, (elem_of_sort_on (λ kv, key_text kv.1) str_le) in Hg.
  apply (list_elem_of_fmap_2 (λ kv : pykey * pyval, (kv.1, canon kv.2))) in Hg.
  cbn [fst snd] in Hg. change (?f <$> ?x) with (map f x) in Hg.
  unfold by_key in Heq. rewrite Heq in Hg.
  apply list_elem_of_fmap in Hg as ([k' v'] & [= <- Hv] & Hin).
  rewrite elem_of_sort_on in Hin. exists v'. split; [|done].
  by apply elem_get.
Qed.

Lemma get_app m m' k :
  get (m ++ m') k = match get m k with Some v => Some v | None => get m' k end.
Proof.
  induction m as [|[k' v] m IH]; [done|]. cbn [app get]. by case_decide.
Qed.

Lemma item_ok m k v : item m k = Ok v ↔ get m k = Some v.
Proof.
  unfold item. destruct (get m k); rewrite ?res_ret_ok, ?res_raise_ok; naive_solver.
Qed.

Lemma as_str_ok v s : as_str v = Ok s ↔ v = PStr s.
Proof. destruct v; cbn; rewrite ?res_ret_ok, ?res_raise_ok; naive_solver. Qed.
Lemma as_mapping_ok v m : as_mapping v = Ok m ↔ v = PDict m.
Proof. destruct v; cbn; rewrite ?res_ret_ok, ?res_raise_ok; naive_solver. Qed.
Lemma as_int_of_int z n : as_int (PInt z) = Ok n ↔ n = z.
Proof. cbn. by rewrite res_ret_ok. Qed.
Lemma str_item_ok m k s : str_item m k = Ok s ↔ get m k = Some (PStr s).
Proof.
  unfold str_item. rewrite res_bind_ok. setoid_rewrite item_ok. setoid_rewrite as_str_ok.
  naive_solver.
Qed.
Lemma sub_mapping_ok m k m' : sub_mapping m k = Ok m' ↔ get m k = Some (PDict m').
Proof.
  unfold sub_mapping. rewrite res_bind_ok. setoid_rewrite item_ok.
  setoid_rewrite as_mapping_ok. naive_solver.
Qed.
Lemma int_item_ok m k n :
  int_item m k = Ok n ↔
  get m k = Some (PInt n) ∨ ∃ b, get m k = Some (PBool b) ∧ n = Z.b2z b.
Proof.
  unfold int_item. rewrite res_bind_ok. setoid_rewrite item_ok. split.
  - intros (v & Hg & Hv). destruct v; cbn in Hv; inv_ok Hv; eauto.
  - intros [Hg|(b & Hg & ->)]; eexists; (split; [exact Hg|done]).
Qed.
