(* ===== verification/PyText.v ===== *)
(** Text primitives beyond ASCII: UTF-8 validity, [len] and slices on code
    points, [int(text)] and [text.split(sep, 1)]. *)

From Stdlib Require Import Ascii String Strings.Byte DecimalString DecimalZ.
From S2P Require Import Prelude.
From S2P Require Import PyBase.
From S2P Require Import Bytes.
From S2P Require Import CanonicalJson.
From S2P Require Import CanonicalFacts.

(** ** [bytes.decode("utf-8")] *)
Definition continuation (b : Byte.byte) : bool := (128 <=? bz b) && (bz b <=? 191).

(** RFC 3629: no overlong forms, no surrogates, nothing above U+10FFFF. *)
Fixpoint utf8_valid (l : bytes) : bool :=
  match l with
  | [] => true
  | a :: l1 =>
      if bz a <? 128 then utf8_valid l1
      else if (194 <=? bz a) && (bz a <=? 223) then
        match l1 with
        | b :: l2 => continuation b && utf8_valid l2
        | _ => false
        end
      else if (224 <=? bz a) && (bz a <=? 239) then
        match l1 with
        | b :: c :: l3 =>
            continuation b && continuation c &&
            negb ((bz a =? 224) && (bz b <? 160)) &&
            negb ((bz a =? 237) && (160 <=? bz b)) && utf8_valid l3
        | _ => false
        end
      else if (240 <=? bz a) && (bz a <=? 244) then
        match l1 with
        | b :: c :: d :: l4 =>
            continuation b && continuation c && continuation d &&
            negb ((bz a =? 240) && (bz b <? 144)) &&
            negb ((bz a =? 244) && (144 <=? bz b)) && utf8_valid l4
        | _ => false
        end
      else false
  end.

Definition decode_utf8 (l : bytes) : res string :=
  _ ← raise_if (negb (utf8_valid l)) UnicodeDecodeError "invalid utf-8";
  mret (string_of_list_byte l).

Lemma decode_encode s : utf8_valid (encode_utf8 s) = true → decode_utf8 (encode_utf8 s) = Ok s.
Proof.
  intros Hs. unfold decode_utf8. rewrite Hs. cbn. unfold encode_utf8.
  by rewrite string_of_list_byte_of_string.
Qed.

Lemma utf8_ascii_app l l' :
  Forall (λ b, bz b < 128) l → utf8_valid (l ++ l') = utf8_valid l'.
Proof.
  induction 1 as [|b l Hb _ IH]; [done|]. cbn. rewrite IH.
  by destruct (Z.ltb_spec (bz b) 128); [|lia].
Qed.

(** ** [len(text)] and [text[:n]] on code points: a continuation byte starts
    none *)
Definition starts_char (c : ascii) : bool := negb ((128 <=? code c) && (code c <=? 191)).
Fixpoint char_len (s : string) : Z :=
  match s with
  | EmptyString => 0
  | String c s' => (if starts_char c then 1 else 0) + char_len s'
  end.
Fixpoint char_take (n : nat) (s : string) : string :=
  match s with
  | EmptyString => EmptyString
  | String c s' =>
      if starts_char c then
        match n with O => EmptyString | S n' => String c (char_take n' s') end
      else String c (char_take n s')
  end.

Lemma char_len_bounds s : 0 <= char_len s <= len s.
Proof.
  unfold len. induction s as [|c s IH]; cbn [char_len String.length]; [lia|].
  destruct (starts_char c); lia.
Qed.

(** ** [int(text)]: surrounding space, a sign, digits with single underscores
    between them (ASCII digits; other Unicode digits are refused), at most 4300
    digits *)
Fixpoint digit_groups (s : string) (after_digit : bool) : bool :=
  match s with
  | EmptyString => after_digit
  | String c s' =>
      if is_digit c then digit_groups s' true
      else Ascii.eqb c "_" && after_digit && digit_groups s' false
  end.

Fixpoint without_underscores (s : string) : string :=
  match s with
  | EmptyString => EmptyString
  | String c s' =>
      if Ascii.eqb c "_" then without_underscores s' else String c (without_underscores s')
  end.

Definition py_nat (s : string) : option Z :=
  if digit_groups s false && (len (without_underscores s) <=? 4300)
  then Z.of_uint <$> NilZero.uint_of_string (without_underscores s)
  else None.

Definition py_int (s : string) : res Z :=
  require match strip s with
          | String c rest =>
              if Ascii.eqb c "-" then Z.opp <$> py_nat rest
              else if Ascii.eqb c "+" then py_nat rest
              else py_nat (String c rest)
          | EmptyString => None
          end ValueError "invalid literal for int() with base 10".

(** *** [int(str(z))] *)
Lemma digits_only s : str_forall is_digit s = true →
  digit_groups s true = true ∧ without_underscores s = s ∧ strip s = s.
Proof.
  intros Hs.
  assert (∀ c, is_digit c = true → Ascii.eqb c "_" = false ∧ is_space c = false) as Hc.
  { intros c. unfold is_digit, is_space. intros [H1 H2]%andb_true_iff.
    apply Z.leb_le in H1, H2. split.
    - apply Ascii.eqb_neq. intros ->. by vm_compute in H2.
    - apply orb_false_iff. split; apply andb_false_iff; rewrite !Z.leb_gt; lia. }
  assert (digit_groups s true = true ∧ without_underscores s = s ∧ rstrip s = s) as (Hg & Hd & Hr).
  { induction s as [|c s IH]; [done|]. cbn in Hs |- *.
    apply andb_true_iff in Hs as [Hdig Hs]. destruct (Hc c Hdig) as [-> Hsp].
    rewrite Hdig. destruct (IH Hs) as (-> & -> & ->). rewrite Hsp. by destruct s. }
  split; [done|]. split; [done|]. unfold strip.
  assert (lstrip s = s) as ->; [|done].
  apply lstrip_head. destruct s as [|c s]; [done|].
  apply andb_true_iff in Hs as [Hdig _]. by apply Hc.
Qed.

Lemma uint_digits d : str_forall is_digit (NilEmpty.string_of_uint d) = true.
Proof. induction d; cbn; [done|..]; exact IHd. Qed.

Lemma py_nat_of_uint d :
  d ≠ Decimal.Nil → len (NilZero.string_of_uint d) <= 4300 →
  py_nat (NilZero.string_of_uint d) = Some (Z.of_uint d).
Proof.
  intros Hd Hl. unfold py_nat.
  assert (str_forall is_digit (NilZero.string_of_uint d) = true) as Hs
    by (destruct d; [done|apply uint_digits..]).
  destruct (digits_only _ Hs) as (Hg & Hu & _). rewrite Hu.
  assert (digit_groups (NilZero.string_of_uint d) false = true) as ->.
  { destruct (NilZero.string_of_uint d) as [|c s] eqn:Hstr; [by destruct d|].
    cbn in Hs, Hg |- *. apply andb_true_iff in Hs as [Hc _]. by rewrite Hc in Hg |- *. }
  rewrite (proj2 (Z.leb_le _ _) Hl). cbn. by rewrite NilZero.usu.
Qed.

Lemma py_int_str z : len (str_int z) <= 4300 → py_int (str_int z) = Ok z.
Proof.
  intros Hl. unfold py_int, str_int in *. destruct (to_int_not_nil z) as [Hp Hn].
  destruct (Z.to_int z) as [d|d] eqn:Hz; cbn [NilZero.string_of_int] in *.
  - assert (d ≠ Decimal.Nil) as Hd by congruence.
    assert (str_forall is_digit (NilZero.string_of_uint d) = true) as Hs
      by (destruct d; [done|apply uint_digits..]).
    destruct (digits_only _ Hs) as (_ & _ & ->).
    pose proof (py_nat_of_uint d Hd Hl) as Hnat.
    destruct (NilZero.string_of_uint d) as [|c s] eqn:Hstr; [by destruct d|].
    assert (Ascii.eqb c "-" = false ∧ Ascii.eqb c "+" = false) as [-> ->].
    { cbn in Hs. apply andb_true_iff in Hs as [Hc _].
      split; apply Ascii.eqb_neq; intros ->; by vm_compute in Hc. }
    rewrite Hnat. cbn. f_equal. rewrite <- (DecimalZ.of_to z), Hz. done.
  - assert (d ≠ Decimal.Nil) as Hd by congruence.
    assert (str_forall is_digit (NilZero.string_of_uint d) = true) as Hs
      by (destruct d; [done|apply uint_digits..]).
    destruct (digits_only _ Hs) as (_ & _ & Hstrip).
    assert (strip (String "-" (NilZero.string_of_uint d)) = String "-" (NilZero.string_of_uint d)) as ->.
    { unfold strip. cbn [lstrip]. assert (is_space "-" = false) as -> by done.
      cbn [rstrip]. unfold strip in Hstrip.
      assert (lstrip (NilZero.string_of_uint d) = NilZero.string_of_uint d) as Hls.
      { apply lstrip_head. destruct (NilZero.string_of_uint d) as [|c s]; [done|].
        cbn in Hs. apply andb_true_iff in Hs as [Hc _]. revert Hc. unfold is_digit, is_space.
        intros [H1 H2]%andb_true_iff. apply Z.leb_le in H1, H2.
        apply orb_false_iff. split; apply andb_false_iff; rewrite !Z.leb_gt; lia. }
      rewrite Hls in Hstrip. rewrite Hstrip.
      destruct (NilZero.string_of_uint d) eqn:Hstr; [by destruct d|done]. }
    cbn [Ascii.eqb Bool.eqb]. rewrite py_nat_of_uint; [|done|unfold len in *; cbn in Hl; lia].
    cbn. f_equal. rewrite <- (DecimalZ.of_to z), Hz. done.
Qed.

(** ** [text.split(sep, 1)] into two parts *)
Fixpoint split_once (sep : ascii) (s : string) : option (string * string) :=
  match s with
  | EmptyString => None
  | String c s' =>
      if Ascii.eqb c sep then Some (EmptyString, s')
      else match split_once sep s' with
           | Some (l, r) => Some (String c l, r)
           | None => None
           end
  end.

Lemma split_once_app sep s t :
  str_forall (λ c, negb (Ascii.eqb c sep)) s = true →
  split_once sep (s +:+ String sep t) = Some (s, t).
Proof.
  induction s as [|c s IH].
  - intros _. rewrite str_app_nil_l. cbn. by rewrite Ascii.eqb_refl.
  - cbn [str_forall]. intros [Hc%negb_true_iff Hs]%andb_true_iff.
    rewrite str_app_cons. cbn. by rewrite Hc, (IH Hs).
Qed.

Lemma encode_utf8_app (s t : string) : encode_utf8 (s +:+ t) = encode_utf8 s ++ encode_utf8 t.
Proof. unfold encode_utf8. induction s as [|c s IH]; [done|]. rewrite str_app_cons. cbn. by f_equal. Qed.
