(* ===== verification/Keys.v ===== *)
(** [railone_crypto/key_provider.py]: key lifecycle records, the
    [SigningKeyProvider] boundary and its in-memory implementation.

    Ed25519 itself ([cryptography.hazmat]) is a parameter: the class
    [Ed25519], with its documented behaviour in [Ed25519Laws]. *)

From S2P Require Import Prelude.
From S2P Require Import PyBase.
From S2P Require Import Bytes.
From S2P Require Import Sha256.

(** ** The signature primitive *)
Class Ed25519 := {
  private_key : Type;
  raw_public : private_key → bytes;
  ed_sign : private_key → bytes → bytes;
  ed_verify : bytes → bytes → bytes → bool;  (* public key, signature, message *)
}.

Class Ed25519Laws `{Ed25519} : Prop := {
  raw_public_length : ∀ k, length (raw_public k) = 32%nat;
  ed_verify_sign : ∀ k m, ed_verify (raw_public k) (ed_sign k m) m = true;
}.

(** A toy instance (a checksum, not unforgeable), for evaluating the model. *)
Module ToyEd25519.
Definition checksum (m : bytes) : bytes :=
  [byte_of (Z.of_nat (length m) mod 256);
   byte_of (foldr (λ b acc, bz b + 3 * acc) 0 m mod 256)].
Definition public (k : bytes) : bytes := take 32 (k ++ replicate 32 Byte.x00).
#[export] Instance toy : Ed25519 := {
  private_key := bytes;
  raw_public := public;
  ed_sign k m := checksum (public k ++ m);
  ed_verify p s m := bool_decide (s = checksum (p ++ m));
}.
#[export] Instance toy_laws : Ed25519Laws.
Proof.
  split.
  - intros k. simpl. unfold public. rewrite length_take, length_app, length_replicate. lia.
  - intros k m. by apply bool_decide_eq_true.
Qed.
End ToyEd25519.

(** ** Enumerations *)
Inductive KeyPurpose :=
  | QUOTE_SIGNING | EXECUTION_SIGNING | IDENTITY_SIGNING | SETTLEMENT_SIGNING
  | REPLAY_SIGNING | ACCESS_TOKEN_SIGNING | API_AUDIT_SIGNING.
Inductive KeyStatus := KEY_ACTIVE | KEY_RETIRED | KEY_REVOKED.

#[global] Instance KeyPurpose_eq_dec : EqDecision KeyPurpose.
Proof. solve_decision. Defined.
#[global] Instance KeyStatus_eq_dec : EqDecision KeyStatus.
Proof. solve_decision. Defined.

(** Members of these [StrEnum]s are the strings of their own names. *)
Definition KeyPurpose_value (k : KeyPurpose) : string :=
  match k with
  | QUOTE_SIGNING => "QUOTE_SIGNING"
  | EXECUTION_SIGNING => "EXECUTION_SIGNING"
  | IDENTITY_SIGNING => "IDENTITY_SIGNING"
  | SETTLEMENT_SIGNING => "SETTLEMENT_SIGNING"
  | REPLAY_SIGNING => "REPLAY_SIGNING"
  | ACCESS_TOKEN_SIGNING => "ACCESS_TOKEN_SIGNING"
  | API_AUDIT_SIGNING => "API_AUDIT_SIGNING"
  end.

(** ** [KeyRecord] *)
Record KeyRecord := {
  key_id : string;
  owner_id : string;
  purpose : KeyPurpose;
  public_key : bytes;
  key_status : KeyStatus;
  not_before : instant;
  not_after : instant;
  key_created_at : instant;
  rotation_parent_id : option string;
  revoked_at : option instant;
  revocation_reason : option string;
}.

(** [KeyRecord.__post_init__]; the timestamps of the model are aware. *)
Definition KeyRecord_post_init (r : KeyRecord) : res KeyRecord :=
  _ ← raise_if (not_after r <=? not_before r) ValueError
        "not_after must be later than not_before";
  _ ← raise_if (negb (length (public_key r) =? 32)%nat) ValueError
        "Ed25519 public key must contain 32 raw bytes";
  _ ← raise_if (bool_decide (key_status r = KEY_REVOKED)
                && negb (is_some_b (revoked_at r))) ValueError
        "revoked keys require revoked_at";
  mret r.

Definition permits_signing_at (r : KeyRecord) (t : instant) : bool :=
  bool_decide (key_status r = KEY_ACTIVE)
  && ((not_before r <=? t) && (t <? not_after r)).

(** ** [SigningKeyProvider] *)
Class SigningKeyProvider (P : Type) := {
  get_key_record : P → string → option KeyRecord;
  provider_sign : P → string → bytes → res bytes;
}.

(** What a provider promises to the signature service: the record found under
    an identifier carries it, and signatures verify under its public key. *)
Class SigningKeyProviderSpec `{Ed25519} (P : Type) `{!SigningKeyProvider P} := {
  provider_ok : P → Prop;
  provider_record : ∀ p kid r, provider_ok p →
    get_key_record p kid = Some r →
    key_id r = kid ∧ length (public_key r) = 32%nat;
  provider_signs : ∀ p kid r m s, provider_ok p →
    get_key_record p kid = Some r →
    provider_sign p kid m = Ok s →
    ed_verify (public_key r) s m = true;
}.

(** ** [InMemoryEd25519KeyProvider] *)
Section InMemory.
Context `{Ed25519}.

Record InMemoryEd25519KeyProvider := KeyStore {
  records : gmap string KeyRecord;
  private_keys : gmap string private_key;
}.
Implicit Types (st : InMemoryEd25519KeyProvider).

Definition no_keys : InMemoryEd25519KeyProvider := KeyStore ∅ ∅.

(** [_require_record] *)
Definition require_record st (kid : string) : res KeyRecord :=
  require (records st !! kid) KeyError ("key record not found: " +:+ kid).

(** [generate]: the fresh private key and the clock are arguments. *)
Definition generate (key : private_key) (now : instant)
    (kid owner : string) (purp : KeyPurpose) (nb na : instant)
    (parent : option string) : M InMemoryEd25519KeyProvider KeyRecord :=
  st ← getS;
  _ ← raise_if (is_some_b (records st !! kid)) ValueError
        ("duplicate key_id: " +:+ kid);
  record ← lift (KeyRecord_post_init
    {| key_id := kid; owner_id := owner; purpose := purp;
       public_key := raw_public key; key_status := KEY_ACTIVE;
       not_before := nb; not_after := na; key_created_at := now;
       rotation_parent_id := parent; revoked_at := None;
       revocation_reason := None |});
  _ ← putS (KeyStore (<[kid := record]> (records st))
                     (<[kid := key]> (private_keys st)));
  mret record.

Definition sign_with st (kid : string) (m : bytes) : res bytes :=
  key ← require (private_keys st !! kid) KeyError
          ("signing key not found: " +:+ kid);
  mret (ed_sign key m).

Definition set_status (r : KeyRecord) (s : KeyStatus)
    (revoked : option instant) (reason : option string) : KeyRecord :=
  {| key_id := key_id r; owner_id := owner_id r; purpose := purpose r;
     public_key := public_key r; key_status := s;
     not_before := not_before r; not_after := not_after r;
     key_created_at := key_created_at r;
     rotation_parent_id := rotation_parent_id r;
     revoked_at := revoked; revocation_reason := reason |}.

Definition retire (kid : string) : M InMemoryEd25519KeyProvider KeyRecord :=
  st ← getS;
  record ← lift (require_record st kid);
  updated ← lift (KeyRecord_post_init
    (set_status record KEY_RETIRED (revoked_at record) (revocation_reason record)));
  _ ← putS (KeyStore (<[kid := updated]> (records st))
                     (delete kid (private_keys st)));
  mret updated.

Definition revoke (kid reason : string) (revoked : option instant)
    (now : instant) : M InMemoryEd25519KeyProvider KeyRecord :=
  _ ← raise_if (blank reason) ValueError "revocation reason is required";
  st ← getS;
  record ← lift (require_record st kid);
  updated ← lift (KeyRecord_post_init
    (set_status record KEY_REVOKED (Some (default now revoked)) (Some reason)));
  _ ← putS (KeyStore (<[kid := updated]> (records st))
                     (delete kid (private_keys st)));
  mret updated.

#[global] Instance in_memory_provider :
  SigningKeyProvider InMemoryEd25519KeyProvider := {
  get_key_record st kid := records st !! kid;
  provider_sign := sign_with;
}.

(** *** The store invariant *)
Record keys_wf st : Prop := {
  wf_record : ∀ kid r, records st !! kid = Some r →
    key_id r = kid ∧ length (public_key r) = 32%nat ∧
    not_before r < not_after r ∧
    (key_status r = KEY_REVOKED → is_Some (revoked_at r));
  wf_private : ∀ kid k, private_keys st !! kid = Some k →
    ∃ r, records st !! kid = Some r ∧ public_key r = raw_public k ∧
         key_status r = KEY_ACTIVE;
}.

Lemma post_init_ok r r' :
  KeyRecord_post_init r = Ok r' ↔
  r' = r ∧ not_before r < not_after r ∧ length (public_key r) = 32%nat ∧
  (key_status r = KEY_REVOKED → is_Some (revoked_at r)).
Proof.
  unfold KeyRecord_post_init. rewrite res_bind_ok. split.
  - intros (u & H1 & H2). inv_ok H1. inv_ok H2.
    apply Z.leb_gt in H1. apply negb_false_iff, Nat.eqb_eq in H0.
    apply andb_false_iff in H3. rewrite bool_decide_eq_false in H3.
    rewrite negb_false_iff, is_some_b_spec in H3. naive_solver.
  - intros (-> & Hw & Hl & Hr). exists tt.
    rewrite (proj2 (Z.leb_gt _ _) Hw). split; [done|]. rewrite Hl. simpl.
    destruct (decide (key_status r = KEY_REVOKED)) as [E|E].
    + destruct (Hr E) as [t ->]. by rewrite andb_false_r.
    + by rewrite bool_decide_eq_false_2.
Qed.

Lemma no_keys_wf : keys_wf no_keys.
Proof. split; intros ??; unfold no_keys; cbn [records private_keys]; by rewrite lookup_empty. Qed.

Lemma generate_wf `{!Ed25519Laws} key now kid owner purp nb na parent st r st' :
  keys_wf st →
  generate key now kid owner purp nb na parent st = (Ok r, st') → keys_wf st'.
Proof.
  intros [Hr Hp] Hrun. unfold generate in Hrun. inv_ok Hrun.
  apply post_init_ok in H2 as (-> & Hw & Hl & Hrev). split.
  - intros kid' r'. cbn [records]. rewrite lookup_insert. case_decide; subst.
    + by intros [= <-].
    + apply Hr.
  - intros kid' k'. cbn [records private_keys]. rewrite !lookup_insert.
    case_decide; subst; [|apply Hp].
    intros [= <-]. eexists. done.
Qed.

(** Retiring or revoking: the record is replaced, its key destroyed. *)
Lemma drop_key_wf st kid r r' :
  keys_wf st → records st !! kid = Some r →
  KeyRecord_post_init r' = Ok r' → key_id r' = key_id r →
  keys_wf (KeyStore (<[kid := r']> (records st)) (delete kid (private_keys st))).
Proof.
  intros [Hr Hp] Hlook Hpost Hkid. apply post_init_ok in Hpost as (_ & Hw & Hl & Hrev).
  split.
  - intros kid' r''. cbn [records]. rewrite lookup_insert. case_decide; subst.
    + intros [= <-]. rewrite Hkid. split; [by apply (Hr _ _ Hlook)|done].
    + apply Hr.
  - intros kid' k'. cbn [records private_keys].
    rewrite lookup_delete, lookup_insert. case_decide; [done|]. apply Hp.
Qed.

Lemma retire_wf kid st r st' :
  keys_wf st → retire kid st = (Ok r, st') → keys_wf st'.
Proof.
  intros Hwf Hrun. unfold retire, require_record in Hrun. inv_ok Hrun.
  pose proof (proj1 (post_init_ok _ _) H1) as (-> & _).
  by eapply drop_key_wf.
Qed.

Lemma revoke_wf kid reason t now st r st' :
  keys_wf st → revoke kid reason t now st = (Ok r, st') → keys_wf st'.
Proof.
  intros Hwf Hrun. unfold revoke, require_record in Hrun. inv_ok Hrun.
  pose proof (proj1 (post_init_ok _ _) H2) as (-> & _).
  by eapply drop_key_wf.
Qed.

#[global] Program Instance in_memory_spec `{!Ed25519Laws} :
  SigningKeyProviderSpec InMemoryEd25519KeyProvider := {
  provider_ok := keys_wf;
}.
Next Obligation.
  intros ? p kid r [Hr _] Hlook. destruct (Hr _ _ Hlook) as (? & ? & _). done.
Qed.
Next Obligation.
  intros ? p kid r m s [_ Hp] Hlook Hs. simpl in *. unfold sign_with in Hs.
  inv_ok Hs. destruct (Hp _ _ H1) as (r' & Hr' & Hpub & _). simplify_eq.
  rewrite Hpub. apply ed_verify_sign.
Qed.
End InMemory.
