(* ===== verification/Signatures.v ===== *)
(** [railone_crypto/signature_service.py]: versioned, domain-separated
    signatures over canonical JSON.  The service is polymorphic in its
    [SigningKeyProvider]; its theorems use the promises of
    [Keys.SigningKeyProviderSpec] only. *)

From Stdlib Require Import Ascii String Strings.Byte.
From S2P Require Import Prelude.
From S2P Require Import PyBase.
From S2P Require Import Bytes.
From S2P Require Import Sha256.
From S2P Require Import CanonicalJson.
From S2P Require Import CanonicalFacts.
From S2P Require Import Keys.

(** ** Artifact types and the key purpose that each requires *)
Inductive ArtifactType :=
  | QUOTE | UTT | RTT | ETK_S | ETK_R | EXECUTION_EVENT | IDENTITY_ATTESTATION
  | SETTLEMENT_EVIDENCE | REPLAY_CHECKPOINT | API_REQUEST_AUDIT
  | INSTITUTION_CAPABILITY_MANIFEST | PARTNER_CERTIFICATION_REPORT.

#[global] Instance ArtifactType_eq_dec : EqDecision ArtifactType.
Proof. solve_decision. Defined.

Definition all_artifact_types : list ArtifactType :=
  [QUOTE; UTT; RTT; ETK_S; ETK_R; EXECUTION_EVENT; IDENTITY_ATTESTATION;
   SETTLEMENT_EVIDENCE; REPLAY_CHECKPOINT; API_REQUEST_AUDIT;
   INSTITUTION_CAPABILITY_MANIFEST; PARTNER_CERTIFICATION_REPORT].

Definition ArtifactType_value (a : ArtifactType) : string :=
  match a with
  | QUOTE => "railone.quote"
  | UTT => "railone.utt"
  | RTT => "railone.rtt"
  | ETK_S => "railone.etk_s"
  | ETK_R => "railone.etk_r"
  | EXECUTION_EVENT => "railone.execution_event"
  | IDENTITY_ATTESTATION => "railone.identity_attestation"
  | SETTLEMENT_EVIDENCE => "railone.settlement_evidence"
  | REPLAY_CHECKPOINT => "railone.replay_checkpoint"
  | API_REQUEST_AUDIT => "railone.api_request_audit"
  | INSTITUTION_CAPABILITY_MANIFEST => "railone.institution_capability_manifest"
  | PARTNER_CERTIFICATION_REPORT => "railone.partner_certification_report"
  end.

(** [ArtifactType(value)]; [None] where the constructor raises. *)
Definition ArtifactType_of (v : option pyval) : option ArtifactType :=
  head (filter (λ a, eq_str v (ArtifactType_value a) = true) all_artifact_types).

Definition purpose_by_artifact (a : ArtifactType) : KeyPurpose :=
  match a with
  | QUOTE => QUOTE_SIGNING
  | UTT | RTT | ETK_S | ETK_R | EXECUTION_EVENT => EXECUTION_SIGNING
  | IDENTITY_ATTESTATION => IDENTITY_SIGNING
  | SETTLEMENT_EVIDENCE => SETTLEMENT_SIGNING
  | REPLAY_CHECKPOINT => REPLAY_SIGNING
  | API_REQUEST_AUDIT => API_AUDIT_SIGNING
  | INSTITUTION_CAPABILITY_MANIFEST => EXECUTION_SIGNING
  | PARTNER_CERTIFICATION_REPORT => EXECUTION_SIGNING
  end.

(** [b"RAILONE-SIGNED-ARTIFACT-V1\x00"] *)
Definition domain_prefix : bytes :=
  encode_utf8 "RAILONE-SIGNED-ARTIFACT-V1" ++ [x00].

Definition b64url_encode (value : bytes) : string :=
  rstrip_pad (urlsafe_b64encode value).
Definition b64url_decode (value : string) : res bytes :=
  urlsafe_b64decode (b64_repad value).

(** ** [SignatureEnvelope] *)
Record SignatureEnvelope := Envelope {
  protected : mapping;
  payload : mapping;
  signature : string;
}.

(** Construction freezes both mappings. *)
Definition SignatureEnvelope_new (prot pay : mapping) (sig : string) :
    SignatureEnvelope :=
  Envelope (freeze_mapping prot) (freeze_mapping pay) sig.

Definition SignatureEnvelope_to_dict (e : SignatureEnvelope) : mapping :=
  fields [("protected", PDict (thaw_mapping (protected e)));
          ("payload", PDict (thaw_mapping (payload e)));
          ("signature", PStr (signature e))].

Definition SignatureEnvelope_from_dict (value : mapping) : res SignatureEnvelope :=
  match get value "protected" with
  | Some (PDict prot) =>
      match get value "payload" with
      | Some (PDict pay) =>
          match get value "signature" with
          | Some (PStr (String c s)) =>
              mret (SignatureEnvelope_new prot pay (String c s))
          | _ => raise ValueError "signature must be a non-empty string"
          end
      | _ => raise ValueError "payload must be an object"
      end
  | _ => raise ValueError "protected header must be an object"
  end.

Record VerificationResult := Verification {
  valid : bool;
  reason : string;
  vr_key_id : option string;
  vr_artifact_type : option ArtifactType;
}.

(** [_signing_input] *)
Definition signing_input (prot pay : mapping) : res bytes :=
  b ← canonical_json_bytes (pdict [("protected", PDict prot); ("payload", PDict pay)]);
  mret (domain_prefix ++ b).

(** [protected.get("v") != 1] is false for [1], [True] and [1.0]. *)
Definition equals_one (o : option pyval) : bool :=
  match o with
  | Some (PInt z) => z =? 1
  | Some (PBool b) => b
  | Some (PFloat r) => String.eqb r "1.0"
  | _ => false
  end.

Definition is_ascii (s : string) : bool := str_forall (λ c, code c <? 128) s.

(** [hmac.compare_digest] on text: both must be ASCII. *)
Definition compare_digest (a b : string) : res bool :=
  _ ← raise_if (negb (is_ascii a && is_ascii b)) TypeError
        "comparing strings with non-ASCII characters is not supported";
  mret (String.eqb a b).

(** [Ed25519PublicKey.from_public_bytes(pk).verify(sig, msg)] *)
Definition check_signature `{Ed25519} (pk sig msg : bytes) : res unit :=
  _ ← raise_if (negb (length pk =? 32)%nat) ValueError
        "An Ed25519 public key is 32 bytes long";
  raise_if (negb (ed_verify pk sig msg)) InvalidSignature EmptyString.

Section service.
Context {P : Type} `{!SigningKeyProvider P}.

(** The protected header of a signature. *)
Definition header (r : KeyRecord) (a : ArtifactType) (t : instant) (hash : string)
    : mapping :=
  fields [("alg", PStr "EdDSA"); ("crv", PStr "Ed25519");
          ("kid", PStr (key_id r)); ("iss", PStr (owner_id r));
          ("typ", PStr (ArtifactType_value a)); ("v", PInt 1);
          ("iat", PInt (epoch t)); ("payload_sha256", PStr hash)].

(** [sign_artifact]; [t] is the requested issue time, or the clock. *)
Definition sign_artifact (p : P) (a : ArtifactType) (pay : mapping)
    (kid : string) (t : instant) : res SignatureEnvelope :=
  record ← require (get_key_record p kid) KeyError ("unknown signing key: " +:+ kid);
  _ ← raise_if (negb (bool_decide (purpose record = purpose_by_artifact a)))
        PermissionError
        ("key purpose " +:+ KeyPurpose_value (purpose record) +:+ " cannot sign "
         +:+ ArtifactType_value a);
  _ ← raise_if (negb (permits_signing_at record t)) PermissionError
        "key is not active for the requested issue time";
  b ← canonical_json_bytes (PDict pay);
  let prot := header record a t (sha256_hex b) in
  input ← signing_input prot pay;
  sig ← provider_sign p kid input;
  mret (SignatureEnvelope_new prot pay (b64url_encode sig)).

Context `{Ed25519}.

(** The body of the [try] of [verify_artifact]. *)
Definition verify_body (p : P) (e : SignatureEnvelope)
    (expected : option ArtifactType) (accept_revoked : bool)
    : res VerificationResult :=
  let prot := protected e in
  if negb (eq_str (get prot "alg") "EdDSA") || negb (eq_str (get prot "crv") "Ed25519")
  then mret (Verification false "UNSUPPORTED_ALGORITHM" None None) else
  if negb (equals_one (get prot "v"))
  then mret (Verification false "UNSUPPORTED_SIGNATURE_VERSION" None None) else
  match get prot "kid" with
  | Some (PStr (String c s)) =>
    let kid := String c s in
    match ArtifactType_of (get prot "typ") with
    | None => mret (Verification false "ARTIFACT_TYPE_INVALID" (Some kid) None)
    | Some a =>
      let refuse why := mret (Verification false why (Some kid) (Some a)) in
      if is_some_b expected && negb (bool_decide (Some a = expected))
      then refuse "ARTIFACT_TYPE_MISMATCH" else
      match get_key_record p kid with
      | None => refuse "KEY_NOT_FOUND"
      | Some record =>
        if negb (eq_str (get prot "iss") (owner_id record))
        then refuse "ISSUER_MISMATCH" else
        if negb (bool_decide (purpose record = purpose_by_artifact a))
        then refuse "KEY_PURPOSE_MISMATCH" else
        if bool_decide (key_status record = KEY_REVOKED) && negb accept_revoked
        then refuse "KEY_REVOKED" else
        match match get prot "iat" with Some v => as_int v | None => raise TypeError "None" end with
        | Err _ => refuse "ISSUED_AT_INVALID"
        | Ok iat =>
          issued_at ← fromtimestamp iat;
          if negb ((not_before record <=? issued_at) && (issued_at <? not_after record))
          then refuse "KEY_NOT_VALID_AT_ISSUANCE" else
          b ← canonical_json_bytes (PDict (payload e));
          same ← match get prot "payload_sha256" with
                 | Some (PStr h) => compare_digest (sha256_hex b) h
                 | _ => mret false
                 end;
          if negb same then refuse "PAYLOAD_HASH_MISMATCH" else
          sig ← b64url_decode (signature e);
          input ← signing_input prot (payload e);
          _ ← check_signature (public_key record) sig input;
          mret (Verification true "VALID" (Some kid) (Some a))
        end
      end
    end
  | _ => mret (Verification false "KEY_ID_MISSING" None None)
  end.

Definition caught_by_verify (k : exn_kind) : bool :=
  subclass k InvalidSignature || subclass k ValueError || subclass k TypeError.

Definition verify_artifact (p : P) (e : SignatureEnvelope)
    (expected : option ArtifactType) (accept_revoked : bool)
    : res VerificationResult :=
  catch_res caught_by_verify (verify_body p e expected accept_revoked)
    (λ _, mret (Verification false "SIGNATURE_INVALID" None None)).
End service.

(** ** Lemmas *)
Lemma b64url_roundtrip b : b64url_decode (b64url_encode b) = Ok b.
Proof. apply b64_roundtrip. Qed.

Lemma signing_input_ok prot pay input :
  signing_input prot pay = Ok input ↔
  ∃ b, canonical_json_bytes
         (pdict [("protected", PDict prot); ("payload", PDict pay)]) = Ok b ∧
       input = domain_prefix ++ b.
Proof.
  unfold signing_input. rewrite res_bind_ok. by setoid_rewrite res_ret_ok.
Qed.

(** The signed object, up to [py_same], is its two mappings. *)
Lemma same_signed prot prot' pay pay' :
  py_same (pdict [("protected", PDict prot); ("payload", PDict pay)])
          (pdict [("protected", PDict prot'); ("payload", PDict pay')]) ↔
  py_same (PDict prot) (PDict prot') ∧ py_same (PDict pay) (PDict pay').
Proof.
  unfold py_same, pdict. cbn [fmap list_fmap fst snd canon map].
  unfold sort_on. cbn [py_sorted foldr insert_sorted].
  repeat case_decide; (split; [intros Heq; injection Heq; intros; split; congruence
                              | intros [-> ->]; done]).
Qed.

Lemma signing_input_same prot prot' pay pay' input :
  py_same (PDict prot) (PDict prot') → py_same (PDict pay) (PDict pay') →
  signing_input prot pay = Ok input → signing_input prot' pay' = Ok input.
Proof.
  rewrite !signing_input_ok. intros Hp Hq (b & Hb & ->). exists b. split; [|done].
  eapply canonical_same; [done|]. by apply same_signed.
Qed.

Lemma signing_input_inj prot prot' pay pay' input :
  signing_input prot pay = Ok input → signing_input prot' pay' = Ok input →
  py_same (PDict prot) (PDict prot') ∧ py_same (PDict pay) (PDict pay').
Proof.
  rewrite !signing_input_ok. intros (b & Hb & ->) (b' & Hb' & Heq).
  apply app_inv_head in Heq as <-. apply same_signed. by eapply canonical_bytes_inj.
Qed.

Lemma ArtifactType_of_value a : ArtifactType_of (Some (PStr (ArtifactType_value a))) = Some a.
Proof. by destruct a. Qed.

Lemma ArtifactType_value_inj : Inj (=) (=) ArtifactType_value.
Proof. intros [] []; done. Qed.

Lemma ArtifactType_of_spec v a :
  ArtifactType_of v = Some a ↔ v = Some (PStr (ArtifactType_value a)).
Proof.
  split; [|intros ->; apply ArtifactType_of_value].
  intros Hh. unfold ArtifactType_of in Hh. apply head_Some_elem_of in Hh.
  apply list_elem_of_filter in Hh as [Hv _].
  destruct v as [[]|]; try done. simpl in Hv. apply String.eqb_eq in Hv. by subst.
Qed.

(** Every byte of a digest is printed in ASCII. *)
Lemma hex_ascii b : is_ascii (hex b) = true.
Proof.
  unfold is_ascii. induction b as [|x b IH]; [done|]. by destruct x.
Qed.

Lemma compare_digest_ok a b c :
  compare_digest a b = Ok c ↔
  is_ascii a = true ∧ is_ascii b = true ∧ c = String.eqb a b.
Proof.
  unfold compare_digest. rewrite res_bind_ok. setoid_rewrite res_raise_if_ok.
  setoid_rewrite res_ret_ok. destruct (is_ascii a), (is_ascii b); simpl;
    (split; [naive_solver|]); naive_solver.
Qed.

Lemma check_signature_ok `{Ed25519} pk sig msg :
  check_signature pk sig msg = Ok tt ↔
  length pk = 32%nat ∧ ed_verify pk sig msg = true.
Proof.
  unfold check_signature. rewrite res_bind_ok. setoid_rewrite res_raise_if_ok.
  destruct (Nat.eqb_spec (length pk) 32) as [->|Hne], (ed_verify pk sig msg); naive_solver.
Qed.

(** The header that a signature carries, read back. *)
Lemma header_fields r a t h :
  let prot := freeze_mapping (header r a t h) in
  get prot "alg" = Some (PStr "EdDSA") ∧ get prot "crv" = Some (PStr "Ed25519") ∧
  get prot "kid" = Some (PStr (key_id r)) ∧ get prot "iss" = Some (PStr (owner_id r)) ∧
  get prot "typ" = Some (PStr (ArtifactType_value a)) ∧ get prot "v" = Some (PInt 1) ∧
  get prot "iat" = Some (PInt (epoch t)) ∧ get prot "payload_sha256" = Some (PStr h).
Proof. done. Qed.

Lemma eq_str_true o s : eq_str o s = true ↔ o = Some (PStr s).
Proof.
  destruct o as [[]|]; simpl; rewrite ?String.eqb_eq; naive_solver.
Qed.

Section service_facts.
Context `{Ed25519} {P : Type} `{!SigningKeyProvider P}.

Lemma sign_artifact_ok (p : P) a pay kid t e :
  sign_artifact p a pay kid t = Ok e ↔
  ∃ r b input sig,
    get_key_record p kid = Some r ∧ purpose r = purpose_by_artifact a ∧
    permits_signing_at r t = true ∧
    canonical_json_bytes (PDict pay) = Ok b ∧
    signing_input (header r a t (sha256_hex b)) pay = Ok input ∧
    provider_sign p kid input = Ok sig ∧
    e = SignatureEnvelope_new (header r a t (sha256_hex b)) pay (b64url_encode sig).
Proof.
  split.
  - intros Hs. unfold sign_artifact in Hs. inv_ok Hs.
    apply negb_false_iff in H1, H2. apply bool_decide_eq_true in H1. subst.
    eauto 15.
  - intros (r & b & input & sig & Hr & Hpu & Ht & Hb & Hi & Hs & ->).
    unfold sign_artifact. rewrite Hr. simpl.
    rewrite (bool_decide_eq_true_2 _ Hpu), Ht. simpl. rewrite Hb. simpl.
    by rewrite Hi; simpl; rewrite Hs.
Qed.

(** A [VALID] answer means that every check passed. *)
Lemma verify_valid (p : P) e expected acc res :
  verify_artifact p e expected acc = Ok res → valid res = true →
  ∃ kid a r iat b input sig,
    get (protected e) "kid" = Some (PStr kid) ∧
    get (protected e) "typ" = Some (PStr (ArtifactType_value a)) ∧
    (∀ a', expected = Some a' → a' = a) ∧
    get_key_record p kid = Some r ∧
    get (protected e) "iss" = Some (PStr (owner_id r)) ∧
    purpose r = purpose_by_artifact a ∧
    (key_status r = KEY_REVOKED → acc = true) ∧
    not_before r <= seconds iat < not_after r ∧
    (get (protected e) "iat" = Some (PInt iat) ∨
     ∃ c, get (protected e) "iat" = Some (PBool c) ∧ iat = Z.b2z c) ∧
    canonical_json_bytes (PDict (payload e)) = Ok b ∧
    get (protected e) "payload_sha256" = Some (PStr (sha256_hex b)) ∧
    b64url_decode (signature e) = Ok sig ∧
    signing_input (protected e) (payload e) = Ok input ∧
    ed_verify (public_key r) sig input = true ∧
    res = Verification true "VALID" (Some kid) (Some a).
Proof.
  unfold verify_artifact, catch_res.
  destruct (verify_body p e expected acc) as [res'|x] eqn:Hbody;
    [|case_match; [by intros [= <-]|done]].
  intros [= ->] Hv. unfold verify_body in Hbody.
  repeat (case_match; try (by inv_ok Hbody)).
  all: inv_ok Hbody.
  all: repeat (case_match; try (by inv_ok Hbody)).
  all: inv_ok Hbody; try simplify_eq/=; cbn [negb] in Hbody; try (by inv_ok Hbody).
  destruct v1; cbn [negb] in Hbody; [|by inv_ok Hbody]. inv_ok Hbody.
  match goal with
  | Hty : ArtifactType_of _ = Some _, Hc : compare_digest _ _ = Ok _,
    Hi : as_int _ = Ok _, Ht : fromtimestamp _ = Ok _,
    Hs : check_signature _ _ _ = Ok ?u |- _ =>
      destruct u; apply ArtifactType_of_spec in Hty;
      apply compare_digest_ok in Hc as (_ & _ & Hc); symmetry in Hc;
      apply String.eqb_eq in Hc as <-; apply fromtimestamp_ok in Ht as [-> _];
      apply check_signature_ok in Hs as [_ Hs]
  end.
  rewrite ?negb_false_iff, ?andb_false_iff, ?andb_true_iff, ?negb_false_iff,
    ?bool_decide_eq_true, ?bool_decide_eq_false, ?eq_str_true, ?Z.leb_le, ?Z.ltb_lt in *.
  eexists _, _, _, a1, _, _, _. split_and!; try done.
  - intros a' ->. naive_solver.
  - naive_solver.
  - naive_solver.
  - naive_solver.
  - destruct p2; cbn [as_int] in *; inv_ok H11; naive_solver.
Qed.

(** The same key, possibly retired or revoked since. *)
Definition same_key (r r' : KeyRecord) : Prop :=
  key_id r' = key_id r ∧ owner_id r' = owner_id r ∧ purpose r' = purpose r ∧
  public_key r' = public_key r ∧
  not_before r' = not_before r ∧ not_after r' = not_after r.

(** The checks of [verify_body] in the order that they are made, for a header
    that [sign_artifact] wrote. *)
Lemma verify_signed (p : P) e r a t b sig input acc :
  protected e = freeze_mapping (header r a t (sha256_hex b)) →
  key_id r ≠ EmptyString →
  get_key_record p (key_id r) = Some r →
  purpose r = purpose_by_artifact a →
  (key_status r = KEY_REVOKED → acc = true) →
  not_before r <= seconds (epoch t) < not_after r →
  -62135596800 <= epoch t <= 253402300799 →
  canonical_json_bytes (PDict (payload e)) = Ok b →
  b64url_decode (signature e) = Ok sig →
  signing_input (protected e) (payload e) = Ok input →
  check_signature (public_key r) sig input = Ok tt →
  verify_artifact p e (Some a) acc
  = Ok (Verification true "VALID" (Some (key_id r)) (Some a)).
Proof.
  intros Hprot Hkid Hrec Hpur Hrev [Hnb Hna] Hrange Hb Hsig Hin Hchk.
  unfold verify_artifact, verify_body. rewrite Hin, Hprot.
  destruct (header_fields r a t (sha256_hex b)) as (-> & -> & -> & -> & -> & -> & -> & ->).
  cbn [eq_str equals_one as_int]. rewrite ArtifactType_of_value.
  destruct (key_id r) as [|c s] eqn:Hk; [done|].
  rewrite Hrec, !(bool_decide_eq_true_2 _ Hpur), !String.eqb_refl, Z.eqb_refl.
  rewrite (bool_decide_eq_true_2 (Some a = Some a)) by done.
  assert (bool_decide (key_status r = KEY_REVOKED) && negb acc = false) as ->.
  { case_bool_decide; [by rewrite Hrev|done]. }
  cbn [negb orb andb is_some_b mret res_ret].
  rewrite (proj2 (fromtimestamp_ok (epoch t) (seconds (epoch t)))) by done.
  cbn [mbind res_bind].
  rewrite (proj2 (Z.leb_le _ _) Hnb), (proj2 (Z.ltb_lt _ _) Hna), Hb.
  cbn [negb andb mbind res_bind].
  rewrite (proj2 (compare_digest_ok (sha256_hex b) (sha256_hex b) true))
    by (split_and!; [apply hex_ascii..|by rewrite String.eqb_refl]).
  cbn [negb mbind res_bind]. rewrite Hsig. cbn [mbind res_bind]. by rewrite Hchk.
Qed.

(** *** What verification can raise *)
Definition raises_caught {A} (m : res A) : Prop :=
  match m with Ok _ => True | Err x => caught_by_verify (exn_class x) = true end.

Lemma caught_bind {A B} (m : res A) (f : A → res B) :
  raises_caught m → (∀ a, m = Ok a → raises_caught (f a)) → raises_caught (m ≫= f).
Proof. destruct m; simpl; auto. Qed.

Lemma validate_caught v path : raises_caught (validate v path).
Proof.
  revert path. induction v as [| | | | | |l IH|l IH|l IH|] using pyval_deep_ind;
    intros path; try done.
  1, 2: cbn [validate]; generalize 0; induction IH as [|x l Hx _ IHl]; intros i; [done|];
    specialize (Hx (path +:+ "[" +:+ str_int i +:+ "]"));
    destruct (validate x _); [apply IHl|done].
  cbn [validate]. induction IH as [|[[k|k] x] l Hx _ IHl]; [done| |done].
  specialize (Hx (path +:+ "." +:+ k)). cbn [snd] in Hx.
  destruct (validate x _); [apply IHl|done].
Qed.

Lemma canonical_caught v : raises_caught (canonical_json_bytes v).
Proof.
  unfold canonical_json_bytes. apply caught_bind; [apply validate_caught|].
  intros _ _. apply caught_bind; [by destruct (printable_ints v)|].
  intros _ _. unfold utf8_encode. by destruct (has_surrogate _).
Qed.

Lemma a2b_caught s q l n : raises_caught (a2b_base64 s q l n).
Proof.
  revert q l n. induction s as [|c s IH]; intros q l n; cbn [a2b_base64].
  - by case_match.
  - repeat case_match; try done; try apply IH;
      (apply caught_bind; [apply IH|done]).
Qed.

Lemma b64decode_caught s : raises_caught (b64url_decode s).
Proof.
  unfold b64url_decode, urlsafe_b64decode. case_match; [apply a2b_caught|done].
Qed.

(** Everything in the body raises what the handler catches, except the
    conversion of the issue time. *)
Lemma verify_body_raises (p : P) e expected acc x :
  verify_body p e expected acc = Err x →
  caught_by_verify (exn_class x) = true ∨
  ∃ iat, fromtimestamp iat = Err x.
Proof.
  set (R := λ m : res VerificationResult, match m with
    | Ok _ => True
    | Err x => caught_by_verify (exn_class x) = true ∨ ∃ iat, fromtimestamp iat = Err x end).
  intros Hx. enough (R (verify_body p e expected acc)) as HR by by rewrite Hx in HR.
  assert (∀ m, raises_caught m → R m) as Hsub by (intros [] ?; [done|by left]).
  clear Hx. unfold verify_body. repeat (case_match; try done).
  all: destruct (fromtimestamp _) eqn:Hf; [|by right; eexists]; cbn [mbind res_bind];
    case_match; [done|]; apply Hsub; apply caught_bind; [apply canonical_caught|].
  all: intros b1 Hb1; apply caught_bind.
  all: try (by unfold compare_digest; destruct (is_ascii _ && is_ascii _)); try done.
  all: intros [] _; cbn [negb]; [|done].
  all: apply caught_bind; [apply b64decode_caught|]; intros sig _.
  all: apply caught_bind; [apply caught_bind; [apply canonical_caught|done]|].
  all: intros input _; apply caught_bind; [|done].
  all: unfold check_signature; destruct (length _ =? 32)%nat, (ed_verify _ _ _); done.
Qed.
End service_facts.

(** ** A concrete signer, for evaluating the model *)
Module DemoSigner.
#[export] Existing Instances ToyEd25519.toy ToyEd25519.toy_laws.

Definition private : bytes := encode_utf8 "demo".
Definition store_with (k : private_key) (kid : string) (purp : KeyPurpose)
    (nb na : instant) : InMemoryEd25519KeyProvider :=
  (generate k nb kid "RAILONE" purp nb na None no_keys).2.

Definition quote_keys : InMemoryEd25519KeyProvider :=
  store_with private "K1" QUOTE_SIGNING (seconds 100) (seconds 900).
Definition quote_payload : mapping :=
  fields [("amount", PInt 250); ("legs", PTuple [PStr "a"; PNone])].

Lemma store_with_wf k kid purp nb na : keys_wf (store_with k kid purp nb na).
Proof.
  unfold store_with. destruct (generate _ _ _ _ _ _ _ _ no_keys) as [[r|x] st] eqn:Hg.
  - simpl. eapply generate_wf; [apply no_keys_wf|done].
  - simpl. assert (st = no_keys) as ->; [|apply no_keys_wf].
    revert Hg. unfold generate, getS, lift, putS, mbind, M_bind, raise_if.
    simpl. rewrite lookup_empty. simpl. case_match; by intros [=].
Qed.
End DemoSigner.
Import DemoSigner.

(** ** The guarantees *)

(** C23 An envelope that [sign_artifact] returns verifies as [VALID] for its
    own type, under every later version of the key store that still holds the
    key (retired keys included; revoked ones when the caller accepts them),
    provided that the whole second of the issue time lies in the key's
    validity window. *)
Theorem sign_then_verify `{Ed25519} {P : Type} `{!SigningKeyProvider P}
    `{!SigningKeyProviderSpec P} (p p' : P) a pay kid t e r r' acc :
  provider_ok p →
  get_key_record p kid = Some r → get_key_record p' kid = Some r' →
  same_key r r' → (key_status r' = KEY_REVOKED → acc = true) →
  kid ≠ EmptyString →
  not_before r <= seconds (epoch t) < not_after r →
  -62135596800 <= epoch t <= 253402300799 →
  sign_artifact p a pay kid t = Ok e →
  verify_artifact p' e (Some a) acc
  = Ok (Verification true "VALID" (Some kid) (Some a)).
Proof.
  intros Hp Hr Hr' (Hk & Ho & Hu & Hpk & Hnb & Hna) Hrev Hkid Hwin Hrange Hs.
  apply sign_artifact_ok in Hs as (r0 & b & input & sig & Hr0 & Hpur & _ & Hb & Hi & Hsig & ->).
  simplify_eq. destruct (provider_record p kid r Hp Hr) as [<- Hlen].
  assert (header r a t (sha256_hex b) = header r' a t (sha256_hex b)) as Hh
    by (unfold header; congruence).
  rewrite <- Hk. eapply (verify_signed _ _ r' a t b sig input); try congruence.
  - by rewrite <- Hh.
  - done.
  - eapply canonical_same; [done|]. symmetry. apply freeze_mapping_same.
  - apply b64url_roundtrip.
  - eapply (signing_input_same (header r a t (sha256_hex b)) _ pay), Hi; symmetry;
      apply freeze_mapping_same.
  - apply check_signature_ok. rewrite Hpk. split; [done|].
    by eapply provider_signs.
Qed.

Lemma sign_then_verify_witness :
  ∃ e, sign_artifact quote_keys QUOTE quote_payload "K1" (seconds 300) = Ok e ∧
  verify_artifact (retire "K1" quote_keys).2 e (Some QUOTE) false
  = Ok (Verification true "VALID" (Some "K1") (Some QUOTE)).
Proof.
  eexists. split; [vm_compute; reflexivity|].
  eapply (sign_then_verify quote_keys _ QUOTE quote_payload "K1" (seconds 300));
    [..|vm_compute; reflexivity].
  - apply store_with_wf.
  - vm_compute; reflexivity.
  - vm_compute; reflexivity.
  - vm_compute; tauto.
  - vm_compute; discriminate.
  - discriminate.
  - vm_compute; intuition discriminate.
  - vm_compute; intuition discriminate.
Defined.

(** The released envelope, if any, that signs the message [m]. *)
Definition signs_message (m : bytes) (e : SignatureEnvelope) : Prop :=
  signing_input (protected e) (payload e) = Ok m.

#[global] Instance signs_message_dec m e : Decision (signs_message m e).
Proof.
  unfold signs_message. destruct (signing_input _ _) as [b|x]; [|by right].
  destruct (decide (b = m)) as [->|Hne]; [by left|right; by intros [= ?]].
Defined.

(** C5 Authenticity: let [released] be envelopes that [sign_artifact] returned.
    An envelope that verifies as [VALID] carries, up to dictionary order and
    list/tuple spelling, the protected header and the payload of a released one,
    and its type is the type signed; or else it exhibits a forgery: its signature
    verifies, under the public key of the record that its header names, on a
    message that no released envelope signs. *)
Theorem valid_is_authentic `{Ed25519} {P : Type} `{!SigningKeyProvider P}
    (p : P) (released : list SignatureEnvelope) e expected acc res :
  Forall (λ e0, ∃ (p0 : P) a0 pay0 kid0 t0, sign_artifact p0 a0 pay0 kid0 t0 = Ok e0) released →
  verify_artifact p e expected acc = Ok res → valid res = true →
  (∃ (p0 : P) a0 pay0 kid0 t0 e0, e0 ∈ released ∧ sign_artifact p0 a0 pay0 kid0 t0 = Ok e0 ∧
     py_same (PDict (protected e)) (PDict (protected e0)) ∧
     py_same (PDict (payload e)) (PDict pay0) ∧
     vr_artifact_type res = Some a0) ∨
  (∃ kid r sig m, get (protected e) "kid" = Some (PStr kid) ∧ get_key_record p kid = Some r ∧
     b64url_decode (signature e) = Ok sig ∧ signing_input (protected e) (payload e) = Ok m ∧
     ed_verify (public_key r) sig m = true ∧ ∀ e0, e0 ∈ released → ¬ signs_message m e0).
Proof.
  intros Hrel Hv Hval.
  apply verify_valid in Hv as (kid & a & r & iat & b & input & sig & Hk & Hty & _ & Hr
    & _ & _ & _ & _ & _ & _ & _ & Hdec & Hin & Hver & ->); [|done].
  destruct (decide (Exists (signs_message input) released)) as [Hex|Hno]; [left|right].
  - apply Exists_exists in Hex as (e0 & He0 & Hin0). rewrite Forall_forall in Hrel.
    destruct (Hrel _ He0) as (p0 & a0 & pay0 & kid0 & t0 & Hs).
    exists p0, a0, pay0, kid0, t0, e0. split; [done|]. split; [done|].
    destruct (signing_input_inj _ _ _ _ _ Hin Hin0) as [Hprot Hpay].
    apply sign_artifact_ok in Hs as (r0 & b0 & i0 & s0 & _ & _ & _ & _ & _ & _ & ->).
    split_and!; [done|by rewrite Hpay; apply freeze_mapping_same|].
    assert (NoDup (fst <$> freeze_mapping (header r0 a0 t0 (sha256_hex b0)))) as Hnd
      by (apply (bool_decide_unpack _); vm_compute; exact I).
    destruct (py_same_get _ _ "typ" _ Hprot Hnd Hty) as (v & [= <-] & [= Hsame]).
    by apply ArtifactType_value_inj in Hsame as ->.
  - exists kid, r, sig, input. split_and!; try done.
    intros e0 He0 Hm. apply Hno, Exists_exists. eauto.
Qed.

Definition demo_envelope : SignatureEnvelope :=
  match sign_artifact quote_keys QUOTE quote_payload "K1" (seconds 300) with
  | Ok e => e
  | Err _ => Envelope [] [] EmptyString
  end.

Lemma valid_is_authentic_witness :
  ∃ (p0 : InMemoryEd25519KeyProvider) a0 pay0 kid0 t0 e0,
    e0 ∈ [demo_envelope] ∧ sign_artifact p0 a0 pay0 kid0 t0 = Ok e0 ∧
    py_same (PDict (protected demo_envelope)) (PDict (protected e0)) ∧
    py_same (PDict (payload demo_envelope)) (PDict pay0) ∧
    Some QUOTE = Some a0.
Proof.
  destruct (valid_is_authentic quote_keys [demo_envelope] demo_envelope None false
    (Verification true "VALID" (Some "K1") (Some QUOTE))) as [Hok|Hforged].
  - constructor; [|constructor]. exists quote_keys, QUOTE, quote_payload, "K1", (seconds 300).
    vm_compute; reflexivity.
  - vm_compute; reflexivity.
  - reflexivity.
  - exact Hok.
  - exfalso. destruct Hforged as (kid & r & sig & m' & _ & _ & _ & Hin & _ & Hno).
    apply (Hno demo_envelope); [by left|exact Hin].
Defined.

(** C33 [verify_artifact] reports every malformed, forged or mismatched
    envelope as a result; the only exceptions that escape it are the
    [OverflowError] and [OSError] of an issue time that no [datetime] can
    represent. *)
Theorem verify_escapes `{Ed25519} {P : Type} `{!SigningKeyProvider P}
    (p : P) e expected acc x :
  verify_artifact p e expected acc = Err x →
  exn_class x = OverflowError ∨ exn_class x = OSError.
Proof.
  unfold verify_artifact, catch_res. destruct (verify_body _ _ _ _) as [|x'] eqn:Hb; [done|].
  case_match eqn:Hc; [done|]. intros [= ->].
  destruct (verify_body_raises _ _ _ _ _ Hb) as [Hc'|[iat Hf]]; [congruence|].
  unfold fromtimestamp, raise, raise_exn, res_raise in Hf.
  repeat case_match; try discriminate Hf; injection Hf as <-;
    try discriminate Hc; auto.
Qed.

(** A header whose issue time overflows a C [time_t] does raise. *)
Definition overflowing : SignatureEnvelope :=
  Envelope (fields [("alg", PStr "EdDSA"); ("crv", PStr "Ed25519"); ("kid", PStr "K1");
    ("iss", PStr "RAILONE"); ("typ", PStr "railone.quote"); ("v", PInt 1);
    ("iat", PInt (2 ^ 63))]) [] "AA".

Lemma verify_escapes_witness :
  ∃ x, verify_artifact quote_keys overflowing None false = Err x ∧
  (exn_class x = OverflowError ∨ exn_class x = OSError).
Proof.
  eexists. split; [vm_compute; reflexivity|].
  eapply (verify_escapes quote_keys overflowing None false). vm_compute; reflexivity.
Defined.

(** Signing checks the key's window at the instant, verification at its
    whole second: an artifact signed within the first second of a window that
    opens between two seconds is refused by the verifier. *)
Theorem signed_but_refused :
  let p := store_with private "K1" QUOTE_SIGNING (seconds 100 + 500000) (seconds 900) in
  ∃ e, sign_artifact p QUOTE quote_payload "K1" (seconds 100 + 600000) = Ok e ∧
    verify_artifact p e (Some QUOTE) false
    = Ok (Verification false "KEY_NOT_VALID_AT_ISSUANCE" (Some "K1") (Some QUOTE)).
Proof. eexists. split; [vm_compute; reflexivity|vm_compute; reflexivity]. Qed.

(** Tampering: two envelopes that verify as [VALID] and claim the same
    payload digest carry the same payload, or exhibit a SHA-256 collision. *)
Theorem payload_hash_binds `{Ed25519} {P : Type} `{!SigningKeyProvider P}
    (p : P) e1 e2 x1 x2 acc r1 r2 :
  verify_artifact p e1 x1 acc = Ok r1 → valid r1 = true →
  verify_artifact p e2 x2 acc = Ok r2 → valid r2 = true →
  get (protected e1) "payload_sha256" = get (protected e2) "payload_sha256" →
  py_same (PDict (payload e1)) (PDict (payload e2)) ∨ ∃ m m', sha256_collision m m'.
Proof.
  intros Hv1 Hr1 Hv2 Hr2 Hsame.
  apply verify_valid in Hv1 as (? & ? & ? & ? & b1 & ? & ? & _ & _ & _ & _ & _ & _ & _ & _ & _ & Hb1 & Hh1 & _); [|done].
  apply verify_valid in Hv2 as (? & ? & ? & ? & b2 & ? & ? & _ & _ & _ & _ & _ & _ & _ & _ & _ & Hb2 & Hh2 & _); [|done].
  assert (sha256_hex b1 = sha256_hex b2) as Hhex by congruence. clear Hsame Hh1 Hh2.
  destruct (decide (b1 = b2)) as [->|Hne].
  - left. by eapply canonical_bytes_inj.
  - right. exists b1, b2. split; [done|]. by apply sha256_hex_inj.
Qed.

Lemma payload_hash_binds_witness :
  py_same (PDict (payload demo_envelope)) (PDict (payload demo_envelope))
  ∨ ∃ m m', sha256_collision m m'.
Proof.
  eapply (payload_hash_binds quote_keys demo_envelope demo_envelope None None false);
    vm_compute; reflexivity.
Defined.
