(* ===== verification/ContractModels.v ===== *)
(** [railone_contracts/models.py]: commercial contract inputs, normalised and
    checked before they become payloads.  Integer and text arguments carry
    their annotated types; payload values read back from signed artifacts are
    dynamic ([pyval]). *)

From Stdlib Require Import Ascii String.
From S2P Require Import Prelude.
From S2P Require Import PyBase.
From S2P Require Import CanonicalJson.

(** [require_text] of a dynamic value. *)
Definition require_text_v (name : string) (v : pyval) : res string :=
  match v with
  | PStr s => require_text name s
  | _ => raise ValueError (name +:+ " is required")
  end.

Definition require_minor_units (name : string) (allow_zero : bool) (value : Z)
    : res Z :=
  let minimum := if allow_zero then 0 else 1 in
  let qualifier := if allow_zero then "non-negative" else "positive" in
  _ ← raise_if (value <? minimum) ValueError (name +:+ " must be " +:+ qualifier);
  mret value.

(** ** Enumerations *)
Inductive ContextType := CTX_P2P | CTX_MERCHANT | CTX_PARTNER.
Inductive PaymentPurpose :=
  | PERSON_TO_PERSON | SUPPLIER_PAYMENT | BRANCH_FUND_TRANSFER
  | MERCHANT_TO_MERCHANT | REFUND | EXPENSE_SETTLEMENT | BULK_DISBURSEMENT.
Inductive AccountRole := DEBIT | CREDIT.
Inductive AccountType := BANK_ACCOUNT | MOBILE_MONEY | WALLET | CARD_ACCOUNT.

#[global] Instance ContextType_eq_dec : EqDecision ContextType.
Proof. solve_decision. Defined.
#[global] Instance PaymentPurpose_eq_dec : EqDecision PaymentPurpose.
Proof. solve_decision. Defined.
#[global] Instance AccountRole_eq_dec : EqDecision AccountRole.
Proof. solve_decision. Defined.
#[global] Instance AccountType_eq_dec : EqDecision AccountType.
Proof. solve_decision. Defined.

Definition ContextType_value (c : ContextType) : string :=
  match c with CTX_P2P => "P2P" | CTX_MERCHANT => "MERCHANT" | CTX_PARTNER => "PARTNER" end.
Definition PaymentPurpose_value (p : PaymentPurpose) : string :=
  match p with
  | PERSON_TO_PERSON => "PERSON_TO_PERSON"
  | SUPPLIER_PAYMENT => "SUPPLIER_PAYMENT"
  | BRANCH_FUND_TRANSFER => "BRANCH_FUND_TRANSFER"
  | MERCHANT_TO_MERCHANT => "MERCHANT_TO_MERCHANT"
  | REFUND => "REFUND"
  | EXPENSE_SETTLEMENT => "EXPENSE_SETTLEMENT"
  | BULK_DISBURSEMENT => "BULK_DISBURSEMENT"
  end.
Definition AccountRole_value (r : AccountRole) : string :=
  match r with DEBIT => "DEBIT" | CREDIT => "CREDIT" end.
Definition AccountType_value (t : AccountType) : string :=
  match t with
  | BANK_ACCOUNT => "BANK_ACCOUNT" | MOBILE_MONEY => "MOBILE_MONEY"
  | WALLET => "WALLET" | CARD_ACCOUNT => "CARD_ACCOUNT"
  end.

(** [Enum(value)]: the member with that value. *)
Definition enum_of {A} (members : list A) (value : A → string) (v : pyval)
    : option A :=
  head (filter (λ a, eq_str (Some v) (value a) = true) members).
Definition AccountRole_of : pyval → option AccountRole :=
  enum_of [DEBIT; CREDIT] AccountRole_value.
Definition AccountType_of : pyval → option AccountType :=
  enum_of [BANK_ACCOUNT; MOBILE_MONEY; WALLET; CARD_ACCOUNT] AccountType_value.

(** ** [AccountEndpoint] *)
Record AccountEndpoint := {
  ep_institution_id : string;
  ep_display_name : string;
  ep_binding_id : string;
  ep_role : AccountRole;
  ep_type : AccountType;
  ep_display_hint : string;
  ep_contact_binding_id : string;
  ep_attestation_reference : string;
}.

Definition AccountEndpoint_to_payload (e : AccountEndpoint) : res mapping :=
  institution ← require_text "institution_id" (ep_institution_id e);
  name ← require_text "institution_display_name" (ep_display_name e);
  binding ← require_text "account_binding_id" (ep_binding_id e);
  hint ← require_text "display_hint" (ep_display_hint e);
  contact ← require_text "contact_binding_id" (ep_contact_binding_id e);
  attestation ← require_text "attestation_reference" (ep_attestation_reference e);
  mret (fields [
    ("institution_id", PStr institution);
    ("institution_display_name", PStr (str_take 48 name));
    ("account_binding_id", PStr binding);
    ("role", PStr (AccountRole_value (ep_role e)));
    ("account_type", PStr (AccountType_value (ep_type e)));
    ("display_hint", PStr (str_take 32 hint));
    ("contact_binding_id", PStr contact);
    ("attestation_reference", PStr attestation)]).

(** [AccountEndpoint.from_payload]: every failure becomes one [ValueError].
    [str(value)] is modelled on text, integers, booleans and [None]; other
    values do not occur in a payload that [to_payload] wrote. *)
Definition str_of (v : pyval) : res string :=
  match v with
  | PStr s => mret s
  | PInt z => mret (str_int z)
  | PBool true => mret "True"
  | PBool false => mret "False"
  | PNone => mret "None"
  | _ => raise TypeError "str of a container"
  end.
Definition str_field (m : mapping) (k : string) : res string :=
  v ← item m k; str_of v.

Definition AccountEndpoint_from_payload (value : mapping) : res AccountEndpoint :=
  catch_res (λ k, subclass k KeyError || subclass k TypeError || subclass k ValueError)
    (institution ← str_field value "institution_id";
     name ← str_field value "institution_display_name";
     binding ← str_field value "account_binding_id";
     rv ← item value "role";
     role ← require (AccountRole_of rv) ValueError "not a valid AccountRole";
     tv ← item value "account_type";
     ty ← require (AccountType_of tv) ValueError "not a valid AccountType";
     hint ← str_field value "display_hint";
     contact ← str_field value "contact_binding_id";
     attestation ← str_field value "attestation_reference";
     mret {| ep_institution_id := institution; ep_display_name := name;
             ep_binding_id := binding; ep_role := role; ep_type := ty;
             ep_display_hint := hint; ep_contact_binding_id := contact;
             ep_attestation_reference := attestation |})
    (λ _, raise ValueError "invalid account endpoint snapshot").

(** ** [ActorReference] *)
Record ActorReference := {
  actor_type : string;
  actor_id : string;
  actor_endpoint : AccountEndpoint;
  actor_display_name : option string;
}.

(** [str.title()] on ASCII text. *)
Fixpoint title_from (start : bool) (s : string) : string :=
  match s with
  | EmptyString => EmptyString
  | String c s' =>
      let letter := is_lower c || is_upper c in
      String (if start then upper_char c else lower_char c)
        (title_from (negb letter) s')
  end.
Definition title : string → string := title_from true.

Definition ActorReference_to_payload (a : ActorReference) : res mapping :=
  display ← match actor_display_name a with
            | Some (String c s) => mret (String c s)
            | _ => t ← require_text "actor_type" (actor_type a); mret (title t)
            end;
  ty ← require_text "actor_type" (actor_type a);
  id ← require_text "actor_id" (actor_id a);
  name ← require_text "display_name" display;
  endpoint ← AccountEndpoint_to_payload (actor_endpoint a);
  mret (fields [("actor_type", PStr (upper ty)); ("actor_id", PStr id);
                ("display_name", PStr (str_take 48 name));
                ("endpoint", PDict endpoint)]).

(** ** [OriginContext] *)
Record OriginContext := {
  origin_system : string;
  origin_intent_id : string;
  context_type : ContextType;
  origin_purpose : PaymentPurpose;
  continuity_uid : option string;
  merchant_id : option string;
  branch_id : option string;
  partner_id : option string;
}.

(** [not value] for an optional text. *)
Definition falsy (o : option string) : bool :=
  match o with Some (String _ _) => false | _ => true end.

(** One optional entry of the payload. *)
Definition optional_field (name : string) (o : option string) : res mapping :=
  match o with
  | None => mret []
  | Some v => t ← require_text name v; mret (fields [(name, PStr t)])
  end.

Definition OriginContext_to_payload (o : OriginContext) : res mapping :=
  _ ← raise_if (bool_decide (context_type o = CTX_MERCHANT) && falsy (merchant_id o))
        ValueError "merchant_id is required for merchant context";
  _ ← raise_if (bool_decide (context_type o = CTX_PARTNER) && falsy (partner_id o))
        ValueError "partner_id is required for partner context";
  _ ← raise_if (bool_decide (context_type o = CTX_P2P)
                && negb (bool_decide (origin_purpose o = PERSON_TO_PERSON)))
        ValueError "P2P context requires PERSON_TO_PERSON purpose";
  _ ← raise_if (bool_decide (context_type o = CTX_P2P) && falsy (continuity_uid o))
        ValueError "continuity_uid is required for P2P context";
  system ← require_text "origin_system" (origin_system o);
  intent ← require_text "origin_intent_id" (origin_intent_id o);
  continuity ← optional_field "continuity_uid" (continuity_uid o);
  merchant ← optional_field "merchant_id" (merchant_id o);
  branch ← optional_field "branch_id" (branch_id o);
  partner ← optional_field "partner_id" (partner_id o);
  mret (fields [("origin_system", PStr (upper system));
                ("origin_intent_id", PStr intent);
                ("context_type", PStr (ContextType_value (context_type o)));
                ("purpose", PStr (PaymentPurpose_value (origin_purpose o)))]
        ++ continuity ++ merchant ++ branch ++ partner).

(** ** [Decimal(text) <= 0]

    The numeric strings of the [decimal] module without exponent bounds:
    [None] where the constructor, or the comparison (of a NaN), signals
    [InvalidOperation]. *)
Definition drop_underscores (s : string) : string :=
  string_of_list_ascii (filter (λ c, c ≠ "_"%char) (list_ascii_of_string s)).

(** Digits at the front: are there any, is one of them not zero, the rest. *)
Fixpoint take_digits (s : string) : bool * bool * string :=
  match s with
  | String c s' =>
      if is_digit c then
        let '(_, nz, rest) := take_digits s' in
        (true, negb (Ascii.eqb c "0") || nz, rest)
      else (false, false, s)
  | EmptyString => (false, false, s)
  end.

Definition drop_sign (s : string) : bool * string :=
  match s with
  | String "-" s' => (true, s')
  | String "+" s' => (false, s')
  | _ => (false, s)
  end.

Definition exponent_ok (s : string) : bool :=
  match s with
  | EmptyString => true
  | String c s' =>
      Ascii.eqb (lower_char c) "e" && isdigit (drop_sign s').2
  end.

Definition decimal_positive (text : string) : option bool :=
  let '(neg, s) := drop_sign (drop_underscores (strip text)) in
  let low := lower s in
  if bool_decide (low = "inf" ∨ low = "infinity") then Some (negb neg)
  else
    let '(some1, nz1, rest) := take_digits s in
    let '(some2, nz2, rest') :=
      match rest with
      | String "." r => take_digits r
      | _ => (false, false, rest)
      end in
    if (some1 || some2) && exponent_ok rest'
    then Some (negb neg && (nz1 || nz2)) else None.

(** ** [QuoteTerms] *)
Record QuoteTerms := {
  request_id : string;
  q_payer : ActorReference;
  q_beneficiary : ActorReference;
  q_purpose : PaymentPurpose;
  q_amount_minor : Z;
  q_currency_from : string;
  q_receive_amount_minor : Z;
  q_currency_to : string;
  q_total_fee_minor : Z;
  q_routing_budget_minor : Z;
  fx_rate : string;
  corridor_id : string;
  service_level : string;
  routing_policy_id : string;
  pricing_version : string;
  q_max_attempts : Z;
}.

(** The numeric and role checks at the head of [to_payload]. *)
Definition QuoteTerms_check (q : QuoteTerms) : res unit :=
  _ ← require_minor_units "amount_minor" false (q_amount_minor q);
  _ ← require_minor_units "receive_amount_minor" false (q_receive_amount_minor q);
  _ ← require_minor_units "total_fee_minor" true (q_total_fee_minor q);
  _ ← require_minor_units "routing_budget_minor" true (q_routing_budget_minor q);
  _ ← raise_if (negb ((1 <=? q_max_attempts q) && (q_max_attempts q <=? 10)))
        ValueError "max_attempts must be between 1 and 10";
  _ ← raise_if (q_total_fee_minor q <? q_routing_budget_minor q) ValueError
        "routing budget cannot exceed the customer fee";
  rate ← require_text "fx_rate" (fx_rate q);
  positive ← require (decimal_positive rate) ValueError "fx_rate must be a decimal string";
  _ ← raise_if (negb positive) ValueError "fx_rate must be positive";
  _ ← raise_if (negb (bool_decide (ep_role (actor_endpoint (q_payer q)) = DEBIT)))
        ValueError "payer endpoint must be a DEBIT binding";
  raise_if (negb (bool_decide (ep_role (actor_endpoint (q_beneficiary q)) = CREDIT)))
    ValueError "beneficiary endpoint must be a CREDIT binding".

Definition QuoteTerms_to_payload (q : QuoteTerms) : res mapping :=
  _ ← QuoteTerms_check q;
  rate ← require_text "fx_rate" (fx_rate q);
  request ← require_text "request_id" (request_id q);
  payer ← ActorReference_to_payload (q_payer q);
  beneficiary ← ActorReference_to_payload (q_beneficiary q);
  from ← require_text "currency_from" (q_currency_from q);
  to ← require_text "currency_to" (q_currency_to q);
  corridor ← require_text "corridor_id" (corridor_id q);
  level ← require_text "service_level" (service_level q);
  policy ← require_text "routing_policy_id" (routing_policy_id q);
  pricing ← require_text "pricing_version" (pricing_version q);
  mret (fields [
    ("request_id", PStr request); ("payer", PDict payer);
    ("beneficiary", PDict beneficiary);
    ("purpose", PStr (PaymentPurpose_value (q_purpose q)));
    ("amount_minor", PInt (q_amount_minor q)); ("currency_from", PStr (upper from));
    ("receive_amount_minor", PInt (q_receive_amount_minor q));
    ("currency_to", PStr (upper to)); ("total_fee_minor", PInt (q_total_fee_minor q));
    ("routing_budget_minor", PInt (q_routing_budget_minor q)); ("fx_rate", PStr rate);
    ("corridor_id", PStr corridor); ("service_level", PStr level);
    ("routing_policy_id", PStr policy); ("pricing_version", PStr pricing);
    ("pricing_model", PStr "PER_INTENT"); ("max_attempts", PInt (q_max_attempts q));
    ("custody_model", PStr "NON_CUSTODIAL"); ("endpoint_model_version", PInt 1)]).
