(* ===== verification/Authority.v ===== *)
(** [railone_authority]: execution-authority artifacts.  ETK-S attests that the
    payer authorised one UTT; ETK-R attests the receiver's participation and is
    derived from a verified ETK-S, which it cannot outlive. *)

From Stdlib Require Import Ascii String.
From S2P Require Import Prelude.
From S2P Require Import PyBase.
From S2P Require Import Bytes.
From S2P Require Import Sha256.
From S2P Require Import CanonicalJson.
From S2P Require Import CanonicalFacts.
From S2P Require Import Keys.
From S2P Require Import Signatures.
From S2P Require Import ContractModels.

(** [f"{prefix}-{sha256(canonical_json_bytes(payload)).hexdigest().upper()[:32]}"] *)
Definition content_id (prefix : string) (v : pyval) : res string :=
  b ← canonical_json_bytes v;
  mret (prefix +:+ "-" +:+ str_take 32 (upper (sha256_hex b))).

Inductive ReceiverParticipationMode :=
  | ACTIVE_ACCEPTANCE | BENEFICIARY_PREAUTHORIZED | DIRECTORY_RESOLUTION
  | INTERNAL_MERCHANT_AUTHORITY | PASSIVE_CREDIT.
Definition ParticipationMode_value (m : ReceiverParticipationMode) : string :=
  match m with
  | ACTIVE_ACCEPTANCE => "ACTIVE_ACCEPTANCE"
  | BENEFICIARY_PREAUTHORIZED => "BENEFICIARY_PREAUTHORIZED"
  | DIRECTORY_RESOLUTION => "DIRECTORY_RESOLUTION"
  | INTERNAL_MERCHANT_AUTHORITY => "INTERNAL_MERCHANT_AUTHORITY"
  | PASSIVE_CREDIT => "PASSIVE_CREDIT"
  end.
Definition receiver_confirmed (m : ReceiverParticipationMode) : bool :=
  match m with ACTIVE_ACCEPTANCE => true | _ => false end.

Definition MAX_AUTHORITY_SECONDS : Z := 15 * 60.

Definition validate_window (issued expiry : instant) : res unit :=
  _ ← raise_if (expiry - issued <=? 0) ValueError
        "authority expiry must be after issuance";
  raise_if (seconds MAX_AUTHORITY_SECONDS <? expiry - issued) ValueError
    "authority window exceeds maximum TTL".

Section authority.
Context {P : Type} `{!SigningKeyProvider P}.

(** The statement that an ETK-S makes. *)
Definition sender_core (utt quote sender_type sender method reference currency : string)
    (amount : Z) (origin : mapping) (issued expiry : instant) : mapping :=
  fields [("utt_id", PStr utt); ("quote_id", PStr quote);
          ("sender_actor_type", PStr sender_type); ("sender_reference", PStr sender);
          ("amount_minor", PInt amount); ("currency", PStr currency);
          ("origin_context", PDict origin); ("authorization_method", PStr method);
          ("authorization_reference", PStr reference);
          ("authorized_at", PInt (epoch issued)); ("expires_at", PInt (epoch expiry));
          ("authority_scope", PStr "EXECUTE_UTT"); ("custody_model", PStr "NON_CUSTODIAL");
          ("status", PStr "ACTIVE")].

Definition issue_sender_authority (p : P) (utt_id : string)
    (quote_id sender_actor_type sender_reference amount_minor currency : pyval)
    (origin_context : mapping) (authorization_method authorization_reference : string)
    (signing_key_id : string) (issued expiry : instant) : res SignatureEnvelope :=
  _ ← validate_window issued expiry;
  amount ← match amount_minor with
           | PInt n => mret n
           | _ => raise TypeError "amount_minor must be an integer"
           end;
  _ ← raise_if (amount <=? 0) ValueError "amount_minor must be positive";
  utt ← require_text "utt_id" utt_id;
  quote ← require_text_v "quote_id" quote_id;
  sender_type ← require_text_v "sender_actor_type" sender_actor_type;
  sender ← require_text_v "sender_reference" sender_reference;
  cur ← require_text_v "currency" currency;
  method ← require_text "authorization_method" authorization_method;
  reference ← require_text "authorization_reference" authorization_reference;
  let core := sender_core utt quote sender_type sender method reference (upper cur)
                amount origin_context issued expiry in
  id ← content_id "ETKS" (PDict core);
  sign_artifact p ETK_S (fields [("etk_s_id", PStr id)] ++ core) signing_key_id issued.

Context `{Ed25519}.

Definition issue_receiver_participation (p : P) (sender_authority : SignatureEnvelope)
    (receiver_actor_type receiver_reference : string)
    (participation_mode : ReceiverParticipationMode) (evidence_reference : string)
    (signing_key_id : string) (issued expiry : instant) : res SignatureEnvelope :=
  sender_result ← verify_artifact p sender_authority (Some ETK_S) false;
  _ ← raise_if (negb (valid sender_result)) PermissionError
        ("sender authority rejected: " +:+ reason sender_result);
  let sender := payload sender_authority in
  _ ← validate_window issued expiry;
  sender_expiry ← int_item sender "expires_at";
  _ ← raise_if (sender_expiry <? epoch expiry) ValueError "ETK-R cannot outlive ETK-S";
  utt ← item sender "utt_id";
  etk_s ← item sender "etk_s_id";
  ty ← require_text "receiver_actor_type" receiver_actor_type;
  receiver ← require_text "receiver_reference" receiver_reference;
  evidence ← require_text "evidence_reference" evidence_reference;
  amount ← item sender "amount_minor";
  currency ← item sender "currency";
  let core := fields [
    ("utt_id", utt); ("etk_s_id", etk_s); ("receiver_actor_type", PStr ty);
    ("receiver_reference", PStr receiver);
    ("participation_mode", PStr (ParticipationMode_value participation_mode));
    ("receiver_confirmed", PBool (receiver_confirmed participation_mode));
    ("evidence_reference", PStr evidence); ("amount_minor", amount);
    ("currency", currency); ("attested_at", PInt (epoch issued));
    ("expires_at", PInt (epoch expiry)); ("custody_model", PStr "NON_CUSTODIAL");
    ("status", PStr "ACTIVE")] in
  id ← content_id "ETKR" (PDict core);
  sign_artifact p ETK_R (fields [("etk_r_id", PStr id)] ++ core) signing_key_id issued.
End authority.

(** ** Lemmas *)
Lemma content_id_ok prefix v id :
  content_id prefix v = Ok id ↔
  ∃ b, canonical_json_bytes v = Ok b ∧
       id = prefix +:+ "-" +:+ str_take 32 (upper (sha256_hex b)).
Proof. unfold content_id. rewrite res_bind_ok. by setoid_rewrite res_ret_ok. Qed.

Lemma content_id_same prefix v w id :
  py_same v w → content_id prefix v = Ok id → content_id prefix w = Ok id.
Proof.
  rewrite !content_id_ok. intros Hs (b & Hb & ->). exists b.
  split; [by eapply canonical_same|done].
Qed.

Lemma validate_window_ok i e u :
  validate_window i e = Ok u ↔ 0 < e - i <= seconds MAX_AUTHORITY_SECONDS.
Proof.
  split.
  - intros Hw. unfold validate_window in Hw. inv_ok Hw. lia.
  - intros Hw. unfold validate_window. destruct u.
    destruct (e - i <=? 0) eqn:?; [lia|].
    by destruct (seconds MAX_AUTHORITY_SECONDS <? e - i) eqn:?; [lia|].
Qed.

(** What an ETK-S says about the amount, the window and the signature. *)
Lemma sender_authority_ok `{SigningKeyProvider P} (p : P) utt q st sr am cur o m r k i x e :
  issue_sender_authority p utt q st sr am cur o m r k i x = Ok e →
  ∃ core id n cur',
    sign_artifact p ETK_S (fields [("etk_s_id", PStr id)] ++ core) k i = Ok e ∧
    content_id "ETKS" (PDict core) = Ok id ∧
    am = PInt n ∧ 0 < n ∧ 0 < x - i <= seconds MAX_AUTHORITY_SECONDS ∧
    cur = PStr cur' ∧
    get core "utt_id" = Some (PStr (strip utt)) ∧
    get core "amount_minor" = Some (PInt n) ∧
    get core "currency" = Some (PStr (upper (strip cur'))) ∧
    get core "origin_context" = Some (PDict o) ∧
    get core "authorized_at" = Some (PInt (epoch i)) ∧
    get core "expires_at" = Some (PInt (epoch x)).
Proof.
  intros Hrun. unfold issue_sender_authority in Hrun. inv_ok Hrun.
  apply validate_window_ok in H0. destruct am; try discriminate. inv_ok H1.
  destruct cur; try discriminate. cbn [require_text_v] in *.
  repeat match goal with Ht : require_text _ _ = Ok _ |- _ =>
    apply require_text_ok in Ht as [-> _] end.
  eexists _, _, _, _. split; [done|]. split; [done|]. repeat split; try done; lia.
Qed.

(** *** Identifiers that RailOne mints carry no blanks *)
Lemma str_take_cons n c t : str_take (S n) (String c t) = String c (str_take n t).
Proof. done. Qed.

Lemma strip_solid t : str_forall (λ c, negb (is_space c)) t = true → strip t = t.
Proof.
  intros Ht.
  assert (rstrip t = t) as Hr.
  { induction t as [|c t IH]; [done|]. cbn in Ht |- *.
    apply andb_true_iff in Ht as [Hc Ht]. rewrite (IH Ht).
    apply negb_true_iff in Hc. rewrite Hc. by destruct t. }
  unfold strip. assert (lstrip t = t) as ->; [|done].
  apply lstrip_head. destruct t as [|c t]; [done|]. cbn in Ht.
  apply andb_true_iff in Ht as [Hc _]. by apply negb_true_iff in Hc.
Qed.

(** Printable ASCII without spaces. *)
Definition solid (c : ascii) : bool := negb (is_space c) && (code c <? 128).

Lemma solid_no_space t : str_forall solid t = true → str_forall (λ c, negb (is_space c)) t = true.
Proof.
  induction t as [|c t IH]; [done|]. cbn [str_forall]. intros [Hc Ht]%andb_true_iff.
  apply andb_true_iff in Hc as [-> _]. by rewrite IH.
Qed.

Lemma solid_hex n b : str_forall solid (str_take n (upper (hex b))) = true.
Proof.
  revert n. induction b as [|x b IH]; intros n; [by destruct n|].
  destruct n as [|[|n]]; [done|by destruct x|].
  change (hex (x :: b)) with
    (String (hex_char (bz x / 16)) (String (hex_char (bz x mod 16)) (hex b))).
  unfold upper in *. cbn [str_map]. rewrite !str_take_cons. cbn [str_forall]. rewrite IH.
  by destruct x.
Qed.

Lemma content_id_clean prefix v id :
  str_forall solid prefix = true → content_id prefix v = Ok id → strip id = id.
Proof.
  intros Hp (b & _ & ->)%content_id_ok. apply strip_solid.
  assert (str_forall solid (prefix +:+ "-" +:+ str_take 32 (upper (sha256_hex b))) = true) as Hs.
  { induction prefix as [|c p IH]; [apply (solid_hex 32 (sha256 b))|].
    cbn [str_forall] in Hp. apply andb_true_iff in Hp as [Hc Hp].
    rewrite str_app_cons. cbn [str_forall]. rewrite Hc. by apply IH. }
  by apply solid_no_space.
Qed.
