(* ===== verification/Partners.v ===== *)
(** [railone_partners]: partner institutions and opaque account bindings.  The
    directory implements the [EndpointValidator] interface through which the
    contract and execution services check account endpoints. *)

From Stdlib Require Import Ascii String.
From S2P Require Import Prelude.
From S2P Require Import PyBase.
From S2P Require Import ContractModels.

Inductive InstitutionStatus := INST_ACTIVE | INST_PAUSED | INST_OFFBOARDED.
Inductive AccountBindingStatus := BIND_ACTIVE | BIND_REVOKED | BIND_SUSPENDED.
#[global] Instance InstitutionStatus_eq_dec : EqDecision InstitutionStatus.
Proof. solve_decision. Defined.
#[global] Instance AccountBindingStatus_eq_dec : EqDecision AccountBindingStatus.
Proof. solve_decision. Defined.

Record PartnerInstitution := {
  pi_institution_id : string;
  pi_display_name : string;
  country_codes : list string;
  currencies : list string;
  supported_roles : list AccountRole;
  pi_status : InstitutionStatus;
}.

(** [not sequence] *)
Definition empty {A} (l : list A) : bool := match l with [] => true | _ => false end.
(** [len(set(l)) != len(l)] *)
Definition has_duplicates (l : list string) : bool := negb (bool_decide (NoDup l)).

Definition PartnerInstitution_normalized (i : PartnerInstitution)
    : res PartnerInstitution :=
  _ ← require_text "institution_id" (pi_institution_id i);
  _ ← require_text "display_name" (pi_display_name i);
  _ ← raise_if (empty (country_codes i) || empty (currencies i)
                || empty (supported_roles i)) ValueError
        "partner institution coverage cannot be empty";
  _ ← raise_if (has_duplicates (country_codes i)) ValueError
        "partner country coverage contains duplicates";
  _ ← raise_if (has_duplicates (currencies i)) ValueError
        "partner currency coverage contains duplicates";
  mret i.

Record AccountBinding := {
  ab_binding_id : string;
  ab_actor_id : string;
  ab_institution_id : string;
  ab_role : AccountRole;
  ab_type : AccountType;
  ab_currency : string;
  ab_display_hint : string;
  ab_contact_binding_id : string;
  ab_attestation_reference : string;
  ab_status : AccountBindingStatus;
}.

Definition AccountBinding_normalized (b : AccountBinding) : res AccountBinding :=
  _ ← mapR (λ nv : string * string, require_text nv.1 nv.2)
        [("account_binding_id", ab_binding_id b); ("actor_id", ab_actor_id b);
         ("institution_id", ab_institution_id b); ("currency", ab_currency b);
         ("display_hint", ab_display_hint b);
         ("contact_binding_id", ab_contact_binding_id b);
         ("attestation_reference", ab_attestation_reference b)];
  _ ← raise_if (32 <? len (ab_display_hint b)) ValueError
        "account display hint exceeds 32 characters";
  mret b.

(** ** The interface *)
Class EndpointValidator (V : Type) := {
  validate_endpoint : V → string → AccountEndpoint → AccountRole → string → res unit;
}.

(** ** [InMemoryPartnerDirectory] *)
Record PartnerDirectory := Directory {
  institutions : gmap string PartnerInstitution;
  bindings : gmap string AccountBinding;
}.
Implicit Types (d : PartnerDirectory).

Definition no_partners : PartnerDirectory := Directory ∅ ∅.

Definition add_institution (i : PartnerInstitution) : M PartnerDirectory unit :=
  _ ← lift (PartnerInstitution_normalized i);
  d ← getS;
  _ ← raise_if (is_some_b (institutions d !! pi_institution_id i)) ValueError
        "partner institution already exists";
  putS (Directory (<[pi_institution_id i := i]> (institutions d)) (bindings d)).

Definition add_binding (b : AccountBinding) : M PartnerDirectory unit :=
  _ ← lift (AccountBinding_normalized b);
  d ← getS;
  _ ← require (institutions d !! ab_institution_id b) LookupError
        "account binding institution is not a partner";
  _ ← raise_if (is_some_b (bindings d !! ab_binding_id b)) ValueError
        "account binding already exists";
  putS (Directory (institutions d) (<[ab_binding_id b := b]> (bindings d))).

Definition with_status (b : AccountBinding) (s : AccountBindingStatus) : AccountBinding :=
  {| ab_binding_id := ab_binding_id b; ab_actor_id := ab_actor_id b;
     ab_institution_id := ab_institution_id b; ab_role := ab_role b;
     ab_type := ab_type b; ab_currency := ab_currency b;
     ab_display_hint := ab_display_hint b;
     ab_contact_binding_id := ab_contact_binding_id b;
     ab_attestation_reference := ab_attestation_reference b; ab_status := s |}.

Definition set_binding_status (id : string) (s : AccountBindingStatus)
    : M PartnerDirectory unit :=
  d ← getS;
  b ← require (bindings d !! id) LookupError "account binding not found";
  putS (Directory (institutions d) (<[id := with_status b s]> (bindings d))).

Definition list_institutions d (country_code currency : string) (role : AccountRole)
    : list PartnerInstitution :=
  sort_on pi_institution_id str_le
    (filter (λ i, pi_status i = INST_ACTIVE ∧
                  upper country_code ∈ map upper (country_codes i) ∧
                  upper currency ∈ map upper (currencies i) ∧
                  role ∈ supported_roles i)
       (map snd (map_to_list (institutions d)))).

Definition select_endpoint d (actor_id binding_id : string) (required_role : AccountRole)
    : res AccountEndpoint :=
  binding ← require (bindings d !! binding_id) LookupError "account binding not found";
  institution ← require (institutions d !! ab_institution_id binding) KeyError
                  (ab_institution_id binding);
  _ ← raise_if (negb (String.eqb (ab_actor_id binding) actor_id)) PermissionError
        "account binding belongs to another actor";
  _ ← raise_if (negb (bool_decide (ab_status binding = BIND_ACTIVE))) PermissionError
        "account binding is not active";
  _ ← raise_if (negb (bool_decide (pi_status institution = INST_ACTIVE))) PermissionError
        "partner institution is not active";
  _ ← raise_if (negb (bool_decide (ab_role binding = required_role))) PermissionError
        "account binding has the wrong execution role";
  mret {| ep_institution_id := ab_institution_id binding;
          ep_display_name := pi_display_name institution;
          ep_binding_id := ab_binding_id binding;
          ep_role := ab_role binding;
          ep_type := ab_type binding;
          ep_display_hint := ab_display_hint binding;
          ep_contact_binding_id := ab_contact_binding_id binding;
          ep_attestation_reference := ab_attestation_reference binding |}.

Definition same_binding_material (l r : AccountEndpoint) : bool :=
  String.eqb (ep_institution_id l) (ep_institution_id r)
  && String.eqb (ep_binding_id l) (ep_binding_id r)
  && bool_decide (ep_role l = ep_role r)
  && bool_decide (ep_type l = ep_type r)
  && String.eqb (ep_display_hint l) (ep_display_hint r)
  && String.eqb (ep_contact_binding_id l) (ep_contact_binding_id r)
  && String.eqb (ep_attestation_reference l) (ep_attestation_reference r).

Definition directory_validate d (actor_id : string) (endpoint : AccountEndpoint)
    (required_role : AccountRole) (currency : string) : res unit :=
  selected ← select_endpoint d actor_id (ep_binding_id endpoint) required_role;
  binding ← require (bindings d !! ep_binding_id endpoint) KeyError (ep_binding_id endpoint);
  _ ← raise_if (negb (same_binding_material selected endpoint)) PermissionError
        "account endpoint snapshot does not match its binding";
  raise_if (negb (String.eqb (upper (ab_currency binding)) (upper currency)))
    PermissionError "account binding currency is not eligible".

#[global] Instance directory_validator : EndpointValidator PartnerDirectory := {
  validate_endpoint := directory_validate;
}.

(** ** Invariant: bindings are filed under their identifier and refer to a
    registered institution *)
Record directory_wf d : Prop := {
  wf_institution : ∀ id i, institutions d !! id = Some i → pi_institution_id i = id;
  wf_binding : ∀ id b, bindings d !! id = Some b →
    ab_binding_id b = id ∧ is_Some (institutions d !! ab_institution_id b);
}.

Lemma no_partners_wf : directory_wf no_partners.
Proof. split; intros ??; unfold no_partners; cbn; by rewrite lookup_empty. Qed.

Lemma add_institution_wf i d u d' :
  directory_wf d → add_institution i d = (Ok u, d') → directory_wf d'.
Proof.
  intros [Hi Hb] Hrun. unfold add_institution in Hrun. inv_ok Hrun.
  split; cbn [institutions bindings].
  - intros id j. rewrite lookup_insert. case_decide; [by intros [= <-]|apply Hi].
  - intros id b Hl. destruct (Hb id b Hl) as [? Hs]. split; [done|].
    rewrite lookup_insert. case_decide; [eauto|done].
Qed.

Lemma add_binding_wf b d u d' :
  directory_wf d → add_binding b d = (Ok u, d') → directory_wf d'.
Proof.
  intros [Hi Hb] Hrun. unfold add_binding in Hrun. inv_ok Hrun.
  split; cbn [institutions bindings]; [done|].
  intros id b'. rewrite lookup_insert. case_decide; [|apply Hb].
  intros [= <-]. split; eauto.
Qed.

Lemma set_binding_status_wf id s d u d' :
  directory_wf d → set_binding_status id s d = (Ok u, d') → directory_wf d'.
Proof.
  intros [Hi Hb] Hrun. unfold set_binding_status in Hrun. inv_ok Hrun.
  split; cbn [institutions bindings]; [done|].
  intros id' b'. rewrite lookup_insert. case_decide; [|apply Hb].
  intros [= <-]. subst. by apply (Hb _ v).
Qed.

(** ** Validation decides exactly the current agreement of endpoint and
    binding *)
Record endpoint_current d (actor : string) (e : AccountEndpoint) (role : AccountRole)
    (currency : string) (b : AccountBinding) (i : PartnerInstitution) : Prop := {
  cur_binding : bindings d !! ep_binding_id e = Some b;
  cur_institution : institutions d !! ab_institution_id b = Some i;
  cur_actor : ab_actor_id b = actor;
  cur_status : ab_status b = BIND_ACTIVE ∧ pi_status i = INST_ACTIVE;
  cur_role : ab_role b = role ∧ ep_role e = role;
  cur_material : ep_institution_id e = ab_institution_id b ∧ ep_binding_id e = ab_binding_id b ∧
    ep_type e = ab_type b ∧ ep_display_hint e = ab_display_hint b ∧
    ep_contact_binding_id e = ab_contact_binding_id b ∧
    ep_attestation_reference e = ab_attestation_reference b;
  cur_currency : upper (ab_currency b) = upper currency;
}.

Lemma same_binding_material_spec l r :
  same_binding_material l r = true ↔
  ep_institution_id l = ep_institution_id r ∧ ep_binding_id l = ep_binding_id r ∧
  ep_role l = ep_role r ∧ ep_type l = ep_type r ∧ ep_display_hint l = ep_display_hint r ∧
  ep_contact_binding_id l = ep_contact_binding_id r ∧
  ep_attestation_reference l = ep_attestation_reference r.
Proof.
  unfold same_binding_material.
  rewrite !andb_true_iff, !String.eqb_eq, !bool_decide_eq_true. tauto.
Qed.

(** C40 An endpoint snapshot passes validation exactly when its binding exists,
    belongs to the actor, is active at an active institution, has the required
    role and currency, and agrees with the snapshot in every execution field:
    a revocation or any drift since the snapshot refuses it. *)
Theorem validate_endpoint_iff d actor e role currency :
  directory_validate d actor e role currency = Ok tt ↔
  ∃ b i, endpoint_current d actor e role currency b i.
Proof.
  unfold directory_validate, select_endpoint. split.
  - intros Hv. inv_ok Hv. simplify_eq.
    rewrite negb_false_iff, ?String.eqb_eq, ?bool_decide_eq_true in *.
    match goal with Hm : same_binding_material _ _ = true |- _ =>
      apply same_binding_material_spec in Hm; cbn in Hm end.
    eexists _, _. split; try done; naive_solver congruence.
  - intros (b & i & [Hb Hi Ha [Hs Ht] [Hr Hre] Hm Hc]). rewrite Hb. cbn.
    rewrite Hi. cbn. rewrite Ha, Hs, Ht, Hr, !bool_decide_eq_true_2, String.eqb_refl by done.
    cbn. rewrite (proj2 (same_binding_material_spec _ _)) by (cbn; naive_solver congruence).
    cbn. by rewrite Hc, String.eqb_refl.
Qed.
