(* ===== verification/Contracts.v ===== *)
(** [railone_contracts]: quote issuance ([quote_service.py]), the contract
    store ([store.py]) and exactly-once quote acceptance
    ([acceptance_service.py]). *)

From Stdlib Require Import Ascii String.
From S2P Require Import Prelude.
From S2P Require Import PyBase.
From S2P Require Import Bytes.
From S2P Require Import Sha256.
From S2P Require Import CanonicalJson.
From S2P Require Import CanonicalFacts.
From S2P Require Import Keys.
From S2P Require Import Signatures.
From S2P Require Import ContractModels.
From S2P Require Import Partners.
From S2P Require Import Authority.

(** ** [InMemoryContractStore] *)
Record AcceptedContract := Accepted {
  signed_utt : SignatureEnvelope;
  sender_authority : SignatureEnvelope;
  c_quote_id : string;
  c_utt_id : string;
  request_sha256 : string;
  c_accepted_at : instant;
}.

Record ContractStore := Contracts {
  idempotency : gmap string AcceptedContract;
  quote_to_utt : gmap string string;
  utts : gmap string SignatureEnvelope;
}.
Implicit Types (st : ContractStore).

Definition no_contracts : ContractStore := Contracts ∅ ∅ ∅.

Definition conflict : string :=
  "idempotency key was already used for different request material".

Definition resolve_idempotency st (key hash : string) : res (option AcceptedContract) :=
  match idempotency st !! key with
  | None => mret None
  | Some existing =>
      _ ← raise_if (negb (String.eqb (request_sha256 existing) hash))
            IdempotencyConflictError conflict;
      mret (Some existing)
  end.

Definition commit_acceptance (key : string) (c : AcceptedContract)
    : M ContractStore (AcceptedContract * bool) :=
  st ← getS;
  match idempotency st !! key with
  | Some existing =>
      _ ← raise_if (negb (String.eqb (request_sha256 existing) (request_sha256 c)))
            IdempotencyConflictError conflict;
      mret (existing, true)
  | None =>
      match quote_to_utt st !! c_quote_id c with
      | Some prior => raise QuoteAlreadyAcceptedError ("quote already accepted as " +:+ prior)
      | None =>
          _ ← raise_if (is_some_b (utts st !! c_utt_id c)) RuntimeError
                "UTT identifier collision";
          _ ← putS (Contracts (<[key := c]> (idempotency st))
                      (<[c_quote_id c := c_utt_id c]> (quote_to_utt st))
                      (<[c_utt_id c := signed_utt c]> (utts st)));
          mret (c, false)
      end
  end.

Definition require_utt st (utt_id : string) : res SignatureEnvelope :=
  require (utts st !! utt_id) UttNotFoundError ("persisted UTT not found: " +:+ utt_id).

(** ** [QuoteService] *)
Definition MAX_QUOTE_TTL_SECONDS : Z := 5 * 60.

(** [self._endpoints is None] and [_allow_unverified] of both services. *)
Record EndpointPolicy (V : Type) := {
  endpoints : option V;
  allow_unverified : bool;
}.
Arguments endpoints {V} _.
Arguments allow_unverified {V} _.

Section quotes.
Context {P : Type} `{!SigningKeyProvider P} {V : Type} `{!EndpointValidator V}.

Definition issue_quote (p : P) (policy : EndpointPolicy V) (terms : QuoteTerms)
    (signing_key_id : string) (issued_at expires_at : datetime)
    : res SignatureEnvelope :=
  issued ← aware "quote timestamps must be timezone-aware" issued_at;
  expiry ← aware "quote timestamps must be timezone-aware" expires_at;
  _ ← raise_if (expiry - issued <=? 0) ValueError "quote expiry must be after issuance";
  _ ← raise_if (seconds MAX_QUOTE_TTL_SECONDS <? expiry - issued) ValueError
        "quote TTL exceeds pilot maximum";
  terms_payload ← QuoteTerms_to_payload terms;
  _ ← match endpoints policy with
      | None => raise_if (negb (allow_unverified policy)) RuntimeError
                  "partner endpoint validator is required"
      | Some v =>
          _ ← validate_endpoint v (actor_id (q_payer terms))
                (actor_endpoint (q_payer terms)) DEBIT (q_currency_from terms);
          validate_endpoint v (actor_id (q_beneficiary terms))
            (actor_endpoint (q_beneficiary terms)) CREDIT (q_currency_to terms)
      end;
  let core := terms_payload ++ fields [("issued_at", PInt (epoch issued));
                                       ("expires_at", PInt (epoch expiry))] in
  id ← content_id "Q" (PDict core);
  sign_artifact p QUOTE (fields [("quote_id", PStr id)] ++ core) signing_key_id issued.
End quotes.

(** ** [QuoteAcceptanceService] *)
Record QuoteAcceptanceCommand := {
  signed_quote : SignatureEnvelope;
  cmd_origin : OriginContext;
  authorization_method : string;
  authorization_reference : string;
  idempotency_key : string;
  authority_ttl_seconds : Z;
}.
Record QuoteAcceptanceResult := { contract : AcceptedContract; replayed : bool }.

(** The normalised idempotency key, the origin payload and the digest of the
    request. *)
Definition request_identity (c : QuoteAcceptanceCommand) : res (string * mapping * string) :=
  key ← require_text "idempotency_key" (idempotency_key c);
  origin ← OriginContext_to_payload (cmd_origin c);
  method ← require_text "authorization_method" (authorization_method c);
  reference ← require_text "authorization_reference" (authorization_reference c);
  b ← canonical_json_bytes (pdict [
        ("signed_quote", PDict (SignatureEnvelope_to_dict (signed_quote c)));
        ("origin", PDict origin); ("authorization_method", PStr method);
        ("authorization_reference", PStr reference);
        ("authority_ttl_seconds", PInt (authority_ttl_seconds c))]);
  mret (key, origin, sha256_hex b).

(** The quote fields that an UTT copies. *)
Definition copied_fields : list string :=
  ["payer"; "beneficiary"; "purpose"; "amount_minor"; "currency_from";
   "receive_amount_minor"; "currency_to"; "total_fee_minor"; "routing_budget_minor";
   "fx_rate"; "corridor_id"; "service_level"; "routing_policy_id"; "pricing_version";
   "max_attempts"; "endpoint_model_version"].
Definition copy_fields (m : mapping) : list string → res mapping :=
  mapR (λ k, v ← item m k; mret (KStr k, v)).

(** [quote["payer"][key]] *)
Definition nested_item (m : mapping) (k k' : string) : res pyval :=
  inner ← sub_mapping m k; item inner k'.

(** [v == w] for payload values that are text or not comparable to it. *)
Definition same_text (v w : pyval) : bool :=
  match v, w with PStr s, PStr t => String.eqb s t | _, _ => false end.

Section acceptance.
Context {P : Type} `{!SigningKeyProvider P} `{Ed25519}.

(** The admission checks on a verified quote. *)
Definition check_quote (quote origin : mapping) (c : QuoteAcceptanceCommand)
    (accepted_epoch : Z) : res unit :=
  issued ← int_item quote "issued_at";
  _ ← raise_if (accepted_epoch <? issued) PermissionError
        "quote rejected: QUOTE_NOT_YET_VALID";
  expires ← int_item quote "expires_at";
  _ ← raise_if (expires <=? accepted_epoch) PermissionError "quote rejected: QUOTE_EXPIRED";
  qp ← item quote "purpose"; op ← item origin "purpose";
  _ ← raise_if (negb (same_text qp op)) PermissionError
        "quote purpose does not match origin purpose";
  _ ← (if bool_decide (context_type (cmd_origin c) = CTX_MERCHANT) then
         payer ← nested_item quote "payer" "actor_id"; m ← item origin "merchant_id";
         raise_if (negb (same_text payer m)) PermissionError
           "quote payer does not match merchant context"
       else mret tt);
  _ ← (if bool_decide (context_type (cmd_origin c) = CTX_P2P) then
         payer ← nested_item quote "payer" "actor_id"; u ← item origin "continuity_uid";
         raise_if (negb (same_text payer u)) PermissionError
           "quote payer does not match P2P continuity"
       else mret tt);
  let ttl := authority_ttl_seconds c in
  raise_if (negb ((1 <=? ttl) && (ttl <=? MAX_AUTHORITY_SECONDS))) ValueError
    "authority TTL is outside the permitted range".

(** From the verified quote to the contract that will be committed. *)
Definition build_contract (p : P) (utt_key authority_key : string)
    (c : QuoteAcceptanceCommand) (origin : mapping) (hash : string)
    (accepted_at : instant) : res AcceptedContract :=
  quote_result ← verify_artifact p (signed_quote c) (Some QUOTE) false;
  _ ← raise_if (negb (valid quote_result)) PermissionError
        ("quote rejected: " +:+ reason quote_result);
  let quote := payload (signed_quote c) in
  _ ← check_quote quote origin c (epoch accepted_at);
  qb ← canonical_json_bytes (PDict quote);
  quote_id ← item quote "quote_id";
  copied ← copy_fields quote copied_fields;
  let core := fields [("quote_id", quote_id); ("quote_payload_sha256", PStr (sha256_hex qb))]
    ++ copied ++
    fields [("pricing_model", PStr "PER_INTENT"); ("origin", PDict origin);
            ("accepted_at", PInt (epoch accepted_at));
            ("acceptance_request_sha256", PStr hash);
            ("custody_model", PStr "NON_CUSTODIAL")] in
  utt_id ← content_id "UTT" (PDict core);
  sender_type ← nested_item quote "payer" "actor_type";
  sender ← nested_item quote "payer" "actor_id";
  amount ← item quote "amount_minor";
  currency ← item quote "currency_from";
  expires_at ← plus_seconds accepted_at (authority_ttl_seconds c);
  authority ← issue_sender_authority p utt_id quote_id sender_type sender amount currency
    origin (authorization_method c) (authorization_reference c) authority_key
    accepted_at expires_at;
  etk_s ← item (payload authority) "etk_s_id";
  utt ← sign_artifact p UTT
    (fields [("utt_id", PStr utt_id)] ++ core ++
     fields [("etk_s_id", etk_s); ("commercial_state", PStr "ACCEPTED")])
    utt_key accepted_at;
  quote_text ← as_str quote_id;  (* text: the sender authority requires it *)
  mret (Accepted utt authority quote_text utt_id hash accepted_at).

Definition accept (p : P) (utt_key authority_key : string)
    (c : QuoteAcceptanceCommand) (at_ : option datetime) (now : instant)
    : M ContractStore QuoteAcceptanceResult :=
  '(key, origin, hash) ← lift (request_identity c);
  st ← getS;
  existing ← lift (resolve_idempotency st key hash);
  match existing with
  | Some contract => mret {| contract := contract; replayed := true |}
  | None =>
      accepted_at ← lift (aware "acceptance timestamp must be timezone-aware" (or_now at_ now));
      built ← lift (build_contract p utt_key authority_key c origin hash accepted_at);
      '(stored, raced) ← commit_acceptance key built;
      mret {| contract := stored; replayed := raced |}
  end.
End acceptance.

(** ** The store invariant *)
Record contracts_wf st : Prop := {
  wf_accepted : ∀ k c, idempotency st !! k = Some c →
    utts st !! c_utt_id c = Some (signed_utt c) ∧
    quote_to_utt st !! c_quote_id c = Some (c_utt_id c);
  wf_quote : ∀ q u, quote_to_utt st !! q = Some u →
    ∃ k c, idempotency st !! k = Some c ∧ c_quote_id c = q ∧ c_utt_id c = u;
  wf_utt : ∀ u e, utts st !! u = Some e →
    ∃ k c, idempotency st !! k = Some c ∧ c_utt_id c = u ∧ signed_utt c = e;
  wf_unique : ∀ k k' c c', idempotency st !! k = Some c → idempotency st !! k' = Some c' →
    c_utt_id c = c_utt_id c' ∨ c_quote_id c = c_quote_id c' → k = k';
}.

Lemma no_contracts_wf : contracts_wf no_contracts.
Proof. split; intros *; unfold no_contracts; cbn; by rewrite lookup_empty. Qed.

(** The three ways that a commit ends. *)
Lemma commit_cases key c st r st' :
  commit_acceptance key c st = (r, st') →
  (st' = st ∧ ((∃ e, idempotency st !! key = Some e ∧
                 (r = Ok (e, true) ∧ request_sha256 e = request_sha256 c ∨
                  r = Err (Exn IdempotencyConflictError conflict) ∧
                  request_sha256 e ≠ request_sha256 c)) ∨
               (idempotency st !! key = None ∧ ∃ x, r = Err x ∧
                 (is_Some (quote_to_utt st !! c_quote_id c) ∨
                  is_Some (utts st !! c_utt_id c))))) ∨
  (r = Ok (c, false) ∧ idempotency st !! key = None ∧
   quote_to_utt st !! c_quote_id c = None ∧ utts st !! c_utt_id c = None ∧
   st' = Contracts (<[key := c]> (idempotency st))
           (<[c_quote_id c := c_utt_id c]> (quote_to_utt st))
           (<[c_utt_id c := signed_utt c]> (utts st))).
Proof.
  unfold commit_acceptance, getS, mbind at 1, M_bind at 1.
  destruct (idempotency st !! key) as [e|] eqn:He.
  - destruct (String.eqb_spec (request_sha256 e) (request_sha256 c)) as [Heq|Hne];
      cbn; intros [= <- <-]; left; (split; [done|]); left; exists e; auto.
  - destruct (quote_to_utt st !! c_quote_id c) eqn:Hq; cbn.
    { intros [= <- <-]. left. split; [done|]. right. eauto. }
    destruct (utts st !! c_utt_id c) eqn:Hu; cbn; intros [= <- <-]; [left|right; auto].
    split; [done|]. right. eauto.
Qed.

Lemma commit_wf key c st r st' :
  contracts_wf st → commit_acceptance key c st = (r, st') → contracts_wf st'.
Proof.
  intros Hwf [[-> _]|(-> & Hk & Hq & Hu & ->)]%commit_cases; [done|].
  destruct Hwf as [Ha Hb Hc Hd]. split; cbn [idempotency quote_to_utt utts].
  - intros k c'. rewrite lookup_insert. case_decide as E.
    + intros [= <-]. by rewrite !lookup_insert_eq.
    + intros Hl. destruct (Ha _ _ Hl) as [H1 H2].
      rewrite !lookup_insert_ne by congruence. done.
  - intros q u. rewrite lookup_insert. case_decide as E.
    + intros [= <-]. exists key, c. by rewrite lookup_insert_eq.
    + intros Hl. destruct (Hb _ _ Hl) as (k & c' & H1 & <- & <-).
      exists k, c'. rewrite lookup_insert_ne by congruence. done.
  - intros u e. rewrite lookup_insert. case_decide as E.
    + intros [= <-]. exists key, c. by rewrite lookup_insert_eq.
    + intros Hl. destruct (Hc _ _ Hl) as (k & c' & H1 & <- & <-).
      exists k, c'. rewrite lookup_insert_ne by congruence. done.
  - intros k k' c1 c2. rewrite !lookup_insert. repeat case_decide; subst; try done.
    + intros [= <-] Hl. destruct (Ha _ _ Hl). intros [?|?]; congruence.
    + intros Hl [= <-]. destruct (Ha _ _ Hl). intros [?|?]; congruence.
    + apply Hd.
Qed.

(** *** Interleaved acceptances

    Every mutation of the store is a commit; concurrent [accept] calls are
    therefore, whatever they read before, a sequence of commits. *)
Inductive commit_step st st' : Prop :=
  | CommitStep key c r : commit_acceptance key c st = (r, st') → commit_step st st'.

Lemma commits_wf st st' : contracts_wf st → rtc commit_step st st' → contracts_wf st'.
Proof.
  intros Hwf Hs. induction Hs as [|? ? ? [key c r Hc] _ IH]; [done|].
  apply IH. by eapply commit_wf.
Qed.

(** Nothing that was accepted is ever replaced. *)
Lemma commits_keep st st' k c :
  rtc commit_step st st' → idempotency st !! k = Some c → idempotency st' !! k = Some c.
Proof.
  intros Hs Hk. induction Hs as [|? ? ? [key c' r Hc] _ IH]; [done|]. apply IH.
  apply commit_cases in Hc as [[-> _]|(_ & Hn & _ & _ & ->)]; [done|].
  cbn. rewrite lookup_insert_ne by congruence. done.
Qed.

Lemma accept_replay `{SigningKeyProvider P} `{Ed25519} (p : P) uk ak c at_ now st key origin hash k :
  request_identity c = Ok (key, origin, hash) →
  idempotency st !! key = Some k → request_sha256 k = hash →
  accept p uk ak c at_ now st = (Ok {| contract := k; replayed := true |}, st).
Proof.
  intros Hid Hk <-. unfold accept, mbind, M_bind, lift. rewrite Hid. cbn.
  unfold resolve_idempotency. rewrite Hk. cbn. by rewrite String.eqb_refl.
Qed.

(** What a successful [accept] left in the store. *)
Lemma accept_ok `{SigningKeyProvider P} `{Ed25519} (p : P) uk ak c at_ now st res st' :
  accept p uk ak c at_ now st = (Ok res, st') →
  ∃ key origin hash, request_identity c = Ok (key, origin, hash) ∧
    idempotency st' !! key = Some (contract res) ∧
    request_sha256 (contract res) = hash ∧
    ((replayed res = true ∧ st' = st) ∨
     (replayed res = false ∧ idempotency st !! key = None ∧
      utts st' !! c_utt_id (contract res) = Some (signed_utt (contract res)) ∧
      ∃ t, aware "acceptance timestamp must be timezone-aware" (or_now at_ now) = Ok t ∧
        build_contract p uk ak c origin hash t = Ok (contract res))).
Proof.
  intros Hrun. unfold accept in Hrun. inv_ok Hrun. destruct v as [[key origin] hash].
  cbv beta iota in Hrun. inv_ok Hrun. exists key, origin, hash. split; [done|].
  unfold resolve_idempotency in *.
  destruct (idempotency st !! key) as [e|] eqn:He.
  - match goal with Hx : (_ ≫= _) = Ok _ |- _ => inv_ok Hx end. inv_ok Hrun.
    rewrite negb_false_iff, String.eqb_eq in *. cbn. auto.
  - match goal with Hx : mret _ = Ok _ |- _ => inv_ok Hx end. inv_ok Hrun.
    destruct v1 as [stored raced]. inv_ok Hrun. cbn.
    match goal with Hc : commit_acceptance _ _ _ = _ |- _ => apply commit_cases in Hc end.
    assert (request_sha256 v0 = hash) as Hhash.
    { match goal with Hb : build_contract _ _ _ _ _ _ _ = _ |- _ =>
        unfold build_contract in Hb; inv_ok Hb; done end. }
    destruct H4 as [(-> & [(e & ? & ?)|(_ & x & ? & _)])|(? & _ & _ & _ & ->)]; try congruence.
    simplify_eq. cbn. rewrite !lookup_insert_eq. split; [done|]. split; [done|]. right. eauto 10.
Qed.

(** Whatever its outcome, an [accept] is at most one commit. *)
Lemma accept_steps `{SigningKeyProvider P} `{Ed25519} (p : P) uk ak c at_ now st r st' :
  accept p uk ak c at_ now st = (r, st') → rtc commit_step st st'.
Proof.
  unfold accept, mbind, M_bind, lift, getS, mret, M_ret.
  intros Hrun. repeat (case_match; simplify_eq/=; try done).
  all: eapply rtc_once, CommitStep; done.
Qed.

Lemma request_identity_key c key origin hash :
  request_identity c = Ok (key, origin, hash) → key = strip (idempotency_key c).
Proof.
  intros Hr. unfold request_identity in Hr. inv_ok Hr. simplify_eq.
  by match goal with Hk : require_text "idempotency_key" _ = _ |- _ =>
    apply require_text_ok in Hk as [-> _] end.
Qed.

(** *** What a new contract says *)
Lemma copy_fields_get m ks m' k :
  copy_fields m ks = Ok m' → k ∈ ks → get m' k = get m k ∧ is_Some (get m k).
Proof.
  revert m'. induction ks as [|k' ks IH]; intros m' Hc Hk; [by apply elem_of_nil in Hk|].
  unfold copy_fields in Hc. cbn [mapR] in Hc. inv_ok Hc.
  match goal with Hi : item _ _ = Ok _ |- _ => apply item_ok in Hi as Hget end.
  cbn [get]. case_decide as E; [injection E as ->; rewrite Hget; eauto|].
  apply elem_of_cons in Hk as [->|Hk]; [done|]. by apply IH.
Qed.

Lemma copy_fields_not m ks m' k :
  copy_fields m ks = Ok m' → k ∉ ks → get m' k = None.
Proof.
  revert m'. induction ks as [|k' ks IH]; intros m' Hc Hk; unfold copy_fields in Hc;
    cbn [mapR] in Hc; inv_ok Hc; [done|].
  apply not_elem_of_cons in Hk as [Hne Hk]. cbn [get].
  rewrite decide_False by congruence. by apply IH.
Qed.

Lemma get_fields_not k l : k ∉ l.*1 → get (fields l) k = None.
Proof.
  induction l as [|[k' v] l IH]; [done|]. cbn [fmap list_fmap fst].
  intros [Hne Hk]%not_elem_of_cons. cbn. rewrite decide_False by congruence. by apply IH.
Qed.

Lemma not_copied f : f ∈ copied_fields →
  f ∉ ["utt_id"] ∧ f ∉ ["quote_id"; "quote_payload_sha256"].
Proof.
  intros Hf. assert (Forall (λ f, f ∉ ["utt_id"] ∧ f ∉ ["quote_id"; "quote_payload_sha256"])
    copied_fields) as Hall by (apply (bool_decide_unpack _); vm_compute; exact I).
  by rewrite Forall_forall in Hall; apply Hall.
Qed.

Lemma check_quote_ok quote origin c t u :
  check_quote quote origin c t = Ok u →
  (∃ i x, int_item quote "issued_at" = Ok i ∧ int_item quote "expires_at" = Ok x ∧
          i <= t < x) ∧
  1 <= authority_ttl_seconds c <= MAX_AUTHORITY_SECONDS.
Proof.
  intros Hc. unfold check_quote in Hc. inv_ok Hc.
  split; [eexists _, _; repeat split; try done; lia|lia].
Qed.

Record contract_of_quote (quote : mapping) (ttl : Z) (t : instant) (k : AcceptedContract) : Prop := {
  cq_window : ∃ i x, int_item quote "issued_at" = Ok i ∧ int_item quote "expires_at" = Ok x ∧
    i <= epoch t < x;
  cq_utt_id : get (payload (signed_utt k)) "utt_id" = Some (PStr (c_utt_id k));
  cq_quote_id : get (payload (signed_utt k)) "quote_id" = Some (PStr (c_quote_id k)) ∧
    get quote "quote_id" = Some (PStr (c_quote_id k));
  cq_terms : ∀ f, f ∈ copied_fields →
    ∃ v, get quote f = Some v ∧ get (payload (signed_utt k)) f = Some (freeze v);
  cq_accepted : get (payload (signed_utt k)) "accepted_at" = Some (PInt (epoch t));
  cq_authority : ∃ n, get quote "amount_minor" = Some (PInt n) ∧ 0 < n ∧
    get (payload (sender_authority k)) "amount_minor" = Some (PInt n);
  cq_expiry : get (payload (sender_authority k)) "expires_at"
      = Some (PInt (epoch (t + seconds ttl))) ∧
    1 <= ttl <= MAX_AUTHORITY_SECONDS;
}.

Lemma build_contract_ok `{SigningKeyProvider P} `{Ed25519} (p : P) uk ak c origin hash t k :
  build_contract p uk ak c origin hash t = Ok k →
  (∃ r, verify_artifact p (signed_quote c) (Some QUOTE) false = Ok r ∧ valid r = true) ∧
  contract_of_quote (payload (signed_quote c)) (authority_ttl_seconds c) t k.
Proof.
  intros Hb. unfold build_contract in Hb. inv_ok Hb. rewrite negb_false_iff in *.
  split; [eauto|].
  repeat match goal with
  | Hc : check_quote _ _ _ _ = Ok _ |- _ => apply check_quote_ok in Hc as [Hwin Httl]
  | Hi : item (payload (signed_quote c)) _ = Ok _ |- _ => apply item_ok in Hi
  | Hs : as_str _ = Ok _ |- _ => apply as_str_ok in Hs as ->
  | Hx : plus_seconds _ _ = Ok _ |- _ => apply plus_seconds_ok in Hx as [-> _]
  | Ha : issue_sender_authority _ _ _ _ _ _ _ _ _ _ _ _ _ = Ok _ |- _ =>
      apply sender_authority_ok in Ha as
        (core & id & n & cur & Hsign & _ & Hn & Hpos & _ & _ & _ & Hcn & _ & _ & _ & Hcx);
      apply sign_artifact_ok in Hsign as (? & ? & ? & ? & _ & _ & _ & _ & _ & _ & ->)
  | Hs : sign_artifact _ _ _ _ _ = Ok _ |- _ =>
      apply sign_artifact_ok in Hs as (? & ? & ? & ? & _ & _ & _ & _ & _ & _ & ->)
  end.
  split; cbn [signed_utt sender_authority c_quote_id c_utt_id payload SignatureEnvelope_new];
    rewrite ?get_freeze.
  - exact Hwin.
  - done.
  - done.
  - intros f Hf.
    match goal with Hc : copy_fields _ _ = Ok _ |- _ =>
      destruct (copy_fields_get _ _ _ _ Hc Hf) as [Hget [v' Hv']] end.
    exists v'. split; [done|].
    destruct (not_copied f Hf).
    rewrite get_freeze, !get_app, Hget, Hv', !(get_fields_not f) by done.
    done.
  - match goal with Hc : copy_fields _ _ = Ok _ |- _ =>
      pose proof (copy_fields_not _ _ _ "accepted_at" Hc) as Hno end.
    rewrite !get_app, Hno by (apply (bool_decide_unpack _); vm_compute; exact I). done.
  - subst. exists n. rewrite get_app, get_fields_not, Hcn by set_solver. done.
  - rewrite get_app, get_fields_not, Hcx by set_solver. done.
Qed.

(** ** A concrete acceptance, for evaluating the model *)
Module DemoContracts.
Import ToyEd25519.

Definition demo_keys : InMemoryEd25519KeyProvider :=
  let gen kid purp ks := (generate (encode_utf8 kid) 0 kid "RAILONE" purp 0 (seconds 1000000)
                            None ks).2 in
  gen "KX" EXECUTION_SIGNING (gen "KQ" QUOTE_SIGNING no_keys).

Definition demo_endpoint (role : AccountRole) : AccountEndpoint :=
  {| ep_institution_id := "BANK"; ep_display_name := "Bank"; ep_binding_id := "B";
     ep_role := role; ep_type := MOBILE_MONEY; ep_display_hint := "hint";
     ep_contact_binding_id := "C"; ep_attestation_reference := "A" |}.
Definition demo_actor (id : string) (role : AccountRole) : ActorReference :=
  {| actor_type := "person"; actor_id := id; actor_endpoint := demo_endpoint role;
     actor_display_name := None |}.
Definition demo_terms : QuoteTerms :=
  {| request_id := "R1"; q_payer := demo_actor "U1" DEBIT;
     q_beneficiary := demo_actor "U2" CREDIT; q_purpose := PERSON_TO_PERSON;
     q_amount_minor := 1000; q_currency_from := "kes"; q_receive_amount_minor := 1000;
     q_currency_to := "KES"; q_total_fee_minor := 50; q_routing_budget_minor := 30;
     fx_rate := "1.00"; corridor_id := "KE-KE"; service_level := "STANDARD";
     routing_policy_id := "RP1"; pricing_version := "V1"; q_max_attempts := 3 |}.
Definition open_policy : EndpointPolicy PartnerDirectory :=
  {| endpoints := None; allow_unverified := true |}.

Definition no_envelope : SignatureEnvelope := Envelope [] [] EmptyString.
Definition demo_quote : SignatureEnvelope := Eval vm_compute in
  from_ok no_envelope (issue_quote demo_keys open_policy demo_terms "KQ" (Aware (seconds 100))
                         (Aware (seconds 400))).
Definition demo_command : QuoteAcceptanceCommand :=
  {| signed_quote := demo_quote;
     cmd_origin := {| origin_system := "app"; origin_intent_id := "I1";
       context_type := CTX_P2P; origin_purpose := PERSON_TO_PERSON;
       continuity_uid := Some "U1"; merchant_id := None; branch_id := None;
       partner_id := None |};
     authorization_method := "PIN"; authorization_reference := "AR1";
     idempotency_key := " key-1 "; authority_ttl_seconds := 600 |}.

(** The evaluated steps of the acceptance: what later evaluations start from. *)
Definition demo_origin : mapping := Eval vm_compute in
  from_ok [] (OriginContext_to_payload (cmd_origin demo_command)).
Definition demo_contract : AcceptedContract := Eval vm_compute in
  from_ok (Accepted no_envelope no_envelope EmptyString EmptyString EmptyString 0)
    ('(key, origin, hash) ← request_identity demo_command;
     build_contract demo_keys "KX" "KX" demo_command origin hash (seconds 200)).
Definition demo_result : QuoteAcceptanceResult := {| contract := demo_contract; replayed := false |}.
Definition demo_store : ContractStore :=
  Contracts {["key-1" := demo_contract]} {[c_quote_id demo_contract := c_utt_id demo_contract]}
    {[c_utt_id demo_contract := signed_utt demo_contract]}.

Lemma demo_identity :
  request_identity demo_command = Ok ("key-1", demo_origin, request_sha256 demo_contract).
Proof. vm_compute. reflexivity. Qed.
Lemma demo_built :
  build_contract demo_keys "KX" "KX" demo_command demo_origin (request_sha256 demo_contract)
    (seconds 200) = Ok demo_contract.
Proof. vm_compute. reflexivity. Qed.

(** A first acceptance, from its evaluated steps. *)
Lemma accept_first `{SigningKeyProvider P} `{Ed25519} (p : P) uk ak c now st key origin k :
  request_identity c = Ok (key, origin, request_sha256 k) →
  build_contract p uk ak c origin (request_sha256 k) now = Ok k →
  idempotency st !! key = None → quote_to_utt st !! c_quote_id k = None →
  utts st !! c_utt_id k = None →
  accept p uk ak c (Some (Aware now)) 0 st =
    (Ok {| contract := k; replayed := false |},
     Contracts (<[key := k]> (idempotency st)) (<[c_quote_id k := c_utt_id k]> (quote_to_utt st))
       (<[c_utt_id k := signed_utt k]> (utts st))).
Proof.
  intros Hid Hb Hk Hq Hu. unfold accept. rewrite (run_lift_bind _ _ _ _ Hid), run_get_bind.
  unfold resolve_idempotency. rewrite Hk.
  rewrite (run_lift_bind _ _ None) by done. rewrite (run_lift_bind _ _ now) by done.
  rewrite (run_lift_bind _ _ _ _ Hb). unfold commit_acceptance, mbind, M_bind, getS.
  by rewrite Hk, Hq, Hu.
Qed.

Lemma demo_runs :
  accept demo_keys "KX" "KX" demo_command (Some (Aware (seconds 200))) 0 no_contracts
  = (Ok demo_result, demo_store).
Proof.
  exact (accept_first demo_keys "KX" "KX" demo_command (seconds 200) no_contracts "key-1"
    demo_origin demo_contract demo_identity demo_built (lookup_empty _) (lookup_empty _)
    (lookup_empty _)).
Qed.
End DemoContracts.
Import ToyEd25519 DemoContracts.

(** ** The guarantees *)

(** C4 Exactly-once acceptance: once [accept] has answered a command, then
    after any interleaving of further commits the same command is answered
    with the same contract, marked as a replay and without changing the store
    (even if the quote has expired or the keys are gone); and any other
    accepted contract for the same quote or the same UTT is that contract,
    under the same idempotency key. *)
Theorem acceptance_exactly_once `{SigningKeyProvider P} `{Ed25519} (p p' p'' : P)
    uk ak c at_ now res st st1 st2 at' now' c' at'' now'' res' st3 :
  contracts_wf st →
  accept p uk ak c at_ now st = (Ok res, st1) →
  rtc commit_step st1 st2 →
  accept p' uk ak c at' now' st2
    = (Ok {| contract := contract res; replayed := true |}, st2) ∧
  (accept p'' uk ak c' at'' now'' st2 = (Ok res', st3) →
   c_quote_id (contract res') = c_quote_id (contract res) ∨
   c_utt_id (contract res') = c_utt_id (contract res) →
   contract res' = contract res ∧
   strip (idempotency_key c') = strip (idempotency_key c)).
Proof.
  intros Hwf Hacc Hsteps. pose proof (accept_steps _ _ _ _ _ _ _ _ _ Hacc) as Hs1.
  apply accept_ok in Hacc as (key & origin & hash & Hid & Hk & Hhash & _).
  pose proof (commits_keep _ _ _ _ Hsteps Hk) as Hk2.
  split; [by eapply accept_replay|]. intros Hacc' Hsame.
  pose proof (accept_steps _ _ _ _ _ _ _ _ _ Hacc') as Hs3.
  apply accept_ok in Hacc' as (key' & origin' & hash' & Hid' & Hk' & _).
  pose proof (commits_keep _ _ _ _ Hs3 Hk2) as Hk3.
  assert (contracts_wf st3) as Hwf3 by (repeat (eapply commits_wf; [|done]); done).
  assert (key' = key) as -> by (eapply (wf_unique _ Hwf3); naive_solver).
  apply request_identity_key in Hid as ->, Hid'. naive_solver.
Qed.

Lemma acceptance_exactly_once_witness :
  accept demo_keys "KX" "KX" demo_command None 0 demo_store
    = (Ok {| contract := contract demo_result; replayed := true |}, demo_store) ∧
  (accept demo_keys "KX" "KX" demo_command None 0 demo_store = (Ok demo_result, demo_store) →
   c_quote_id (contract demo_result) = c_quote_id (contract demo_result) ∨
   c_utt_id (contract demo_result) = c_utt_id (contract demo_result) →
   contract demo_result = contract demo_result ∧
   strip (idempotency_key demo_command) = strip (idempotency_key demo_command)).
Proof.
  eapply (acceptance_exactly_once demo_keys demo_keys demo_keys "KX" "KX" demo_command
    (Some (Aware (seconds 200))) 0 demo_result no_contracts).
  - exact no_contracts_wf.
  - exact demo_runs.
  - apply rtc_refl.
Defined.

(** C22 Faithful acceptance: a newly accepted contract comes from a quote that
    verified as [VALID] and was within its validity period at the acceptance
    second; the UTT carries the quote's identifier and every commercial term
    unchanged, its own identifier is the one the contract is filed under, and
    the sender authority is for exactly the quoted amount and expires after the
    requested lifetime, at most fifteen minutes. *)
Theorem acceptance_faithful `{SigningKeyProvider P} `{Ed25519} (p : P) uk ak c at_ now st res st' :
  accept p uk ak c at_ now st = (Ok res, st') → replayed res = false →
  ∃ t r, aware "acceptance timestamp must be timezone-aware" (or_now at_ now) = Ok t ∧
    verify_artifact p (signed_quote c) (Some QUOTE) false = Ok r ∧ valid r = true ∧
    contract_of_quote (payload (signed_quote c)) (authority_ttl_seconds c) t (contract res) ∧
    utts st' !! c_utt_id (contract res) = Some (signed_utt (contract res)).
Proof.
  intros Hacc Hnew.
  apply accept_ok in Hacc
    as (key & origin & hash & _ & _ & _ & [[? _]|(_ & _ & Hu & t & Ht & Hb)]); [congruence|].
  apply build_contract_ok in Hb as [(r & Hv & Hval) Hc]. by exists t, r.
Qed.

Lemma acceptance_faithful_witness :
  replayed demo_result = false ∧
  ∃ t r, aware "acceptance timestamp must be timezone-aware"
      (or_now (Some (Aware (seconds 200))) 0) = Ok t ∧
    verify_artifact demo_keys (signed_quote demo_command) (Some QUOTE) false = Ok r ∧
    valid r = true ∧
    contract_of_quote (payload (signed_quote demo_command))
      (authority_ttl_seconds demo_command) t (contract demo_result) ∧
    utts demo_store !! c_utt_id (contract demo_result)
      = Some (signed_utt (contract demo_result)).
Proof.
  split; [reflexivity|].
  apply (acceptance_faithful demo_keys "KX" "KX" demo_command _ 0 no_contracts demo_result);
    [exact demo_runs|reflexivity].
Defined.
