(* ===== verification/Routing.v ===== *)
(** [railone_execution/models.py] (route candidates) and
    [railone_execution/scoring.py]: deterministic integer-only eligibility and
    ranking of routes. *)

From Stdlib Require Import Ascii String.
From S2P Require Import Prelude.
From S2P Require Import PyBase.
From S2P Require Import CanonicalJson.
From S2P Require Import ContractModels.

Definition require_bps (name : string) (value : Z) : res Z :=
  _ ← raise_if (negb ((0 <=? value) && (value <=? 10000))) ValueError
        (name +:+ " must be between 0 and 10000");
  mret value.

Definition require_aware (name : string) (value : datetime) : res instant :=
  aware (name +:+ " must be timezone-aware") value.

Inductive LinkStatus := LINK_UP | LINK_DEGRADED | LINK_DOWN.
#[global] Instance LinkStatus_eq_dec : EqDecision LinkStatus.
Proof. solve_decision. Defined.
Definition LinkStatus_value (l : LinkStatus) : string :=
  match l with LINK_UP => "UP" | LINK_DEGRADED => "DEGRADED" | LINK_DOWN => "DOWN" end.

Record RouteCandidate := {
  route_id : string;
  source_institution_id : string;
  destination_institution_id : string;
  rail : string;
  provider : string;
  adapter : string;
  currency_from : string;
  currency_to : string;
  min_amount_minor : Z;
  max_amount_minor : Z;
  latency_ms : Z;
  congestion_bps : Z;
  liquidity_capacity_minor : Z;
  throughput_headroom_bps : Z;
  speed_bps : Z;
  estimated_cost_minor : Z;
  link_status : LinkStatus;
  telemetry_observed_at : instant;
  telemetry_expires_at : instant;
}.

(** [RouteCandidate.normalized]; the telemetry timestamps of the model are
    aware. *)
Definition normalized (c : RouteCandidate) : res RouteCandidate :=
  _ ← require_text "route_id" (route_id c);
  _ ← require_text "source_institution_id" (source_institution_id c);
  _ ← require_text "destination_institution_id" (destination_institution_id c);
  _ ← require_text "rail" (rail c);
  _ ← require_text "provider" (provider c);
  _ ← require_text "adapter" (adapter c);
  _ ← require_text "currency_from" (currency_from c);
  _ ← require_text "currency_to" (currency_to c);
  minimum ← require_minor_units "min_amount_minor" true (min_amount_minor c);
  maximum ← require_minor_units "max_amount_minor" false (max_amount_minor c);
  _ ← raise_if (maximum <? minimum) ValueError
        "min_amount_minor cannot exceed max_amount_minor";
  _ ← require_minor_units "latency_ms" true (latency_ms c);
  _ ← require_bps "congestion_bps" (congestion_bps c);
  _ ← require_minor_units "liquidity_capacity_minor" true (liquidity_capacity_minor c);
  _ ← require_bps "throughput_headroom_bps" (throughput_headroom_bps c);
  _ ← require_bps "speed_bps" (speed_bps c);
  _ ← require_minor_units "estimated_cost_minor" true (estimated_cost_minor c);
  _ ← raise_if (telemetry_expires_at c <=? telemetry_observed_at c) ValueError
        "telemetry expiry must be after observation";
  mret c.

Definition RouteCandidate_to_payload (c : RouteCandidate) : res mapping :=
  _ ← normalized c;
  mret (fields [
    ("route_id", PStr (route_id c));
    ("source_institution_id", PStr (source_institution_id c));
    ("destination_institution_id", PStr (destination_institution_id c));
    ("rail", PStr (rail c)); ("provider", PStr (provider c));
    ("adapter", PStr (adapter c));
    ("currency_from", PStr (upper (currency_from c)));
    ("currency_to", PStr (upper (currency_to c)));
    ("min_amount_minor", PInt (min_amount_minor c));
    ("max_amount_minor", PInt (max_amount_minor c));
    ("latency_ms", PInt (latency_ms c)); ("congestion_bps", PInt (congestion_bps c));
    ("liquidity_capacity_minor", PInt (liquidity_capacity_minor c));
    ("throughput_headroom_bps", PInt (throughput_headroom_bps c));
    ("speed_bps", PInt (speed_bps c));
    ("estimated_cost_minor", PInt (estimated_cost_minor c));
    ("link_status", PStr (LinkStatus_value (link_status c)));
    ("telemetry_observed_at", PInt (epoch (telemetry_observed_at c)));
    ("telemetry_expires_at", PInt (epoch (telemetry_expires_at c)))]).

(** The seven components, by name. *)
Record Components := {
  k_latency : Z; k_congestion : Z; k_liquidity : Z; k_throughput : Z;
  k_speed : Z; k_cost : Z; k_link : Z;
}.
Definition component_fields (k : Components) : mapping :=
  fields [("latency", PInt (k_latency k)); ("congestion", PInt (k_congestion k));
          ("liquidity", PInt (k_liquidity k)); ("throughput", PInt (k_throughput k));
          ("speed", PInt (k_speed k)); ("cost", PInt (k_cost k)); ("link", PInt (k_link k))].

Record RankedRoute := {
  candidate : RouteCandidate;
  score_bps : Z;
  component_scores : Components;
  rank : Z;
}.

Definition RankedRoute_to_payload (r : RankedRoute) : res mapping :=
  route ← RouteCandidate_to_payload (candidate r);
  mret (fields [("rank", PInt (rank r)); ("score_bps", PInt (score_bps r));
                ("component_scores", PDict (component_fields (component_scores r)));
                ("route", PDict route)]).

(** ** Weights *)
Record RouteScoreWeights := {
  w_latency : Z; w_congestion : Z; w_liquidity : Z; w_throughput : Z;
  w_speed : Z; w_cost : Z; w_link : Z;
}.
Definition default_weights : RouteScoreWeights :=
  {| w_latency := 1600; w_congestion := 1200; w_liquidity := 1700; w_throughput := 1200;
     w_speed := 1200; w_cost := 1800; w_link := 1300 |}.

Definition weight_values (w : RouteScoreWeights) : list Z :=
  [w_latency w; w_congestion w; w_liquidity w; w_throughput w; w_speed w; w_cost w; w_link w].

Definition RouteScoreWeights_post_init (w : RouteScoreWeights) : res RouteScoreWeights :=
  _ ← raise_if (existsb (λ v, v <? 0) (weight_values w)
                || negb (foldr Z.add 0 (weight_values w) =? 10000)) ValueError
        "route weights must be non-negative and sum to 10000";
  mret w.

(** ** The planning request of [rank] *)
Record RankRequest := {
  rq_amount : Z;
  rq_from : string;
  rq_to : string;
  rq_budget : Z;
  rq_source : string;
  rq_destination : string;
  rq_at : instant;
}.
Implicit Types (q : RankRequest) (c : RouteCandidate).

(** [_eligible] *)
Definition eligible q c : bool :=
  negb (bool_decide (link_status c = LINK_DOWN))
  && (telemetry_observed_at c <=? rq_at q)
  && (rq_at q <? telemetry_expires_at c)
  && String.eqb (upper (currency_from c)) (upper (rq_from q))
  && String.eqb (upper (currency_to c)) (upper (rq_to q))
  && ((min_amount_minor c <=? rq_amount q) && (rq_amount q <=? max_amount_minor c))
  && (rq_amount q <=? liquidity_capacity_minor c)
  && (estimated_cost_minor c <=? rq_budget q)
  && String.eqb (source_institution_id c) (rq_source q)
  && String.eqb (destination_institution_id c) (rq_destination q).

(** [_components]; for a zero amount the scoring loop raises instead. *)
Definition components q c : Components :=
  {| k_latency := Z.max 0 (10000 - Z.min (latency_ms c) 10000);
     k_congestion := 10000 - congestion_bps c;
     k_liquidity := Z.min 10000
       (((liquidity_capacity_minor c - rq_amount q) * 10000) / rq_amount q);
     k_throughput := throughput_headroom_bps c;
     k_speed := speed_bps c;
     k_cost := if rq_budget q =? 0 then 10000
               else Z.max 0 (10000 - estimated_cost_minor c * 10000 / rq_budget q);
     k_link := if bool_decide (link_status c = LINK_UP) then 10000 else 4000 |}.

Definition weighted (w : RouteScoreWeights) (k : Components) : Z :=
  (k_latency k * w_latency w + k_congestion k * w_congestion w
   + k_liquidity k * w_liquidity w + k_throughput k * w_throughput w
   + k_speed k * w_speed w + k_cost k * w_cost w + k_link k * w_link w) / 10000.

(** [(-score, route_id)] *)
Definition rank_key (x : RouteCandidate * Z * Components) : Z * string :=
  (- x.1.2, route_id x.1.1).
Definition rank_le : Z * string → Z * string → Prop := lex_le Z.le.

(** The scoring loop. *)
Fixpoint score_all (w : RouteScoreWeights) q (l : list RouteCandidate)
    : res (list (RouteCandidate * Z * Components)) :=
  match l with
  | [] => mret []
  | c :: l' =>
      _ ← normalized c;
      here ← (if eligible q c then
                _ ← raise_if (rq_amount q =? 0) OtherException
                      "integer division or modulo by zero";
                mret [(c, weighted w (components q c), components q c)]
              else mret []);
      rest ← score_all w q l';
      mret (here ++ rest)
  end.

Definition ranked_at (i : nat) (x : RouteCandidate * Z * Components) : RankedRoute :=
  {| candidate := x.1.1; score_bps := x.1.2; component_scores := x.2;
     rank := Z.of_nat i + 1 |}.

Definition rank_routes (w : RouteScoreWeights) q (candidates : list RouteCandidate)
    : res (list RankedRoute) :=
  _ ← raise_if (negb (bool_decide (NoDup (route_id <$> candidates)))) ValueError
        "route_id must be unique within a planning request";
  scored ← score_all w q candidates;
  mret (imap ranked_at (sort_on rank_key rank_le scored)).

(** ** Facts *)
Definition scored w q c : RouteCandidate * Z * Components :=
  (c, weighted w (components q c), components q c).

Lemma normalized_self c c' : normalized c = Ok c' → c' = c.
Proof. intros Hn. unfold normalized in Hn. by inv_ok Hn. Qed.

Lemma score_all_ok w q l r :
  rq_amount q ≠ 0 →
  score_all w q l = Ok r ↔
  Forall (λ c, normalized c = Ok c) l ∧
  r = scored w q <$> filter (λ c, eligible q c = true) l.
Proof.
  intros Ha%Z.eqb_neq. revert r. induction l as [|c l IH]; intros r; cbn [score_all].
  - rewrite res_ret_ok, Forall_nil. naive_solver.
  - rewrite Forall_cons, filter_cons, Ha. split.
    + intros Hs. inv_ok Hs. match goal with Hn : normalized c = Ok _ |- _ =>
        pose proof (normalized_self _ _ Hn) as -> end.
      match goal with Hr : score_all _ _ _ = Ok _ |- _ => apply IH in Hr as [Hl ->] end.
      split; [done|]. destruct (eligible q c); inv_ok H0; done.
    + intros [[Hc Hl] ->]. rewrite Hc. cbn. rewrite (proj2 (IH _) (conj Hl eq_refl)).
      by destruct (eligible q c).
Qed.

(** Components and scores are basis points. *)
Definition bps (z : Z) : Prop := 0 <= z <= 10000.

Lemma require_bps_ok name v u : require_bps name v = Ok u ↔ u = v ∧ bps v.
Proof.
  unfold require_bps, bps. destruct ((0 <=? v) && (v <=? 10000)) eqn:E; cbn.
  - rewrite res_ret_ok. split; [|naive_solver]. intros ->. split; [done|lia].
  - rewrite ?res_raise_ok. split; [done|]. intros [_ ?]. lia.
Qed.

Lemma require_minor_units_ok name z v u :
  require_minor_units name z v = Ok u ↔ u = v ∧ (if z then 0 else 1) <= v.
Proof.
  unfold require_minor_units. destruct (v <? _) eqn:E; cbn.
  - split; [done|]. intros [_ ?]. lia.
  - rewrite res_ret_ok. split; [|naive_solver]. intros ->. split; [done|lia].
Qed.

Lemma normalized_facts c c' :
  normalized c = Ok c' →
  c' = c ∧ 0 <= min_amount_minor c <= max_amount_minor c ∧ 0 <= latency_ms c ∧
  bps (congestion_bps c) ∧ 0 <= liquidity_capacity_minor c ∧
  bps (throughput_headroom_bps c) ∧ bps (speed_bps c) ∧ 0 <= estimated_cost_minor c.
Proof.
  intros Hn. unfold normalized in Hn. inv_ok Hn.
  repeat match goal with
  | H : require_minor_units _ _ _ = Ok _ |- _ => apply require_minor_units_ok in H as [-> ?]
  | H : require_bps _ _ = Ok _ |- _ => apply require_bps_ok in H as [-> ?]
  end.
  unfold bps in *. repeat split; try done; lia.
Qed.

Lemma components_bps q c c' :
  normalized c = Ok c' → eligible q c = true → 0 < rq_amount q → 0 <= rq_budget q →
  Forall bps [k_latency (components q c); k_congestion (components q c);
              k_liquidity (components q c); k_throughput (components q c);
              k_speed (components q c); k_cost (components q c); k_link (components q c)].
Proof.
  intros (_ & _ & ? & [] & ? & [] & [] & ?)%normalized_facts He Ha Hb.
  unfold eligible in He. rewrite !andb_true_iff, !Z.leb_le in He.
  destruct He as [[[[_ Hliq] Hcost] _] _].
  unfold bps. repeat constructor; cbn; try lia.
  - apply Z.min_glb; [lia|]. apply Z.div_pos; lia.
  - case_match; [lia|]. apply Z.le_max_l.
  - case_match; [lia|]. apply Z.max_lub; [lia|].
    assert (0 <= estimated_cost_minor c * 10000 / rq_budget q) by (apply Z.div_pos; lia).
    lia.
  - case_match; lia.
  - case_match; lia.
Qed.

(** A convex combination of basis points is one. *)
Lemma weighted_bps w w' k :
  RouteScoreWeights_post_init w = Ok w' →
  Forall bps [k_latency k; k_congestion k; k_liquidity k; k_throughput k;
              k_speed k; k_cost k; k_link k] →
  bps (weighted w k).
Proof.
  unfold RouteScoreWeights_post_init. intros Hw Hk. inv_ok Hw.
  match goal with H : _ || _ = false |- _ => cbn in H end.
  repeat match goal with H : Forall _ (_ :: _) |- _ => apply Forall_cons in H as [[] ?] end.
  unfold weighted, bps. split.
  - apply Z.div_pos; [|lia]. nia.
  - apply Z.div_le_upper_bound; [lia|]. nia.
Qed.

Lemma rank_routes_ok w q l r :
  rq_amount q ≠ 0 →
  rank_routes w q l = Ok r ↔
  NoDup (route_id <$> l) ∧ Forall (λ c, normalized c = Ok c) l ∧
  r = imap ranked_at (sort_on rank_key rank_le
        (scored w q <$> filter (λ c, eligible q c = true) l)).
Proof.
  intros Ha. unfold rank_routes. rewrite res_bind_ok. split.
  - intros (u & Hnd & Hr). inv_ok Hnd. inv_ok Hr. rewrite negb_false_iff, bool_decide_eq_true in Hnd.
    match goal with Hs : score_all _ _ _ = Ok _ |- _ => apply score_all_ok in Hs as [? ->] end;
      done.
  - intros (Hnd & Hl & ->). exists tt. rewrite bool_decide_eq_true_2 by done. split; [done|].
    by rewrite (proj2 (score_all_ok w q l _ Ha) (conj Hl eq_refl)).
Qed.

Lemma imap_ranked_candidates l :
  candidate <$> imap ranked_at l = (λ x, x.1.1) <$> l.
Proof. rewrite fmap_imap. apply imap_const. Qed.

Lemma scored_candidates w q (l : list RouteCandidate) : (λ x, x.1.1) <$> (scored w q <$> l) = l.
Proof. rewrite <- list_fmap_compose. apply list_fmap_id. Qed.

Lemma NoDup_fmap_filter {A B} (f : A → B) (p : A → Prop) `{∀ x, Decision (p x)} l :
  NoDup (f <$> l) → NoDup (f <$> filter p l).
Proof.
  induction l as [|x l IH]; [done|]. cbn [fmap list_fmap]. intros [Hx Hl]%NoDup_cons.
  rewrite filter_cons. case_decide; [|by apply IH]. cbn [fmap list_fmap].
  apply NoDup_cons. split; [|by apply IH]. contradict Hx.
  apply list_elem_of_fmap in Hx as (y & -> & [_ Hy]%list_elem_of_filter).
  by apply list_elem_of_fmap_2.
Qed.

Lemma rank_key_nodup w q l :
  NoDup (route_id <$> l) →
  NoDup (rank_key <$> (scored w q <$> filter (λ c, eligible q c = true) l)).
Proof.
  intros Hnd. apply (NoDup_fmap_1 snd). rewrite <- !list_fmap_compose.
  by apply (NoDup_fmap_filter route_id).
Qed.

(** ** The guarantees *)

(** C39 Ranking: a successful ranking contains exactly the eligible candidates,
    ranked 1, 2, ... in strictly increasing order of (decreasing score, route
    identifier), and every score is between 0 and 10000 basis points. *)
Theorem ranking_correct w w' q l r :
  RouteScoreWeights_post_init w = Ok w' → 0 < rq_amount q → 0 <= rq_budget q →
  rank_routes w q l = Ok r →
  candidate <$> r ≡ₚ filter (λ c, eligible q c = true) l ∧
  (∀ i x, r !! i = Some x → rank x = Z.of_nat i + 1 ∧
     score_bps x = weighted w (components q (candidate x)) ∧ bps (score_bps x)) ∧
  (∀ i j x y, (i < j)%nat → r !! i = Some x → r !! j = Some y →
     score_bps y < score_bps x ∨
     score_bps y = score_bps x ∧ str_le (route_id (candidate x)) (route_id (candidate y)) ∧
     route_id (candidate x) ≠ route_id (candidate y)).
Proof.
  intros Hw Ha Hb Hr. apply rank_routes_ok in Hr as (Hnd & Hn & ->); [|lia].
  set (s := scored w q <$> _).
  assert (∀ i x, sort_on rank_key rank_le s !! i = Some x →
    ∃ c, x = scored w q c ∧ c ∈ l ∧ eligible q c = true) as Hin.
  { intros i x Hx%list_elem_of_lookup_2. rewrite elem_of_sort_on in Hx.
    apply list_elem_of_fmap in Hx as (c & -> & [He Hc]%list_elem_of_filter). eauto. }
  split_and!.
  - rewrite imap_ranked_candidates, sort_on_perm. unfold s.
    rewrite <- list_fmap_compose. by rewrite list_fmap_id.
  - intros i x Hx. rewrite list_lookup_imap in Hx.
    destruct (_ !! i) as [y|] eqn:Hy; [|done]. injection Hx as <-. cbn.
    destruct (Hin _ _ Hy) as (c & -> & Hc & He). cbn. split_and!; [done..|].
    rewrite Forall_forall in Hn. eapply weighted_bps, components_bps; eauto.
  - intros i j x y Hij Hx Hy. rewrite list_lookup_imap in Hx, Hy.
    destruct (_ !! i) as [x'|] eqn:Hx'; [|done]. destruct (_ !! j) as [y'|] eqn:Hy'; [|done].
    injection Hx as <-. injection Hy as <-. cbn.
    assert (rank_le (rank_key x') (rank_key y')) as Hle.
    { eapply (StronglySorted_lookup (on_key rank_key rank_le)); [|exact Hij|done|done].
      apply sort_on_sorted; apply _. }
    assert (rank_key x' ≠ rank_key y') as Hne.
    { intros Heq. assert (NoDup (rank_key <$> sort_on rank_key rank_le s)) as Hnd'
        by (rewrite sort_on_perm; by apply rank_key_nodup).
      assert (i = j); [|lia].
      eapply (NoDup_lookup _ i j (rank_key x')); [exact Hnd'|..];
        rewrite list_lookup_fmap; [by rewrite Hx'|by rewrite Hy', Heq]. }
    unfold rank_le, lex_le, rank_key in Hle, Hne. cbn in Hle.
    case_decide as Hs; [right|left; lia]. split_and!; [lia|done|congruence].
Qed.

(** Determinism: the ranking does not depend on the order in which the
    candidates are presented. *)
Theorem ranking_order_independent w q l l' r :
  rq_amount q ≠ 0 → l ≡ₚ l' → rank_routes w q l = Ok r → rank_routes w q l' = Ok r.
Proof.
  intros Ha Hp. rewrite !rank_routes_ok by done. intros (Hnd & Hn & ->). split_and!.
  - by rewrite <- Hp.
  - by rewrite <- Hp.
  - f_equal. apply sort_on_unique; [apply _..| |by rewrite Hp]. by apply rank_key_nodup.
Qed.

(** ** Two concrete candidates *)
Module DemoRoutes.
Definition demo_route (id : string) (latency cost : Z) : RouteCandidate :=
  {| route_id := id; source_institution_id := "BANK"; destination_institution_id := "BANK";
     rail := "MM"; provider := "MPESA"; adapter := "mpesa"; currency_from := "KES";
     currency_to := "kes"; min_amount_minor := 1; max_amount_minor := 100000;
     latency_ms := latency; congestion_bps := 100; liquidity_capacity_minor := 5000;
     throughput_headroom_bps := 9000; speed_bps := 8000; estimated_cost_minor := cost;
     link_status := LINK_UP; telemetry_observed_at := 0;
     telemetry_expires_at := seconds 100000 |}.
Definition demo_request : RankRequest :=
  {| rq_amount := 1000; rq_from := "KES"; rq_to := "KES"; rq_budget := 30;
     rq_source := "BANK"; rq_destination := "BANK"; rq_at := seconds 250 |}.
Definition demo_candidates : list RouteCandidate :=
  [demo_route "slow" 9000 10; demo_route "fast" 100 10; demo_route "dear" 100 31].
Definition demo_ranking : list RankedRoute :=
  from_ok [] (rank_routes default_weights demo_request demo_candidates).
End DemoRoutes.
Import DemoRoutes.

Example demo_ranking_ids : route_id ∘ candidate <$> demo_ranking = ["fast"; "slow"].
Proof. vm_compute. reflexivity. Qed.

Lemma ranking_correct_witness :
  candidate <$> demo_ranking ≡ₚ
    filter (λ c, eligible demo_request c = true) demo_candidates.
Proof.
  eapply (ranking_correct default_weights default_weights demo_request demo_candidates).
  - vm_compute. reflexivity.
  - vm_compute. reflexivity.
  - vm_compute. discriminate.
  - vm_compute. reflexivity.
Defined.

Lemma ranking_order_independent_witness :
  rank_routes default_weights demo_request (reverse demo_candidates) = Ok demo_ranking.
Proof.
  eapply (ranking_order_independent default_weights demo_request demo_candidates).
  - vm_compute. discriminate.
  - by rewrite reverse_Permutation.
  - vm_compute. reflexivity.
Defined.
