(* ===== verification/ExecutionStore.v ===== *)
(** [railone_execution/models.py] (plans and RTT attempts) and
    [railone_execution/store.py]: the store with its compare-and-swap commits. *)

From Stdlib Require Import Ascii String.
From S2P Require Import Prelude.
From S2P Require Import PyBase.
From S2P Require Import CanonicalJson.
From S2P Require Import Signatures.
From S2P Require Import Contracts.
From S2P Require Import Routing.

Inductive PlanStatus :=
  | PLAN_ACTIVE | PLAN_RECONCILIATION_REQUIRED | PLAN_FAILED | PLAN_EXHAUSTED
  | PLAN_FINALIZED.
Inductive AttemptState :=
  | RTT_CREATED | RTT_FAILED | RTT_SUCCEEDED | RTT_RECONCILIATION_REQUIRED.
Inductive FailureDisposition :=
  | FAIL_RETRYABLE | FAIL_TERMINAL | FAIL_RECONCILIATION_REQUIRED.
#[global] Instance PlanStatus_eq_dec : EqDecision PlanStatus.
Proof. solve_decision. Defined.
#[global] Instance AttemptState_eq_dec : EqDecision AttemptState.
Proof. solve_decision. Defined.
#[global] Instance FailureDisposition_eq_dec : EqDecision FailureDisposition.
Proof. solve_decision. Defined.

Definition PlanStatus_value (s : PlanStatus) : string :=
  match s with
  | PLAN_ACTIVE => "ACTIVE"
  | PLAN_RECONCILIATION_REQUIRED => "RECONCILIATION_REQUIRED"
  | PLAN_FAILED => "FAILED"
  | PLAN_EXHAUSTED => "EXHAUSTED"
  | PLAN_FINALIZED => "FINALIZED"
  end.
Definition AttemptState_value (s : AttemptState) : string :=
  match s with
  | RTT_CREATED => "CREATED"
  | RTT_FAILED => "FAILED"
  | RTT_SUCCEEDED => "SUCCEEDED"
  | RTT_RECONCILIATION_REQUIRED => "RECONCILIATION_REQUIRED"
  end.
Definition FailureDisposition_value (d : FailureDisposition) : string :=
  match d with
  | FAIL_RETRYABLE => "RETRYABLE"
  | FAIL_TERMINAL => "TERMINAL"
  | FAIL_RECONCILIATION_REQUIRED => "RECONCILIATION_REQUIRED"
  end.

Record RouteFailure := {
  rf_rtt_id : string;
  rf_route_id : string;
  rf_code : string;
  rf_disposition : FailureDisposition;
  rf_recorded_at : instant;
}.

Definition RouteFailure_to_payload (f : RouteFailure) : mapping :=
  fields [("rtt_id", PStr (rf_rtt_id f)); ("route_id", PStr (rf_route_id f));
          ("failure_code", PStr (rf_code f));
          ("disposition", PStr (FailureDisposition_value (rf_disposition f)));
          ("recorded_at", PInt (epoch (rf_recorded_at f)))].

Record ExecutionPlan := {
  plan_id : string;
  plan_utt_id : string;
  ranked_routes : list RankedRoute;
  remaining_route_ids : list string;
  failures : list RouteFailure;
  attempts_used : Z;
  max_attempts : Z;
  routing_budget_minor : Z;
  routing_cost_spent_minor : Z;
  current_rtt_id : option string;
  previous_rtt_id : option string;
  previous_route_id : option string;
  plan_status : PlanStatus;
  successful_route_id : option string;
  plan_version : Z;
  plan_created_at : instant;
  plan_updated_at : instant;
}.

Definition routing_budget_remaining_minor (p : ExecutionPlan) : Z :=
  Z.max 0 (routing_budget_minor p - routing_cost_spent_minor p).

Record RttAttemptRecord := {
  rtt_id : string;
  rtt_utt_id : string;
  rtt_plan_id : string;
  attempt_number : Z;
  rtt_route_id : string;
  signed_rtt : SignatureEnvelope;
  rtt_state : AttemptState;
  rtt_failure_code : option string;
  rtt_actual_cost_minor : option Z;
  rtt_created_at : instant;
  rtt_updated_at : instant;
}.

(** ** [InMemoryExecutionStore] *)
Record ExecutionStore := Executions {
  plans : gmap string ExecutionPlan;
  plan_by_utt : gmap string string;
  attempts : gmap string RttAttemptRecord;
}.
Implicit Types (s : ExecutionStore) (p : ExecutionPlan) (a : RttAttemptRecord).

Definition no_executions : ExecutionStore := Executions ∅ ∅ ∅.

(** [self._plans[id]] for an identifier that another index yielded. *)
Definition plan_at s (id : string) : res ExecutionPlan :=
  require (plans s !! id) KeyError id.

Definition create_plan (contracts : ContractStore) p : M ExecutionStore ExecutionPlan :=
  _ ← lift (require_utt contracts (plan_utt_id p));
  s ← getS;
  match plan_by_utt s !! plan_utt_id p with
  | Some existing_id =>
      _ ← raise_if (negb (String.eqb existing_id (plan_id p))) ExecutionPlanConflictError
            "UTT already has a different execution plan";
      lift (plan_at s existing_id)
  | None =>
      _ ← raise_if (is_some_b (plans s !! plan_id p)) RuntimeError
            "execution plan identifier collision";
      _ ← putS (Executions (<[plan_id p := p]> (plans s))
                  (<[plan_utt_id p := plan_id p]> (plan_by_utt s)) (attempts s));
      mret p
  end.

Definition require_plan_for_utt s (utt_id : string) : res ExecutionPlan :=
  id ← require (plan_by_utt s !! utt_id) ExecutionPlanNotFoundError
         ("execution plan not found for " +:+ utt_id);
  plan_at s id.

Definition require_plan s (id : string) : res ExecutionPlan :=
  require (plans s !! id) ExecutionPlanNotFoundError ("execution plan not found: " +:+ id).

Definition require_attempt s (id : string) : res RttAttemptRecord :=
  require (attempts s !! id) RttNotFoundError ("RTT attempt not found: " +:+ id).

(** The compare-and-swap test. *)
Definition version_matches s (id : string) (previous_version : Z) : res ExecutionPlan :=
  match plans s !! id with
  | Some current =>
      _ ← raise_if (negb (plan_version current =? previous_version))
            ConcurrentPlanUpdateError "execution plan changed concurrently";
      mret current
  | None => raise ConcurrentPlanUpdateError "execution plan changed concurrently"
  end.

Definition put_both p a s : ExecutionStore :=
  Executions (<[plan_id p := p]> (plans s)) (plan_by_utt s)
    (<[rtt_id a := a]> (attempts s)).

Definition commit_start (contracts : ContractStore) (previous_version : Z) p a
    : M ExecutionStore unit :=
  _ ← lift (require_utt contracts (plan_utt_id p));
  s ← getS;
  current ← lift (version_matches s (plan_id p) previous_version);
  _ ← raise_if (is_some_b (current_rtt_id current)) RuntimeError
        "an RTT is already in flight";
  _ ← raise_if (is_some_b (attempts s !! rtt_id a)) RuntimeError "RTT identifier collision";
  _ ← raise_if (negb (String.eqb (rtt_utt_id a) (plan_utt_id p))
                || negb (String.eqb (rtt_plan_id a) (plan_id p))) ValueError
        "RTT lineage does not match execution plan";
  putS (put_both p a s).

Definition commit_transition (previous_version : Z) p a : M ExecutionStore unit :=
  s ← getS;
  current ← lift (version_matches s (plan_id p) previous_version);
  _ ← require (attempts s !! rtt_id a) RttNotFoundError
        ("RTT attempt not found: " +:+ rtt_id a);
  _ ← raise_if (negb (bool_decide (current_rtt_id current = Some (rtt_id a)))) RuntimeError
        "RTT is not the current in-flight attempt";
  putS (put_both p a s).

(** ** Lemmas *)
Lemma version_matches_ok s id v p :
  version_matches s id v = Ok p ↔ plans s !! id = Some p ∧ plan_version p = v.
Proof.
  unfold version_matches. destruct (plans s !! id) as [q|]; [|rewrite res_raise_ok; naive_solver].
  destruct (Z.eqb_spec (plan_version q) v); cbn; [rewrite res_ret_ok|rewrite ?res_raise_ok];
    naive_solver.
Qed.

Lemma commit_start_ok c v p a s s' u :
  commit_start c v p a s = (Ok u, s') ↔
  is_Some (utts c !! plan_utt_id p) ∧
  (∃ q, plans s !! plan_id p = Some q ∧ plan_version q = v ∧ current_rtt_id q = None) ∧
  attempts s !! rtt_id a = None ∧ rtt_utt_id a = plan_utt_id p ∧ rtt_plan_id a = plan_id p ∧
  s' = put_both p a s.
Proof.
  unfold commit_start. split.
  - intros Hc. inv_ok Hc. unfold require_utt in *.
    match goal with H : require _ _ _ = Ok _ |- _ => apply res_require_ok in H end.
    match goal with H : version_matches _ _ _ = Ok _ |- _ => apply version_matches_ok in H as [??] end.
    guards. eauto 15.
  - intros ([e He] & (q & Hq & Hv & Hn) & Ha & Hu & Hp & ->). destruct u.
    unfold mbind, M_bind, lift, getS, require_utt, raise_if. rewrite He. cbn.
    rewrite (proj2 (version_matches_ok _ _ _ _) (conj Hq Hv)), Hn, Ha, Hu, Hp.
    by rewrite !String.eqb_refl.
Qed.

Lemma commit_transition_ok v p a s s' u :
  commit_transition v p a s = (Ok u, s') ↔
  (∃ q, plans s !! plan_id p = Some q ∧ plan_version q = v ∧
        current_rtt_id q = Some (rtt_id a)) ∧
  is_Some (attempts s !! rtt_id a) ∧ s' = put_both p a s.
Proof.
  unfold commit_transition. split.
  - intros Hc. inv_ok Hc.
    match goal with H : version_matches _ _ _ = Ok _ |- _ => apply version_matches_ok in H as [??] end.
    guards. eauto 10.
  - intros ((q & Hq & Hv & Hn) & [a' Ha] & ->). destruct u.
    unfold mbind, M_bind, lift, getS.
    rewrite (proj2 (version_matches_ok _ _ _ _) (conj Hq Hv)), Ha. cbn.
    by rewrite bool_decide_eq_true_2.
Qed.

(** A failing operation leaves the store alone. *)
Lemma commit_start_err c v p a s s' e : commit_start c v p a s = (Err e, s') → s' = s.
Proof.
  unfold commit_start. intros. run_paths.
Qed.
Lemma commit_transition_err v p a s s' e : commit_transition v p a s = (Err e, s') → s' = s.
Proof.
  unfold commit_transition. intros. run_paths.
Qed.
Lemma create_plan_cases c p s r s' :
  create_plan c p s = (r, s') →
  s' = s ∨
  (r = Ok p ∧ plan_by_utt s !! plan_utt_id p = None ∧ plans s !! plan_id p = None ∧
   s' = Executions (<[plan_id p := p]> (plans s))
          (<[plan_utt_id p := plan_id p]> (plan_by_utt s)) (attempts s)).
Proof.
  unfold create_plan. intros. run_paths; try by left.
  right. guards. done.
Qed.
