(* ===== verification/Execution.v ===== *)
(** [railone_execution/service.py]: execution planning and the RTT lifecycle.

    Each operation of [RttAttemptService] reads the store, computes the updated
    plan and attempt, and commits both under the version that it read.  The
    model keeps that split: [next_*] is the pure part (from what was read to
    what is committed), and the operation composes read, [next_*] and commit. *)

From Stdlib Require Import Ascii String.
From S2P Require Import Prelude.
From S2P Require Import PyBase.
From S2P Require Import CanonicalJson.
From S2P Require Import Keys.
From S2P Require Import Signatures.
From S2P Require Import ContractModels.
From S2P Require Import Partners.
From S2P Require Import Authority.
From S2P Require Import Contracts.
From S2P Require Import Routing.
From S2P Require Import ExecutionStore.

(** [replace(plan, ...)] with the fields that transitions change; every
    transition bumps the version. *)
Definition replace_plan (p : ExecutionPlan) (remaining : list string)
    (fails : list RouteFailure) (used spent : Z)
    (current prev_rtt prev_route : option string) (status : PlanStatus)
    (successful : option string) (now : instant) : ExecutionPlan :=
  {| plan_id := plan_id p; plan_utt_id := plan_utt_id p; ranked_routes := ranked_routes p;
     remaining_route_ids := remaining; failures := fails; attempts_used := used;
     max_attempts := max_attempts p; routing_budget_minor := routing_budget_minor p;
     routing_cost_spent_minor := spent; current_rtt_id := current;
     previous_rtt_id := prev_rtt; previous_route_id := prev_route; plan_status := status;
     successful_route_id := successful; plan_version := plan_version p + 1;
     plan_created_at := plan_created_at p; plan_updated_at := now |}.

Definition replace_attempt (a : RttAttemptRecord) (state : AttemptState)
    (code : option string) (cost : Z) (now : instant) : RttAttemptRecord :=
  {| rtt_id := rtt_id a; rtt_utt_id := rtt_utt_id a; rtt_plan_id := rtt_plan_id a;
     attempt_number := attempt_number a; rtt_route_id := rtt_route_id a;
     signed_rtt := signed_rtt a; rtt_state := state; rtt_failure_code := code;
     rtt_actual_cost_minor := Some cost; rtt_created_at := rtt_created_at a;
     rtt_updated_at := now |}.

(** The routes of a plan by identifier ([dict] keeps the last one). *)
Definition route_by_id (p : ExecutionPlan) (id : string) : option RankedRoute :=
  last (filter (λ r, route_id (candidate r) = id) (ranked_routes p)).

(** [next(by_id[id] for id in remaining if ... <= budget)] *)
Fixpoint select_route (p : ExecutionPlan) (ids : list string) : res RankedRoute :=
  match ids with
  | [] => raise PlanNotExecutableError "no affordable route remains"
  | id :: ids' =>
      r ← require (route_by_id p id) KeyError id;
      if estimated_cost_minor (candidate r) <=? routing_budget_remaining_minor p
      then mret r else select_route p ids'
  end.

(** [any(route in remaining and affordable after spending [spent])] *)
Definition affordable_remains (p : ExecutionPlan) (spent : Z) : bool :=
  existsb (λ r, bool_decide (route_id (candidate r) ∈ remaining_route_ids p)
                && (estimated_cost_minor (candidate r)
                    <=? Z.max 0 (routing_budget_minor p - spent)))
    (ranked_routes p).

(** The status after a retryable failure. *)
Definition retry_status (p : ExecutionPlan) (spent : Z) : PlanStatus :=
  if (max_attempts p <=? attempts_used p) || negb (affordable_remains p spent)
  then PLAN_EXHAUSTED else PLAN_ACTIVE.

(** ** From what was read to what is committed

    [rtt] is the identifier as the caller spelled it: the attempt is looked up
    under its stripped form, but the plan records the caller's spelling. *)
Definition already_done : string := "RTT has already reached an operational outcome".

Definition next_failure (p : ExecutionPlan) (a : RttAttemptRecord) (rtt code : string)
    (d : FailureDisposition) (cost : Z) (now : instant)
    : ExecutionPlan * RttAttemptRecord :=
  let spent := routing_cost_spent_minor p + cost in
  let failure := {| rf_rtt_id := rtt; rf_route_id := rtt_route_id a; rf_code := code;
                    rf_disposition := d; rf_recorded_at := now |} in
  let '(status, current, state) :=
    match d with
    | FAIL_RECONCILIATION_REQUIRED =>
        (PLAN_RECONCILIATION_REQUIRED, Some rtt, RTT_RECONCILIATION_REQUIRED)
    | FAIL_TERMINAL => (PLAN_FAILED, None, RTT_FAILED)
    | FAIL_RETRYABLE => (retry_status p spent, None, RTT_FAILED)
    end in
  (replace_plan p (remaining_route_ids p) (failures p ++ [failure]) (attempts_used p)
     spent current (Some rtt) (Some (rtt_route_id a)) status
     (successful_route_id p) now,
   replace_attempt a state (Some code) cost now).

Definition next_success (p : ExecutionPlan) (a : RttAttemptRecord) (rtt : string) (cost : Z)
    (now : instant) : ExecutionPlan * RttAttemptRecord :=
  (replace_plan p (remaining_route_ids p) (failures p) (attempts_used p)
     (routing_cost_spent_minor p + cost) None (Some rtt) (Some (rtt_route_id a))
     PLAN_FINALIZED (Some (rtt_route_id a)) now,
   replace_attempt a RTT_SUCCEEDED (rtt_failure_code a) cost now).

(** A confirmed failure of an attempt that awaited reconciliation. *)
Definition next_confirmed_failure (p : ExecutionPlan) (a : RttAttemptRecord)
    (rtt code : string) (d : FailureDisposition) (cost : Z) (now : instant)
    : ExecutionPlan * RttAttemptRecord :=
  let spent := routing_cost_spent_minor p + cost in
  let failure := {| rf_rtt_id := rtt; rf_route_id := rtt_route_id a; rf_code := code;
                    rf_disposition := d; rf_recorded_at := now |} in
  let status := if bool_decide (d = FAIL_TERMINAL) then PLAN_FAILED
                else retry_status p spent in
  (replace_plan p (remaining_route_ids p) (failures p ++ [failure]) (attempts_used p)
     spent None (Some rtt) (Some (rtt_route_id a)) status
     (successful_route_id p) now,
   replace_attempt a RTT_FAILED (Some code) cost now).

Section services.
Context {P : Type} `{!SigningKeyProvider P} `{Ed25519} {V : Type} `{!EndpointValidator V}.

(** The collaborators of the services. *)
Record ExecutionEnv := {
  env_keys : P;
  env_contracts : ContractStore;
  env_weights : RouteScoreWeights;
  env_rtt_key : string;
  env_policy : EndpointPolicy V;
}.
Implicit Types (env : ExecutionEnv).

(** The UTT under [utt_id], verified. *)
Definition verified_utt env (utt_id : string) : res SignatureEnvelope :=
  id ← require_text "utt_id" utt_id;
  signed_utt ← require_utt (env_contracts env) id;
  verification ← verify_artifact (env_keys env) signed_utt (Some UTT) false;
  _ ← raise_if (negb (valid verification)) PermissionError
        ("UTT rejected: " +:+ reason verification);
  mret signed_utt.

(** [ExecutionPlanningService.build_plan] *)
Definition rank_request (utt : mapping) (now : instant) : res RankRequest :=
  amount ← int_item utt "amount_minor";
  from ← str_item utt "currency_from";
  to ← str_item utt "currency_to";
  budget ← int_item utt "routing_budget_minor";
  payer ← sub_mapping utt "payer"; payer_ep ← sub_mapping payer "endpoint";
  source ← str_item payer_ep "institution_id";
  beneficiary ← sub_mapping utt "beneficiary";
  beneficiary_ep ← sub_mapping beneficiary "endpoint";
  destination ← str_item beneficiary_ep "institution_id";
  mret {| rq_amount := amount; rq_from := from; rq_to := to; rq_budget := budget;
          rq_source := source; rq_destination := destination; rq_at := now |}.

Definition new_plan env (utt_id : string) (candidates : list RouteCandidate)
    (now : instant) : res ExecutionPlan :=
  signed_utt ← verified_utt env utt_id;
  let utt := payload signed_utt in
  request ← rank_request utt now;
  ranked ← rank_routes (env_weights env) request candidates;
  _ ← raise_if (empty ranked) NoEligibleRouteError "no eligible route for accepted UTT";
  hash ← item (protected signed_utt) "payload_sha256";
  policy ← item utt "routing_policy_id";
  routes ← mapR RankedRoute_to_payload ranked;
  id ← content_id "PLAN" (pdict [
         ("utt_id", PStr utt_id); ("utt_payload_sha256", hash);
         ("routing_policy_id", policy); ("ranked_routes", PList (PDict <$> routes));
         ("created_at", PInt (epoch now))]);
  limit ← int_item utt "max_attempts";
  mret {| plan_id := id; plan_utt_id := utt_id; ranked_routes := ranked;
          remaining_route_ids := route_id ∘ candidate <$> ranked; failures := [];
          attempts_used := 0; max_attempts := limit;
          routing_budget_minor := rq_budget request; routing_cost_spent_minor := 0;
          current_rtt_id := None; previous_rtt_id := None; previous_route_id := None;
          plan_status := PLAN_ACTIVE; successful_route_id := None; plan_version := 1;
          plan_created_at := now; plan_updated_at := now |}.

Definition build_plan env (utt_id : string) (candidates : list RouteCandidate)
    (at_ : option datetime) (clock : instant) : M ExecutionStore ExecutionPlan :=
  now ← lift (require_aware "planning timestamp" (or_now at_ clock));
  plan ← lift (new_plan env utt_id candidates now);
  create_plan (env_contracts env) plan.

(** *** [RttAttemptService.start_next] *)
Definition endpoint_of (actor : mapping) : res AccountEndpoint :=
  v ← item actor "endpoint";
  match v with
  | PDict m => AccountEndpoint_from_payload m
  | _ => raise ValueError "invalid account endpoint snapshot"
  end.

Definition check_endpoints env (utt : mapping) : res unit :=
  match endpoints (env_policy env) with
  | None => raise_if (negb (allow_unverified (env_policy env))) RuntimeError
              "partner endpoint validator is required for RTT start"
  | Some v =>
      payer ← sub_mapping utt "payer";
      beneficiary ← sub_mapping utt "beneficiary";
      pid ← str_item payer "actor_id"; pe ← endpoint_of payer;
      pc ← str_item utt "currency_from";
      _ ← validate_endpoint v pid pe DEBIT pc;
      bid ← str_item beneficiary "actor_id"; be ← endpoint_of beneficiary;
      bc ← str_item utt "currency_to";
      validate_endpoint v bid be CREDIT bc
  end.

(** The guards on the plan. *)
Definition startable (p : ExecutionPlan) : res unit :=
  _ ← raise_if (negb (bool_decide (plan_status p = PLAN_ACTIVE))) PlanNotExecutableError
        ("plan is " +:+ PlanStatus_value (plan_status p));
  _ ← raise_if (is_some_b (current_rtt_id p)) PlanNotExecutableError
        "an RTT is already in flight";
  raise_if (max_attempts p <=? attempts_used p) PlanNotExecutableError
    "attempt limit exhausted".

(** The signed birth certificate of an RTT. *)
Definition next_start env (p : ExecutionPlan) (utt_id : string)
    (signed_utt : SignatureEnvelope) (now : instant)
    : res (ExecutionPlan * RttAttemptRecord) :=
  _ ← startable p;
  selected ← select_route p (remaining_route_ids p);
  let number := attempts_used p + 1 in
  let rid := route_id (candidate selected) in
  id ← content_id "RTT" (pdict [
         ("utt_id", PStr utt_id); ("plan_id", PStr (plan_id p));
         ("attempt_number", PInt number); ("route_id", PStr rid);
         ("previous_rtt_id", opt_str (previous_rtt_id p));
         ("created_at", PInt (epoch now))]);
  hash ← item (protected signed_utt) "payload_sha256";
  route ← RouteCandidate_to_payload (candidate selected);
  signed ← sign_artifact (env_keys env) RTT
    (fields [("rtt_id", PStr id); ("utt_id", PStr utt_id); ("utt_payload_sha256", hash);
       ("plan_id", PStr (plan_id p)); ("attempt_number", PInt number);
       ("route", PDict route); ("route_score_bps", PInt (score_bps selected));
       ("route_component_scores", PDict (component_fields (component_scores selected)));
       ("previous_rtt_id", opt_str (previous_rtt_id p));
       ("previous_route_id", opt_str (previous_route_id p));
       ("replay_generation", PInt (number - 1));
       ("birth_state", PStr (AttemptState_value RTT_CREATED));
       ("created_at", PInt (epoch now)); ("custody_model", PStr "NON_CUSTODIAL")])
    (env_rtt_key env) now;
  mret (replace_plan p (filter (λ i, i ≠ rid) (remaining_route_ids p)) (failures p)
          number (routing_cost_spent_minor p) (Some id) (previous_rtt_id p)
          (previous_route_id p) (plan_status p) (successful_route_id p) now,
        {| rtt_id := id; rtt_utt_id := utt_id; rtt_plan_id := plan_id p;
           attempt_number := number; rtt_route_id := rid; signed_rtt := signed;
           rtt_state := RTT_CREATED; rtt_failure_code := None;
           rtt_actual_cost_minor := None; rtt_created_at := now;
           rtt_updated_at := now |}).

(** Read phase: what [start_next] will commit, and the version it read. *)
Definition prepare_start env (utt_id : string) (now : instant) (s : ExecutionStore)
    : res (Z * ExecutionPlan * RttAttemptRecord) :=
  signed_utt ← verified_utt env utt_id;
  let utt := payload signed_utt in
  _ ← raise_if (negb (equals_one (get utt "endpoint_model_version")))
        PlanNotExecutableError "UTT uses an unsupported endpoint model";
  _ ← check_endpoints env utt;
  plan ← require_plan_for_utt s utt_id;
  '(plan', attempt) ← next_start env plan utt_id signed_utt now;
  mret (plan_version plan, plan', attempt).

Definition start_next env (utt_id : string) (at_ : option datetime) (clock : instant)
    : M ExecutionStore RttAttemptRecord :=
  now ← lift (require_aware "attempt timestamp" (or_now at_ clock));
  s ← getS;
  '(v, plan, attempt) ← lift (prepare_start env utt_id now s);
  _ ← commit_start (env_contracts env) v plan attempt;
  mret attempt.
End services.
Arguments ExecutionEnv : clear implicits.

(** *** [record_failure], [record_success], [resolve_reconciliation]

    Each takes the store's lock three times: to read the attempt, to read its
    plan, and to commit.  Other workers run in between, so the plan may be newer
    than the attempt: the two reads are separate definitions on separate stores. *)
Definition read_created (rtt : string) (s : ExecutionStore) : res RttAttemptRecord :=
  id ← require_text "rtt_id" rtt;
  attempt ← require_attempt s id;
  _ ← raise_if (negb (bool_decide (rtt_state attempt = RTT_CREATED)))
        PlanNotExecutableError already_done;
  mret attempt.

Definition read_waiting (rtt : string) (s : ExecutionStore) : res RttAttemptRecord :=
  id ← require_text "rtt_id" rtt;
  attempt ← require_attempt s id;
  _ ← raise_if (negb (bool_decide (rtt_state attempt = RTT_RECONCILIATION_REQUIRED)))
        PlanNotExecutableError "RTT is not awaiting reconciliation";
  mret attempt.

Definition prepare_failure (rtt code : string) (d : FailureDisposition) (cost : Z)
    (now : instant) (attempt : RttAttemptRecord) (s : ExecutionStore)
    : res (Z * ExecutionPlan * RttAttemptRecord) :=
  plan ← require_plan s (rtt_plan_id attempt);
  let '(plan', attempt') := next_failure plan attempt rtt code d cost now in
  mret (plan_version plan, plan', attempt').

Definition record_failure (rtt failure_code : string) (d : FailureDisposition)
    (actual_cost : Z) (at_ : option datetime) (clock : instant)
    : M ExecutionStore ExecutionPlan :=
  now ← lift (require_aware "failure timestamp" (or_now at_ clock));
  cost ← lift (require_minor_units "actual_cost_minor" true actual_cost);
  code ← lift (require_text "failure_code" failure_code);
  s1 ← getS;
  attempt ← lift (read_created rtt s1);
  s2 ← getS;
  '(v, plan, updated) ← lift (prepare_failure rtt (upper code) d cost now attempt s2);
  _ ← commit_transition v plan updated;
  mret plan.

Definition prepare_success (rtt : string) (cost : Z) (now : instant)
    (attempt : RttAttemptRecord) (s : ExecutionStore)
    : res (Z * ExecutionPlan * RttAttemptRecord) :=
  plan ← require_plan s (rtt_plan_id attempt);
  let '(plan', attempt') := next_success plan attempt rtt cost now in
  mret (plan_version plan, plan', attempt').

Definition record_success (rtt : string) (actual_cost : Z) (at_ : option datetime)
    (clock : instant) : M ExecutionStore ExecutionPlan :=
  now ← lift (require_aware "success timestamp" (or_now at_ clock));
  cost ← lift (require_minor_units "actual_cost_minor" true actual_cost);
  s1 ← getS;
  attempt ← lift (read_created rtt s1);
  s2 ← getS;
  '(v, plan, updated) ← lift (prepare_success rtt cost now attempt s2);
  _ ← commit_transition v plan updated;
  mret plan.

Definition prepare_resolution (rtt : string) (succeeded : bool) (cost : Z)
    (failure_code : option string) (d : FailureDisposition) (now : instant)
    (attempt : RttAttemptRecord) (s : ExecutionStore)
    : res (Z * ExecutionPlan * RttAttemptRecord) :=
  plan ← require_plan s (rtt_plan_id attempt);
  _ ← raise_if (negb (bool_decide (plan_status plan = PLAN_RECONCILIATION_REQUIRED))
                || negb (bool_decide (current_rtt_id plan = Some rtt)))
        PlanNotExecutableError "execution plan is not awaiting this RTT";
  if succeeded then
    let '(plan', attempt') := next_success plan attempt rtt cost now in
    mret (plan_version plan, plan', attempt')
  else
    code ← require_text "failure_code"
             match failure_code with
             | Some (String c t) => String c t
             | _ => "PROVIDER_CONFIRMED_FAILURE"
             end;
    _ ← raise_if (bool_decide (d = FAIL_RECONCILIATION_REQUIRED)) ValueError
          "reconciliation resolution must be success or confirmed failure";
    let '(plan', attempt') := next_confirmed_failure plan attempt rtt (upper code) d cost now in
    mret (plan_version plan, plan', attempt').

Definition resolve_reconciliation (rtt : string) (succeeded : bool) (actual_cost : Z)
    (failure_code : option string) (d : FailureDisposition) (at_ : option datetime)
    (clock : instant) : M ExecutionStore ExecutionPlan :=
  now ← lift (require_aware "reconciliation timestamp" (or_now at_ clock));
  cost ← lift (require_minor_units "actual_cost_minor" true actual_cost);
  s1 ← getS;
  attempt ← lift (read_waiting rtt s1);
  s2 ← getS;
  '(v, plan, updated) ←
    lift (prepare_resolution rtt succeeded cost failure_code d now attempt s2);
  _ ← commit_transition v plan updated;
  mret plan.
