(* ===== verification/ExecutionFacts.v ===== *)
(** Correctness of [railone_execution]: the RTT lifecycle as atomic steps on the
    store, the invariant that every reachable store satisfies, and the
    operations of [Execution] as such steps. *)

From Stdlib Require Import Ascii String.
From S2P Require Import Prelude.
From S2P Require Import PyBase.
From S2P Require Import Keys.
From S2P Require Import Signatures.
From S2P Require Import Authority.
From S2P Require Import Contracts.
From S2P Require Import Routing.
From S2P Require Import ExecutionStore.
From S2P Require Import Execution.

Implicit Types (s : ExecutionStore) (p : ExecutionPlan) (a b : RttAttemptRecord).

(** ** Plans and attempts *)
Definition route_ids p : list string := route_id ∘ candidate <$> ranked_routes p.

Definition attempt_open a : Prop :=
  rtt_state a = RTT_CREATED ∨ rtt_state a = RTT_RECONCILIATION_REQUIRED.

Definition plan_terminal p : Prop :=
  plan_status p = PLAN_FAILED ∨ plan_status p = PLAN_EXHAUSTED ∨
  plan_status p = PLAN_FINALIZED.

(** Is an attempt in flight, and how often was an unknown outcome reported? *)
Definition in_flight p : Z := if is_some_b (current_rtt_id p) then 1 else 0.
Definition unknown_reports p : Z :=
  Z.of_nat (length (filter (λ f, rf_disposition f = FAIL_RECONCILIATION_REQUIRED) (failures p))).

(** A failure code that a reader of the open attempt [a] may have seen: none at
    birth, or that of a failure of [a] that the plan has recorded. *)
Definition recorded_code p a (c : option string) : Prop :=
  c = None ∨ ∃ f, f ∈ failures p ∧ strip (rf_rtt_id f) = rtt_id a ∧ c = Some (rf_code f).

Record plan_ok p : Prop := {
  po_used : 0 <= attempts_used p <= max_attempts p;
  po_ids : NoDup (route_ids p);
  po_remaining : remaining_route_ids p ⊆ route_ids p;
  po_current : is_Some (current_rtt_id p) →
    plan_status p = PLAN_ACTIVE ∨ plan_status p = PLAN_RECONCILIATION_REQUIRED;
  po_waiting : plan_status p = PLAN_RECONCILIATION_REQUIRED → is_Some (current_rtt_id p);
  po_ready : plan_status p = PLAN_ACTIVE → current_rtt_id p = None →
    attempts_used p < max_attempts p ∧
    affordable_remains p (routing_cost_spent_minor p) = true;
  po_version : plan_version p + in_flight p = 1 + 2 * attempts_used p + unknown_reports p;
  po_success : is_Some (successful_route_id p) ↔ plan_status p = PLAN_FINALIZED;
  po_positive : 1 <= plan_version p;
}.

Record attempt_ok p a : Prop := {
  ao_utt : rtt_utt_id a = plan_utt_id p;
  ao_number : 1 <= attempt_number a <= attempts_used p;
  ao_spent_route : rtt_route_id a ∉ remaining_route_ids p;
  ao_route : rtt_route_id a ∈ route_ids p;
  ao_open : attempt_open a → ∃ r, current_rtt_id p = Some r ∧ strip r = rtt_id a;
  ao_code : attempt_open a → recorded_code p a (rtt_failure_code a);
  ao_succeeded : rtt_state a = RTT_SUCCEEDED →
    plan_status p = PLAN_FINALIZED ∧ successful_route_id p = Some (rtt_route_id a);
}.

Definition open_matches p a : Prop :=
  plan_status p = PLAN_ACTIVE ∧ rtt_state a = RTT_CREATED ∨
  plan_status p = PLAN_RECONCILIATION_REQUIRED ∧ rtt_state a = RTT_RECONCILIATION_REQUIRED.

(** ** The store invariant *)
Record exec_wf s : Prop := {
  ew_plan : ∀ id p, plans s !! id = Some p →
    plan_id p = id ∧ plan_by_utt s !! plan_utt_id p = Some id ∧ plan_ok p;
  ew_utt : ∀ u id, plan_by_utt s !! u = Some id →
    ∃ p, plans s !! id = Some p ∧ plan_utt_id p = u;
  ew_attempt : ∀ id a, attempts s !! id = Some a →
    (rtt_id a = id ∧ strip id = id) ∧
    ∃ p, plans s !! rtt_plan_id a = Some p ∧ attempt_ok p a;
  ew_current : ∀ id p r, plans s !! id = Some p → current_rtt_id p = Some r →
    ∃ a, attempts s !! strip r = Some a ∧ rtt_plan_id a = id ∧ open_matches p a;
  ew_finalized : ∀ id p, plans s !! id = Some p → plan_status p = PLAN_FINALIZED →
    ∃ r a, attempts s !! r = Some a ∧ rtt_plan_id a = id ∧ rtt_state a = RTT_SUCCEEDED;
  ew_distinct : ∀ i j a b, attempts s !! i = Some a → attempts s !! j = Some b →
    rtt_plan_id a = rtt_plan_id b →
    attempt_number a = attempt_number b ∨ rtt_route_id a = rtt_route_id b → i = j;
}.

Lemma no_executions_wf : exec_wf no_executions.
Proof. split; intros *; unfold no_executions; cbn; by rewrite lookup_empty. Qed.

(** Replacing one plan and one of its attempts. *)
Lemma put_both_wf s p p' a' :
  exec_wf s → plans s !! plan_id p = Some p →
  plan_id p' = plan_id p → plan_utt_id p' = plan_utt_id p →
  rtt_plan_id a' = plan_id p → strip (rtt_id a') = rtt_id a' → (∀ b, attempts s !! rtt_id a' = Some b → rtt_plan_id b = plan_id p) →
  plan_ok p' → attempt_ok p' a' →
  (∀ b, attempts s !! rtt_id b = Some b → rtt_plan_id b = plan_id p →
     rtt_id b ≠ rtt_id a' → attempt_ok p b →
     attempt_ok p' b ∧ attempt_number b ≠ attempt_number a' ∧
     rtt_route_id b ≠ rtt_route_id a') →
  (∀ r, current_rtt_id p' = Some r → strip r = rtt_id a' ∧ open_matches p' a') →
  (plan_status p' = PLAN_FINALIZED → rtt_state a' = RTT_SUCCEEDED) →
  exec_wf (put_both p' a' s).
Proof.
  intros [Hp Hu Ha Hc Hf Hd] Hlook Hid Hutt Hplan Hclean Hprev Hok Haok Hother Hcur Hfin.
  destruct (Hp _ _ Hlook) as (_ & Hby & _).
  assert (∀ i b, attempts s !! i = Some b → i ≠ rtt_id a' → rtt_plan_id b = plan_id p →
    attempt_ok p' b ∧ attempt_number b ≠ attempt_number a' ∧ rtt_route_id b ≠ rtt_route_id a')
    as Hrest.
  { intros i b Hb Hi Hbp. destruct (Ha _ _ Hb) as [[<- _] (q & Hq & Hbo)].
    rewrite Hbp, Hlook in Hq. injection Hq as <-. by apply Hother. }
  split; cbn [plans plan_by_utt attempts put_both].
  - intros id q. rewrite lookup_insert. case_decide as E; [intros [= <-]|apply Hp].
    by rewrite Hutt, Hby, <- Hid, E.
  - intros u id Hl. destruct (Hu _ _ Hl) as (q & Hq & <-).
    rewrite lookup_insert. case_decide as E; [|eauto].
    exists p'. split; [done|]. rewrite <- E, Hid, Hlook in Hq. congruence.
  - intros i b. rewrite lookup_insert. case_decide as E.
    + intros [= <-]. split; [by rewrite <- E|]. exists p'. by rewrite Hplan, <- Hid, lookup_insert_eq.
    + intros Hb. destruct (Ha _ _ Hb) as [Hbi (q & Hq & Hbo)]. split; [done|].
      rewrite lookup_insert. case_decide as E'; [|eauto].
      exists p'. split; [done|]. eapply Hrest; [done|congruence|congruence].
  - intros id q r. rewrite lookup_insert. case_decide as E.
    + intros [= <-] Hr. destruct (Hcur _ Hr) as [-> Hm]. exists a'.
      rewrite lookup_insert_eq. split_and!; [done|congruence|done].
    + intros Hq Hr. destruct (Hc _ _ _ Hq Hr) as (b & Hb & Hbp & Hm). exists b.
      rewrite lookup_insert_ne; [done|]. intros Ei. rewrite <- Ei in Hb.
      rewrite (Hprev _ Hb) in Hbp. congruence.
  - intros id q. rewrite lookup_insert. case_decide as E.
    + intros [= <-] Hs. exists (rtt_id a'), a'. rewrite lookup_insert_eq.
      split_and!; [done|congruence|auto].
    + intros Hq Hs. destruct (Hf _ _ Hq Hs) as (r & b & Hb & Hbp & Hst). exists r, b.
      rewrite lookup_insert_ne; [done|]. intros <-. rewrite (Hprev _ Hb) in Hbp. congruence.
  - intros i j x y. rewrite !lookup_insert. repeat case_decide; subst; try done.
    + intros [= <-] Hy Hxy Hor. destruct (Hrest j y) as (_ & ? & ?); naive_solver congruence.
    + intros Hx [= <-] Hxy Hor. destruct (Hrest i x) as (_ & ? & ?); naive_solver congruence.
    + apply Hd.
Qed.

(** ** The lifecycle as steps *)
Record fresh_plan p : Prop := {
  fp_ids : NoDup (route_ids p);
  fp_remaining : remaining_route_ids p = route_ids p;
  fp_limits : attempts_used p = 0 ∧ 1 <= max_attempts p;
  fp_affordable : affordable_remains p (routing_cost_spent_minor p) = true;
  fp_state : plan_status p = PLAN_ACTIVE ∧ current_rtt_id p = None ∧
    successful_route_id p = None ∧ plan_version p = 1 ∧ failures p = [];
}.

(** [a] with the failure code that an earlier reader saw. *)
Definition with_code a (c : option string) : RttAttemptRecord :=
  {| rtt_id := rtt_id a; rtt_utt_id := rtt_utt_id a; rtt_plan_id := rtt_plan_id a;
     attempt_number := attempt_number a; rtt_route_id := rtt_route_id a;
     signed_rtt := signed_rtt a; rtt_state := rtt_state a; rtt_failure_code := c;
     rtt_actual_cost_minor := rtt_actual_cost_minor a; rtt_created_at := rtt_created_at a;
     rtt_updated_at := rtt_updated_at a |}.

Section lifecycle.
Context {P : Type} `{!SigningKeyProvider P} {V : Type}.
Implicit Types (env : ExecutionEnv P V).

(** One operation at a time, on an identifier as RailOne issued it. *)
Inductive plan_step env s : ExecutionStore → Prop :=
  | step_create p :
      plan_by_utt s !! plan_utt_id p = None → plans s !! plan_id p = None → fresh_plan p →
      plan_step env s (Executions (<[plan_id p := p]> (plans s))
                     (<[plan_utt_id p := plan_id p]> (plan_by_utt s)) (attempts s))
  | step_start p p' a signed_utt now :
      plans s !! plan_id p = Some p → attempts s !! rtt_id a = None →
      next_start env p (plan_utt_id p) signed_utt now = Ok (p', a) →
      plan_step env s (put_both p' a s)
  | step_failure p a code d cost now :
      plans s !! rtt_plan_id a = Some p → attempts s !! rtt_id a = Some a →
      rtt_state a = RTT_CREATED → current_rtt_id p = Some (rtt_id a) →
      plan_step env s (put_both (next_failure p a (rtt_id a) code d cost now).1
                            (next_failure p a (rtt_id a) code d cost now).2 s)
  | step_success p a cost now :
      plans s !! rtt_plan_id a = Some p → attempts s !! rtt_id a = Some a →
      attempt_open a → current_rtt_id p = Some (rtt_id a) →
      plan_step env s (put_both (next_success p a (rtt_id a) cost now).1
                            (next_success p a (rtt_id a) cost now).2 s)
  | step_confirmed p a code d cost now :
      plans s !! rtt_plan_id a = Some p → attempts s !! rtt_id a = Some a →
      rtt_state a = RTT_RECONCILIATION_REQUIRED → current_rtt_id p = Some (rtt_id a) →
      d ≠ FAIL_RECONCILIATION_REQUIRED →
      plan_step env s (put_both (next_confirmed_failure p a (rtt_id a) code d cost now).1
                            (next_confirmed_failure p a (rtt_id a) code d cost now).2 s).

(** The attempt that the plan's in-flight marker names. *)
Record current_attempt s p a : Prop := {
  ca_plan : plans s !! rtt_plan_id a = Some p;
  ca_stored : attempts s !! rtt_id a = Some a;
  ca_current : current_rtt_id p = Some (rtt_id a);
}.

(** What concurrent workers can make happen.  A worker that read the attempt
    before another one reported an unknown outcome still takes it for CREATED:
    its failure applies to the open attempt whatever its state, and its success
    keeps the failure code that it read.  The identifier may be spelled with
    surrounding blanks.  Each start has the keys and the contracts of its time. *)
Inductive life_step s : ExecutionStore → Prop :=
  | life_create p :
      plan_by_utt s !! plan_utt_id p = None → plans s !! plan_id p = None → fresh_plan p →
      life_step s (Executions (<[plan_id p := p]> (plans s))
                     (<[plan_utt_id p := plan_id p]> (plan_by_utt s)) (attempts s))
  | life_start env p p' a signed_utt now :
      plans s !! plan_id p = Some p → attempts s !! rtt_id a = None →
      next_start env p (plan_utt_id p) signed_utt now = Ok (p', a) →
      life_step s (put_both p' a s)
  | life_failure p a rtt code d cost now :
      current_attempt s p a → attempt_open a → strip rtt = rtt_id a →
      life_step s (put_both (next_failure p a rtt code d cost now).1
                            (next_failure p a rtt code d cost now).2 s)
  | life_success p a rtt c cost now :
      current_attempt s p a → attempt_open a → strip rtt = rtt_id a → recorded_code p a c →
      life_step s (put_both (next_success p (with_code a c) rtt cost now).1
                            (next_success p (with_code a c) rtt cost now).2 s)
  | life_confirmed p a code d cost now :
      current_attempt s p a → rtt_state a = RTT_RECONCILIATION_REQUIRED →
      d ≠ FAIL_RECONCILIATION_REQUIRED →
      life_step s (put_both (next_confirmed_failure p a (rtt_id a) code d cost now).1
                            (next_confirmed_failure p a (rtt_id a) code d cost now).2 s).

(** *** The selected route *)
Lemma route_by_id_some p id r :
  route_by_id p id = Some r → r ∈ ranked_routes p ∧ route_id (candidate r) = id.
Proof.
  unfold route_by_id. intros Hl. apply last_Some_elem_of in Hl.
  by apply list_elem_of_filter in Hl as [-> ?].
Qed.

Lemma select_route_ok p ids r :
  select_route p ids = Ok r →
  r ∈ ranked_routes p ∧ route_id (candidate r) ∈ ids ∧
  estimated_cost_minor (candidate r) <= routing_budget_remaining_minor p.
Proof.
  induction ids as [|id ids IH]; cbn [select_route]; intros Hs; inv_ok Hs.
  match goal with H : route_by_id _ _ = Some _ |- _ => apply route_by_id_some in H as [Hin <-] end.
  destruct (_ <=? _) eqn:E; inv_ok Hs.
  - apply Z.leb_le in E. split_and!; [done|by left|done].
  - destruct (IH Hs) as (? & ? & ?). split_and!; [done|by right|done].
Qed.

Lemma startable_ok p u :
  startable p = Ok u ↔
  plan_status p = PLAN_ACTIVE ∧ current_rtt_id p = None ∧ attempts_used p < max_attempts p.
Proof.
  unfold startable. split.
  - intros Hs. inv_ok Hs. guards. done.
  - intros (Hs & Hc & Hu). destruct u. rewrite bool_decide_eq_true_2 by done. rewrite Hc.
    cbn. by rewrite (proj2 (Z.leb_gt _ _) Hu).
Qed.

Lemma next_start_ok env p utt e now p' a :
  next_start env p utt e now = Ok (p', a) →
  ∃ r id signed, startable p = Ok tt ∧ select_route p (remaining_route_ids p) = Ok r ∧
  strip id = id ∧
  p' = replace_plan p (filter (λ i, i ≠ route_id (candidate r)) (remaining_route_ids p))
         (failures p) (attempts_used p + 1) (routing_cost_spent_minor p) (Some id)
         (previous_rtt_id p) (previous_route_id p) (plan_status p) (successful_route_id p) now ∧
  a = {| rtt_id := id; rtt_utt_id := utt; rtt_plan_id := plan_id p;
         attempt_number := attempts_used p + 1; rtt_route_id := route_id (candidate r);
         signed_rtt := signed; rtt_state := RTT_CREATED; rtt_failure_code := None;
         rtt_actual_cost_minor := None; rtt_created_at := now; rtt_updated_at := now |}.
Proof.
  intros Hn. unfold next_start in Hn. inv_ok Hn.
  match goal with H : startable _ = Ok ?u |- _ => destruct u end.
  injection Hn as -> ->.
  match goal with Hc : content_id "RTT" _ = Ok _ |- _ => apply content_id_clean in Hc; [|done] end.
  eexists _, _, _. split_and!; done.
Qed.

(** *** Preservation, step by step *)
Lemma ready_select p :
  NoDup (route_ids p) → remaining_route_ids p ⊆ route_ids p →
  affordable_remains p (routing_cost_spent_minor p) = true →
  ∃ r, select_route p (remaining_route_ids p) = Ok r.
Proof.
  intros Hnd Hsub Haff. unfold affordable_remains in Haff.
  apply existsb_exists in Haff as (r & Hr%list_elem_of_In & [Hin Hc]%andb_true_iff).
  apply bool_decide_eq_true in Hin. unfold route_ids in Hsub, Hnd.
  induction (remaining_route_ids p) as [|id ids IH]; [by apply elem_of_nil in Hin|].
  cbn [select_route].
  assert (∃ r', route_by_id p id = Some r' ∧ (id = route_id (candidate r) → r' = r))
    as (r' & Hr' & Hu).
  { destruct (route_by_id p id) as [r'|] eqn:E.
    - exists r'. split; [done|]. intros ->. apply route_by_id_some in E as [Hr' Heq].
      apply list_elem_of_lookup in Hr as [i Hi]. apply list_elem_of_lookup in Hr' as [j Hj].
      assert (i = j); [|congruence].
      eapply (NoDup_lookup _ _ _ (route_id (candidate r)) Hnd);
        rewrite list_lookup_fmap; [by rewrite Hi|rewrite Hj; cbn; congruence].
    - exfalso. unfold route_by_id in E. apply last_None in E.
      assert (id ∈ route_id ∘ candidate <$> ranked_routes p) as Hid by (apply Hsub; left).
      apply list_elem_of_fmap in Hid as (x & -> & Hx).
      assert (x ∈ filter (λ r, route_id (candidate r) = (route_id ∘ candidate) x)
                (ranked_routes p)) as Hf by (by apply list_elem_of_filter).
      rewrite E in Hf. by apply elem_of_nil in Hf. }
  rewrite Hr'. cbn [require mbind res_bind mret res_ret].
  destruct (estimated_cost_minor (candidate r') <=? routing_budget_remaining_minor p) eqn:E;
    [by exists r'|].
  apply elem_of_cons in Hin as [<-|Hin].
  - rewrite Hu in E by done. unfold routing_budget_remaining_minor in E. congruence.
  - apply IH; [set_solver|done].
Qed.

Lemma start_wf env s p p' a e now :
  exec_wf s → plans s !! plan_id p = Some p → attempts s !! rtt_id a = None →
  next_start env p (plan_utt_id p) e now = Ok (p', a) → exec_wf (put_both p' a s).
Proof.
  intros Hwf Hlook Hfresh Hn.
  apply next_start_ok in Hn as (r & id & signed & Hst & Hsel & Hclean & -> & ->).
  apply startable_ok in Hst as (Hact & Hcur & Hlim).
  apply select_route_ok in Hsel as (Hr & Hrem & _).
  destruct (ew_plan _ Hwf _ _ Hlook) as (_ & _ & Hok). destruct Hok.
  unfold in_flight in po_version0. rewrite Hcur in po_version0. cbn in po_version0.
  apply (put_both_wf s p); try done; cbn.
  - intros b Hb. cbn in Hfresh. congruence.
  - split; cbn; try done; try lia.
    + intros x [_ Hx]%list_elem_of_filter. by apply po_remaining0.
    + eauto.
    + unfold in_flight, unknown_reports in *. cbn. lia.
  - split; cbn; try done; try lia.
    + intros [? _]%list_elem_of_filter. done.
    + by apply po_remaining0.
    + by exists id.
    + by left.
  - intros b Hb Hbp Hne [Hu Hnum Hsp Hrt Hop Hco Hsu].
    assert (¬ attempt_open b) as Hno by (intros (? & ? & _)%Hop; congruence).
    split_and!; [|lia|].
    + split; cbn; try done; try lia. by intros [_ ?]%list_elem_of_filter.
    + intros Heq. by rewrite Heq in Hsp.
  - intros r' [= <-]. split; [done|]. by left.
  - by rewrite Hact.
Qed.

(** The ways in which an in-flight attempt moves on. *)
Definition outcome p a (fails : list RouteFailure) (current : option string)
    (status : PlanStatus) (successful : option string) (state : AttemptState)
    (code : option string) (spent : Z) : Prop :=
  (∃ rtt f, current = Some rtt ∧ strip rtt = rtt_id a ∧
    status = PLAN_RECONCILIATION_REQUIRED ∧ state = RTT_RECONCILIATION_REQUIRED ∧
    successful = successful_route_id p ∧ fails = failures p ++ [f] ∧
    rf_disposition f = FAIL_RECONCILIATION_REQUIRED ∧ rf_rtt_id f = rtt ∧
    code = Some (rf_code f))
  ∨ (∃ f, current = None ∧ state = RTT_FAILED ∧ successful = successful_route_id p ∧
    fails = failures p ++ [f] ∧ rf_disposition f ≠ FAIL_RECONCILIATION_REQUIRED ∧
    (status = PLAN_FAILED ∨ status = retry_status p spent))
  ∨ current = None ∧ state = RTT_SUCCEEDED ∧ status = PLAN_FINALIZED ∧
    successful = Some (rtt_route_id a) ∧ fails = failures p.

Lemma retry_status_cases p spent :
  retry_status p spent = PLAN_EXHAUSTED ∨
  retry_status p spent = PLAN_ACTIVE ∧ attempts_used p < max_attempts p ∧
    affordable_remains p spent = true.
Proof.
  unfold retry_status. destruct (_ || _) eqn:E; [by left|right]. guards. done.
Qed.

(** While an attempt is in flight the plan has no success yet, and its status
    is the one that goes with the attempt's state. *)
Lemma in_flight_facts s p a :
  exec_wf s → current_attempt s p a →
  plan_id p = rtt_plan_id a ∧ plan_ok p ∧ attempt_ok p a ∧ open_matches p a ∧
  successful_route_id p = None ∧ strip (rtt_id a) = rtt_id a.
Proof.
  intros Hwf [Hp Ha Hc]. destruct (ew_plan _ Hwf _ _ Hp) as (Hid & _ & Hok).
  destruct (ew_attempt _ Hwf _ _ Ha) as ([_ Hclean] & q & Hq & Haok).
  rewrite Hp in Hq. injection Hq as <-.
  destruct (ew_current _ Hwf _ _ _ Hp Hc) as (b & Hb & _ & Hm).
  rewrite Hclean, Ha in Hb. injection Hb as <-. split_and!; try done.
  destruct (successful_route_id p) eqn:Hs; [|done]. exfalso.
  destruct Hm as [[Hm _]|[Hm _]]; rewrite (proj1 (po_success _ Hok)) in Hm; by eauto.
Qed.

Lemma open_matches_open p a : open_matches p a → attempt_open a.
Proof. intros [[_ ?]|[_ ?]]; [by left|by right]. Qed.

(** Each outcome keeps the account of versions. *)
Lemma outcome_version p a fails current status successful state code spent :
  plan_ok p → is_Some (current_rtt_id p) →
  outcome p a fails current status successful state code spent →
  plan_version p + 1 + (if is_some_b current then 1 else 0)
  = 1 + 2 * attempts_used p
    + Z.of_nat (length (filter (λ f, rf_disposition f = FAIL_RECONCILIATION_REQUIRED) fails)).
Proof.
  intros Hok [r Hr] Hout. pose proof (po_version _ Hok) as Hv.
  unfold in_flight, unknown_reports in Hv. rewrite Hr in Hv. cbn [is_some_b] in Hv.
  destruct Hout as [(rtt & f & -> & _ & _ & _ & _ & -> & Hf & _)|
    [(f & -> & _ & _ & -> & Hf & _)|(-> & _ & _ & _ & ->)]]; cbn [is_some_b].
  - rewrite filter_app, length_app, filter_cons_True by done. cbn. lia.
  - rewrite filter_app, length_app, filter_cons_False by done. cbn. lia.
  - lia.
Qed.

Lemma transition_wf s p a fails spent current prev_rtt prev_route status successful now state code cost :
  exec_wf s → current_attempt s p a →
  outcome p a fails current status successful state code spent →
  exec_wf (put_both
    (replace_plan p (remaining_route_ids p) fails (attempts_used p) spent current prev_rtt
       prev_route status successful now)
    (replace_attempt a state code cost now) s).
Proof.
  intros Hwf Hca Hout.
  destruct (in_flight_facts _ _ _ Hwf Hca) as (Hid & Hok & Haok & Hm & Hnone & Hclean).
  destruct Hca as [Hp Ha Hc].
  pose proof (outcome_version _ _ _ _ _ _ _ _ _ Hok (mk_is_Some _ _ Hc) Hout) as Hver.
  destruct Hok, Haok. pose proof (retry_status_cases p spent) as Hretry. rewrite <- Hid in Hp.
  apply (put_both_wf s p); try done; cbn.
  - intros b Hb. congruence.
  - split; cbn; try done.
    + intros [r Hr]. destruct Hout as [(? & ? & _ & _ & -> & _)|[(? & -> & _)|(-> & _)]]; auto; done.
    + intros ->. destruct Hout as [(? & ? & -> & _)|[(_ & _ & _ & _ & _ & _ & [?|?])|(_ & _ & ? & _)]];
        try done. destruct Hretry as [?|[? _]]; congruence.
    + intros -> ->. destruct Hout as [(? & ? & ? & _)|[(_ & _ & _ & _ & _ & _ & [?|?])|(_ & _ & ? & _)]];
        try congruence. destruct Hretry as [?|(_ & ? & ?)]; [congruence|done].
    + destruct Hout as [(_ & _ & _ & _ & -> & _ & -> & _)|[(_ & _ & _ & -> & _ & _ & Hst)|(_ & _ & -> & -> & _)]];
        rewrite ?Hnone.
      * by split; [intros []|].
      * split; [by intros []|]. intros ->. destruct Hst; [done|].
        destruct Hretry as [?|[? _]]; congruence.
      * split; [done|by eauto].
    + lia.
  - split; cbn; try done.
    + intros [Ho|Ho]; cbn in Ho;
        destruct Hout as [(rtt & _ & -> & ? & _)|[(_ & _ & -> & _)|(_ & -> & _)]]; by try exists rtt.
    + intros [Ho|Ho]; cbn in Ho;
        destruct Hout as [(rtt & f & _ & Hs & _ & -> & _ & -> & _ & Hf & ->)|
          [(_ & _ & -> & _)|(_ & -> & _)]]; try done.
      right. exists f. cbn. rewrite Hf. split_and!; [set_solver|done|done].
    + intros ->. destruct Hout as [(_ & _ & _ & _ & _ & ? & _)|[(_ & _ & ? & _)|(_ & _ & -> & -> & _)]];
        done.
  - intros b Hb Hbp Hne [Hu Hnum Hsp Hrt Hop Hco Hsu].
    assert (attempt_number b ≠ attempt_number a ∧ rtt_route_id b ≠ rtt_route_id a) as [? ?].
    { split; intros Heq; apply Hne; eapply (ew_distinct _ Hwf); eauto; congruence. }
    assert (¬ attempt_open b) as Hno by (intros (? & ? & ?)%Hop; congruence).
    split_and!; [|done..]. split; cbn; try done.
    intros Hs. destruct (Hsu Hs) as [_ Hsr]. congruence.
  - intros r Hr. destruct Hout as [(? & ? & -> & ? & -> & -> & _)|[(_ & -> & _)|(-> & _)]]; [|done..].
    injection Hr as <-. split; [done|]. by right.
  - intros ->. destruct Hout as [(_ & _ & _ & _ & ? & _)|[(_ & _ & _ & _ & _ & _ & [?|?])|(_ & -> & _)]];
      try done. destruct Hretry as [?|[? _]]; congruence.
Qed.

Lemma create_wf s p :
  exec_wf s → plan_by_utt s !! plan_utt_id p = None → plans s !! plan_id p = None →
  fresh_plan p →
  exec_wf (Executions (<[plan_id p := p]> (plans s))
             (<[plan_utt_id p := plan_id p]> (plan_by_utt s)) (attempts s)).
Proof.
  intros [Hp Hu Ha Hc Hf Hd] Hby Hno [Hids Hrem [Hused Hmax] Haff (Hst & Hcur & Hsuc & Hver & Hfl)].
  split; cbn [plans plan_by_utt attempts].
  - intros id q. rewrite lookup_insert. case_decide as E.
    + intros [= <-]. rewrite lookup_insert_eq. split_and!; try congruence.
      split; try done; rewrite ?Hrem, ?Hcur, ?Hsuc, ?Hused, ?Hst, ?Hver; try done; try lia.
      * intros _ _. split; [lia|done].
      * unfold in_flight, unknown_reports. rewrite Hcur, Hfl. cbn. lia.
    + intros Hq. destruct (Hp _ _ Hq) as (? & ? & ?).
      rewrite lookup_insert_ne by congruence. done.
  - intros u id. rewrite lookup_insert. case_decide as E.
    + intros [= <-]. exists p. by rewrite lookup_insert_eq.
    + intros Hl. destruct (Hu _ _ Hl) as (q & Hq & <-). exists q.
      rewrite lookup_insert_ne by congruence. done.
  - intros i b Hb. destruct (Ha _ _ Hb) as (? & q & Hq & ?). split; [done|].
    exists q. rewrite lookup_insert_ne by congruence. done.
  - intros id q r. rewrite lookup_insert. case_decide as E; [|apply Hc].
    intros [= <-]. congruence.
  - intros id q. rewrite lookup_insert. case_decide as E; [|apply Hf].
    intros [= <-]. congruence.
  - apply Hd.
Qed.

(** The atomic steps are among those of concurrent workers. *)
Lemma plan_step_life env s s' : exec_wf s → plan_step env s s' → life_step s s'.
Proof.
  intros Hwf Hstep. destruct Hstep as [p ? ? ?|p p' a e now ? ? ?|p a code d cost now Hp Ha Hs Hc
    |p a cost now Hp Ha Ho Hc|p a code d cost now Hp Ha Hs Hc Hd].
  - by apply life_create.
  - by eapply life_start.
  - pose proof (Build_current_attempt _ _ _ Hp Ha Hc) as Hca.
    apply life_failure; [done|by left|by apply (in_flight_facts _ _ _ Hwf Hca)].
  - pose proof (Build_current_attempt _ _ _ Hp Ha Hc) as Hca.
    destruct (in_flight_facts _ _ _ Hwf Hca) as (_ & _ & Haok & _ & _ & Hclean).
    pose proof (life_success s p a (rtt_id a) (rtt_failure_code a) cost now Hca Ho Hclean
      (ao_code _ _ Haok Ho)) as Hstep.
    by replace (with_code a (rtt_failure_code a)) with a in Hstep by by destruct a.
  - by apply life_confirmed.
Qed.

Lemma life_step_wf s s' : exec_wf s → life_step s s' → exec_wf s'.
Proof.
  intros Hwf Hstep. destruct Hstep as [|env p p' a e now ? ? ?|p a rtt code d cost now Hca Ho Hr
    |p a rtt c cost now Hca Ho Hr Hco|p a code d cost now Hca Hs Hd].
  - by apply create_wf.
  - by eapply start_wf.
  - unfold next_failure. destruct d; cbn [fst snd]; eapply transition_wf; eauto; unfold outcome.
    + right; left. eexists. split_and!; auto.
    + right; left. eexists. split_and!; auto.
    + left. exists rtt. eexists. split_and!; eauto.
  - unfold next_success. cbn [fst snd].
    change (replace_attempt (with_code a c)) with (replace_attempt a).
    eapply transition_wf; eauto. unfold outcome. right; right. done.
  - eapply transition_wf; eauto. unfold outcome. right; left. eexists.
    split_and!; [done..| |]; [by destruct d|]. case_bool_decide; auto.
Qed.

Lemma plan_step_wf env s s' : exec_wf s → plan_step env s s' → exec_wf s'.
Proof. intros Hwf Hs. by eapply life_step_wf, plan_step_life. Qed.

Lemma reachable_wf env s : rtc (plan_step env) no_executions s → exec_wf s.
Proof.
  intros Hs. remember no_executions as s0 eqn:E.
  assert (exec_wf s0) as Hwf by (subst; apply no_executions_wf). clear E.
  induction Hs as [|x y z Hxy _ IH]; [done|]. by apply IH, (plan_step_wf env x).
Qed.

(** *** Monotonicity *)
Definition plan_le p p' : Prop :=
  p' = p ∨ plan_version p < plan_version p' ∧ plan_utt_id p' = plan_utt_id p ∧
    attempts_used p <= attempts_used p' ∧ ranked_routes p' = ranked_routes p ∧
    remaining_route_ids p' ⊆ remaining_route_ids p ∧ failures p ⊆ failures p' ∧
    ¬ plan_terminal p.

Lemma plan_le_trans p q r : plan_le p q → plan_le q r → plan_le p r.
Proof.
  intros [->|(? & ? & ? & ? & ? & ? & ?)] [->|(? & ? & ? & ? & ? & ? & ?)]; unfold plan_le; auto;
    [right; split_and!; done..|].
  right. split_and!; try congruence; try lia; set_solver.
Qed.

Lemma plan_le_version p q : plan_le p q → plan_version q = plan_version p → q = p.
Proof. intros [?|[? _]]; [done|lia]. Qed.

Lemma in_flight_not_terminal s p a : exec_wf s → current_attempt s p a → ¬ plan_terminal p.
Proof.
  intros Hwf Hca. destruct (in_flight_facts _ _ _ Hwf Hca) as (_ & _ & _ & Hm & _).
  unfold plan_terminal, open_matches in *. intuition congruence.
Qed.

Lemma put_both_le s p p' a' id q :
  plans s !! plan_id p = Some p → plan_id p' = plan_id p → plan_le p p' →
  plans s !! id = Some q → ∃ q', plans (put_both p' a' s) !! id = Some q' ∧ plan_le q q'.
Proof.
  intros Hp Hid Hle Hq. cbn. rewrite lookup_insert. case_decide as E.
  - exists p'. split; [done|]. congruence.
  - exists q. split; [done|by left].
Qed.

(** A transition of the current attempt. *)
Lemma current_le s p a p' a' id q :
  exec_wf s → current_attempt s p a → plan_id p' = plan_id p →
  (plan_version p < plan_version p' ∧ plan_utt_id p' = plan_utt_id p ∧
    attempts_used p <= attempts_used p' ∧ ranked_routes p' = ranked_routes p ∧
    remaining_route_ids p' ⊆ remaining_route_ids p ∧ failures p ⊆ failures p') →
  plans s !! id = Some q → ∃ q', plans (put_both p' a' s) !! id = Some q' ∧ plan_le q q'.
Proof.
  intros Hwf Hca Hid (? & ? & ? & ? & ? & ?).
  destruct (in_flight_facts _ _ _ Hwf Hca) as (Hpid & _).
  pose proof (in_flight_not_terminal _ _ _ Hwf Hca).
  apply (put_both_le s p); [rewrite Hpid; by apply ca_plan|done|]. right. split_and!; done.
Qed.

Lemma life_step_le s s' id p :
  exec_wf s → life_step s s' → plans s !! id = Some p →
  ∃ p', plans s' !! id = Some p' ∧ plan_le p p'.
Proof.
  intros Hwf Hstep Hp. destruct Hstep as
    [q ? Hno _|env q q' b e now Hq _ Hn|q b rtt code d cost now Hca _ _
    |q b rtt c cost now Hca _ _ _|q b code d cost now Hca _ _].
  - exists p. cbn. rewrite lookup_insert_ne by congruence. split; [done|by left].
  - apply next_start_ok in Hn as (r & i & sg & Hst & _ & _ & -> & ->).
    apply startable_ok in Hst as (Hact & _ & _).
    eapply (put_both_le s q); [done..| |done]. right. cbn.
    split_and!; try done; try lia; [|unfold plan_terminal; intuition congruence].
    intros x [_ Hx]%list_elem_of_filter. done.
  - eapply current_le; [done..|by destruct d| |done].
    destruct d; cbn; split_and!; (done || lia || set_solver).
  - eapply current_le; [done..| |done]. cbn; split_and!; (done || lia).
  - eapply current_le; [done..| |done]. cbn; split_and!; (done || lia || set_solver).
Qed.

Lemma life_steps_le s s' id p :
  exec_wf s → rtc life_step s s' → plans s !! id = Some p →
  ∃ p', plans s' !! id = Some p' ∧ plan_le p p'.
Proof.
  intros Hwf Hs. revert p. induction Hs as [s|x y z Hxy _ IH]; intros p Hp.
  { exists p. split; [done|by left]. }
  destruct (life_step_le _ _ _ _ Hwf Hxy Hp) as (q & Hq & Hpq).
  destruct (IH (life_step_wf _ _ Hwf Hxy) q Hq) as (r & Hr & Hqr).
  exists r. split; [done|]. by eapply plan_le_trans.
Qed.
End lifecycle.
Arguments life_step P {_} V s _ : rename.
