(* ===== verification/ExecutionProtocol.v ===== *)
(** Concurrent use of the execution store.  A start reads the plan, computes and
    commits under the version that it read; a report of an outcome reads the
    attempt, then its plan, and commits.  Each access takes the store's lock for
    itself, and anything may happen between two of them.  The checks of the
    commits make every interleaving equivalent to a sequence of the atomic steps
    [life_step] of [ExecutionFacts]. *)

From Stdlib Require Import Ascii String.
From S2P Require Import Prelude.
From S2P Require Import PyBase.
From S2P Require Import Bytes.
From S2P Require Import CanonicalJson.
From S2P Require Import Keys.
From S2P Require Import Signatures.
From S2P Require Import ContractModels.
From S2P Require Import Partners.
From S2P Require Import Authority.
From S2P Require Import Contracts.
From S2P Require Import Routing.
From S2P Require Import ExecutionStore.
From S2P Require Import Execution.
From S2P Require Import ExecutionFacts.

Implicit Types (s : ExecutionStore) (p : ExecutionPlan) (a : RttAttemptRecord).

(** Every operation is [lift time; read; compute; commit; return]. *)
Definition operation {A} (time : res instant)
    (prepare : instant → ExecutionStore → res (Z * ExecutionPlan * RttAttemptRecord))
    (commit : Z → ExecutionPlan → RttAttemptRecord → M ExecutionStore unit)
    (answer : ExecutionPlan → RttAttemptRecord → A) : M ExecutionStore A :=
  now ← lift time;
  s ← getS;
  '(v, plan, attempt) ← lift (prepare now s);
  _ ← commit v plan attempt;
  mret (answer plan attempt).

Lemma operation_cases {A} time prepare commit (answer : ExecutionPlan → RttAttemptRecord → A) s r s' :
  (∀ v p a e s', commit v p a s = (Err e, s') → s' = s) →
  operation time prepare commit answer s = (r, s') →
  (∃ e, r = Err e) ∧ s' = s ∨
  ∃ now v p a, prepare now s = Ok (v, p, a) ∧ commit v p a s = (Ok tt, s') ∧
    r = Ok (answer p a).
Proof.
  intros Herr. unfold operation, mbind, M_bind, lift, getS, mret, M_ret.
  destruct time as [now|e]; [|intros [= <- <-]; left; eauto].
  destruct (prepare now s) as [[[v p] a]|e] eqn:Hp; [|intros [= <- <-]; left; eauto].
  destruct (commit v p a s) as [[[]|e] s1] eqn:Hc; intros [= <- <-].
  - right. eauto 10.
  - left. split; [eauto|]. by eapply Herr.
Qed.

(** ** Reports of an outcome, with the arguments of the three operations *)
Inductive report :=
  | ReportFailure (failure_code : string) (d : FailureDisposition) (actual_cost : Z)
  | ReportSuccess (actual_cost : Z)
  | ReportResolution (succeeded : bool) (actual_cost : Z) (failure_code : option string)
      (d : FailureDisposition).

Definition run_report (x : report) (rtt : string) (at_ : option datetime) (clock : instant)
    : M ExecutionStore ExecutionPlan :=
  match x with
  | ReportFailure code d cost => record_failure rtt code d cost at_ clock
  | ReportSuccess cost => record_success rtt cost at_ clock
  | ReportResolution ok cost code d => resolve_reconciliation rtt ok cost code d at_ clock
  end.

(** The first access: check the arguments and read the attempt. *)
Definition begin_report (x : report) (rtt : string) s : res RttAttemptRecord :=
  match x with
  | ReportFailure code d cost =>
      _ ← require_minor_units "actual_cost_minor" true cost;
      _ ← require_text "failure_code" code;
      read_created rtt s
  | ReportSuccess cost =>
      _ ← require_minor_units "actual_cost_minor" true cost;
      read_created rtt s
  | ReportResolution _ cost _ _ =>
      _ ← require_minor_units "actual_cost_minor" true cost;
      read_waiting rtt s
  end.

(** The second access: read the plan of the attempt and compute the update. *)
Definition prepare_report (x : report) (rtt : string) (now : instant) a s
    : res (Z * ExecutionPlan * RttAttemptRecord) :=
  match x with
  | ReportFailure code d cost => prepare_failure rtt (upper (strip code)) d cost now a s
  | ReportSuccess cost => prepare_success rtt cost now a s
  | ReportResolution ok cost code d => prepare_resolution rtt ok cost code d now a s
  end.

(** An operation raises and changes nothing, or runs its three accesses. *)
Lemma run_report_cases x rtt at_ clock s r s' :
  run_report x rtt at_ clock s = (r, s') →
  (∃ e, r = Err e) ∧ s' = s ∨
  ∃ now a v p a', begin_report x rtt s = Ok a ∧ prepare_report x rtt now a s = Ok (v, p, a') ∧
    commit_transition v p a' s = (Ok tt, s') ∧ r = Ok p.
Proof.
  destruct x as [code d cost|cost|ok cost code d]; cbn [run_report begin_report prepare_report];
    unfold record_failure, record_success, resolve_reconciliation, mbind, M_bind, lift, getS,
      mret, M_ret; intros Hrun.
  all: destruct (require_aware _ _) as [now|e]; [|left; simplify_eq; eauto].
  all: destruct (require_minor_units _ _ _) as [c|e] eqn:Hcost; [|left; simplify_eq; eauto];
    apply require_minor_units_ok in Hcost as [-> _].
  1: destruct (require_text "failure_code" code) as [t|e] eqn:Ht; [|left; simplify_eq; eauto];
    apply require_text_ok in Ht as [-> _].
  all: cbn [mbind res_bind].
  all: match type of Hrun with context [match ?x with Ok _ => _ | Err _ => _ end] =>
    destruct x as [a|e] eqn:Ha; [|left; simplify_eq; eauto] end.
  all: match type of Hrun with context [match ?x with Ok _ => _ | Err _ => _ end] =>
    destruct x as [[[v p] a']|e] eqn:Hp; [|left; simplify_eq; eauto] end.
  all: destruct (commit_transition v p a' s) as [[[]|e] s1] eqn:Hc;
    [right; simplify_eq; eauto 15|left; apply commit_transition_err in Hc; simplify_eq; eauto].
Qed.

(** What never changes of an attempt. *)
Definition birth a :=
  (rtt_id a, rtt_utt_id a, rtt_plan_id a, attempt_number a, rtt_route_id a, signed_rtt a,
   rtt_created_at a).

Lemma birth_replace a b : birth a = birth b → replace_attempt a = replace_attempt b.
Proof. intros [= H1 H2 H3 H4 H5 H6 H7]. unfold replace_attempt. by rewrite H1, H2, H3, H4, H5, H6, H7. Qed.

Lemma birth_ids a b :
  birth a = birth b →
  rtt_id a = rtt_id b ∧ rtt_plan_id a = rtt_plan_id b ∧ rtt_route_id a = rtt_route_id b.
Proof. by intros [= -> _ -> _ -> _ _]. Qed.

(** The update that a report computes from the attempt and the plan it read. *)
Definition move_of p a (rtt : string) (new : ExecutionPlan * RttAttemptRecord) : Prop :=
  (∃ code d cost now, new = next_failure p a rtt code d cost now) ∨
  (∃ cost now, new = next_success p a rtt cost now) ∨
  (∃ code d cost now, plan_status p = PLAN_RECONCILIATION_REQUIRED ∧
     current_rtt_id p = Some rtt ∧ d ≠ FAIL_RECONCILIATION_REQUIRED ∧
     new = next_confirmed_failure p a rtt code d cost now).

Lemma move_of_ids p a rtt p' a' :
  move_of p a rtt (p', a') →
  plan_id p' = plan_id p ∧ rtt_id a' = rtt_id a ∧ plan_version p' = plan_version p + 1.
Proof.
  intros [(code & d & cost & now & Heq)|[(cost & now & Heq)|(code & d & cost & now & _ & _ & _ & Heq)]].
  - unfold next_failure in Heq. by destruct d; injection Heq as -> ->.
  - by injection Heq as -> ->.
  - by injection Heq as -> ->.
Qed.

(** A worker that read [a] still knows its unchanging part, and that its failure
    code was recorded. *)
Definition seen s a : Prop :=
  ∃ b p, attempts s !! rtt_id a = Some b ∧ birth b = birth a ∧
    plans s !! rtt_plan_id a = Some p ∧ recorded_code p a (rtt_failure_code a).

Section protocol.
Context {P : Type} `{!SigningKeyProvider P} `{Ed25519} {V : Type} `{!EndpointValidator V}.
Implicit Types (env : ExecutionEnv P V).
Notation life_step := (life_step P V).

(** Whatever was read of the attempt: applied to the plan as it is stored, the
    update is an atomic step. *)
Lemma move_step s p a b rtt p' a' :
  exec_wf s → current_attempt s p b → birth b = birth a →
  recorded_code p a (rtt_failure_code a) → strip rtt = rtt_id a →
  move_of p a rtt (p', a') → life_step s (put_both p' a' s).
Proof.
  intros Hwf Hca Hb Hcode Hrtt Hm.
  destruct (in_flight_facts _ _ _ Hwf Hca) as (_ & _ & _ & Hop & _).
  pose proof (open_matches_open _ _ Hop) as Ho.
  destruct (birth_ids _ _ Hb) as (Hi & _ & Hr). rewrite <- Hi in Hrtt.
  pose proof (birth_replace _ _ Hb) as Hrep.
  destruct Hm as [(code & d & cost & now & Heq)|
    [(cost & now & Heq)|(code & d & cost & now & Hst & Hcur & Hd & Heq)]].
  - pose proof (life_failure (P:=P) (V:=V) s p b rtt code d cost now Hca Ho Hrtt) as Hstep.
    unfold next_failure in *. rewrite <- Hrep, <- Hr in Heq. by rewrite <- Heq in Hstep.
  - assert (recorded_code p b (rtt_failure_code a)) as Hc
      by (unfold recorded_code in *; by rewrite Hi).
    pose proof (life_success (P:=P) (V:=V) s p b rtt (rtt_failure_code a) cost now Hca Ho Hrtt Hc) as Hstep.
    unfold next_success in *. rewrite <- Hrep, <- Hr in Heq.
    change (replace_attempt (with_code b (rtt_failure_code a))) with (replace_attempt b) in Hstep.
    cbn [rtt_failure_code rtt_route_id with_code] in Hstep. by rewrite <- Heq in Hstep.
  - assert (rtt_state b = RTT_RECONCILIATION_REQUIRED) as Hs
      by (destruct Hop as [[? _]|[_ ?]]; congruence).
    assert (rtt = rtt_id b) as -> by (pose proof (ca_current _ _ _ Hca); congruence).
    pose proof (life_confirmed (P:=P) (V:=V) s p b code d cost now Hca Hs Hd) as Hstep.
    unfold next_confirmed_failure in *. rewrite <- Hrep, <- Hr in Heq. by rewrite <- Heq in Hstep.
Qed.

(** ** What the read phases guarantee *)
Lemma prepare_start_ok env s utt now v p' a :
  exec_wf s → prepare_start env utt now s = Ok (v, p', a) →
  ∃ p e, plans s !! plan_id p = Some p ∧ plan_version p = v ∧
    next_start env p (plan_utt_id p) e now = Ok (p', a).
Proof.
  intros Hwf Hr. unfold prepare_start, require_plan_for_utt, plan_at in Hr. inv_ok Hr.
  match goal with Hx : plan_by_utt s !! utt = Some ?i, Hy : plans s !! ?i = Some ?q,
    Hn : next_start _ _ _ _ _ = Ok ?w |- _ =>
      destruct (ew_utt _ Hwf _ _ Hx) as (q' & Hq' & Hu); rewrite Hy in Hq';
      injection Hq' as <-; destruct (ew_plan _ Hwf _ _ Hy) as (Hid & _);
      destruct w; inv_ok Hr; exists q; eexists
  end.
  simplify_eq. done.
Qed.

Lemma begin_report_ok s x rtt a :
  exec_wf s → begin_report x rtt s = Ok a →
  attempts s !! rtt_id a = Some a ∧ strip rtt = rtt_id a ∧ attempt_open a ∧ seen s a ∧
  rtt_state a = match x with
                | ReportResolution _ _ _ _ => RTT_RECONCILIATION_REQUIRED
                | _ => RTT_CREATED
                end.
Proof.
  intros Hwf Hb.
  assert (attempts s !! strip rtt = Some a ∧ attempt_open a ∧
    rtt_state a = match x with
                  | ReportResolution _ _ _ _ => RTT_RECONCILIATION_REQUIRED
                  | _ => RTT_CREATED
                  end) as (Ha & Ho & Hs).
  { unfold attempt_open. destruct x; cbn in Hb; inv_ok Hb; unfold read_created, read_waiting, require_attempt in Hb;
      inv_ok Hb; guards;
      match goal with Ht : require_text "rtt_id" _ = Ok _ |- _ => apply require_text_ok in Ht as [-> _] end;
      simplify_eq; auto. }
  destruct (ew_attempt _ Hwf _ _ Ha) as ([Hid _] & p & Hp & Haok). rewrite Hid.
  split_and!; try done. exists a, p. rewrite Hid. split_and!; try done. by apply (ao_code _ _ Haok).
Qed.

Lemma prepare_report_ok s x rtt now a v p' a' :
  exec_wf s → prepare_report x rtt now a s = Ok (v, p', a') →
  ∃ p, plans s !! plan_id p = Some p ∧ rtt_plan_id a = plan_id p ∧ plan_version p = v ∧
    move_of p a rtt (p', a').
Proof.
  intros Hwf Hr. destruct x as [code d cost|cost|ok cost code d]; cbn [prepare_report] in Hr;
    unfold prepare_failure, prepare_success, prepare_resolution, require_plan in Hr; inv_ok Hr;
    match goal with Hq : plans s !! _ = Some ?q |- _ =>
      destruct (ew_plan _ Hwf _ _ Hq) as (Hid & _ & _); exists q; rewrite Hid end;
    unfold move_of.
  - destruct (next_failure _ _ _ _ _ _ _) as [q b] eqn:Hn. inv_ok Hr. simplify_eq.
    split_and!; try done. left. eauto 10.
  - destruct (next_success _ _ _ _ _) as [q b] eqn:Hn. inv_ok Hr. simplify_eq.
    split_and!; try done. right; left. eauto 10.
  - guards. destruct ok.
    + destruct (next_success _ _ _ _ _) as [q b] eqn:Hn. inv_ok Hr. simplify_eq.
      split_and!; try done. right; left. eauto 10.
    + inv_ok Hr. guards. destruct (next_confirmed_failure _ _ _ _ _ _ _) as [q b] eqn:Hn.
      inv_ok Hr. simplify_eq. split_and!; try done. right; right. eauto 15.
Qed.

(** ** The concurrent system *)
Record pending := Pending {
  starts : bool;             (* a start, or a transition of an attempt *)
  read_version : Z;
  new_plan_of : ExecutionPlan;
  new_attempt_of : RttAttemptRecord;
}.

Definition commit_pending env (x : pending) : M ExecutionStore unit :=
  if starts x
  then commit_start (env_contracts env) (read_version x) (new_plan_of x) (new_attempt_of x)
  else commit_transition (read_version x) (new_plan_of x) (new_attempt_of x).

(** A worker between two accesses to the store: it has read an attempt, or it
    has computed what it will commit. *)
Inductive worker :=
  | Reporting (x : report) (rtt : string) (now : instant) (attempt : RttAttemptRecord)
  | Committing (x : pending).

(** One access to the store by one of any number of workers, under the keys and
    the contracts of its time.  A plan that is created is fresh, as
    [new_plan_fresh] shows of [build_plan] for a UTT that allows an attempt.  A
    worker that raises or dies simply takes no further step. *)
Inductive conc_step : ExecutionStore * list worker → ExecutionStore * list worker → Prop :=
  | conc_create env s s' l p r :
      fresh_plan p → create_plan (env_contracts env) p s = (r, s') → conc_step (s, l) (s', l)
  | conc_read_start env s l utt now v p a :
      prepare_start env utt now s = Ok (v, p, a) →
      conc_step (s, l) (s, Committing (Pending true v p a) :: l)
  | conc_read_attempt s l x rtt now a :
      begin_report x rtt s = Ok a →
      conc_step (s, l) (s, Reporting x rtt now a :: l)
  | conc_read_plan s l1 x rtt now a l2 v p a' :
      prepare_report x rtt now a s = Ok (v, p, a') →
      conc_step (s, l1 ++ Reporting x rtt now a :: l2)
                (s, l1 ++ Committing (Pending false v p a') :: l2)
  | conc_commit env s s' l1 x l2 r :
      commit_pending env x s = (r, s') → conc_step (s, l1 ++ Committing x :: l2) (s', l1 ++ l2).

(** What a pending commit still knows: the plan that was read, which may have
    moved on, and the attempt that was read before it. *)
Definition pending_ok s (x : pending) : Prop :=
  ∃ p, plan_version p = read_version x ∧ plan_id (new_plan_of x) = plan_id p ∧
    (∃ q, plans s !! plan_id p = Some q ∧ plan_le p q) ∧
    if starts x
    then ∃ env e now, next_start env p (plan_utt_id p) e now = Ok (new_plan_of x, new_attempt_of x)
    else ∃ a rtt, seen s a ∧ rtt_plan_id a = plan_id p ∧ strip rtt = rtt_id a ∧
           recorded_code p a (rtt_failure_code a) ∧
           move_of p a rtt (new_plan_of x, new_attempt_of x).

Definition worker_ok s (w : worker) : Prop :=
  match w with
  | Reporting _ rtt _ a => seen s a ∧ strip rtt = rtt_id a
  | Committing x => pending_ok s x
  end.

(** *** Stability under the steps of others *)
Lemma put_both_birth s p' a a' i b :
  attempts s !! rtt_id a = Some a → birth a' = birth a → attempts s !! i = Some b →
  ∃ b', attempts (put_both p' a' s) !! i = Some b' ∧ birth b' = birth b.
Proof.
  intros Ha Hbirth Hb. destruct (birth_ids _ _ Hbirth) as (Hid & _). cbn.
  rewrite lookup_insert. case_decide as E; [|eauto].
  exists a'. split; [done|]. rewrite Hid in E. congruence.
Qed.

Lemma life_step_birth s s' i b :
  life_step s s' → attempts s !! i = Some b →
  ∃ b', attempts s' !! i = Some b' ∧ birth b' = birth b.
Proof.
  intros Hstep Hb. destruct Hstep as [|env q q' a e now _ Hno _|q a rtt code d cost now [_ Ha _] _ _
    |q a rtt c cost now [_ Ha _] _ _ _|q a code d cost now [_ Ha _] _ _].
  - eauto.
  - cbn. rewrite lookup_insert_ne by congruence. eauto.
  - eapply put_both_birth; [exact Ha| |done]. by destruct d.
  - eapply put_both_birth; [exact Ha| |done]. done.
  - eapply put_both_birth; [exact Ha| |done]. done.
Qed.

Lemma seen_step s s' a : exec_wf s → life_step s s' → seen s a → seen s' a.
Proof.
  intros Hwf Hstep (b & p & Hb & Hbirth & Hp & Hcode).
  destruct (life_step_birth _ _ _ _ Hstep Hb) as (b' & Hb' & Hbb).
  destruct (life_step_le _ _ _ _ Hwf Hstep Hp) as (p' & Hp' & Hle).
  exists b', p'. split_and!; [done|congruence|done|].
  destruct Hle as [->|(_ & _ & _ & _ & _ & Hf & _)]; [done|].
  destruct Hcode as [?|(f & ? & ?)]; [by left|right]. exists f. auto.
Qed.

Lemma worker_ok_step s s' w :
  exec_wf s → life_step s s' → worker_ok s w → worker_ok s' w.
Proof.
  intros Hwf Hstep. destruct w as [x rtt now a|x]; cbn.
  { intros [? ?]. split; [by eapply seen_step|done]. }
  intros (p & Hv & Hid & (q & Hq & Hle) & Hrest).
  destruct (life_step_le _ _ _ _ Hwf Hstep Hq) as (q' & Hq' & Hle').
  exists p. split_and!; [done..| |].
  - exists q'. split; [done|]. by eapply plan_le_trans.
  - destruct (starts x); [done|]. destruct Hrest as (a & rtt & Hs & Hrest).
    exists a, rtt. split; [by eapply seen_step|done].
Qed.

(** *** Commits *)
Lemma commit_start_step s v p' a s' u contracts p e now env :
  plans s !! plan_id p = Some p → plan_version p = v →
  next_start env p (plan_utt_id p) e now = Ok (p', a) →
  commit_start contracts v p' a s = (Ok u, s') → plan_step env s s'.
Proof.
  intros Hp Hv Hn (_ & _ & Hfresh & _ & _ & ->)%commit_start_ok. by eapply step_start.
Qed.

(** A start that nobody interrupts is one atomic step. *)
Lemma start_step env utt now s v p a u s' :
  exec_wf s → prepare_start env utt now s = Ok (v, p, a) →
  commit_start (env_contracts env) v p a s = (Ok u, s') → plan_step env s s'.
Proof.
  intros Hwf (q & e & Hq & Hv & Hn)%prepare_start_ok; [|done]. by eapply commit_start_step.
Qed.

Lemma commit_pending_step env s x r s' :
  exec_wf s → pending_ok s x → commit_pending env x s = (r, s') →
  s' = s ∨ life_step s s'.
Proof.
  intros Hwf Hok Hc.
  destruct r as [u|e]; [right|left; unfold commit_pending in Hc; destruct (starts x);
    [by eapply commit_start_err|by eapply commit_transition_err]].
  destruct Hok as (p & Hv & Hid & (q & Hq & Hle) & Hrest). unfold commit_pending in Hc.
  assert (q = p → plans s !! plan_id p = Some p) as Hsame by congruence.
  destruct x as [[] v p' a']; cbn in *.
  { destruct Hrest as (env' & e & now & Hn). pose proof Hc as Hc'.
    apply commit_start_ok in Hc' as (_ & (q' & Hq' & Hvq & _) & _).
    rewrite Hid, Hq in Hq'. injection Hq' as <-.
    eapply plan_step_life; [done|]. eapply commit_start_step; [|exact Hv|exact Hn|exact Hc].
    apply Hsame, plan_le_version; [done|congruence]. }
  apply commit_transition_ok in Hc as ((q' & Hq' & Hvq & Hcur) & _ & ->).
  rewrite Hid, Hq in Hq'. injection Hq' as <-.
  assert (q = p) as -> by (apply plan_le_version; [done|congruence]).
  destruct Hrest as (a & rtt & (b' & p2 & Hb & Hbirth & Hp2 & _) & Hpl & Hrtt & Hcode & Hm).
  destruct (birth_ids _ _ Hbirth) as (Hi & Hj & _).
  apply (move_step s p a b' rtt); try done. split.
  - by rewrite Hj, Hpl.
  - by rewrite Hi.
  - apply move_of_ids in Hm as (_ & Hm & _). congruence.
Qed.

(** A successful commit leaves the plan at a version above the one it read. *)
Lemma commit_pending_newer env s x u s' :
  pending_ok s x → commit_pending env x s = (Ok u, s') →
  ∃ p, plans s' !! plan_id (new_plan_of x) = Some p ∧ read_version x < plan_version p.
Proof.
  intros (p & Hv & Hid & _ & Hrest) Hc. exists (new_plan_of x).
  assert (plan_version (new_plan_of x) = plan_version p + 1) as Hnew.
  { destruct (starts x).
    - destruct Hrest as (env' & e & now & Hn).
      apply next_start_ok in Hn as (? & ? & ? & _ & _ & _ & -> & _). done.
    - destruct Hrest as (a & rtt & _ & _ & _ & _ & Hm). by apply move_of_ids in Hm as (_ & _ & ?). }
  split; [|lia]. unfold commit_pending in Hc. destruct (starts x).
  - apply commit_start_ok in Hc as (_ & _ & _ & _ & _ & ->). cbn. by rewrite lookup_insert_eq.
  - apply commit_transition_ok in Hc as (_ & _ & ->). cbn. by rewrite lookup_insert_eq.
Qed.

(** *** Reads *)
Lemma read_start_pending env s utt now v p a :
  exec_wf s → prepare_start env utt now s = Ok (v, p, a) → pending_ok s (Pending true v p a).
Proof.
  intros Hwf Hr. destruct (prepare_start_ok _ _ _ _ _ _ _ Hwf Hr) as (q & e & Hq & Hv & Hn).
  exists q. cbn. split; [done|]. pose proof Hn as Hn'.
  apply next_start_ok in Hn' as (? & ? & ? & _ & _ & _ & -> & _). split; [done|].
  split; [|by eauto]. exists q. split; [done|by left].
Qed.

Lemma read_plan_pending s x rtt now a v p a' :
  exec_wf s → seen s a → strip rtt = rtt_id a → prepare_report x rtt now a s = Ok (v, p, a') →
  pending_ok s (Pending false v p a').
Proof.
  intros Hwf Hseen Hrtt Hr.
  destruct (prepare_report_ok _ _ _ _ _ _ _ _ Hwf Hr) as (q & Hq & Hpl & Hv & Hm).
  pose proof Hseen as (_ & q' & _ & _ & Hq' & Hcode).
  rewrite Hpl, Hq in Hq'. injection Hq' as <-.
  exists q. cbn. split; [done|]. split; [by apply move_of_ids in Hm as [? _]|].
  split; [|eauto 10]. exists q. split; [done|by left].
Qed.

(** *** The invariant of the concurrent system *)
Lemma conc_inv_from s0 l0 s l :
  exec_wf s0 → Forall (worker_ok s0) l0 → rtc conc_step (s0, l0) (s, l) →
  rtc (life_step) s0 s ∧ exec_wf s ∧ Forall (worker_ok s) l.
Proof.
  intros Hwf0 Hl0. enough (∀ y, rtc conc_step (s0, l0) y →
    rtc (life_step) s0 y.1 ∧ exec_wf y.1 ∧ Forall (worker_ok y.1) y.2) as Hall
    by (intros Hs; apply (Hall (s, l) Hs)).
  clear s l. apply rtc_ind_r; [by split_and!|].
  intros y z _ Hstep (Hr & Hwf & Hl).
  assert (∀ s', y.1 = s' ∨ life_step y.1 s' →
    rtc (life_step) s0 s' ∧ exec_wf s' ∧ (∀ x, worker_ok y.1 x → worker_ok s' x))
    as Hadv.
  { intros s' [<-|Hst]; [done|]. split_and!.
    - by eapply rtc_r.
    - by eapply life_step_wf.
    - intros x. by apply worker_ok_step. }
  destruct Hstep as [env s s' l p r Hf Hc|env s l utt now v p a Hp|s l x rtt now a Hb
    |s l1 x rtt now a l2 v p a' Hp|env s s' l1 x l2 r Hc]; cbn [fst snd] in *.
  - destruct (Hadv s') as (? & ? & Hpend).
    + apply create_plan_cases in Hc as [->|(_ & Hu & Hi & ->)]; [by left|right].
      by apply life_create.
    + split_and!; [done..|]. by eapply Forall_impl.
  - split_and!; [done..|]. constructor; [by eapply read_start_pending|done].
  - split_and!; [done..|]. constructor; [|done].
    by destruct (begin_report_ok _ _ _ _ Hwf Hb) as (_ & ? & _ & ? & _).
  - split_and!; [done..|]. apply Forall_app in Hl as [Hl1 [[Hs Hrtt] Hl2]%Forall_cons].
    apply Forall_app. split; [done|]. constructor; [by eapply read_plan_pending|done].
  - apply Forall_app in Hl as [Hl1 [Hx Hl2]%Forall_cons].
    destruct (Hadv s') as (? & ? & Hpend).
    { destruct (commit_pending_step _ _ _ _ _ Hwf Hx Hc) as [->|?]; auto. }
    split_and!; [done..|]. apply Forall_app. split; by eapply Forall_impl.
Qed.

Lemma conc_inv s0 s l :
  exec_wf s0 → rtc conc_step (s0, []) (s, l) →
  rtc (life_step) s0 s ∧ exec_wf s ∧ Forall (worker_ok s) l.
Proof. intros Hwf. by apply conc_inv_from. Qed.

Lemma conc_steps_le s l s' l' id p :
  rtc conc_step (no_executions, []) (s, l) → rtc conc_step (s, l) (s', l') →
  plans s !! id = Some p → ∃ p', plans s' !! id = Some p' ∧ plan_le p p'.
Proof.
  intros Hs Hs' Hp. apply (conc_inv _ _ _ no_executions_wf) in Hs as (_ & Hwf & Hl).
  apply (conc_inv_from _ _ _ _ Hwf Hl) in Hs' as (Hr & _ & _).
  by eapply life_steps_le.
Qed.

(** An operation on its own is a run of the concurrent system. *)
Lemma run_report_conc env x rtt at_ clock s l r s' :
  run_report x rtt at_ clock s = (r, s') → s' = s ∨ rtc conc_step (s, l) (s', l).
Proof.
  intros [[_ ?]|(now & a & v & p & a' & Hb & Hp & Hc & _)]%run_report_cases; [by left|right].
  eapply rtc_l; [by apply (conc_read_attempt s l x rtt now a)|].
  eapply rtc_l; [by apply (conc_read_plan s [] x rtt now a l v p a')|].
  apply rtc_once. by apply (conc_commit env s s' [] (Pending false v p a') l (Ok tt)).
Qed.
End protocol.
Arguments conc_step P {_ _} V {_} _ _.
