(* ===== verification/ExecutionClaims.v ===== *)
(** The guarantees of [railone_execution] over every reachable store, under any
    interleaving of concurrent workers. *)

From Stdlib Require Import Ascii String.
From S2P Require Import Prelude.
From S2P Require Import PyBase.
From S2P Require Import Bytes.
From S2P Require Import CanonicalJson.
From S2P Require Import CanonicalFacts.
From S2P Require Import Keys.
From S2P Require Import Signatures.
From S2P Require Import ContractModels.
From S2P Require Import Partners.
From S2P Require Import Authority.
From S2P Require Import Contracts.
From S2P Require Import Routing.
From S2P Require Import ExecutionStore.
From S2P Require Import Execution.
From S2P Require Import ExecutionFacts.
From S2P Require Import ExecutionProtocol.

Implicit Types (s : ExecutionStore) (p : ExecutionPlan) (a : RttAttemptRecord).

(** ** Plans that [build_plan] creates are fresh *)
Lemma score_all_zero w q l r :
  rq_amount q = 0 → score_all w q l = Ok r → r = [].
Proof.
  intros Ha. revert r. induction l as [|c l IH]; intros r Hs; cbn [score_all] in Hs; inv_ok Hs;
    [done|].
  match goal with Hr : score_all _ _ _ = Ok _ |- _ => apply IH in Hr as -> end.
  destruct (eligible q c); inv_ok H0; [|done].
  match goal with Hz : (rq_amount q =? 0) = false |- _ => by rewrite Ha in Hz end.
Qed.

Lemma ranked_nonzero w q l r : rank_routes w q l = Ok r → r ≠ [] → rq_amount q ≠ 0.
Proof.
  intros Hr Hne Ha. unfold rank_routes in Hr. inv_ok Hr.
  match goal with Hs : score_all _ _ _ = Ok _ |- _ => apply score_all_zero in Hs as ->; done end.
Qed.

Section claims.
Context {P : Type} `{!SigningKeyProvider P} `{Ed25519} {V : Type} `{!EndpointValidator V}.
Context (env : ExecutionEnv P V).

Lemma new_plan_fresh utt candidates now p :
  new_plan env utt candidates now = Ok p → 1 <= max_attempts p → fresh_plan p.
Proof.
  intros Hn Hmax. unfold new_plan in Hn. inv_ok Hn.
  match goal with Hr : rank_routes _ ?q _ = Ok ?r, He : empty ?r = false |- _ =>
    assert (r ≠ []) as Hne by (by destruct r);
    pose proof (ranked_nonzero _ _ _ _ Hr Hne) as Hz;
    apply rank_routes_ok in Hr as (Hnd & _ & Hrank); [|done] end.
  assert (route_id ∘ candidate <$> v1 ≡ₚ
    route_id <$> filter (λ c, eligible v0 c = true) candidates) as Hperm.
  { rewrite list_fmap_compose, Hrank, imap_ranked_candidates, sort_on_perm.
    by rewrite scored_candidates. }
  split; try done; unfold route_ids; cbn.
  - rewrite Hperm. by apply NoDup_fmap_filter.
  - unfold affordable_remains. cbn. apply existsb_exists.
    destruct v1 as [|r rs]; [done|]. exists r. split; [by left|].
    rewrite bool_decide_eq_true_2 by left. cbn.
    assert (candidate r ∈ filter (λ c, eligible v0 c = true) candidates) as Hr.
    { assert (candidate r ∈ candidate <$> (r :: rs)) as Hin by left.
      rewrite Hrank, imap_ranked_candidates, sort_on_perm in Hin.
      by rewrite scored_candidates in Hin. }
    apply list_elem_of_filter in Hr as [He _]. unfold eligible in He. guards. lia.
Qed.

(** ** The guarantees *)

(** A report that nobody interrupts either raises and leaves the store as it
    was, or is one lifecycle step. *)
Lemma report_atomic x s rtt at_ clock r s' :
  exec_wf s → strip rtt = rtt → run_report x rtt at_ clock s = (r, s') →
  (∃ e, r = Err e) ∧ s' = s ∨
  ∃ p, r = Ok p ∧ plan_step env s s' ∧ plans s' !! plan_id p = Some p.
Proof.
  intros Hwf Hclean [?|(now & a & v & p & a' & Hb & Hp & Hc & ->)]%run_report_cases; [by left|right].
  exists p. split; [done|].
  destruct (begin_report_ok _ _ _ _ Hwf Hb) as (Ha & Hrtt & Hopen & _ & Hst).
  destruct (prepare_report_ok _ _ _ _ _ _ _ _ Hwf Hp) as (q & Hq & Hpl & Hv & Hm).
  assert (rtt = rtt_id a) as -> by congruence.
  destruct (move_of_ids _ _ _ _ _ Hm) as (Hi & Hj & _).
  apply commit_transition_ok in Hc as ((q' & Hq' & _ & Hcur) & _ & ->).
  rewrite Hi, Hq in Hq'. injection Hq' as <-. rewrite Hj in Hcur. rewrite <- Hpl in Hq.
  split; [|cbn; by rewrite lookup_insert_eq].
  destruct x as [code d cost|cost|ok cost code d]; cbn [prepare_report] in Hp;
    unfold prepare_failure, prepare_success, prepare_resolution, require_plan in Hp;
    rewrite Hq in Hp; cbn [require mbind res_bind mret res_ret] in Hp.
  - pose proof (step_failure env s q a (upper (strip code)) d cost now Hq Ha Hst Hcur) as Hstep.
    destruct (next_failure _ _ _ _ _ _ _) as [y z] eqn:Hn. by injection Hp as _ <- <-.
  - pose proof (step_success env s q a cost now Hq Ha Hopen Hcur) as Hstep.
    destruct (next_success _ _ _ _ _) as [y z] eqn:Hn. by injection Hp as _ <- <-.
  - inv_ok Hp. guards. destruct ok.
    + pose proof (step_success env s q a cost now Hq Ha Hopen Hcur) as Hstep.
      destruct (next_success _ _ _ _ _) as [y z] eqn:Hn. by injection Hp as _ <- <-.
    + inv_ok Hp. guards.
      match goal with Ht : require_text _ _ = Ok ?t |- _ =>
        pose proof (step_confirmed env s q a (upper t) d cost now Hq Ha Hst Hcur) as Hstep end.
      destruct (next_confirmed_failure _ _ _ _ _ _ _) as [y z] eqn:Hn.
      apply res_ret_ok in Hp. injection Hp as _ <- <-. by apply Hstep.
Qed.

(** Atomicity: an operation of the RTT lifecycle that no other worker interrupts
    either raises and leaves the store as it was, or performs exactly one atomic
    lifecycle step (for identifiers without surrounding blanks). *)
Theorem operations_atomic s rtt utt x at_ clock :
  exec_wf s → strip rtt = rtt →
  (∀ r s', start_next env utt at_ clock s = (r, s') →
     (∃ e, r = Err e) ∧ s' = s ∨
     ∃ a, r = Ok a ∧ plan_step env s s' ∧ attempts s' !! rtt_id a = Some a) ∧
  (∀ r s', run_report x rtt at_ clock s = (r, s') →
     (∃ e, r = Err e) ∧ s' = s ∨
     ∃ p, r = Ok p ∧ plan_step env s s' ∧ plans s' !! plan_id p = Some p).
Proof.
  intros Hwf Hclean. split.
  - intros r s' Hrun. apply (operation_cases _ (λ now s, prepare_start env utt now s)
      (commit_start (env_contracts env)) (λ _ a, a)) in Hrun as
      [?|(now & v & p & a & Hp & Hc & ->)]; [by left|right|intros *; apply commit_start_err].
    exists a. split; [done|]. split; [by eapply start_step|].
    apply commit_start_ok in Hc as (_ & _ & _ & _ & _ & ->). cbn. by rewrite lookup_insert_eq.
  - intros r s'. by apply report_atomic.
Qed.

(** C2 Serialisability: however workers interleave their accesses to the store
    (a start reads and commits; a report reads the attempt, later its plan, and
    later commits), with stale reads, reads torn by another worker's commit, lost
    races and identifiers spelled with blanks, the store is one that a sequence of
    atomic lifecycle steps reaches.  A report whose attempt was read before
    another worker recorded an unknown outcome counts as a report on the attempt
    while it awaits reconciliation: the steps [life_failure] and [life_success]
    allow it. *)
Theorem interleavings_serialize s l :
  rtc (conc_step P V) (no_executions, []) (s, l) → rtc (life_step P V) no_executions s.
Proof. intros Hs. by apply (conc_inv _ _ _ no_executions_wf Hs). Qed.

(** C1 Safety of failover: in every store that concurrent workers reach, each
    access to the store being a step of its own and an attempt being read before
    its plan, two different attempts of one plan never carry the same attempt
    number or use the same route, are never both in flight, and have not both
    succeeded; an attempt never exceeds the plan's attempt limit; and a plan is
    FINALIZED exactly when one of its attempts succeeded, on the recorded route. *)
Theorem failover_safe s l :
  rtc (conc_step P V) (no_executions, []) (s, l) →
  (∀ i j a b, attempts s !! i = Some a → attempts s !! j = Some b → i ≠ j →
     rtt_plan_id a = rtt_plan_id b →
     attempt_number a ≠ attempt_number b ∧ rtt_route_id a ≠ rtt_route_id b ∧
     ¬ (attempt_open a ∧ attempt_open b) ∧
     ¬ (rtt_state a = RTT_SUCCEEDED ∧ rtt_state b = RTT_SUCCEEDED)) ∧
  (∀ id p i a, plans s !! id = Some p → attempts s !! i = Some a → rtt_plan_id a = id →
     1 <= attempt_number a <= max_attempts p) ∧
  (∀ id p, plans s !! id = Some p →
     plan_status p = PLAN_FINALIZED ↔
     ∃ i a, attempts s !! i = Some a ∧ rtt_plan_id a = id ∧ rtt_state a = RTT_SUCCEEDED ∧
            successful_route_id p = Some (rtt_route_id a)).
Proof.
  intros Hs. apply (conc_inv _ _ _ no_executions_wf) in Hs as (_ & Hwf & _).
  assert (∀ i a, attempts s !! i = Some a → rtt_id a = i ∧
    ∃ p, plans s !! rtt_plan_id a = Some p ∧ attempt_ok p a) as Hatt.
  { intros i a Ha. destruct (ew_attempt _ Hwf _ _ Ha) as ([? _] & ?). done. }
  split_and!.
  - intros i j a b Ha Hb Hne Hpl.
    destruct (Hatt _ _ Ha) as (Hia & p & Hp & Hoa), (Hatt _ _ Hb) as (Hjb & q & Hq & Hob).
    rewrite Hpl, Hq in Hp. injection Hp as <-.
    assert (∀ P : Prop, (P → attempt_number a = attempt_number b ∨ rtt_route_id a = rtt_route_id b)
      → ¬ P) as Hdis.
    { intros Q HQ Hq'. apply Hne. by eapply (ew_distinct _ Hwf i j a b); auto. }
    split_and!.
    + apply Hdis. auto.
    + apply Hdis. auto.
    + intros [Ho1 Ho2]. apply Hne. destruct (ao_open _ _ Hob Ho2) as (r & Hr & ?).
      destruct (ao_open _ _ Hoa Ho1) as (r' & Hr' & ?). congruence.
    + apply Hdis. intros [S1 S2]. right. 
      destruct (ao_succeeded _ _ Hoa S1), (ao_succeeded _ _ Hob S2). congruence.
  - intros id p i a Hp Ha <-. destruct (Hatt _ _ Ha) as (_ & q & Hq & Hoa).
    rewrite Hp in Hq. injection Hq as <-. destruct (ew_plan _ Hwf _ _ Hp) as (_ & _ & Hok).
    pose proof (ao_number _ _ Hoa). pose proof (po_used _ Hok). lia.
  - intros id p Hp. split.
    + intros Hf. destruct (ew_finalized _ Hwf _ _ Hp Hf) as (r & a & Ha & Hid & Hst).
      exists r, a. split_and!; try done. destruct (Hatt _ _ Ha) as (_ & q & Hq & Hoa).
      rewrite Hid, Hp in Hq. injection Hq as <-. by apply (ao_succeeded _ _ Hoa).
    + intros (i & a & _ & _ & _ & Hsr). destruct (ew_plan _ Hwf _ _ Hp) as (_ & _ & Hok).
      apply (po_success _ Hok). by rewrite Hsr.
Qed.

(** C20 Liveness of failover: in every reachable store, an ACTIVE plan without
    an attempt in flight can start one: no guard of [start_next] on the plan
    fires, and route selection yields the first remaining route that the
    remaining budget affords. *)
Theorem active_plan_startable s l id p :
  rtc (conc_step P V) (no_executions, []) (s, l) →
  plans s !! id = Some p → plan_status p = PLAN_ACTIVE → current_rtt_id p = None →
  startable p = Ok tt ∧
  ∃ r before after, select_route p (remaining_route_ids p) = Ok r ∧
    remaining_route_ids p = before ++ route_id (candidate r) :: after ∧
    estimated_cost_minor (candidate r) <= routing_budget_remaining_minor p ∧
    (∀ x r', x ∈ before → route_by_id p x = Some r' →
       routing_budget_remaining_minor p < estimated_cost_minor (candidate r')).
Proof.
  intros Hs Hp Hact Hcur. apply (conc_inv _ _ _ no_executions_wf) in Hs as (_ & Hwf & _).
  destruct (ew_plan _ Hwf _ _ Hp) as (_ & _ & Hok).
  destruct (po_ready _ Hok Hact Hcur) as [Hlim Haff]. split; [by apply startable_ok|].
  destruct (ready_select p (po_ids _ Hok) (po_remaining _ Hok) Haff) as [r Hr].
  exists r. clear Haff. induction (remaining_route_ids p) as [|x ids IH]; [done|].
  cbn [select_route] in Hr. apply res_bind_ok in Hr as (r' & Hx & Hr).
  apply res_require_ok in Hx. destruct (_ <=? _) eqn:E.
  - apply res_ret_ok in Hr as ->. exists [], ids. apply route_by_id_some in Hx as Hx'.
    destruct Hx' as [_ <-]. split_and!; [|done|lia|by intros ?? ?%elem_of_nil].
    cbn [select_route]. rewrite Hx. cbn [require mbind res_bind mret res_ret]. by rewrite E.
  - destruct (IH Hr) as (before & after & Hsel & -> & Hcost & Hrest).
    exists (x :: before), after. split_and!; [|done|done|].
    + cbn [select_route]. rewrite Hx. cbn [require mbind res_bind mret res_ret]. by rewrite E.
    + intros y r'' [->|Hy]%elem_of_cons Hl; [|by eapply Hrest].
      rewrite Hx in Hl. injection Hl as <-. lia.
Qed.


(** C21 Termination: a plan that failed, was exhausted or was finalized is never
    changed again, and any change raises a plan's version.  The version accounts
    for every change: one for its creation, two for each attempt (its start and its
    end; the end is still owed while an attempt is in flight), and one for each
    report of an unknown outcome.  So a plan is changed at most [2 * max_attempts]
    times beside the reports of unknown outcomes; these the code does not bound,
    because workers that read the attempt before the first of them may each add
    one. *)
Theorem plans_terminate s l id p :
  rtc (conc_step P V) (no_executions, []) (s, l) → plans s !! id = Some p →
  plan_version p + in_flight p = 1 + 2 * attempts_used p + unknown_reports p ∧
  1 <= plan_version p <= 1 + 2 * max_attempts p + unknown_reports p ∧
  ∀ s' l', rtc (conc_step P V) (s, l) (s', l') →
    ∃ p', plans s' !! id = Some p' ∧
      (plan_terminal p → p' = p) ∧ (p' = p ∨ plan_version p < plan_version p').
Proof.
  intros Hs Hp. pose proof Hs as Hs0.
  apply (conc_inv _ _ _ no_executions_wf) in Hs as (Hreach & Hwf & _).
  destruct (ew_plan _ Hwf _ _ Hp) as (_ & _ & Hok).
  pose proof (po_version _ Hok) as Hv. pose proof (po_used _ Hok). pose proof (po_positive _ Hok).
  split_and!; [done|done| |].
  - assert (0 <= in_flight p) by (unfold in_flight; case_match; lia). lia.
  - intros s' l' Hs'.
    destruct (conc_steps_le _ _ _ _ _ _ Hs0 Hs' Hp) as (p' & Hp' & Hle).
    exists p'. split; [done|]. destruct Hle as [->|(? & _ & _ & _ & _ & _ & ?)]; naive_solver.
Qed.

(** Lost races: of two updates that were computed from the same version of
    a plan, once one is committed the other can never be: it raises
    [ConcurrentPlanUpdateError] and changes nothing, whenever it is tried. *)
Theorem stale_commit_rejected s l1 x l2 s1 s2 l3 y u :
  rtc (conc_step P V) (no_executions, []) (s, l1 ++ Committing x :: l2) →
  commit_pending env x s = (Ok u, s1) →
  plan_id (new_plan_of y) = plan_id (new_plan_of x) → read_version y = read_version x →
  is_Some (utts (env_contracts env) !! plan_utt_id (new_plan_of y)) →
  rtc (conc_step P V) (s1, l1 ++ l2) (s2, l3) →
  commit_pending env y s2
    = (Err (Exn ConcurrentPlanUpdateError "execution plan changed concurrently"), s2).
Proof.
  intros Hs Hc Hid Hv [e He] Hs2.
  assert (∃ p, plans s1 !! plan_id (new_plan_of x) = Some p ∧ read_version x < plan_version p)
    as (p & Hp & Hlt).
  { pose proof (conc_inv _ _ _ no_executions_wf Hs) as (_ & _ & Hl).
    apply Forall_app in Hl as [_ [Hx _]%Forall_cons].
    destruct (commit_pending_newer env _ _ _ _ Hx Hc) as (p & ? & ?). eauto. }
  assert (rtc (conc_step P V) (no_executions, []) (s1, l1 ++ l2)) as Hs1
    by (eapply rtc_r; [exact Hs|by eapply conc_commit]).
  destruct (conc_steps_le _ _ _ _ _ _ Hs1 Hs2 Hp) as (q & Hq & Hle).
  assert (plan_version q ≠ read_version y) as Hne.
  { rewrite Hv. destruct Hle as [->|[? _]]; lia. }
  apply Z.eqb_neq in Hne.
  assert (version_matches s2 (plan_id (new_plan_of y)) (read_version y)
    = raise ConcurrentPlanUpdateError "execution plan changed concurrently") as Hcas.
  { unfold version_matches. rewrite Hid, Hq. by rewrite Hne. }
  unfold commit_pending. destruct (starts y); unfold commit_start, commit_transition,
    require_utt, mbind, M_bind, lift, getS; [rewrite He; cbn|]; by rewrite Hcas.
Qed.
End claims.

(** ** What the operations commit *)
Ltac report_run Hrun x :=
  apply (run_report_cases x) in Hrun as [[[? ?] _]|(? & ? & ? & ? & ? & Hb & Hp & Hc & [= <-])];
  [done|]; cbn [begin_report prepare_report] in Hb, Hp;
  unfold read_created, read_waiting, prepare_failure, prepare_success, prepare_resolution,
    require_attempt, require_plan in Hb, Hp;
  inv_ok Hb; inv_ok Hp; guards;
  repeat match goal with
  | Ht : require_text "rtt_id" _ = Ok _ |- _ => apply require_text_ok in Ht as [-> _]
  | Hx : require_minor_units _ _ _ = Ok _ |- _ => apply require_minor_units_ok in Hx as [_ ?]
  | u : unit |- _ => destruct u
  end.

Lemma record_failure_ok rtt code d cost at_ clock s p s' :
  record_failure rtt code d cost at_ clock s = (Ok p, s') →
  ∃ now q a a', attempts s !! strip rtt = Some a ∧ rtt_state a = RTT_CREATED ∧
    plans s !! rtt_plan_id a = Some q ∧ 0 <= cost ∧
    next_failure q a rtt (upper (strip code)) d cost now = (p, a') ∧
    commit_transition (plan_version q) p a' s = (Ok tt, s').
Proof.
  intros Hrun. report_run Hrun (ReportFailure code d cost).
  destruct (next_failure _ _ _ _ _ _ _) as [p1 a1] eqn:Hn. inv_ok Hp. simplify_eq. eauto 15.
Qed.

Lemma record_success_ok rtt cost at_ clock s p s' :
  record_success rtt cost at_ clock s = (Ok p, s') →
  ∃ now q a a', attempts s !! strip rtt = Some a ∧ rtt_state a = RTT_CREATED ∧
    plans s !! rtt_plan_id a = Some q ∧ 0 <= cost ∧
    next_success q a rtt cost now = (p, a') ∧
    commit_transition (plan_version q) p a' s = (Ok tt, s').
Proof.
  intros Hrun. report_run Hrun (ReportSuccess cost).
  destruct (next_success _ _ _ _ _) as [p1 a1] eqn:Hn. inv_ok Hp. simplify_eq. eauto 15.
Qed.

Lemma resolve_ok rtt ok cost code d at_ clock s p s' :
  resolve_reconciliation rtt ok cost code d at_ clock s = (Ok p, s') →
  ∃ q a a', attempts s !! strip rtt = Some a ∧ plans s !! rtt_plan_id a = Some q ∧
    rtt_state a = RTT_RECONCILIATION_REQUIRED ∧ current_rtt_id q = Some rtt ∧
    plan_id p = plan_id q ∧ rtt_id a' = rtt_id a ∧
    commit_transition (plan_version q) p a' s = (Ok tt, s').
Proof.
  intros Hrun. report_run Hrun (ReportResolution ok cost code d).
  destruct ok; [|inv_ok Hp];
    cbv beta iota zeta delta [next_success next_confirmed_failure] in Hp;
    apply res_ret_ok in Hp; injection Hp as -> -> ->;
    do 3 eexists; split_and!; try eassumption; reflexivity.
Qed.

Lemma resolve_success_ok rtt cost code d at_ clock s p s' :
  resolve_reconciliation rtt true cost code d at_ clock s = (Ok p, s') →
  ∃ now q a a', attempts s !! strip rtt = Some a ∧
    next_success q a rtt cost now = (p, a') ∧
    commit_transition (plan_version q) p a' s = (Ok tt, s').
Proof.
  intros Hrun. report_run Hrun (ReportResolution true cost code d).
  destruct (next_success _ _ _ _ _) as [p1 a1] eqn:Hn. inv_ok Hp. simplify_eq. eauto 15.
Qed.

(** Identifiers are looked up stripped but recorded as spelled: when an
    unknown outcome is recorded under an identifier with surrounding blanks,
    no call of [resolve_reconciliation] can resolve that plan. *)
Theorem unclean_rtt_id_blocks_plan s rtt code cost at_ clock p s'
    rtt' ok cost' code' d' at' clock' p' s'' :
  exec_wf s → strip rtt ≠ rtt →
  record_failure rtt code FAIL_RECONCILIATION_REQUIRED cost at_ clock s = (Ok p, s') →
  resolve_reconciliation rtt' ok cost' code' d' at' clock' s' = (Ok p', s'') →
  plan_id p' ≠ plan_id p.
Proof.
  intros Hwf Hrtt Hfail Hres Heq.
  apply record_failure_ok in Hfail as (now & q & a & a1 & Ha & _ & Hq & _ & [= <- <-] & Hc).
  apply commit_transition_ok in Hc as (_ & _ & ->).
  apply resolve_ok in Hres as (q2 & a2 & a2' & Ha2 & Hq2 & _ & Hcur & Hid & Hrid & Hc).
  apply commit_transition_ok in Hc as ((q3 & Hq3 & _ & Hcur3) & _ & _).
  rewrite Heq in Hq3. cbn in Hq3. rewrite lookup_insert_eq in Hq3. injection Hq3 as <-.
  cbn in Hcur3. injection Hcur3 as Hr. apply Hrtt.
  assert (rtt_id a2 = strip rtt') as Hkey.
  { cbn in Ha2. rewrite lookup_insert in Ha2. case_decide as E; [by injection Ha2 as <-|].
    by apply (ew_attempt _ Hwf). }
  rewrite Hr, Hrid, Hkey. apply strip_idemp.
Qed.

(** ** A concrete run with a race *)
Module DemoExecution.
Import ToyEd25519 DemoContracts DemoRoutes.

Definition demo_env : ExecutionEnv InMemoryEd25519KeyProvider PartnerDirectory :=
  {| env_keys := demo_keys; env_contracts := demo_store; env_weights := default_weights;
     env_rtt_key := "KX"; env_policy := open_policy |}.
(** The workers of a run. *)
Notation demo_conc := (conc_step InMemoryEd25519KeyProvider PartnerDirectory).
Definition demo_utt : string := c_utt_id (contract demo_result).

Definition blank_plan : ExecutionPlan :=
  {| plan_id := EmptyString; plan_utt_id := EmptyString; ranked_routes := [];
     remaining_route_ids := []; failures := []; attempts_used := 0; max_attempts := 0;
     routing_budget_minor := 0; routing_cost_spent_minor := 0; current_rtt_id := None;
     previous_rtt_id := None; previous_route_id := None; plan_status := PLAN_FAILED;
     successful_route_id := None; plan_version := 0; plan_created_at := 0;
     plan_updated_at := 0 |}.
Definition blank_attempt : RttAttemptRecord :=
  {| rtt_id := EmptyString; rtt_utt_id := EmptyString; rtt_plan_id := EmptyString;
     attempt_number := 0; rtt_route_id := EmptyString;
     signed_rtt := Envelope [] [] EmptyString; rtt_state := RTT_FAILED;
     rtt_failure_code := None; rtt_actual_cost_minor := None; rtt_created_at := 0;
     rtt_updated_at := 0 |}.

(** The evaluated plan and reads: what later evaluations start from. *)
Definition demo_plan : ExecutionPlan := Eval vm_compute in
  from_ok blank_plan (new_plan demo_env demo_utt demo_candidates (seconds 250)).
(** The store after [build_plan]. *)
Definition store1 : ExecutionStore :=
  (create_plan (env_contracts demo_env) demo_plan no_executions).2.
(** Two workers read the same version, eleven seconds apart. *)
Definition no_reading : Z * ExecutionPlan * RttAttemptRecord := (0, blank_plan, blank_attempt).
Definition reading260 : Z * ExecutionPlan * RttAttemptRecord := Eval vm_compute in
  from_ok no_reading (prepare_start demo_env demo_utt (seconds 260) store1).
Definition reading271 : Z * ExecutionPlan * RttAttemptRecord := Eval vm_compute in
  from_ok no_reading (prepare_start demo_env demo_utt (seconds 271) store1).
Definition pending_of (x : Z * ExecutionPlan * RttAttemptRecord) : pending :=
  Pending true x.1.1 x.1.2 x.2.
Definition worker1 : pending := pending_of reading260.
Definition worker2 : pending := pending_of reading271.
Definition store2 : ExecutionStore := (commit_pending demo_env worker1 store1).2.

Lemma demo_plan_built :
  new_plan demo_env demo_utt demo_candidates (seconds 250) = Ok demo_plan.
Proof. vm_compute. reflexivity. Qed.
Lemma demo_reading260 : prepare_start demo_env demo_utt (seconds 260) store1 = Ok reading260.
Proof. vm_compute. reflexivity. Qed.
Lemma demo_reading271 : prepare_start demo_env demo_utt (seconds 271) store1 = Ok reading271.
Proof. vm_compute. reflexivity. Qed.
Lemma demo_read l t x :
  prepare_start demo_env demo_utt (seconds t) store1 = Ok x →
  demo_conc (store1, l) (store1, Committing (pending_of x) :: l).
Proof.
  destruct x as [[v p] a]. apply (conc_read_start demo_env store1 l demo_utt).
Qed.
Lemma commit1 : commit_pending demo_env worker1 store1 = (Ok tt, store2).
Proof.
  assert (is_ok (commit_pending demo_env worker1 store1).1 = true) as Hok
    by (vm_compute; reflexivity).
  unfold store2. by destruct (commit_pending _ _ _) as [[[]|] s].
Qed.

Lemma demo_step0 : demo_conc (no_executions, []) (store1, []).
Proof.
  apply (conc_create demo_env _ _ _ demo_plan (create_plan (env_contracts demo_env) demo_plan
    no_executions).1).
  - apply (new_plan_fresh demo_env _ _ _ _ demo_plan_built). vm_compute. discriminate.
  - unfold store1. by destruct (create_plan _ _ _).
Qed.
Lemma demo_trace1 : rtc (demo_conc) (no_executions, []) (store1, []).
Proof. apply rtc_once, demo_step0. Qed.
Lemma demo_trace2 : rtc (demo_conc) (no_executions, []) (store1, [Committing worker2; Committing worker1]).
Proof.
  eapply rtc_r; [eapply rtc_r; [apply demo_trace1|]|].
  - exact (demo_read [] 260 reading260 demo_reading260).
  - exact (demo_read [Committing worker1] 271 reading271 demo_reading271).
Qed.
Lemma demo_trace3 : rtc (demo_conc) (no_executions, []) (store2, [Committing worker2]).
Proof.
  eapply rtc_r; [apply demo_trace2|].
  apply (conc_commit demo_env _ _ [Committing worker2] worker1 [] (Ok tt)), commit1.
Qed.

(** A torn read: worker A reads the attempt, worker B records an unknown outcome,
    and A, which still takes the attempt for CREATED, records a failure. *)
Definition demo_rtt_id : string := rtt_id (new_attempt_of worker1).
Definition late_failure : report := ReportFailure "declined" FAIL_RETRYABLE 3.
Definition unknown_outcome : report := ReportFailure "timeout" FAIL_RECONCILIATION_REQUIRED 3.
Definition reading_a : RttAttemptRecord := Eval vm_compute in
  from_ok blank_attempt (begin_report late_failure demo_rtt_id store2).
Definition worker_a : worker := Reporting late_failure demo_rtt_id (seconds 300) reading_a.
Definition store_unknown : ExecutionStore :=
  (run_report unknown_outcome demo_rtt_id None (seconds 310) store2).2.
Definition pending_a : Z * ExecutionPlan * RttAttemptRecord := Eval vm_compute in
  from_ok no_reading (prepare_report late_failure demo_rtt_id (seconds 300) reading_a store_unknown).
Definition commit_a : pending := Pending false pending_a.1.1 pending_a.1.2 pending_a.2.
Definition store_torn : ExecutionStore := (commit_pending demo_env commit_a store_unknown).2.

Lemma demo_reading_a : begin_report late_failure demo_rtt_id store2 = Ok reading_a.
Proof. vm_compute. reflexivity. Qed.
Lemma demo_pending_a :
  prepare_report late_failure demo_rtt_id (seconds 300) reading_a store_unknown
  = Ok (pending_a.1.1, pending_a.1.2, pending_a.2).
Proof. vm_compute. reflexivity. Qed.
Lemma demo_commit_a : commit_pending demo_env commit_a store_unknown = (Ok tt, store_torn).
Proof.
  assert (is_ok (commit_pending demo_env commit_a store_unknown).1 = true) as Hok
    by (vm_compute; reflexivity).
  unfold store_torn. by destruct (commit_pending _ _ _) as [[[]|] s].
Qed.
Lemma store_unknown_trace l : store_unknown = store2 ∨ rtc (demo_conc) (store2, l) (store_unknown, l).
Proof.
  apply (run_report_conc demo_env unknown_outcome demo_rtt_id None (seconds 310) store2 l
    (run_report unknown_outcome demo_rtt_id None (seconds 310) store2).1).
  apply surjective_pairing.
Qed.
Lemma demo_trace2' : rtc (demo_conc) (no_executions, []) (store2, []).
Proof.
  eapply rtc_r; [eapply rtc_r|].
  - apply demo_trace1.
  - exact (demo_read [] 260 reading260 demo_reading260).
  - apply (conc_commit demo_env store1 store2 [] worker1 [] (Ok tt)), commit1.
Qed.
Lemma torn_trace : rtc (demo_conc) (no_executions, []) (store_torn, []).
Proof.
  trans (store2, @nil worker); [exact demo_trace2'|].
  eapply rtc_l.
  { apply (conc_read_attempt store2 [] late_failure demo_rtt_id (seconds 300)).
    exact demo_reading_a. }
  trans (store_unknown, [worker_a]).
  { destruct (store_unknown_trace [worker_a]) as [->|?]; [apply rtc_refl|done]. }
  eapply rtc_l.
  { apply (conc_read_plan store_unknown [] late_failure demo_rtt_id (seconds 300) reading_a []).
    exact demo_pending_a. }
  apply rtc_once, (conc_commit demo_env store_unknown store_torn [] commit_a [] (Ok tt)), demo_commit_a.
Qed.

(** The store with one started attempt, by uninterrupted operations. *)
Lemma store2_steps : rtc (plan_step demo_env) no_executions store2.
Proof.
  assert (plan_step demo_env no_executions store1) as H1.
  { assert (create_plan (env_contracts demo_env) demo_plan no_executions
      = ((create_plan (env_contracts demo_env) demo_plan no_executions).1, store1)) as Hc
      by (unfold store1; by destruct (create_plan _ _ _)).
    apply create_plan_cases in Hc as [Hc|(_ & Hu & Hi & ->)].
    - assert (is_Some (plans store1 !! plan_id demo_plan)) as [p Hp] by (vm_compute; eauto).
      rewrite Hc in Hp. cbn in Hp. by rewrite lookup_empty in Hp.
    - apply step_create; [done..|]. apply (new_plan_fresh demo_env _ _ _ _ demo_plan_built).
      vm_compute. discriminate. }
  apply rtc_l with store1, rtc_once; [done|].
  destruct (conc_inv _ _ _ no_executions_wf demo_trace1) as (_ & Hwf & _).
  exact (start_step demo_env _ _ _ _ _ _ _ _ Hwf demo_reading260 commit1).
Qed.
Lemma store2_wf : exec_wf store2.
Proof. apply (reachable_wf demo_env), store2_steps. Qed.
End DemoExecution.
Import ToyEd25519 DemoContracts DemoRoutes DemoExecution.

(** A torn read defeats the guard "RTT has already reached an operational
    outcome": one attempt is reported twice.  Here its outcome is unknown, and
    nevertheless the plan becomes ACTIVE again, ready to start another attempt,
    without the reconciliation that the state asks for. *)
Lemma torn_report_recorded_twice :
  ∃ s p, rtc (demo_conc) (no_executions, []) (s, []) ∧
    plans s !! plan_id demo_plan = Some p ∧ attempts_used p = 1 ∧
    rf_rtt_id <$> failures p = [demo_rtt_id; demo_rtt_id] ∧
    rf_disposition <$> failures p = [FAIL_RECONCILIATION_REQUIRED; FAIL_RETRYABLE] ∧
    routing_cost_spent_minor p = 3 + 3 ∧ plan_status p = PLAN_ACTIVE ∧ startable p = Ok tt.
Proof.
  exists store_torn, (new_plan_of commit_a). split; [exact torn_trace|].
  vm_compute. repeat split.
Qed.

Lemma interleavings_serialize_witness : rtc (life_step InMemoryEd25519KeyProvider PartnerDirectory) no_executions store_torn.
Proof. apply (interleavings_serialize (P:=InMemoryEd25519KeyProvider) (V:=PartnerDirectory) store_torn []). exact torn_trace. Defined.

Lemma failover_safe_witness :
  plan_status (new_plan_of commit_a) = PLAN_FINALIZED ↔
  ∃ i a, attempts store_torn !! i = Some a ∧ rtt_plan_id a = plan_id (new_plan_of commit_a) ∧
    rtt_state a = RTT_SUCCEEDED ∧
    successful_route_id (new_plan_of commit_a) = Some (rtt_route_id a).
Proof.
  apply (failover_safe (P:=InMemoryEd25519KeyProvider) (V:=PartnerDirectory) store_torn []).
  - exact torn_trace.
  - vm_compute. reflexivity.
Defined.

Lemma active_plan_startable_witness : startable demo_plan = Ok tt.
Proof.
  apply (active_plan_startable (P:=InMemoryEd25519KeyProvider) (V:=PartnerDirectory) store1 [] (plan_id demo_plan) demo_plan).
  - exact demo_trace1.
  - vm_compute. reflexivity.
  - vm_compute. reflexivity.
  - vm_compute. reflexivity.
Defined.

Lemma plans_terminate_witness :
  plan_version (new_plan_of commit_a) + in_flight (new_plan_of commit_a)
  = 1 + 2 * attempts_used (new_plan_of commit_a) + unknown_reports (new_plan_of commit_a).
Proof.
  apply (plans_terminate (P:=InMemoryEd25519KeyProvider) (V:=PartnerDirectory) store_torn [] (plan_id demo_plan)).
  - exact torn_trace.
  - vm_compute. reflexivity.
Defined.

Lemma stale_commit_rejected_witness :
  commit_pending demo_env worker2 store2
  = (Err (Exn ConcurrentPlanUpdateError "execution plan changed concurrently"), store2).
Proof.
  apply (stale_commit_rejected demo_env store1 [Committing worker2] worker1 [] store2 store2 [Committing worker2]
    worker2 tt).
  - exact demo_trace2.
  - exact commit1.
  - vm_compute. reflexivity.
  - vm_compute. reflexivity.
  - vm_compute. eauto.
  - apply rtc_refl.
Defined.

(** The RTT that worker 1 started, reported with a trailing blank. *)
Definition spelled : string := rtt_id (new_attempt_of worker1) +:+ " ".
Definition reported : res ExecutionPlan * ExecutionStore :=
  record_failure spelled "timeout" FAIL_RECONCILIATION_REQUIRED 3 None (seconds 300) store2.

Lemma unclean_rtt_id_blocks_plan_witness :
  ∃ p, reported.1 = Ok p ∧ current_rtt_id p = Some spelled ∧
  ∀ p' s'', resolve_reconciliation spelled true 3 None FAIL_TERMINAL None (seconds 400)
    reported.2 = (Ok p', s'') → plan_id p' ≠ plan_id p.
Proof.
  exists (from_ok blank_plan reported.1). split; [vm_compute; reflexivity|].
  split; [vm_compute; reflexivity|]. intros p' s''.
  apply (unclean_rtt_id_blocks_plan store2 spelled "timeout" 3 None (seconds 300)).
  - exact store2_wf.
  - vm_compute. discriminate.
  - apply (from_ok_run blank_plan reported). vm_compute. reflexivity.
Defined.

Lemma operations_atomic_witness :
  ∃ p, record_success (rtt_id (new_attempt_of worker1)) 4 None (seconds 300) store2
       = (Ok p, (record_success (rtt_id (new_attempt_of worker1)) 4 None (seconds 300) store2).2)
  ∧ ((∃ e, Ok p = Err e) ∧
     (record_success (rtt_id (new_attempt_of worker1)) 4 None (seconds 300) store2).2 = store2 ∨
     ∃ q, Ok p = Ok q ∧
       plan_step demo_env store2
         (record_success (rtt_id (new_attempt_of worker1)) 4 None (seconds 300) store2).2 ∧
       plans (record_success (rtt_id (new_attempt_of worker1)) 4 None (seconds 300) store2).2
         !! plan_id q = Some q).
Proof.
  assert (record_success (rtt_id (new_attempt_of worker1)) 4 None (seconds 300) store2
    = (Ok (from_ok blank_plan (record_success (rtt_id (new_attempt_of worker1)) 4 None
         (seconds 300) store2).1),
       (record_success (rtt_id (new_attempt_of worker1)) 4 None (seconds 300) store2).2)) as Hrun
    by (apply from_ok_run; vm_compute; reflexivity).
  eexists. split; [exact Hrun|].
  eapply (operations_atomic demo_env store2 (rtt_id (new_attempt_of worker1)) EmptyString
    (ReportSuccess 4) None (seconds 300)).
  - exact store2_wf.
  - vm_compute. reflexivity.
  - exact Hrun.
Defined.
