(* ===== verification/OperationsStore.v ===== *)
(** [railone_operations/models.py], [railone_operations/store.py] and
    [railone_operations/endpoints.py]: provider submissions, the signed-event
    outbox with its leases, and the account-endpoint resolver. *)

From Stdlib Require Import Ascii String.
From S2P Require Import Prelude.
From S2P Require Import PyBase.
From S2P Require Import PyDict.
From S2P Require Import CanonicalJson.
From S2P Require Import Signatures.

(** ** [models.py] *)
Inductive ProviderSubmissionState :=
  | SUB_PREPARED | SUB_DISPATCHING | SUB_ACCEPTED | SUB_REJECTED | SUB_UNKNOWN.
Inductive ProviderOutcome := OUT_ACCEPTED | OUT_REJECTED | OUT_UNKNOWN.
Inductive RejectionDisposition := REJ_RETRYABLE | REJ_TERMINAL.
Inductive OutboxDeliveryState :=
  | OB_PENDING | OB_IN_FLIGHT | OB_PUBLISHED | OB_DEAD_LETTER.
#[global] Instance ProviderSubmissionState_eq_dec : EqDecision ProviderSubmissionState.
Proof. solve_decision. Defined.
#[global] Instance ProviderOutcome_eq_dec : EqDecision ProviderOutcome.
Proof. solve_decision. Defined.
#[global] Instance RejectionDisposition_eq_dec : EqDecision RejectionDisposition.
Proof. solve_decision. Defined.
#[global] Instance OutboxDeliveryState_eq_dec : EqDecision OutboxDeliveryState.
Proof. solve_decision. Defined.

Definition ProviderOutcome_value (o : ProviderOutcome) : string :=
  match o with
  | OUT_ACCEPTED => "ACCEPTED" | OUT_REJECTED => "REJECTED" | OUT_UNKNOWN => "UNKNOWN"
  end.
Definition RejectionDisposition_value (d : RejectionDisposition) : string :=
  match d with REJ_RETRYABLE => "RETRYABLE" | REJ_TERMINAL => "TERMINAL" end.

Record ProviderExecutionRequest := {
  pr_idempotency_key : string;
  pr_request_sha256 : string;
  pr_utt_id : string;
  pr_rtt_id : string;
  pr_attempt_number : Z;
  pr_provider_id : string;
  pr_adapter_binding_ref : string;
  pr_rail : string;
  pr_amount_minor : Z;
  pr_currency_from : string;
  pr_receive_amount_minor : Z;
  pr_currency_to : string;
  pr_source_institution_id : string;
  pr_destination_institution_id : string;
  pr_payer_account_reference : string;
  pr_beneficiary_account_reference : string;
}.

Record ProviderSubmissionResult := {
  out_outcome : ProviderOutcome;
  out_code : string;
  out_external_reference : option string;
  out_disposition : option RejectionDisposition;
  out_context : list (pyval * pyval);
}.

Record ProviderSubmissionRecord := {
  sub_submission_id : string;
  sub_idempotency_key : string;
  sub_request_sha256 : string;
  sub_utt_id : string;
  sub_rtt_id : string;
  sub_provider_id : string;
  sub_state : ProviderSubmissionState;
  sub_dispatch_attempts : Z;
  sub_normalized_code : option string;
  sub_external_reference : option string;
  sub_disposition : option RejectionDisposition;
  sub_context : list (string * string);
  sub_version : Z;
  sub_created_at : instant;
  sub_updated_at : instant;
}.

Record OutboxRecord := {
  ob_event_id : string;
  ob_aggregate_type : string;
  ob_aggregate_id : string;
  ob_event_type : string;
  ob_signed_event : SignatureEnvelope;
  ob_delivery_state : OutboxDeliveryState;
  ob_delivery_attempts : Z;
  ob_available_at : instant;
  ob_lease_owner : option string;
  ob_lease_until : option instant;
  ob_last_error : option string;
  ob_published_at : option instant;
  ob_version : Z;
  ob_created_at : instant;
  ob_updated_at : instant;
}.

(** [replace(row, ...)] with the delivery fields; every change bumps the
    version. *)
Definition replace_delivery (row : OutboxRecord) (state : OutboxDeliveryState)
    (attempts : Z) (available : instant) (owner : option string)
    (until : option instant) (error : option string) (published : option instant)
    (at_ : instant) : OutboxRecord :=
  {| ob_event_id := ob_event_id row; ob_aggregate_type := ob_aggregate_type row;
     ob_aggregate_id := ob_aggregate_id row; ob_event_type := ob_event_type row;
     ob_signed_event := ob_signed_event row; ob_delivery_state := state;
     ob_delivery_attempts := attempts; ob_available_at := available;
     ob_lease_owner := owner; ob_lease_until := until; ob_last_error := error;
     ob_published_at := published; ob_version := ob_version row + 1;
     ob_created_at := ob_created_at row; ob_updated_at := at_ |}.

(** ** [InMemoryOperationsStore] *)
Record OperationsStore := Operations {
  submissions_by_rtt : dict string ProviderSubmissionRecord;
  rtt_by_idempotency : dict string string;
  outbox : dict string OutboxRecord;
}.
Implicit Types (s : OperationsStore) (row : OutboxRecord).

Definition no_operations : OperationsStore := Operations [] [] [].

Definition put_outbox row s : OperationsStore :=
  Operations (submissions_by_rtt s) (rtt_by_idempotency s)
    (dset (outbox s) (ob_event_id row) row).
Definition put_submission (sub : ProviderSubmissionRecord) s : OperationsStore :=
  Operations (dset (submissions_by_rtt s) (sub_rtt_id sub) sub) (rtt_by_idempotency s)
    (outbox s).

Definition store_prepare (submission : ProviderSubmissionRecord) row
    : M OperationsStore ProviderSubmissionRecord :=
  s ← getS;
  match dget (submissions_by_rtt s) (sub_rtt_id submission) with
  | Some existing =>
      _ ← raise_if (negb (String.eqb (sub_request_sha256 existing) (sub_request_sha256 submission))
                    || negb (String.eqb (sub_idempotency_key existing)
                               (sub_idempotency_key submission))) RuntimeError
            "provider submission preparation conflict";
      mret existing
  | None =>
      match dget (rtt_by_idempotency s) (sub_idempotency_key submission) with
      | Some prior_rtt =>
          raise RuntimeError ("provider idempotency key already belongs to " +:+ prior_rtt)
      | None =>
          _ ← raise_if (dmem (outbox s) (ob_event_id row)) RuntimeError
                "outbox event identifier collision";
          _ ← putS (Operations
                 (dset (submissions_by_rtt s) (sub_rtt_id submission) submission)
                 (dset (rtt_by_idempotency s) (sub_idempotency_key submission)
                    (sub_rtt_id submission))
                 (dset (outbox s) (ob_event_id row) row));
          mret submission
      end
  end.

Definition require_submission s (rtt : string) : res ProviderSubmissionRecord :=
  require (dget (submissions_by_rtt s) rtt) SubmissionNotFoundError
    ("provider submission not found: " +:+ rtt).

Definition find_by_external_reference s (provider reference : string)
    : option ProviderSubmissionRecord :=
  head (filter (λ sub, sub_provider_id sub = provider ∧
                       sub_external_reference sub = Some reference)
          (dvalues (submissions_by_rtt s))).

Definition transition (previous_version : Z) (submission : ProviderSubmissionRecord) row
    : M OperationsStore unit :=
  s ← getS;
  current ← lift (require_submission s (sub_rtt_id submission));
  _ ← raise_if (negb (sub_version current =? previous_version))
        ConcurrentSubmissionUpdateError "provider submission changed concurrently";
  _ ← raise_if (negb (sub_version submission =? previous_version + 1)) ValueError
        "submission version must advance exactly once";
  _ ← raise_if (dmem (outbox s) (ob_event_id row)) RuntimeError
        "outbox event identifier collision";
  putS (put_outbox row (put_submission submission s)).

(** [isinstance(v, bool) or not isinstance(v, int) or not lo <= v <= hi] *)
Definition bounded_int (lo hi : Z) (msg : string) (v : pyval) : res Z :=
  match v with
  | PInt n => _ ← raise_if (negb ((lo <=? n) && (n <=? hi))) ValueError msg; mret n
  | _ => raise ValueError msg
  end.

(** [rows.sort(key=lambda row: (row.available_at, row.event_id))] *)
Definition delivery_key row : instant * string := (ob_available_at row, ob_event_id row).
Definition delivery_order (rows : list OutboxRecord) : list OutboxRecord :=
  sort_on delivery_key (lex_le Z.le) rows.

Definition pending_outbox s (limit : pyval) : res (list OutboxRecord) :=
  n ← bounded_int 1 1000 "outbox limit must be between 1 and 1000" limit;
  mret (take (Z.to_nat n) (delivery_order
    (filter (λ row, ob_delivery_state row = OB_PENDING) (dvalues (outbox s))))).

(** May a worker claim the row at [at_]? *)
Definition claimable (at_ : instant) row : bool :=
  match ob_delivery_state row with
  | OB_PENDING => ob_available_at row <=? at_
  | OB_IN_FLIGHT =>
      match ob_lease_until row with Some until => until <=? at_ | None => false end
  | _ => false
  end.

Definition lease_row (worker : string) (at_ : instant) (lease : Z) row : res OutboxRecord :=
  until ← plus_seconds at_ lease;
  mret (replace_delivery row OB_IN_FLIGHT (ob_delivery_attempts row + 1)
          (ob_available_at row) (Some worker) (Some until) (ob_last_error row)
          (ob_published_at row) at_).

Definition claim_row (worker : string) (at_ : instant) (lease : Z) row
    : M OperationsStore OutboxRecord :=
  updated ← lift (lease_row worker at_ lease row);
  _ ← modifyS (put_outbox updated);
  mret updated.

(** The rows that a claim takes: the [n] claimable ones that are due first. *)
Definition claim_selection (at_ : instant) (n : Z) s : list OutboxRecord :=
  take (Z.to_nat n) (delivery_order
    (filter (λ row, claimable at_ row = true) (dvalues (outbox s)))).

Definition claim_outbox (worker : string) (at_ : instant) (lease_seconds limit : pyval)
    : M OperationsStore (list OutboxRecord) :=
  _ ← raise_if (blank worker) ValueError "outbox worker_id is required";
  lease ← lift (bounded_int 1 300 "outbox lease_seconds must be between 1 and 300" lease_seconds);
  n ← lift (bounded_int 1 1000 "outbox claim limit must be between 1 and 1000" limit);
  s ← getS;
  mapM_ (claim_row worker at_ lease) (claim_selection at_ n s).

Definition require_owned_event s (event_id worker : string) : res OutboxRecord :=
  row ← require (dget (outbox s) event_id) LookupError ("outbox event not found: " +:+ event_id);
  _ ← raise_if (negb (bool_decide (ob_delivery_state row = OB_IN_FLIGHT))
                || negb (bool_decide (ob_lease_owner row = Some worker))) PermissionError
        "worker does not own the outbox lease";
  mret row.

(** [self._outbox[event_id] = updated] *)
Definition assign_outbox (event_id : string) row s : OperationsStore :=
  Operations (submissions_by_rtt s) (rtt_by_idempotency s) (dset (outbox s) event_id row).

Definition published_row row (at_ : instant) : OutboxRecord :=
  replace_delivery row OB_PUBLISHED (ob_delivery_attempts row) (ob_available_at row)
    None None None (Some at_) at_.

Definition mark_published (event_id worker : string) (at_ : instant)
    : M OperationsStore OutboxRecord :=
  s ← getS;
  row ← lift (require_owned_event s event_id worker);
  let updated := published_row row at_ in
  _ ← putS (assign_outbox event_id updated s);
  mret updated.

Definition rescheduled_row row (at_ available : instant) (error : string) (max : Z)
    : OutboxRecord :=
  replace_delivery row
    (if max <=? ob_delivery_attempts row then OB_DEAD_LETTER else OB_PENDING)
    (ob_delivery_attempts row) available None None (Some (str_take 1000 error))
    (ob_published_at row) at_.

Definition reschedule (event_id worker : string) (at_ available : instant) (error : string)
    (max_attempts : pyval) : M OperationsStore OutboxRecord :=
  _ ← raise_if (blank error) ValueError "outbox failure error is required";
  max ← lift (bounded_int 1 100 "outbox max_attempts must be between 1 and 100" max_attempts);
  s ← getS;
  row ← lift (require_owned_event s event_id worker);
  let updated := rescheduled_row row at_ available error max in
  _ ← putS (assign_outbox event_id updated s);
  mret updated.

(** ** [endpoints.py]: the account-endpoint resolver boundary *)
Class AccountEndpointResolver (R : Type) :=
  resolve_endpoint : R → string → string → res string.

Definition InMemoryAccountEndpointResolver : Type := gmap (string * string) string.

(** [isinstance(value, str) and value.strip()] *)
Definition present_text (v : pyval) : option string :=
  match v with
  | PStr t => if blank t then None else Some t
  | _ => None
  end.

Definition register_endpoint (institution binding reference : pyval)
    : M InMemoryAccountEndpointResolver unit :=
  match present_text institution, present_text binding, present_text reference with
  | Some i, Some b, Some r =>
      refs ← getS;
      _ ← raise_if (is_some_b ((refs : gmap (string * string) string) !! (i, b)))
            ValueError "endpoint resolution already exists";
      putS (<[(i, b) := r]> (refs : gmap (string * string) string))
  | _, _, _ => raise ValueError "endpoint resolution values are required"
  end.

#[global] Instance resolve : AccountEndpointResolver InMemoryAccountEndpointResolver :=
  λ refs institution binding,
    require ((refs : gmap (string * string) string) !! (institution, binding)) LookupError
      "provider endpoint is not resolvable".
