(* ===== verification/Operations.v ===== *)
(** [railone_operations/service.py]: preparation and dispatch of provider
    submissions, and the at-least-once relay of their signed events.

    [dispatch] runs in four parts between which other workers may act: it
    reads ([dispatch_read]), commits that the provider is about to be called
    ([dispatch_start]), calls the adapter ([call_adapter]) and commits the
    outcome ([complete]).  The outside world [W] of an adapter or publisher is
    a parameter. *)

From Stdlib Require Import Ascii String.
From S2P Require Import Prelude.
From S2P Require Import PyBase.
From S2P Require Import PyDict.
From S2P Require Import Bytes.
From S2P Require Import Sha256.
From S2P Require Import CanonicalJson.
From S2P Require Import PyText.
From S2P Require Import Keys.
From S2P Require Import Signatures.
From S2P Require Import ContractModels.
From S2P Require Import Authority.
From S2P Require Import Contracts.
From S2P Require Import ExecutionStore.
From S2P Require Import OperationsStore.

Definition operation_instant (at_ : option datetime) (clock : instant) : res instant :=
  aware "provider-operation timestamp must be timezone-aware" (or_now at_ clock).

(** [FINAL_STATES] *)
Definition final_state (st : ProviderSubmissionState) : bool :=
  match st with
  | SUB_ACCEPTED | SUB_REJECTED | SUB_UNKNOWN => true
  | SUB_PREPARED | SUB_DISPATCHING => false
  end.

(** ** [_provider_context] *)
Definition context_char (c : ascii) : bool :=
  is_lower c || is_digit c || Ascii.eqb c "_".
(** [re.fullmatch(r"[a-z][a-z0-9_]{0,63}", key)] *)
Definition context_key (k : string) : bool :=
  match k with
  | String c rest => is_lower c && str_forall context_char rest && (len rest <=? 63)
  | EmptyString => false
  end.

Definition context_field (kv : pyval * pyval) : res (string * string) :=
  match kv with
  | (PStr k, PStr v) =>
      _ ← raise_if (negb (context_key k) || str_empty v || (256 <? char_len v)) ValueError
            "provider context contains an invalid field";
      mret (k, v)
  | _ => raise ValueError "provider context contains an invalid field"
  end.

Definition provider_context (values : list (pyval * pyval)) : res (list (string * string)) :=
  _ ← raise_if (20 <? Z.of_nat (length values)) ValueError "provider context exceeds 20 fields";
  normalized ← mapR context_field values;
  _ ← raise_if (negb (bool_decide (NoDup normalized.*1))) ValueError
        "provider context keys must be unique";
  mret (sort_on id (lex_le str_le) normalized).

(** ** Submission records *)
(** [replace(record, ...)]: the fields that transitions change. *)
Definition replace_submission (r : ProviderSubmissionRecord)
    (state : ProviderSubmissionState) (dispatches : Z) (code reference : option string)
    (disposition : option RejectionDisposition) (context : list (string * string))
    (at_ : instant) : ProviderSubmissionRecord :=
  {| sub_submission_id := sub_submission_id r; sub_idempotency_key := sub_idempotency_key r;
     sub_request_sha256 := sub_request_sha256 r; sub_utt_id := sub_utt_id r;
     sub_rtt_id := sub_rtt_id r; sub_provider_id := sub_provider_id r; sub_state := state;
     sub_dispatch_attempts := dispatches; sub_normalized_code := code;
     sub_external_reference := reference; sub_disposition := disposition;
     sub_context := context; sub_version := sub_version r + 1;
     sub_created_at := sub_created_at r; sub_updated_at := at_ |}.

Definition dispatching_record (r : ProviderSubmissionRecord) (at_ : instant)
    : ProviderSubmissionRecord :=
  replace_submission r SUB_DISPATCHING (sub_dispatch_attempts r + 1) (sub_normalized_code r)
    (sub_external_reference r) (sub_disposition r) (sub_context r) at_.

Definition prepared_record (submission_id idempotency_key request_sha256 utt rtt provider : string)
    (at_ : instant) : ProviderSubmissionRecord :=
  {| sub_submission_id := submission_id; sub_idempotency_key := idempotency_key;
     sub_request_sha256 := request_sha256; sub_utt_id := utt; sub_rtt_id := rtt;
     sub_provider_id := provider; sub_state := SUB_PREPARED; sub_dispatch_attempts := 0;
     sub_normalized_code := None; sub_external_reference := None; sub_disposition := None;
     sub_context := []; sub_version := 1; sub_created_at := at_; sub_updated_at := at_ |}.

(** A new event, before any delivery. *)
Definition fresh_event (event_id aggregate event_type : string) (signed : SignatureEnvelope)
    (at_ : instant) : OutboxRecord :=
  {| ob_event_id := event_id; ob_aggregate_type := "PROVIDER_SUBMISSION";
     ob_aggregate_id := aggregate; ob_event_type := event_type; ob_signed_event := signed;
     ob_delivery_state := OB_PENDING; ob_delivery_attempts := 0; ob_available_at := at_;
     ob_lease_owner := None; ob_lease_until := None; ob_last_error := None;
     ob_published_at := None; ob_version := 1; ob_created_at := at_; ob_updated_at := at_ |}.

(** The body of an event, before its identifier. *)
Definition event_core (r : ProviderSubmissionRecord) (event_type : string) (data : mapping)
    (at_ : instant) : mapping :=
  fields [("event_type", PStr event_type); ("aggregate_type", PStr "PROVIDER_SUBMISSION");
          ("aggregate_id", PStr (sub_submission_id r)); ("utt_id", PStr (sub_utt_id r));
          ("rtt_id", PStr (sub_rtt_id r)); ("provider_id", PStr (sub_provider_id r));
          ("submission_version", PInt (sub_version r)); ("data", PDict data);
          ("occurred_at", PInt (epoch at_))].

(** The state and event type of an outcome, and its disposition guards. *)
Definition outcome_state (result : ProviderSubmissionResult)
    : res (ProviderSubmissionState * string) :=
  match out_outcome result with
  | OUT_REJECTED =>
      _ ← raise_if (negb (is_some_b (out_disposition result))) ValueError
            "rejected provider outcome requires a disposition";
      mret (SUB_REJECTED, "PROVIDER_SUBMISSION_REJECTED")
  | OUT_ACCEPTED =>
      _ ← raise_if (is_some_b (out_disposition result)) ValueError
            "accepted provider outcome cannot have rejection disposition";
      mret (SUB_ACCEPTED, "PROVIDER_SUBMISSION_ACCEPTED")
  | OUT_UNKNOWN =>
      _ ← raise_if (is_some_b (out_disposition result)) ValueError
            "unknown provider outcome cannot have rejection disposition";
      mret (SUB_UNKNOWN, "PROVIDER_SUBMISSION_OUTCOME_UNKNOWN")
  end.

Definition unknown_result (code : string) : ProviderSubmissionResult :=
  {| out_outcome := OUT_UNKNOWN; out_code := code; out_external_reference := None;
     out_disposition := None; out_context := [] |}.

Definition outcome_data (result : ProviderSubmissionResult) (code : string)
    (context : list (string * string)) : mapping :=
  fields [("outcome", PStr (ProviderOutcome_value (out_outcome result)));
          ("code", PStr code);
          ("external_reference", opt_str (out_external_reference result));
          ("rejection_disposition",
             opt_str (RejectionDisposition_value <$> out_disposition result));
          ("provider_context", pdict (prod_map id PStr <$> context))].

(** ** Adapters *)
Record ProviderAdapter (W : Type) := {
  ad_provider_id : string;
  ad_supports_idempotency : bool;
  ad_submit : ProviderExecutionRequest → M W ProviderSubmissionResult;
}.
Arguments ad_provider_id {W} _.
Arguments ad_supports_idempotency {W} _.
Arguments ad_submit {W} _ _.

(** [try: adapter.submit(request) except Exception: ...UNKNOWN...] *)
Definition call_adapter {W} (ad : ProviderAdapter W) (request : ProviderExecutionRequest)
    : M W ProviderSubmissionResult :=
  catch (λ _, true) (ad_submit ad request)
    (λ _, mret (unknown_result "ADAPTER_EXCEPTION_OUTCOME_UNKNOWN")).

Section coordinator.
Context {P : Type} `{!SigningKeyProvider P} `{Ed25519}.
Context {R : Type} `{!AccountEndpointResolver R}.

(** The collaborators of [ProviderSubmissionCoordinator]. *)
Record CoordinatorEnv := {
  co_keys : P;
  co_contracts : ContractStore;
  co_executions : ExecutionStore;
  co_resolver : R;
  co_event_key : string;
}.
Implicit Types (env : CoordinatorEnv).

(** [_event] *)
Definition event env (r : ProviderSubmissionRecord) (event_type : string) (data : mapping)
    (at_ : instant) : res OutboxRecord :=
  let core := event_core r event_type data at_ in
  id ← content_id "EVT" (PDict core);
  signed ← sign_artifact (co_keys env) EXECUTION_EVENT
             (fields [("event_id", PStr id)] ++ core) (co_event_key env) at_;
  mret (fresh_event id (sub_submission_id r) event_type signed at_).

(** *** [prepare] *)
Definition checked_artifact env (e : SignatureEnvelope) (a : ArtifactType) (name : string)
    : res unit :=
  check ← verify_artifact (co_keys env) e (Some a) false;
  raise_if (negb (valid check)) PermissionError (name +:+ " rejected: " +:+ reason check).

(** The attempt that is due for submission and the verified UTT it runs. *)
Definition dispatchable_attempt env (rtt : string)
    : res (RttAttemptRecord * SignatureEnvelope) :=
  id ← require_text "rtt_id" rtt;
  attempt ← require_attempt (co_executions env) id;
  _ ← raise_if (negb (bool_decide (rtt_state attempt = RTT_CREATED)))
        SubmissionNotDispatchableError "only a current CREATED RTT can be prepared";
  plan ← require_plan (co_executions env) (rtt_plan_id attempt);
  _ ← raise_if (negb (bool_decide (current_rtt_id plan = Some rtt)))
        SubmissionNotDispatchableError "RTT is not the current plan attempt";
  _ ← checked_artifact env (signed_rtt attempt) RTT "RTT";
  signed_utt ← require_utt (co_contracts env) (rtt_utt_id attempt);
  _ ← checked_artifact env signed_utt UTT "UTT";
  bound ← item (payload (signed_rtt attempt)) "utt_payload_sha256";
  hash ← item (protected signed_utt) "payload_sha256";
  _ ← raise_if (negb (same_text bound hash)) PermissionError
        "RTT does not bind the persisted UTT payload";
  mret (attempt, signed_utt).

Definition idempotency_key (provider rtt : string) : res string :=
  content_id "R1IDEM" (pdict [("domain", PStr "RAILONE-PROVIDER-SUBMISSION-V1");
                              ("provider_id", PStr provider); ("rtt_id", PStr rtt)]).

(** [request_material], field by field; the hash is still missing. *)
Definition request_material env (attempt : RttAttemptRecord) (signed_utt : SignatureEnvelope)
    (rtt : string) : res ProviderExecutionRequest :=
  route ← sub_mapping (payload (signed_rtt attempt)) "route";
  provider ← str_item route "provider" ≫= require_text "provider";
  let provider := upper provider in
  key ← idempotency_key provider rtt;
  let utt := payload signed_utt in
  payer ← sub_mapping utt "payer" ≫= (λ m, sub_mapping m "endpoint");
  beneficiary ← sub_mapping utt "beneficiary" ≫= (λ m, sub_mapping m "endpoint");
  source ← str_item payer "institution_id";
  payer_binding ← str_item payer "account_binding_id";
  payer_reference ← resolve_endpoint (co_resolver env) source payer_binding;
  destination ← str_item beneficiary "institution_id";
  beneficiary_binding ← str_item beneficiary "account_binding_id";
  beneficiary_reference ← resolve_endpoint (co_resolver env) destination beneficiary_binding;
  adapter ← str_item route "adapter";
  rail ← str_item route "rail";
  amount ← int_item utt "amount_minor";
  from ← str_item utt "currency_from";
  received ← int_item utt "receive_amount_minor";
  to ← str_item utt "currency_to";
  mret {| pr_idempotency_key := key; pr_request_sha256 := EmptyString;
          pr_utt_id := rtt_utt_id attempt; pr_rtt_id := rtt;
          pr_attempt_number := attempt_number attempt; pr_provider_id := provider;
          pr_adapter_binding_ref := adapter; pr_rail := rail; pr_amount_minor := amount;
          pr_currency_from := from; pr_receive_amount_minor := received;
          pr_currency_to := to; pr_source_institution_id := source;
          pr_destination_institution_id := destination;
          pr_payer_account_reference := payer_reference;
          pr_beneficiary_account_reference := beneficiary_reference |}.

Definition request_fields (q : ProviderExecutionRequest) : mapping :=
  fields [("idempotency_key", PStr (pr_idempotency_key q)); ("utt_id", PStr (pr_utt_id q));
          ("rtt_id", PStr (pr_rtt_id q)); ("attempt_number", PInt (pr_attempt_number q));
          ("provider_id", PStr (pr_provider_id q));
          ("adapter_binding_ref", PStr (pr_adapter_binding_ref q));
          ("rail", PStr (pr_rail q)); ("amount_minor", PInt (pr_amount_minor q));
          ("currency_from", PStr (pr_currency_from q));
          ("receive_amount_minor", PInt (pr_receive_amount_minor q));
          ("currency_to", PStr (pr_currency_to q));
          ("source_institution_id", PStr (pr_source_institution_id q));
          ("destination_institution_id", PStr (pr_destination_institution_id q));
          ("payer_account_reference", PStr (pr_payer_account_reference q));
          ("beneficiary_account_reference", PStr (pr_beneficiary_account_reference q))].

(** The request: its material and the hash of it. *)
Definition with_hash (q : ProviderExecutionRequest) (hash : string)
    : ProviderExecutionRequest :=
  {| pr_idempotency_key := pr_idempotency_key q; pr_request_sha256 := hash;
     pr_utt_id := pr_utt_id q; pr_rtt_id := pr_rtt_id q;
     pr_attempt_number := pr_attempt_number q; pr_provider_id := pr_provider_id q;
     pr_adapter_binding_ref := pr_adapter_binding_ref q; pr_rail := pr_rail q;
     pr_amount_minor := pr_amount_minor q; pr_currency_from := pr_currency_from q;
     pr_receive_amount_minor := pr_receive_amount_minor q;
     pr_currency_to := pr_currency_to q;
     pr_source_institution_id := pr_source_institution_id q;
     pr_destination_institution_id := pr_destination_institution_id q;
     pr_payer_account_reference := pr_payer_account_reference q;
     pr_beneficiary_account_reference := pr_beneficiary_account_reference q |}.

Definition build_request env (rtt : string) : res ProviderExecutionRequest :=
  '(attempt, signed_utt) ← dispatchable_attempt env rtt;
  material ← request_material env attempt signed_utt rtt;
  b ← canonical_json_bytes (PDict (request_fields material));
  mret (with_hash material (sha256_hex b)).

(** The record and the event that [prepare] offers to the store. *)
Definition offer env (request : ProviderExecutionRequest) (at_ : instant)
    : res (ProviderSubmissionRecord * OutboxRecord) :=
  id ← content_id "SUB" (pdict [("rtt_id", PStr (pr_rtt_id request));
         ("request_sha256", PStr (pr_request_sha256 request))]);
  let record := prepared_record id (pr_idempotency_key request) (pr_request_sha256 request)
                  (pr_utt_id request) (pr_rtt_id request) (pr_provider_id request) at_ in
  e ← event env record "PROVIDER_SUBMISSION_PREPARED"
        (fields [("request_sha256", PStr (pr_request_sha256 request))]) at_;
  mret (record, e).

Definition prepare_at env (rtt : string) (at_ : instant)
    : M OperationsStore (ProviderSubmissionRecord * ProviderExecutionRequest) :=
  request ← lift (build_request env rtt);
  '(record, e) ← lift (offer env request at_);
  stored ← store_prepare record e;
  _ ← raise_if (negb (String.eqb (sub_request_sha256 stored) (pr_request_sha256 request)))
        RuntimeError "prepared provider request does not match stored record";
  mret (stored, request).

Definition prepare env (rtt : string) (at_ : option datetime) (clock : instant)
    : M OperationsStore (ProviderSubmissionRecord * ProviderExecutionRequest) :=
  now ← lift (operation_instant at_ clock);
  prepare_at env rtt now.

(** *** [_complete] *)
Definition completed_record (r : ProviderSubmissionRecord) (result : ProviderSubmissionResult)
    (at_ : instant) : res (ProviderSubmissionRecord * string * mapping) :=
  code ← require_text "provider result code" (out_code result);
  let code := upper code in
  context ← provider_context (out_context result);
  '(state, event_type) ← outcome_state result;
  mret (replace_submission r state (sub_dispatch_attempts r) (Some code)
          (out_external_reference result) (out_disposition result) context at_,
        event_type, outcome_data result code context).

Definition complete env (r : ProviderSubmissionRecord) (result : ProviderSubmissionResult)
    (at_ : instant) : M OperationsStore ProviderSubmissionRecord :=
  '(updated, event_type, data) ← lift (completed_record r result at_);
  e ← lift (event env updated event_type data at_);
  _ ← transition (sub_version r) updated e;
  mret updated.

(** *** [dispatch] *)
Inductive dispatch_decision :=
  | Settled (r : ProviderSubmissionRecord)
  | RecoveryBlocked (r : ProviderSubmissionRecord)
  | ReadyToCall (r : ProviderSubmissionRecord) (q : ProviderExecutionRequest).

Context {W : Type}.
Implicit Types (ad : ProviderAdapter W).

Definition decide_dispatch ad (r : ProviderSubmissionRecord) (q : ProviderExecutionRequest)
    : res dispatch_decision :=
  _ ← raise_if (negb (String.eqb (upper (ad_provider_id ad)) (sub_provider_id r)))
        SubmissionNotDispatchableError "adapter provider does not match RTT route";
  if final_state (sub_state r) then mret (Settled r)
  else if bool_decide (sub_state r = SUB_DISPATCHING) && negb (ad_supports_idempotency ad)
  then mret (RecoveryBlocked r)
  else mret (ReadyToCall r q).

Definition dispatch_read env ad (rtt : string) (at_ : instant)
    : M OperationsStore dispatch_decision :=
  '(record, request) ← prepare env rtt (Some (Aware at_)) at_;
  lift (decide_dispatch ad record request).

Definition dispatch_start env ad (r : ProviderSubmissionRecord) (at_ : instant)
    : M OperationsStore ProviderSubmissionRecord :=
  let dispatching := dispatching_record r at_ in
  e ← lift (event env dispatching "PROVIDER_DISPATCH_STARTED"
        (fields [("dispatch_attempt", PInt (sub_dispatch_attempts dispatching));
                 ("provider_idempotency_supported", PBool (ad_supports_idempotency ad))]) at_);
  _ ← transition (sub_version r) dispatching e;
  mret dispatching.

Definition dispatch env (rtt : string) ad (at_ : option datetime) (clock : instant)
    : M (OperationsStore * W) ProviderSubmissionRecord :=
  now ← lift (operation_instant at_ clock);
  decision ← on_fst (dispatch_read env ad rtt now);
  match decision with
  | Settled r => mret r
  | RecoveryBlocked r =>
      on_fst (complete env r (unknown_result "NON_IDEMPOTENT_RECOVERY_BLOCKED") now)
  | ReadyToCall r q =>
      dispatching ← on_fst (dispatch_start env ad r now);
      result ← on_snd (call_adapter ad q);
      on_fst (complete env dispatching result now)
  end.
End coordinator.
Arguments CoordinatorEnv : clear implicits.

(** ** [OutboxRelay] *)
(** [type(exc).__name__] *)
Definition exn_name (k : exn_kind) : string :=
  match k with
  | ValueError => "ValueError" | TypeError => "TypeError" | KeyError => "KeyError"
  | LookupError => "LookupError" | PermissionError => "PermissionError"
  | RuntimeError => "RuntimeError" | OverflowError => "OverflowError"
  | OSError => "OSError" | BinasciiError => "Error"
  | InvalidSignature => "InvalidSignature"
  | CanonicalizationError => "CanonicalizationError"
  | IdempotencyConflictError => "IdempotencyConflictError"
  | QuoteAlreadyAcceptedError => "QuoteAlreadyAcceptedError"
  | UttNotFoundError => "UttNotFoundError"
  | NoEligibleRouteError => "NoEligibleRouteError"
  | PlanNotExecutableError => "PlanNotExecutableError"
  | ExecutionPlanNotFoundError => "ExecutionPlanNotFoundError"
  | RttNotFoundError => "RttNotFoundError"
  | ConcurrentPlanUpdateError => "ConcurrentPlanUpdateError"
  | ExecutionPlanConflictError => "ExecutionPlanConflictError"
  | SubmissionNotFoundError => "SubmissionNotFoundError"
  | ConcurrentSubmissionUpdateError => "ConcurrentSubmissionUpdateError"
  | SubmissionNotDispatchableError => "SubmissionNotDispatchableError"
  | ProjectionEventConflictError => "ProjectionEventConflictError"
  | CallbackPayloadConflictError => "CallbackPayloadConflictError"
  | SettlementConflictError => "SettlementConflictError"
  | TransactionProjectionNotFoundError => "TransactionProjectionNotFoundError"
  | TransactionAccessDeniedError => "TransactionAccessDeniedError"
  | AccessTokenError => "AccessTokenError"
  | ApiRateLimitExceededError => "ApiRateLimitExceededError"
  | EnvelopeIntegrityError => "EnvelopeIntegrityError"
  | InvalidTag => "InvalidTag"
  | JSONDecodeError => "JSONDecodeError"
  | UnicodeDecodeError => "UnicodeDecodeError"
  | UnicodeEncodeError => "UnicodeEncodeError"
  | RecursionError => "RecursionError"
  | OtherException => "Exception"
  end.

Record OutboxRelay := {
  relay_worker_id : string;
  relay_lease_seconds : pyval;
  relay_max_attempts : pyval;
}.

Definition OutboxRelay_init (worker_id : string) (lease_seconds max_attempts : pyval)
    : res OutboxRelay :=
  worker ← require_text "worker_id" worker_id;
  mret {| relay_worker_id := worker; relay_lease_seconds := lease_seconds;
          relay_max_attempts := max_attempts |}.

(** [min(300, 2 ** min(event.delivery_attempts, 8))] *)
Definition delay_seconds (attempts : Z) : Z := Z.min 300 (2 ^ Z.min attempts 8).

Section relay.
Context {W : Type} (publish : string → mapping → M W unit) (relay : OutboxRelay).

Definition relay_event (now : instant) (e : OutboxRecord)
    : M (OperationsStore * W) OutboxRecord :=
  published ← on_snd (outcome (publish (ob_event_id e)
                                 (SignatureEnvelope_to_dict (ob_signed_event e))));
  match published with
  | Err exc =>
      available ← lift (plus_seconds now (delay_seconds (ob_delivery_attempts e)));
      on_fst (reschedule (ob_event_id e) (relay_worker_id relay) now available
                (exn_name (exn_class exc)) (relay_max_attempts relay))
  | Ok _ => on_fst (mark_published (ob_event_id e) (relay_worker_id relay) now)
  end.

Definition publish_batch (limit : pyval) (at_ : option datetime) (clock : instant)
    : M (OperationsStore * W) (list OutboxRecord) :=
  now ← lift (operation_instant at_ clock);
  claimed ← on_fst (claim_outbox (relay_worker_id relay) now (relay_lease_seconds relay) limit);
  mapM_ (relay_event now) claimed.
End relay.
