(* ===== verification/OutboxFacts.v ===== *)
(** The outbox as a protocol: the lifecycle of one event, the operations of
    the store as labelled steps, and what any sequence of them preserves. *)

From Stdlib Require Import Ascii String.
From S2P Require Import Prelude.
From S2P Require Import PyBase.
From S2P Require Import PyDict.
From S2P Require Import CanonicalJson.
From S2P Require Import OperationsStore.

Implicit Types (s : OperationsStore) (row : OutboxRecord).

(** ** One event *)

(** An event that no relay has seen. *)
Definition fresh_row row : Prop :=
  ob_delivery_state row = OB_PENDING ∧ ob_delivery_attempts row = 0 ∧
  ob_lease_owner row = None ∧ ob_lease_until row = None ∧ ob_published_at row = None.

(** A lease is held exactly while the event is in flight; the publication time
    is set exactly when it was published. *)
Definition delivery_ok row : Prop :=
  match ob_delivery_state row with
  | OB_IN_FLIGHT =>
      is_Some (ob_lease_owner row) ∧ is_Some (ob_lease_until row) ∧
      1 <= ob_delivery_attempts row
  | _ => ob_lease_owner row = None ∧ ob_lease_until row = None ∧
         0 <= ob_delivery_attempts row
  end ∧
  (is_Some (ob_published_at row) ↔ ob_delivery_state row = OB_PUBLISHED).

Lemma fresh_row_ok row : fresh_row row → delivery_ok row.
Proof.
  intros (Hs & Ha & Ho & Hu & Hp). unfold delivery_ok.
  rewrite Hs, Ha, Ho, Hu, Hp. split; [done|]. by split; [intros []|].
Qed.

(** The transitions of an event. *)
Inductive row_step : OutboxRecord → OutboxRecord → Prop :=
  | row_leased row worker at_ lease row' :
      claimable at_ row = true → 1 <= lease <= 300 →
      lease_row worker at_ lease row = Ok row' → row_step row row'
  | row_published row worker at_ :
      ob_delivery_state row = OB_IN_FLIGHT → ob_lease_owner row = Some worker →
      row_step row (published_row row at_)
  | row_rescheduled row worker at_ available error max :
      ob_delivery_state row = OB_IN_FLIGHT → ob_lease_owner row = Some worker →
      1 <= max <= 100 →
      row_step row (rescheduled_row row at_ available error max).

(** What no transition changes. *)
Definition row_content row :=
  (ob_event_id row, ob_aggregate_type row, ob_aggregate_id row, ob_event_type row,
   ob_signed_event row, ob_created_at row).

Definition settled row : Prop :=
  ob_delivery_state row = OB_PUBLISHED ∨ ob_delivery_state row = OB_DEAD_LETTER.

Lemma lease_row_ok worker at_ lease row row' :
  lease_row worker at_ lease row = Ok row' ↔
  ∃ until, plus_seconds at_ lease = Ok until ∧
    row' = replace_delivery row OB_IN_FLIGHT (ob_delivery_attempts row + 1)
             (ob_available_at row) (Some worker) (Some until) (ob_last_error row)
             (ob_published_at row) at_.
Proof.
  unfold lease_row. rewrite res_bind_ok. by setoid_rewrite res_ret_ok.
Qed.

Lemma lease_row_content worker at_ lease row row' :
  lease_row worker at_ lease row = Ok row' → row_content row' = row_content row.
Proof. intros (? & _ & ->)%lease_row_ok. done. Qed.

Lemma lease_row_id worker at_ lease row row' :
  lease_row worker at_ lease row = Ok row' → ob_event_id row' = ob_event_id row.
Proof. intros Hl%lease_row_content. by injection Hl. Qed.

Lemma claimable_state at_ row :
  claimable at_ row = true →
  ob_delivery_state row = OB_PENDING ∧ ob_available_at row <= at_ ∨
  ob_delivery_state row = OB_IN_FLIGHT ∧ ∃ u, ob_lease_until row = Some u ∧ u <= at_.
Proof.
  unfold claimable. destruct (ob_delivery_state row); try done.
  - intros ?%Z.leb_le. by left.
  - destruct (ob_lease_until row) as [u|]; [|done]. intros ?%Z.leb_le. eauto.
Qed.

Lemma row_step_content row row' : row_step row row' → row_content row' = row_content row.
Proof. intros []; [by eapply lease_row_content|done..]. Qed.

Lemma row_step_version row row' : row_step row row' → ob_version row' = ob_version row + 1.
Proof.
  intros []; [|done..].
  match goal with H : lease_row _ _ _ _ = Ok _ |- _ => apply lease_row_ok in H as (? & _ & ->) end.
  done.
Qed.

Lemma row_step_attempts row row' :
  row_step row row' → ob_delivery_attempts row <= ob_delivery_attempts row'.
Proof.
  intros []; cbn; [|lia..].
  match goal with H : lease_row _ _ _ _ = Ok _ |- _ => apply lease_row_ok in H as (? & _ & ->) end.
  cbn. lia.
Qed.

Lemma row_step_settled row row' : row_step row row' → settled row → False.
Proof.
  intros [??? ? ? Hc| |] [Hs|Hs];
    try (apply claimable_state in Hc as [[? _]|[? _]]); congruence.
Qed.

Lemma row_step_ok row row' : row_step row row' → delivery_ok row → delivery_ok row'.
Proof.
  intros Hstep [Hl Hp]. unfold delivery_ok.
  destruct Hstep as [row worker at_ lease row' Hc _ Hr|row worker at_ Hs _|row worker at_ av er mx Hs _ _].
  - apply lease_row_ok in Hr as (u & _ & ->). cbn.
    assert (0 <= ob_delivery_attempts row) by (destruct (ob_delivery_state row); intuition lia).
    repeat split; [by eexists..|lia| |done].
    intros Hst%Hp; destruct (claimable_state _ _ Hc) as [[? _]|[? _]]; congruence.
  - rewrite Hs in Hl. cbn in *. split; [|naive_solver]. intuition lia.
  - rewrite Hs in Hl, Hp. cbn in *.
    destruct (mx <=? ob_delivery_attempts row); (split; [intuition lia|naive_solver]).
Qed.

Lemma row_steps_facts row row' :
  rtc row_step row row' →
  row_content row' = row_content row ∧ ob_version row <= ob_version row' ∧
  ob_delivery_attempts row <= ob_delivery_attempts row' ∧
  (settled row → row' = row) ∧ (delivery_ok row → delivery_ok row').
Proof.
  induction 1 as [row|row row1 row2 Hstep _ (Hc & Hv & Ha & Hs & Hok)]; [by auto with lia|].
  pose proof (row_step_version _ _ Hstep). pose proof (row_step_attempts _ _ Hstep).
  split; [|split; [lia|split; [lia|split]]].
  - by rewrite Hc, (row_step_content _ _ Hstep).
  - intros Hset. by destruct (row_step_settled _ _ Hstep).
  - intros Hd. by apply Hok, (row_step_ok _ _ Hstep).
Qed.

(** ** The store's invariant *)
Record operations_wf s : Prop := {
  wf_submissions : dict_wf (submissions_by_rtt s);
  wf_outbox : dict_wf (outbox s);
  wf_sub_key k r : dget (submissions_by_rtt s) k = Some r → sub_rtt_id r = k;
  wf_row_key k row : dget (outbox s) k = Some row → ob_event_id row = k;
  wf_row_ok k row : dget (outbox s) k = Some row → delivery_ok row;
}.

Lemma no_operations_wf : operations_wf no_operations.
Proof. split; try apply dict_wf_empty; done. Qed.

(** The values of the outbox carry pairwise different identifiers. *)
Lemma outbox_ids s : operations_wf s → ob_event_id <$> dvalues (outbox s) = (outbox s).*1.
Proof.
  intros Hwf. pose proof (wf_row_key _ Hwf) as Hk. pose proof (wf_outbox _ Hwf) as Hd.
  assert (∀ k row, (k, row) ∈ outbox s → ob_event_id row = k) as Hin
    by (intros; by eapply Hk, elem_dget).
  clear Hk Hd. unfold dvalues. induction (outbox s) as [|[k row] d IH]; [done|].
  cbn. f_equal; [by apply Hin; constructor|].
  apply IH. intros. apply Hin. by constructor.
Qed.

Lemma elem_of_outbox s row :
  operations_wf s → row ∈ dvalues (outbox s) ↔ dget (outbox s) (ob_event_id row) = Some row.
Proof.
  intros Hwf. rewrite elem_of_dvalues by apply wf_outbox, Hwf. split; [|eauto].
  intros [k Hk]. by rewrite (wf_row_key _ Hwf _ _ Hk).
Qed.

(** Assigning a row whose identifier is the key. *)
Lemma put_outbox_wf row s :
  operations_wf s → delivery_ok row → operations_wf (put_outbox row s).
Proof.
  intros [] Hok. split; cbn; auto with railone;
    intros k row'; rewrite dget_dset_Some; naive_solver.
Qed.

Lemma put_submission_wf r s : operations_wf s → operations_wf (put_submission r s).
Proof.
  intros []. split; cbn; auto with railone;
    intros k r'; rewrite dget_dset_Some; naive_solver.
Qed.

(** ** Claims *)
Definition put_all (rows : list OutboxRecord) s : OperationsStore :=
  foldl (λ s row, put_outbox row s) s rows.

Lemma put_all_submissions rows s :
  submissions_by_rtt (put_all rows s) = submissions_by_rtt s ∧
  rtt_by_idempotency (put_all rows s) = rtt_by_idempotency s.
Proof. revert s. induction rows as [|r rows IH]; intros s; [done|]. apply (IH (put_outbox r s)). Qed.

Lemma put_all_wf rows s :
  operations_wf s → Forall delivery_ok rows → operations_wf (put_all rows s).
Proof.
  intros Hwf Hr. revert s Hwf. induction Hr as [|r rows Hr _ IH]; intros s Hwf; [done|].
  by apply IH, put_outbox_wf.
Qed.

Lemma put_all_get rows s k row :
  NoDup (ob_event_id <$> rows) →
  dget (outbox (put_all rows s)) k = Some row ↔
  (row ∈ rows ∧ ob_event_id row = k) ∨
  (k ∉ ob_event_id <$> rows ∧ dget (outbox s) k = Some row).
Proof.
  revert s. induction rows as [|r rows IH]; intros s; [cbn; set_solver|].
  cbn [fmap list_fmap]. intros [Hr Hnd]%NoDup_cons.
  change (put_all (r :: rows) s) with (put_all rows (put_outbox r s)).
  rewrite IH by done. cbn [outbox put_outbox]. rewrite dget_dset_Some.
  change (list_fmap _ _ ob_event_id rows) with (ob_event_id <$> rows).
  split.
  - intros [[? ?]|[Hk [[? ?]|[? ?]]]]; subst; [by left; set_solver|left; set_solver|].
    right. split; [|done]. set_solver.
  - intros [[[->|?]%elem_of_cons ?]|[Hk ?]]; subst; [|by left|].
    + right. split; [done|]. by left.
    + right. split; [set_solver|]. right. set_solver.
Qed.

(** A claim either fails before its first assignment or leases every selected
    row: all of them get the same lease. *)
Lemma claim_rows_ok worker at_ lease rows s us s' :
  mapM_ (claim_row worker at_ lease) rows s = (Ok us, s') →
  Forall2 (λ row u, lease_row worker at_ lease row = Ok u) rows us ∧ s' = put_all us s.
Proof.
  revert s us s'. induction rows as [|row rows IH]; intros s us s' Hm; cbn in Hm; inv_ok Hm.
  - by split; [constructor|].
  - match goal with H : claim_row _ _ _ _ _ = _ |- _ => unfold claim_row in H; inv_ok H end.
    match goal with H : mapM_ _ _ _ = _ |- _ => apply IH in H as [? ->] end.
    split; [by constructor|done].
Qed.

Lemma claim_row_ok worker at_ lease row row' s :
  lease_row worker at_ lease row = Ok row' →
  claim_row worker at_ lease row s = (Ok row', put_outbox row' s).
Proof. intros Hl. unfold claim_row. by rewrite Hl. Qed.

Lemma claim_row_err worker at_ lease row e s :
  plus_seconds at_ lease = Err e → claim_row worker at_ lease row s = (Err e, s).
Proof. intros Hp. unfold claim_row, lease_row. by rewrite Hp. Qed.

Lemma claim_rows_run worker at_ lease u rows s :
  plus_seconds at_ lease = Ok u →
  ∃ us, mapM_ (claim_row worker at_ lease) rows s = (Ok us, put_all us s).
Proof.
  intros Hu. revert s. induction rows as [|row rows IH]; intros s; [by exists []|].
  destruct (lease_row worker at_ lease row) as [row'|e] eqn:Hl.
  - destruct (IH (put_outbox row' s)) as [us Hus]. exists (row' :: us). cbn.
    erewrite run_bind_eq by by apply claim_row_ok. by erewrite run_bind_eq by done.
  - unfold lease_row in Hl. rewrite Hu in Hl. discriminate Hl.
Qed.

Lemma claim_rows_err worker at_ lease rows s e s' :
  mapM_ (claim_row worker at_ lease) rows s = (Err e, s') → s' = s.
Proof.
  destruct (plus_seconds at_ lease) as [u|x] eqn:Hp.
  - destruct (claim_rows_run worker at_ lease u rows s Hp) as [us ->]. done.
  - destruct rows as [|row rows]; [done|]. cbn.
    erewrite run_bind_err by by apply claim_row_err. by intros [= _ ->].
Qed.

Lemma bounded_int_ok lo hi msg v n :
  bounded_int lo hi msg v = Ok n ↔ v = PInt n ∧ lo <= n <= hi.
Proof.
  destruct v; cbn; rewrite ?res_raise_ok; try naive_solver.
  rewrite res_bind_ok. setoid_rewrite res_raise_if_ok. setoid_rewrite res_ret_ok. split.
  - intros (? & Hc & ->). guards. auto.
  - intros [[= ->] ?]. exists tt. split; [|done]. lia.
Qed.

Lemma claim_outbox_ok worker at_ lease limit s us s' :
  claim_outbox worker at_ lease limit s = (Ok us, s') →
  ∃ l n, lease = PInt l ∧ 1 <= l <= 300 ∧ limit = PInt n ∧ 1 <= n <= 1000 ∧
    Forall2 (λ row u, lease_row worker at_ l row = Ok u) (claim_selection at_ n s) us ∧
    s' = put_all us s.
Proof.
  unfold claim_outbox. intros Hc. inv_ok Hc.
  repeat match goal with H : bounded_int _ _ _ _ = Ok _ |- _ => apply bounded_int_ok in H as [-> ?] end.
  apply claim_rows_ok in Hc as [? ->]. eauto 10.
Qed.

Lemma claim_outbox_err worker at_ lease limit s e s' :
  claim_outbox worker at_ lease limit s = (Err e, s') → s' = s.
Proof.
  unfold claim_outbox. intros Hc. run_paths. by eapply claim_rows_err.
Qed.

Lemma claim_selection_elem at_ n s row :
  operations_wf s → row ∈ claim_selection at_ n s →
  claimable at_ row = true ∧ dget (outbox s) (ob_event_id row) = Some row.
Proof.
  intros Hwf (i & Hi%list_elem_of_lookup_2 & _)%elem_of_take.
  unfold delivery_order in Hi. rewrite elem_of_sort_on in Hi.
  apply list_elem_of_filter in Hi as [? Hin]. by rewrite elem_of_outbox in Hin by done.
Qed.

Lemma claim_selection_ids at_ n s :
  operations_wf s → NoDup (ob_event_id <$> claim_selection at_ n s).
Proof.
  intros Hwf. unfold claim_selection. rewrite fmap_take.
  eapply sublist_NoDup; [|apply sublist_take].
  unfold delivery_order. rewrite sort_on_perm.
  eapply sublist_NoDup; [|apply fmap_sublist, sublist_filter].
  rewrite outbox_ids by done. apply Hwf.
Qed.

Lemma leased_ids worker at_ l rows us :
  Forall2 (λ row u, lease_row worker at_ l row = Ok u) rows us →
  ob_event_id <$> us = ob_event_id <$> rows.
Proof.
  induction 1 as [|row u rows us Hl _ IH]; [done|].
  cbn. f_equal; [by eapply lease_row_id|exact IH].
Qed.

(** What a successful claim does to each event. *)
Lemma claim_get worker at_ lease limit s us s' k row' :
  operations_wf s → claim_outbox worker at_ lease limit s = (Ok us, s') →
  dget (outbox s') k = Some row' ↔
  (row' ∈ us ∧ ob_event_id row' = k) ∨
  (k ∉ ob_event_id <$> us ∧ dget (outbox s) k = Some row').
Proof.
  intros Hwf (l & n & -> & _ & -> & _ & Hus & ->)%claim_outbox_ok.
  apply put_all_get. rewrite (leased_ids _ _ _ _ _ Hus). by apply claim_selection_ids.
Qed.

(** Where each claimed event comes from. *)
Lemma claimed_from worker at_ l n s us u :
  operations_wf s →
  Forall2 (λ row u, lease_row worker at_ l row = Ok u) (claim_selection at_ n s) us →
  u ∈ us →
  ∃ row, row ∈ claim_selection at_ n s ∧ claimable at_ row = true ∧
    dget (outbox s) (ob_event_id u) = Some row ∧ lease_row worker at_ l row = Ok u.
Proof.
  intros Hwf Hus [i Hi]%list_elem_of_lookup.
  destruct (Forall2_lookup_r _ _ _ _ _ Hus Hi) as (row & Hrow & Hl).
  apply list_elem_of_lookup_2 in Hrow.
  destruct (claim_selection_elem _ _ _ _ Hwf Hrow) as [Hc Hg].
  exists row. by rewrite (lease_row_id _ _ _ _ _ Hl).
Qed.

(** ** The operations as labelled steps *)
Inductive store_op :=
  | OpPrepare (r : ProviderSubmissionRecord) row
  | OpTransition (version : Z) (r : ProviderSubmissionRecord) row
  | OpClaim (worker : string) (at_ : instant) (lease limit : pyval)
  | OpPublished (event_id worker : string) (at_ : instant)
  | OpReschedule (event_id worker : string) (at_ available : instant) (error : string)
      (max_attempts : pyval).

(** The store after an operation, whether it returned or raised. *)
Definition apply_op (o : store_op) s : OperationsStore :=
  match o with
  | OpPrepare r row => (store_prepare r row s).2
  | OpTransition v r row => (transition v r row s).2
  | OpClaim w at_ lease limit => (claim_outbox w at_ lease limit s).2
  | OpPublished id w at_ => (mark_published id w at_ s).2
  | OpReschedule id w at_ av err mx => (reschedule id w at_ av err mx s).2
  end.

Definition run_ops (ops : list store_op) s : OperationsStore :=
  foldl (λ s o, apply_op o s) s ops.

(** The events that the operations enqueue are new. *)
Definition enqueues_fresh (o : store_op) : Prop :=
  match o with
  | OpPrepare _ row | OpTransition _ _ row => fresh_row row
  | _ => True
  end.

Lemma require_owned_ok s id worker row :
  require_owned_event s id worker = Ok row ↔
  dget (outbox s) id = Some row ∧ ob_delivery_state row = OB_IN_FLIGHT ∧
  ob_lease_owner row = Some worker.
Proof.
  unfold require_owned_event. split.
  - intros Hr. inv_ok Hr. guards. guards. auto.
  - intros (Hg & Hs & Ho). rewrite Hg. cbn. rewrite Hs, Ho. by rewrite !bool_decide_eq_true_2.
Qed.

Lemma mark_published_cases id worker at_ s r s' :
  mark_published id worker at_ s = (r, s') →
  (∃ e, r = Err e ∧ s' = s) ∨
  ∃ row, require_owned_event s id worker = Ok row ∧ r = Ok (published_row row at_) ∧
    s' = assign_outbox id (published_row row at_) s.
Proof.
  unfold mark_published. intros Hm. run_paths; eauto 10.
Qed.

Lemma reschedule_cases id worker at_ available error mx s r s' :
  reschedule id worker at_ available error mx s = (r, s') →
  (∃ e, r = Err e ∧ s' = s) ∨
  ∃ row m, require_owned_event s id worker = Ok row ∧ mx = PInt m ∧ 1 <= m <= 100 ∧
    blank error = false ∧
    r = Ok (rescheduled_row row at_ available error m) ∧
    s' = assign_outbox id (rescheduled_row row at_ available error m) s.
Proof.
  unfold reschedule. intros Hm.
  destruct (bounded_int 1 100 _ mx) as [m|] eqn:Hb; [apply bounded_int_ok in Hb as [-> Hb]|];
    run_paths; eauto 10.
Qed.

(** The settling operations when the lease test is known. *)
Lemma mark_published_run id worker at_ s r :
  require_owned_event s id worker = r →
  mark_published id worker at_ s =
  match r with
  | Ok row => (Ok (published_row row at_), assign_outbox id (published_row row at_) s)
  | Err e => (Err e, s)
  end.
Proof.
  intros Ho. unfold mark_published, lift, mbind, M_bind, getS. lazy beta iota.
  rewrite Ho. by destruct r.
Qed.

Lemma reschedule_run id worker at_ available error m s r :
  blank error = false → 1 <= m <= 100 → require_owned_event s id worker = r →
  reschedule id worker at_ available error (PInt m) s =
  match r with
  | Ok row => (Ok (rescheduled_row row at_ available error m),
               assign_outbox id (rescheduled_row row at_ available error m) s)
  | Err e => (Err e, s)
  end.
Proof.
  intros He Hm Ho. unfold reschedule, lift, mbind, M_bind, getS. rewrite He.
  lazy beta iota delta [raise_if mret M_ret].
  rewrite (proj2 (bounded_int_ok 1 100 _ (PInt m) m)) by done. rewrite Ho. by destruct r.
Qed.

Lemma store_prepare_cases r row s x s' :
  store_prepare r row s = (x, s') →
  (∃ e, x = Err e ∧ s' = s) ∨
  (∃ r0, x = Ok r0 ∧ s' = s ∧ dget (submissions_by_rtt s) (sub_rtt_id r) = Some r0 ∧
     sub_request_sha256 r0 = sub_request_sha256 r ∧
     sub_idempotency_key r0 = sub_idempotency_key r) ∨
  (x = Ok r ∧ dget (submissions_by_rtt s) (sub_rtt_id r) = None ∧
   dget (rtt_by_idempotency s) (sub_idempotency_key r) = None ∧
   dget (outbox s) (ob_event_id row) = None ∧
   s' = Operations (dset (submissions_by_rtt s) (sub_rtt_id r) r)
          (dset (rtt_by_idempotency s) (sub_idempotency_key r) (sub_rtt_id r))
          (dset (outbox s) (ob_event_id row) row)).
Proof.
  unfold store_prepare, dmem. intros Hp. run_paths; guards; subst; eauto 12.
Qed.

Lemma transition_cases v r row s x s' :
  transition v r row s = (x, s') →
  (∃ e, x = Err e ∧ s' = s) ∨
  (∃ r0, x = Ok tt ∧ dget (submissions_by_rtt s) (sub_rtt_id r) = Some r0 ∧
     sub_version r0 = v ∧ sub_version r = v + 1 ∧
     dget (outbox s) (ob_event_id row) = None ∧
     s' = put_outbox row (put_submission r s)).
Proof.
  unfold transition, dmem, require_submission. intros Ht. run_paths; guards; eauto 10.
  match goal with H : res_ret _ _ = Ok _ |- _ => injection H as -> end. eauto 10.
Qed.

(** A step as it acts on each event: nothing, or one transition of it. *)
Definition evolves s s' : Prop :=
  operations_wf s' ∧
  ∀ k row, dget (outbox s) k = Some row →
    ∃ row', dget (outbox s') k = Some row' ∧ rtc row_step row row'.

Lemma evolves_refl s : operations_wf s → evolves s s.
Proof. intros Hwf. split; [done|]. intros k row Hk. by exists row. Qed.

Lemma evolves_trans s s1 s2 : evolves s s1 → evolves s1 s2 → evolves s s2.
Proof.
  intros [_ H1] [Hwf H2]. split; [done|]. intros k row Hk.
  destruct (H1 _ _ Hk) as (row1 & Hk1 & ?). destruct (H2 _ _ Hk1) as (row2 & ? & ?).
  exists row2. split; [done|]. by etrans.
Qed.

(** A new event leaves the others alone. *)
Lemma evolves_enqueue s row :
  operations_wf s → delivery_ok row → dget (outbox s) (ob_event_id row) = None →
  evolves s (put_outbox row s).
Proof.
  intros Hwf Hok Hn. split; [by apply put_outbox_wf|]. intros k row' Hk.
  exists row'. split; [|done]. cbn. rewrite dget_dset_ne; congruence.
Qed.

(** One transition of one event. *)
Lemma evolves_assign s k row row' :
  operations_wf s → dget (outbox s) k = Some row → row_step row row' →
  evolves s (assign_outbox k row' s).
Proof.
  intros Hwf Hk Hstep.
  pose proof (wf_row_key _ Hwf _ _ Hk) as Hid. pose proof (row_step_content _ _ Hstep) as Hc.
  assert (ob_event_id row' = k) as Hid' by (injection Hc; congruence).
  split.
  - change (assign_outbox k row' s) with (Operations (submissions_by_rtt s)
      (rtt_by_idempotency s) (dset (outbox s) k row')). rewrite <- Hid'.
    apply put_outbox_wf; [done|]. eapply row_step_ok; [done|]. by eapply wf_row_ok.
  - intros j row0 Hj. destruct (decide (j = k)) as [->|Hne].
    + exists row'. cbn. rewrite dget_dset_eq. split; [done|]. simplify_eq. by apply rtc_once.
    + exists row0. cbn. by rewrite dget_dset_ne.
Qed.

Lemma evolves_claim worker at_ lease limit s us s' :
  operations_wf s → claim_outbox worker at_ lease limit s = (Ok us, s') → evolves s s'.
Proof.
  intros Hwf Hrun.
  assert (Hget := λ k row', claim_get _ _ _ _ _ _ _ k row' Hwf Hrun).
  destruct (claim_outbox_ok _ _ _ _ _ _ _ Hrun) as (l & n & -> & Hl & -> & Hn & Hus & Hs').
  assert (∀ u, u ∈ us → ∃ row, dget (outbox s) (ob_event_id u) = Some row ∧ row_step row u) as Hfrom.
  { intros u Hu. destruct (claimed_from _ _ _ _ _ _ _ Hwf Hus Hu) as (row & _ & Hc & Hg & Hr).
    exists row. split; [done|]. by econstructor. }
  split.
  - subst s'. apply put_all_wf; [done|]. apply Forall_forall. intros u Hu.
    destruct (Hfrom u Hu) as (row & Hg & Hstep).
    eapply row_step_ok; [done|]. by eapply wf_row_ok.
  - intros k row Hk. destruct (decide (k ∈ ob_event_id <$> us)) as [Hin|Hin].
    + apply list_elem_of_fmap in Hin as (u & -> & Hu).
      destruct (Hfrom u Hu) as (row0 & Hg & Hstep). simplify_eq.
      exists u. split; [|by apply rtc_once].
      eapply Hget; eauto.
    + exists row. split; [|done]. eapply Hget; eauto.
Qed.

Lemma evolves_submissions s subs idem :
  operations_wf s → operations_wf (Operations subs idem (outbox s)) →
  evolves s (Operations subs idem (outbox s)).
Proof. intros _ Hwf. split; [done|]. intros k row Hk. by exists row. Qed.

Lemma put_new_submission_wf r idem s :
  operations_wf s →
  operations_wf (Operations (dset (submissions_by_rtt s) (sub_rtt_id r) r) idem (outbox s)).
Proof. intros Hwf. by destruct (put_submission_wf r s Hwf). Qed.

Lemma evolves_prepare r row s x s' :
  operations_wf s → delivery_ok row → store_prepare r row s = (x, s') → evolves s s'.
Proof.
  intros Hwf Hok [(? & _ & ->)|[(? & _ & -> & _)|(-> & Hs & Hi & Ho & ->)]]%store_prepare_cases;
    [by apply evolves_refl..|].
  pose proof (put_new_submission_wf r
    (dset (rtt_by_idempotency s) (sub_idempotency_key r) (sub_rtt_id r)) s Hwf) as Hwf'.
  eapply evolves_trans; [by apply (evolves_submissions s)|].
  by apply (evolves_enqueue _ row) in Hwf'.
Qed.

Lemma evolves_transition v r row s x s' :
  operations_wf s → delivery_ok row → transition v r row s = (x, s') → evolves s s'.
Proof.
  intros Hwf Hok [(? & _ & ->)|(r0 & -> & _ & _ & _ & Ho & ->)]%transition_cases;
    [by apply evolves_refl|].
  pose proof (put_new_submission_wf r (rtt_by_idempotency s) s Hwf) as Hwf'.
  eapply evolves_trans; [by apply (evolves_submissions s)|].
  by apply (evolves_enqueue _ row) in Hwf'.
Qed.

Lemma evolves_op o s :
  operations_wf s → enqueues_fresh o → evolves s (apply_op o s).
Proof.
  intros Hwf Hf. destruct o as [r row|v r row|w at_ l n|id w at_|id w at_ av er mx]; cbn in Hf |- *.
  - apply (evolves_prepare r row s (store_prepare r row s).1); [done|by apply fresh_row_ok|by destruct store_prepare].
  - apply (evolves_transition v r row s (transition v r row s).1); [done|by apply fresh_row_ok|by destruct transition].
  - destruct (claim_outbox w at_ l n s) as [[us|e] s'] eqn:Hc; cbn.
    + by eapply evolves_claim.
    + apply claim_outbox_err in Hc as ->. by apply evolves_refl.
  - destruct (mark_published id w at_ s) as [x s'] eqn:Hm; cbn.
    apply mark_published_cases in Hm as [(? & _ & ->)|(row & Hr & _ & ->)]; [by apply evolves_refl|].
    apply require_owned_ok in Hr as (Hg & Hs & Ho).
    eapply evolves_assign; [done..|by econstructor].
  - destruct (reschedule id w at_ av er mx s) as [x s'] eqn:Hm; cbn.
    apply reschedule_cases in Hm as [(? & _ & ->)|(row & m & Hr & _ & Hb & _ & _ & ->)];
      [by apply evolves_refl|].
    apply require_owned_ok in Hr as (Hg & Hs & Ho).
    eapply evolves_assign; [done..|by econstructor].
Qed.

Lemma evolves_ops ops s :
  operations_wf s → Forall enqueues_fresh ops → evolves s (run_ops ops s).
Proof.
  intros Hwf Hf. revert s Hwf. induction Hf as [|o ops Ho _ IH]; intros s Hwf; [by apply evolves_refl|].
  pose proof (evolves_op o s Hwf Ho) as Hstep.
  eapply evolves_trans; [exact Hstep|]. apply IH, Hstep.
Qed.
