(* ===== verification/OutboxClaims.v ===== *)
(** What the outbox promises: the lifecycle of events, which events a claim
    takes, the exclusivity of leases, and the relay's at-least-once delivery
    with its bounded back-off. *)

From Stdlib Require Import Ascii String.
From S2P Require Import Prelude.
From S2P Require Import PyBase.
From S2P Require Import PyDict.
From S2P Require Import CanonicalJson.
From S2P Require Import Signatures.
From S2P Require Import OperationsStore.
From S2P Require Import Operations.
From S2P Require Import OutboxFacts.

Implicit Types (s : OperationsStore) (row : OutboxRecord).

(** ** Lemmas *)
Lemma run_ops_app ops ops' s : run_ops (ops ++ ops') s = run_ops ops' (run_ops ops s).
Proof. apply foldl_app. Qed.

Lemma run_ops_wf ops : Forall enqueues_fresh ops → operations_wf (run_ops ops no_operations).
Proof. intros Hf. eapply evolves_ops; [apply no_operations_wf|done]. Qed.

Lemma leased_sorted worker at_ l rows us :
  Forall2 (λ row u, lease_row worker at_ l row = Ok u) rows us →
  delivery_key <$> us = delivery_key <$> rows.
Proof.
  induction 1 as [|row u rows us Hl _ IH]; [done|].
  cbn. f_equal; [|exact IH]. apply lease_row_ok in Hl as (? & _ & ->). done.
Qed.

(** The order of a list with the keys of a sorted list. *)
Lemma sorted_by_keys {A B} (f : A → B) (R : B → B → Prop) l l' :
  f <$> l' = f <$> l → StronglySorted (on_key f R) l → StronglySorted (on_key f R) l'.
Proof.
  revert l'. induction l as [|x l IH]; intros [|y l'] Hf; try discriminate Hf; [constructor|].
  injection Hf as Hy Hf. intros [Hs Hx]%StronglySorted_inv.
  constructor; [by apply IH|]. rewrite Forall_forall in Hx |- *.
  intros z Hz. unfold on_key. rewrite Hy.
  assert (f z ∈ f <$> l) as (w & Hw & Hin)%list_elem_of_fmap
    by (change (f z ∈ list_fmap _ _ f l); rewrite <- Hf; by apply list_elem_of_fmap_2).
  rewrite Hw. by apply Hx.
Qed.

Section selection.
Context (at_ : instant) (n : Z) (s : OperationsStore).
Let due := filter (λ row, claimable at_ row = true) (dvalues (outbox s)).

Lemma selection_sorted :
  StronglySorted (on_key delivery_key (lex_le Z.le)) (claim_selection at_ n s).
Proof.
  unfold claim_selection. fold due.
  pose proof (sort_on_sorted delivery_key (lex_le Z.le) due) as Hs.
  unfold delivery_order. rewrite <- (take_drop (Z.to_nat n) (sort_on _ _ due)) in Hs.
  by apply StronglySorted_app_1_l in Hs.
Qed.

Lemma selection_first row u :
  operations_wf s → claimable at_ row = true → dget (outbox s) (ob_event_id row) = Some row →
  row ∉ claim_selection at_ n s → u ∈ claim_selection at_ n s →
  lex_le Z.le (delivery_key u) (delivery_key row).
Proof.
  intros Hwf Hc Hg Hnot Hin. unfold claim_selection in *. fold due in Hnot, Hin.
  pose proof (sort_on_sorted delivery_key (lex_le Z.le) due) as Hs.
  unfold delivery_order in *.
  assert (row ∈ sort_on delivery_key (lex_le Z.le) due) as Hrow.
  { rewrite elem_of_sort_on. apply list_elem_of_filter. split; [done|].
    by apply elem_of_outbox. }
  rewrite <- (take_drop (Z.to_nat n) (sort_on _ _ due)) in Hs, Hrow.
  apply elem_of_app in Hrow as [?|Hrow]; [done|].
  by eapply (StronglySorted_app_1_elem_of _ _ _ u row) in Hs.
Qed.

Lemma selection_length :
  length (claim_selection at_ n s) = Nat.min (Z.to_nat n) (length due).
Proof. unfold claim_selection, delivery_order. by rewrite length_take, sort_on_length. Qed.
End selection.

(** ** Lifecycle and claims *)
(** C28: the lifecycle of an outbox event.  After any sequence of store
    operations that enqueue new events, every event is stored under its own
    identifier, holds a lease exactly while it is in flight, and carries a
    publication time exactly when published; whatever operations follow keep
    the event and its signed content, only move it along the delivery
    transitions with its version and attempt counter growing, and never touch
    it again once it is published or dead-lettered. *)
Theorem outbox_lifecycle ops ops' k row :
  Forall enqueues_fresh (ops ++ ops') →
  dget (outbox (run_ops ops no_operations)) k = Some row →
  ob_event_id row = k ∧ delivery_ok row ∧
  ∃ row', dget (outbox (run_ops (ops ++ ops') no_operations)) k = Some row' ∧
    rtc row_step row row' ∧ row_content row' = row_content row ∧ delivery_ok row' ∧
    ob_version row <= ob_version row' ∧
    ob_delivery_attempts row <= ob_delivery_attempts row' ∧
    (settled row → row' = row).
Proof.
  intros [Hf Hf']%Forall_app Hk. pose proof (run_ops_wf ops Hf) as Hwf.
  destruct (evolves_ops ops' _ Hwf Hf') as [_ Hev].
  destruct (Hev _ _ Hk) as (row' & Hk' & Hsteps). pose proof (wf_row_ok _ Hwf _ _ Hk) as Hok.
  destruct (row_steps_facts _ _ Hsteps) as (Hc & Hv & Ha & Hset & Hd).
  split; [by eapply wf_row_key|]. split; [done|].
  exists row'. rewrite run_ops_app. auto 10.
Qed.

(** Which events a claim takes.  On a store that operations built, a claim
    that returns was called with a lease of 1 to 300 seconds and a limit of 1
    to 1000; it returns as many events as the limit and the number of
    claimable ones allow, in the order of their due time and identifier; each
    is a claimable event, now leased to the worker with one more delivery
    attempt; every claimable event that it leaves is due no earlier than each
    that it took, and no other event changes. *)
Theorem claim_takes_due_first ops worker at_ lease limit us s' :
  Forall enqueues_fresh ops →
  let s := run_ops ops no_operations in
  claim_outbox worker at_ lease limit s = (Ok us, s') →
  ∃ l n, lease = PInt l ∧ 1 <= l <= 300 ∧ limit = PInt n ∧ 1 <= n <= 1000 ∧
    length us = Nat.min (Z.to_nat n)
      (length (filter (λ row, claimable at_ row = true) (dvalues (outbox s)))) ∧
    StronglySorted (on_key delivery_key (lex_le Z.le)) us ∧
    (∀ u, u ∈ us → ∃ row, dget (outbox s) (ob_event_id u) = Some row ∧
       claimable at_ row = true ∧
       u = replace_delivery row OB_IN_FLIGHT (ob_delivery_attempts row + 1)
             (ob_available_at row) (Some worker) (Some (at_ + seconds l))
             (ob_last_error row) (ob_published_at row) at_ ∧
       dget (outbox s') (ob_event_id u) = Some u) ∧
    (∀ k row, dget (outbox s) k = Some row → k ∉ ob_event_id <$> us →
       dget (outbox s') k = Some row ∧
       (claimable at_ row = true →
        ∀ u, u ∈ us → lex_le Z.le (delivery_key u) (delivery_key row))).
Proof.
  intros Hf s Hrun. pose proof (run_ops_wf ops Hf) as Hwf. fold s in Hwf.
  assert (Hget := λ k row', claim_get _ _ _ _ _ _ _ k row' Hwf Hrun).
  destruct (claim_outbox_ok _ _ _ _ _ _ _ Hrun) as (l & n & -> & Hl & -> & Hn & Hus & _).
  exists l, n. do 4 (split; [done|]).
  split; [by rewrite <- (Forall2_length _ _ _ Hus), selection_length|].
  split; [eapply sorted_by_keys; [by eapply leased_sorted|apply selection_sorted]|].
  split.
  - intros u Hu. destruct (claimed_from _ _ _ _ _ _ _ Hwf Hus Hu) as (row & _ & Hc & Hg & Hlr).
    exists row. split; [done|]. split; [done|].
    apply lease_row_ok in Hlr as (until & [-> _]%plus_seconds_ok & ->).
    split; [done|]. apply Hget. by left.
  - intros k row Hk Hnot. split; [apply Hget; by right|]. intros Hc u Hu.
    pose proof (wf_row_key _ Hwf _ _ Hk) as Hid. subst k.
    destruct (claimed_from _ _ _ _ _ _ _ Hwf Hus Hu) as (row0 & Hin & _ & _ & Hlr).
    apply lease_row_ok in Hlr as (until & _ & ->).
    change (lex_le Z.le (delivery_key row0) (delivery_key row)).
    eapply selection_first; [done..| |done].
    intros Hsel. apply Hnot. rewrite (leased_ids _ _ _ _ _ Hus).
    by apply list_elem_of_fmap_2.
Qed.

(** ** Leases *)

(** The operation neither claims once the lease has run out nor settles the
    event as the lease holder. *)
Definition respects_lease (id worker : string) (until : instant) (o : store_op) : Prop :=
  match o with
  | OpClaim _ at_ _ _ => at_ < until
  | OpPublished id' worker' _ | OpReschedule id' worker' _ _ _ _ =>
      id' ≠ id ∨ worker' ≠ worker
  | _ => True
  end.

Definition leased_to row (worker : string) (until : instant) : Prop :=
  ob_delivery_state row = OB_IN_FLIGHT ∧ ob_lease_owner row = Some worker ∧
  ob_lease_until row = Some until.

Lemma leased_not_claimable row worker until at_ :
  leased_to row worker until → at_ < until → claimable at_ row = false.
Proof.
  intros (Hs & _ & Hu) Hlt. unfold claimable. rewrite Hs, Hu. by apply Z.leb_gt.
Qed.

Lemma leased_not_owned s id row worker until other :
  dget (outbox s) id = Some row → leased_to row worker until → other ≠ worker →
  require_owned_event s id other =
  Err (Exn PermissionError "worker does not own the outbox lease").
Proof.
  intros Hg (Hs & Ho & _) Hne. unfold require_owned_event. rewrite Hg. cbn.
  rewrite Hs, Ho, (bool_decide_eq_false_2 (Some worker = Some other)) by congruence. done.
Qed.

Lemma claim_keeps_leased s id row worker until w at_ l n us s' :
  operations_wf s → dget (outbox s) id = Some row → leased_to row worker until →
  at_ < until → claim_outbox w at_ l n s = (Ok us, s') →
  id ∉ ob_event_id <$> us ∧ dget (outbox s') id = Some row.
Proof.
  intros Hwf Hg Hl Hlt Hrun.
  assert (id ∉ ob_event_id <$> us) as Hnot.
  { intros (u & -> & Hu)%list_elem_of_fmap.
    destruct (claim_outbox_ok _ _ _ _ _ _ _ Hrun) as (? & ? & _ & _ & _ & _ & Hus & _).
    destruct (claimed_from _ _ _ _ _ _ _ Hwf Hus Hu) as (row0 & _ & Hc & Hg0 & _).
    simplify_eq. by rewrite (leased_not_claimable _ _ _ _ Hl Hlt) in Hc. }
  split; [done|]. apply (claim_get _ _ _ _ _ _ _ id row Hwf Hrun). by right.
Qed.

Lemma op_keeps_leased o s id row worker until :
  operations_wf s → dget (outbox s) id = Some row → leased_to row worker until →
  respects_lease id worker until o → dget (outbox (apply_op o s)) id = Some row.
Proof.
  intros Hwf Hg Hl Hr.
  assert (∀ id' w' r0 r1, (id' ≠ id ∨ w' ≠ worker) → require_owned_event s id' w' = Ok r0 →
    dget (outbox (assign_outbox id' r1 s)) id = Some row) as Hassign.
  { intros id' w' r0 r1 Hor (Hg' & _ & Ho)%require_owned_ok. cbn. rewrite dget_dset_ne; [done|].
    intros ->. simplify_eq. destruct Hl as (_ & Ho' & _). destruct Hor; congruence. }
  destruct o as [r row'|v r row'|w at_ l n|id' w at_|id' w at_ av er mx]; cbn in Hr |- *.
  - destruct (store_prepare r row' s) as [x s'] eqn:Hp; cbn.
    apply store_prepare_cases in Hp as [(? & _ & ->)|[(? & _ & -> & _)|(_ & _ & _ & Ho & ->)]];
      [done..|]. cbn. rewrite dget_dset_ne; congruence.
  - destruct (transition v r row' s) as [x s'] eqn:Hp; cbn.
    apply transition_cases in Hp as [(? & _ & ->)|(? & _ & _ & _ & _ & Ho & ->)]; [done|].
    cbn. rewrite dget_dset_ne; congruence.
  - destruct (claim_outbox w at_ l n s) as [[us|e] s'] eqn:Hc; cbn.
    + by eapply claim_keeps_leased in Hc as [_ ?].
    + by apply claim_outbox_err in Hc as ->.
  - destruct (mark_published id' w at_ s) as [x s'] eqn:Hm; cbn.
    apply mark_published_cases in Hm as [(? & _ & ->)|(r0 & Ho & _ & ->)]; [done|eauto].
  - destruct (reschedule id' w at_ av er mx s) as [x s'] eqn:Hm; cbn.
    apply reschedule_cases in Hm as [(? & _ & ->)|(r0 & m & Ho & _ & _ & _ & _ & ->)]; [done|eauto].
Qed.

Lemma ops_keep_leased ops s id row worker until :
  operations_wf s → dget (outbox s) id = Some row → leased_to row worker until →
  Forall enqueues_fresh ops → Forall (respects_lease id worker until) ops →
  dget (outbox (run_ops ops s)) id = Some row.
Proof.
  intros Hwf Hg Hl Hf Hr. revert s Hwf Hg Hf.
  induction Hr as [|o ops Ho _ IH]; intros s Hwf Hg Hf; [done|].
  apply Forall_cons in Hf as [Hfo Hf]. destruct (evolves_op o s Hwf Hfo) as [Hwf' _].
  by apply (IH (apply_op o s)); [|eapply op_keeps_leased|].
Qed.

Lemma claimed_leased worker at_ lease limit s us s' u :
  operations_wf s → claim_outbox worker at_ lease limit s = (Ok us, s') → u ∈ us →
  dget (outbox s') (ob_event_id u) = Some u ∧
  ∃ l, lease = PInt l ∧ leased_to u worker (at_ + seconds l).
Proof.
  intros Hwf Hrun Hu. split.
  { apply (claim_get _ _ _ _ _ _ _ _ u Hwf Hrun). by left. }
  destruct (claim_outbox_ok _ _ _ _ _ _ _ Hrun) as (l & n & -> & _ & _ & _ & Hus & _).
  destruct (claimed_from _ _ _ _ _ _ _ Hwf Hus Hu) as (row & _ & _ & _ & Hl).
  apply lease_row_ok in Hl as (until & [-> _]%plus_seconds_ok & ->). by exists l.
Qed.

(** C27: leases are exclusive and fenced.  Once a worker has claimed an event
    until some instant, no sequence of operations in which the claims happen
    before that instant and in which that worker does not settle the event
    changes it: no other claim takes it, the holder can still mark it
    published or reschedule it, and every other worker that tries gets a
    [PermissionError] and leaves the store alone. *)
Theorem lease_exclusive ops worker at_ l limit us s' u ops' :
  Forall enqueues_fresh ops →
  claim_outbox worker at_ (PInt l) limit (run_ops ops no_operations) = (Ok us, s') → u ∈ us →
  Forall enqueues_fresh ops' →
  Forall (respects_lease (ob_event_id u) worker (at_ + seconds l)) ops' →
  let s := run_ops ops' s' in
  let id := ob_event_id u in
  dget (outbox s) id = Some u ∧
  (∀ w t lease n us' s2, t < at_ + seconds l → claim_outbox w t lease n s = (Ok us', s2) →
     id ∉ ob_event_id <$> us') ∧
  (∀ t, (mark_published id worker t s).1 = Ok (published_row u t)) ∧
  (∀ t av err m, blank err = false → 1 <= m <= 100 →
     (reschedule id worker t av err (PInt m) s).1 = Ok (rescheduled_row u t av err m)) ∧
  (∀ other t av err m, other ≠ worker → blank err = false → 1 <= m <= 100 →
     let refused := Exn PermissionError "worker does not own the outbox lease" in
     mark_published id other t s = (Err refused, s) ∧
     reschedule id other t av err (PInt m) s = (Err refused, s)).
Proof.
  intros Hf Hrun Hu Hf' Hr s id. pose proof (run_ops_wf ops Hf) as Hwf.
  destruct (claimed_leased _ _ _ _ _ _ _ _ Hwf Hrun Hu) as (Hg & ? & [= <-] & Hl).
  destruct (evolves_claim _ _ _ _ _ _ _ Hwf Hrun) as [Hwf' _].
  assert (dget (outbox s) id = Some u) as Hs by by eapply ops_keep_leased.
  assert (operations_wf s) as Hwfs by (by eapply evolves_ops).
  assert (require_owned_event s id worker = Ok u) as Hown
    by (apply require_owned_ok; destruct Hl as (? & ? & _); auto).
  split; [done|]. split; [intros; by eapply claim_keeps_leased|]. split; [|split].
  - intros t. by rewrite (mark_published_run _ _ _ _ _ Hown).
  - intros t av err m He Hm. by rewrite (reschedule_run _ _ _ _ _ _ _ _ He Hm Hown).
  - intros other t av err m Hne He Hm refused.
    pose proof (leased_not_owned s id u worker _ other Hs Hl Hne) as Hno.
    by rewrite (mark_published_run _ _ _ _ _ Hno), (reschedule_run _ _ _ _ _ _ _ _ He Hm Hno).
Qed.

(** ** The relay *)
Section relay_spec.
Context {W : Type} (publish : string → mapping → M W unit).

(** What the publisher answers when it is handed the events in turn. *)
Fixpoint deliveries (events : list OutboxRecord) (w : W) : list (res unit) * W :=
  match events with
  | [] => ([], w)
  | e :: events' =>
      let '(r, w1) := publish (ob_event_id e) (SignatureEnvelope_to_dict (ob_signed_event e)) w in
      let '(rs, w2) := deliveries events' w1 in
      (r :: rs, w2)
  end.

(** What an answer makes of a claimed event. *)
Definition settle (now : instant) (m : Z) (e : OutboxRecord) (answer : res unit)
    : OutboxRecord :=
  match answer with
  | Ok _ => published_row e now
  | Err x => rescheduled_row e now (now + seconds (delay_seconds (ob_delivery_attempts e)))
               (exn_name (exn_class x)) m
  end.

(** Settling every event of a list. *)
Definition settle_all (rows : list OutboxRecord) s : OperationsStore :=
  foldl (λ s row, assign_outbox (ob_event_id row) row s) s rows.

Lemma delay_bounds attempts : 1 <= attempts → 2 <= delay_seconds attempts <= 256.
Proof.
  intros Ha. unfold delay_seconds.
  assert (2 ^ 1 <= 2 ^ Z.min attempts 8 <= 2 ^ 8) as Hp by (split; apply Z.pow_le_mono_r; lia).
  change (2 ^ 1) with 2 in Hp. change (2 ^ 8) with 256 in Hp. lia.
Qed.

Lemma exn_name_not_blank k : blank (exn_name k) = false.
Proof. by destruct k. Qed.

Lemma settle_id now m e a : ob_event_id (settle now m e a) = ob_event_id e.
Proof. by destruct a. Qed.

Context (relay : OutboxRelay) (now : instant) (m : Z).
Hypothesis Hmax : relay_max_attempts relay = PInt m.
Hypothesis Hm : 1 <= m <= 100.
Hypothesis Hnow : seconds (-62135596800) <= now ∧ now + seconds 256 < seconds 253402300800.

Lemma relay_event_run e s w :
  require_owned_event s (ob_event_id e) (relay_worker_id relay) = Ok e →
  1 <= ob_delivery_attempts e →
  relay_event publish relay now e (s, w) =
  let '(r, w1) := publish (ob_event_id e) (SignatureEnvelope_to_dict (ob_signed_event e)) w in
  (Ok (settle now m e r), (assign_outbox (ob_event_id e) (settle now m e r) s, w1)).
Proof.
  intros Ho Ha. unfold relay_event, on_snd, on_fst, zoom, outcome, lift, mbind, M_bind. cbn.
  destruct (publish _ _ w) as [[[]|x] w1]; cbn.
  - by rewrite (mark_published_run _ _ _ _ _ Ho).
  - pose proof (delay_bounds _ Ha).
    assert (plus_seconds now (delay_seconds (ob_delivery_attempts e)) =
      Ok (now + seconds (delay_seconds (ob_delivery_attempts e)))) as ->
      by (apply plus_seconds_ok; split; [done|]; unfold seconds in *; lia).
    cbn. rewrite Hmax. rewrite (reschedule_run _ _ _ _ _ _ _ _ (exn_name_not_blank _) Hm Ho). done.
Qed.

Lemma relay_events_run events s w :
  NoDup (ob_event_id <$> events) →
  (∀ e, e ∈ events → require_owned_event s (ob_event_id e) (relay_worker_id relay) = Ok e ∧
                     1 <= ob_delivery_attempts e) →
  mapM_ (relay_event publish relay now) events (s, w) =
  let '(rs, w2) := deliveries events w in
  let outs := zip_with (settle now m) events rs in
  (Ok outs, (settle_all outs s, w2)).
Proof.
  revert s w. induction events as [|e events IH]; intros s w; [done|].
  cbn [fmap list_fmap]. intros [He Hnd]%NoDup_cons Hall.
  destruct (Hall e) as [Ho Ha]; [by constructor|].
  cbn [mapM_ deliveries]. pose proof (relay_event_run e s w Ho Ha) as Hr.
  destruct (publish _ _ w) as [r w1].
  rewrite (run_bind_eq _ _ _ _ _ Hr).
  rewrite (run_bind_eq _ _ _ (zip_with (settle now m) events (deliveries events w1).1)
    (settle_all (zip_with (settle now m) events (deliveries events w1).1)
       (assign_outbox (ob_event_id e) (settle now m e r) s), (deliveries events w1).2)).
  - destruct (deliveries events w1) as [rs w2]. cbn. by rewrite settle_id.
  - rewrite IH; [by destruct (deliveries events w1)|done|].
    intros e' Hin. destruct (Hall e') as [(Hg & Hs & Hw)%require_owned_ok Ha']; [by constructor|].
    split; [|done]. apply require_owned_ok. cbn. rewrite dget_dset_ne; [done|].
    intros Heq. apply He. change (ob_event_id e ∈ ob_event_id <$> events). rewrite Heq.
    by apply list_elem_of_fmap_2.
Qed.

Lemma deliveries_length events w : length (deliveries events w).1 = length events.
Proof.
  revert w. induction events as [|e events IH]; intros w; [done|]. cbn.
  destruct (publish _ _ w) as [r w1]. specialize (IH w1).
  destruct (deliveries events w1); cbn in *. lia.
Qed.
End relay_spec.

(** The relay settles what it claims.  On a store that operations built,
    with the attempt limit in range and a clock more than 256 seconds before
    the end of year 9999, a batch whose claim succeeds always completes: the
    publisher is handed exactly the claimed events, in order; an event becomes
    published precisely when its publication returned, and otherwise goes back
    to pending, or to the dead letters once its attempts have reached the
    limit, due again after 2 to 256 seconds (the code's cap of 300 seconds is
    never reached). *)
Theorem relay_settles_batch {W} (publish : string → mapping → M W unit) relay m ops now limit
    claimed s1 w clock :
  relay_max_attempts relay = PInt m → 1 <= m <= 100 →
  seconds (-62135596800) <= now → now + seconds 256 < seconds 253402300800 →
  Forall enqueues_fresh ops → let s := run_ops ops no_operations in
  claim_outbox (relay_worker_id relay) now (relay_lease_seconds relay) limit s
    = (Ok claimed, s1) →
  let '(answers, w') := deliveries publish claimed w in
  let outs := zip_with (settle now m) claimed answers in
  publish_batch publish relay limit (Some (Aware now)) clock (s, w)
    = (Ok outs, (settle_all outs s1, w')) ∧
  length answers = length claimed ∧
  ∀ e, e ∈ claimed → 2 <= delay_seconds (ob_delivery_attempts e) <= 256.
Proof.
  intros Hmax Hm Hlo Hhi Hf s Hrun. pose proof (run_ops_wf ops Hf) as Hwf.
  assert (NoDup (ob_event_id <$> claimed)) as Hnd.
  { destruct (claim_outbox_ok _ _ _ _ _ _ _ Hrun) as (l & n & _ & _ & _ & _ & Hus & _).
    rewrite (leased_ids _ _ _ _ _ Hus). by apply claim_selection_ids. }
  destruct (evolves_claim _ _ _ _ _ _ _ Hwf Hrun) as [Hwf1 _].
  assert (∀ e, e ∈ claimed →
    require_owned_event s1 (ob_event_id e) (relay_worker_id relay) = Ok e ∧
    1 <= ob_delivery_attempts e) as Hall.
  { intros e He. destruct (claimed_leased _ _ _ _ _ _ _ _ Hwf Hrun He) as (Hg & l & _ & Hs & Ho & _).
    split; [by apply require_owned_ok|].
    destruct (wf_row_ok _ Hwf1 _ _ Hg) as [Hok _]. rewrite Hs in Hok. apply Hok. }
  pose proof (relay_events_run publish relay now m Hmax Hm (conj Hlo Hhi) claimed s1 w Hnd Hall) as Hev.
  pose proof (deliveries_length publish claimed w) as Hlen.
  destruct (deliveries publish claimed w) as [answers w'].
  split; [|split; [exact Hlen|intros e He; by apply delay_bounds, Hall]].
  unfold publish_batch. cbn [or_now default operation_instant aware].
  rewrite (run_bind_eq _ _ _ now (s, w)) by done.
  rewrite (run_bind_eq _ _ _ claimed (s1, w)); [exact Hev|].
  unfold on_fst, zoom. cbn. by rewrite Hrun.
Qed.

(** ** Concrete runs *)
Module DemoOutbox.

Definition blank_envelope : SignatureEnvelope := Envelope [] [] EmptyString.
Definition demo_event (id : string) (t : Z) : OutboxRecord :=
  fresh_event id "SUB-1" "PROVIDER_SUBMISSION_PREPARED" blank_envelope (seconds t).
Definition demo_submission (rtt : string) : ProviderSubmissionRecord :=
  prepared_record ("SUB-" +:+ rtt) ("KEY-" +:+ rtt) "hash" "UTT-1" rtt "MPESA" (seconds 100).

(** Three prepared submissions, whose events are due in another order. *)
Definition demo_ops : list store_op :=
  [OpPrepare (demo_submission "A") (demo_event "EVT-A" 120);
   OpPrepare (demo_submission "B") (demo_event "EVT-B" 110);
   OpPrepare (demo_submission "C") (demo_event "EVT-C" 130)].
Definition demo_store : OperationsStore := run_ops demo_ops no_operations.
Definition demo_claim : res (list OutboxRecord) * OperationsStore :=
  claim_outbox "worker-1" (seconds 125) (PInt 30) (PInt 2) demo_store.
Definition demo_claimed : list OutboxRecord := from_ok [] demo_claim.1.
(** A second worker claims before the lease ends and reports on another event. *)
Definition demo_later : list store_op :=
  [OpClaim "worker-2" (seconds 140) (PInt 30) (PInt 10);
   OpPublished "EVT-C" "worker-2" (seconds 141);
   OpPublished "EVT-B" "worker-2" (seconds 142)].

Lemma demo_fresh : Forall enqueues_fresh demo_ops.
Proof. by repeat constructor. Qed.
Lemma demo_claim_run : demo_claim = (Ok demo_claimed, demo_claim.2).
Proof. apply from_ok_run. by vm_compute. Qed.

(** A publisher that refuses EVT-B and logs what it accepts. *)
Definition demo_publish (id : string) (signed : mapping) : M (list string) unit :=
  _ ← raise_if (String.eqb id "EVT-B") RuntimeError "broker down";
  modifyS (λ log, log ++ [id]).
Definition demo_relay : OutboxRelay :=
  {| relay_worker_id := "worker-1"; relay_lease_seconds := PInt 30;
     relay_max_attempts := PInt 10 |}.
End DemoOutbox.
Import DemoOutbox.

Lemma outbox_lifecycle_witness :
  ∃ row, dget (outbox demo_store) "EVT-B" = Some row ∧
  ∃ row', dget (outbox (run_ops (demo_ops ++ demo_later) no_operations)) "EVT-B" = Some row' ∧
    rtc row_step row row'.
Proof.
  exists (demo_event "EVT-B" 110). split; [by vm_compute|].
  destruct (outbox_lifecycle demo_ops demo_later "EVT-B" (demo_event "EVT-B" 110))
    as (_ & _ & row' & H1 & H2 & _); [by repeat constructor|by vm_compute|].
  by exists row'.
Defined.

Lemma claim_takes_due_first_witness :
  ob_event_id <$> demo_claimed = ["EVT-B"; "EVT-A"] ∧
  ∃ l n, PInt 30 = PInt l ∧ PInt 2 = PInt n ∧ length demo_claimed = Nat.min (Z.to_nat n) 2.
Proof.
  split; [by vm_compute|].
  destruct (claim_takes_due_first demo_ops "worker-1" (seconds 125) (PInt 30) (PInt 2)
    demo_claimed demo_claim.2 demo_fresh demo_claim_run)
    as (l & n & Hl & _ & Hn & _ & Hlen & _).
  exists l, n. split; [done|]. split; [done|]. rewrite Hlen. by vm_compute.
Defined.

Lemma lease_exclusive_witness :
  ∃ u, u ∈ demo_claimed ∧ dget (outbox (run_ops demo_later demo_claim.2)) "EVT-B" = Some u.
Proof.
  destruct demo_claimed as [|u us] eqn:Hc; [by vm_compute in Hc|]. exists u.
  split; [by constructor|].
  assert (ob_event_id u = "EVT-B") as Hid
    by (change u with (default (demo_event "x" 0) (head (u :: us))); rewrite <- Hc; by vm_compute).
  rewrite <- Hid.
  apply (lease_exclusive demo_ops "worker-1" (seconds 125) 30 (PInt 2) (u :: us) demo_claim.2 u demo_later).
  - exact demo_fresh.
  - rewrite <- Hc. exact demo_claim_run.
  - by constructor.
  - by repeat constructor.
  - rewrite Hid. constructor; [by vm_compute|]. constructor; [right; done|].
    constructor; [by right|constructor].
Defined.

Lemma relay_settles_batch_witness :
  ∃ outs s', publish_batch demo_publish demo_relay (PInt 2) (Some (Aware (seconds 125))) 0
    (demo_store, []) = (Ok outs, (s', ["EVT-A"])) ∧
  ob_delivery_state <$> outs = [OB_PENDING; OB_PUBLISHED].
Proof.
  pose proof (relay_settles_batch demo_publish demo_relay 10 demo_ops (seconds 125) (PInt 2)
    demo_claimed demo_claim.2 [] 0) as Hb.
  assert (deliveries demo_publish demo_claimed [] =
    ([Err (Exn RuntimeError "broker down"); Ok tt], ["EVT-A"])) as Hd by by vm_compute.
  rewrite Hd in Hb.
  destruct Hb as [Hrun _]; [done|lia|by vm_compute|by vm_compute|exact demo_fresh|exact demo_claim_run|].
  eexists _, _. split; [exact Hrun|]. by vm_compute.
Defined.
