(* ===== verification/DispatchProtocol.v ===== *)
(** Provider dispatch as a protocol of concurrent workers.  A worker runs the
    four parts of [dispatch]; each part makes at most one (atomic) store
    operation, other workers and the relay act in between, and a worker may
    crash anywhere. *)

From Stdlib Require Import Ascii String.
From S2P Require Import Prelude.
From S2P Require Import PyBase.
From S2P Require Import PyDict.
From S2P Require Import CanonicalJson.
From S2P Require Import CanonicalFacts.
From S2P Require Import Keys.
From S2P Require Import Signatures.
From S2P Require Import Authority.
From S2P Require Import OperationsStore.
From S2P Require Import Operations.
From S2P Require Import OutboxFacts.

Implicit Types (s : OperationsStore) (row : OutboxRecord) (r : ProviderSubmissionRecord).

(** ** One submission *)
Definition stored s (rtt : string) : option ProviderSubmissionRecord :=
  dget (submissions_by_rtt s) rtt.
Arguments stored : simpl never.

(** The transitions of a submission. *)
Inductive sub_step : ProviderSubmissionRecord → ProviderSubmissionRecord → Prop :=
  | sub_dispatched r at_ :
      final_state (sub_state r) = false → sub_step r (dispatching_record r at_)
  | sub_completed r result at_ r' ty data :
      sub_state r = SUB_DISPATCHING → completed_record r result at_ = Ok (r', ty, data) →
      sub_step r r'.

(** What no transition changes. *)
Definition sub_identity r :=
  (sub_submission_id r, sub_idempotency_key r, sub_request_sha256 r, sub_utt_id r,
   sub_rtt_id r, sub_provider_id r, sub_created_at r).

(** Only a prepared submission is at its first version. *)
Definition submission_ok r : Prop :=
  1 <= sub_version r ∧ (sub_version r = 1 ↔ sub_state r = SUB_PREPARED).

Lemma completed_record_ok r result at_ r' ty data :
  completed_record r result at_ = Ok (r', ty, data) →
  sub_identity r' = sub_identity r ∧ sub_version r' = sub_version r + 1 ∧
  final_state (sub_state r') = true.
Proof.
  unfold completed_record. intros Hc. inv_ok Hc.
  match goal with v : ProviderSubmissionState * string |- _ => destruct v as [st ty'] end.
  inv_ok Hc. simplify_eq/=. split; [done|]. split; [done|].
  match goal with H : outcome_state _ = Ok _ |- _ => unfold outcome_state in H; destruct (out_outcome result); inv_ok H end;
    by simplify_eq.
Qed.

Lemma sub_step_facts r r' :
  sub_step r r' →
  sub_identity r' = sub_identity r ∧ sub_version r' = sub_version r + 1 ∧
  sub_state r' ≠ SUB_PREPARED ∧ final_state (sub_state r) = false.
Proof.
  intros [r0 at_ Hf|r0 result at_ r1 ty data Hs Hc]; [done|].
  apply completed_record_ok in Hc as (? & ? & Hf). rewrite Hs. repeat split; [done..|].
  by destruct (sub_state r1).
Qed.

Lemma sub_step_ok r r' : sub_step r r' → submission_ok r → submission_ok r'.
Proof.
  intros (_ & Hv & Hs & _)%sub_step_facts [Hp _]. split; [lia|].
  split; [lia|by intros ?].
Qed.

Lemma sub_steps_facts r r' :
  rtc sub_step r r' →
  sub_identity r' = sub_identity r ∧ sub_version r <= sub_version r' ∧
  (sub_version r' = sub_version r → r' = r) ∧
  (submission_ok r → submission_ok r') ∧
  (final_state (sub_state r) = true → r' = r).
Proof.
  induction 1 as [r|r r1 r2 Hstep _ (Hi & Hv & _ & Hok & _)]; [by auto with lia|].
  pose proof (sub_step_ok _ _ Hstep) as Hok1.
  destruct (sub_step_facts _ _ Hstep) as (Hi1 & Hv1 & _ & Hf).
  split; [by rewrite Hi|]. split; [lia|]. split; [lia|]. split; [by auto|congruence].
Qed.

(** ** Events *)

(** The event reports version [n] of the submission. *)
Definition announces row r (n : Z) : Prop :=
  ob_aggregate_id row = sub_submission_id r ∧
  get (payload (ob_signed_event row)) "aggregate_id" = Some (PStr (sub_submission_id r)) ∧
  get (payload (ob_signed_event row)) "rtt_id" = Some (PStr (sub_rtt_id r)) ∧
  get (payload (ob_signed_event row)) "submission_version" = Some (PInt n).

Lemma announces_identity row row' r r' n :
  announces row r n → row_content row' = row_content row → sub_identity r' = sub_identity r →
  announces row' r' n.
Proof.
  unfold announces, row_content, sub_identity. intros (?&?&?&?) Hr Hs.
  injection Hr as _ _ Ha _ He _. injection Hs as Hid _ _ _ Hrtt _ _.
  rewrite Ha, He, Hid, Hrtt. done.
Qed.

Section protocol.
Context {P : Type} `{!SigningKeyProvider P} `{Ed25519}.
Context {R : Type} `{!AccountEndpointResolver R} {W : Type}.
Implicit Types (env : CoordinatorEnv P R) (ad : ProviderAdapter W).

Lemma event_ok env r ty data at_ row :
  event env r ty data at_ = Ok row →
  fresh_row row ∧ announces row r (sub_version r).
Proof.
  unfold event. intros He. inv_ok He. split; [done|].
  match goal with H : sign_artifact _ _ _ _ _ = Ok _ |- _ =>
    apply sign_artifact_ok in H as (? & ? & ? & ? & _ & _ & _ & _ & _ & _ & ->) end.
  unfold announces. cbn [payload SignatureEnvelope_new ob_signed_event fresh_event].
  by rewrite !get_freeze.
Qed.

Lemma offer_ok env q at_ r row :
  offer env q at_ = Ok (r, row) →
  fresh_row row ∧ announces row r 1 ∧ sub_rtt_id r = pr_rtt_id q ∧
  sub_request_sha256 r = pr_request_sha256 q ∧
  sub_idempotency_key r = pr_idempotency_key q ∧
  sub_state r = SUB_PREPARED ∧ sub_version r = 1.
Proof.
  unfold offer. intros Ho. inv_ok Ho. simplify_eq.
  match goal with H : event _ _ _ _ _ = Ok _ |- _ => apply event_ok in H as [??] end. done.
Qed.

(** A record that belongs to a request. *)
Definition matches r (q : ProviderExecutionRequest) : Prop :=
  sub_rtt_id r = pr_rtt_id q ∧ sub_request_sha256 r = pr_request_sha256 q ∧
  sub_idempotency_key r = pr_idempotency_key q.

Lemma prepare_at_run env rtt at_ s :
  prepare_at env rtt at_ s =
  match build_request env rtt with
  | Err e => (Err e, s)
  | Ok q =>
      match offer env q at_ with
      | Err e => (Err e, s)
      | Ok (r, row) =>
          match store_prepare r row s with
          | (Err e, s1) => (Err e, s1)
          | (Ok r0, s1) =>
              (if String.eqb (sub_request_sha256 r0) (pr_request_sha256 q) then Ok (r0, q)
               else Err (Exn RuntimeError
                     "prepared provider request does not match stored record"), s1)
          end
      end
  end.
Proof.
  unfold prepare_at, lift, mbind, M_bind. lazy beta.
  destruct (build_request env rtt) as [q|e]; [|done]. lazy beta iota.
  destruct (offer env q at_) as [[r row]|e]; [|done]. lazy beta iota.
  destruct (store_prepare r row s) as [[r0|e] s1]; [|done].
  by destruct (String.eqb _ _).
Qed.

Lemma dispatch_read_run env ad rtt at_ s :
  dispatch_read env ad rtt at_ s =
  match prepare_at env rtt at_ s with
  | (Err e, s1) => (Err e, s1)
  | (Ok (r, q), s1) => (decide_dispatch ad r q, s1)
  end.
Proof.
  assert (prepare env rtt (Some (Aware at_)) at_ s = prepare_at env rtt at_ s) as Hp
    by (unfold prepare; by rewrite (run_bind_eq _ _ _ at_ s)).
  unfold dispatch_read. destruct (prepare_at env rtt at_ s) as [[[r q]|e] s1].
  - by rewrite (run_bind_eq _ _ _ _ _ Hp).
  - by rewrite (run_bind_err _ _ _ _ _ Hp).
Qed.

(** What [dispatch_read] did to the store, and what it decided. *)
Lemma dispatch_read_cases env ad rtt at_ s x s' :
  operations_wf s → dispatch_read env ad rtt at_ s = (x, s') →
  (s' = s ∨
   ∃ q r row, offer env q at_ = Ok (r, row) ∧ store_prepare r row s = (Ok r, s') ∧
     stored s (sub_rtt_id r) = None ∧ x = decide_dispatch ad r q) ∧
  ∀ d, x = Ok d → ∃ r q, stored s' (sub_rtt_id r) = Some r ∧ matches r q ∧
    decide_dispatch ad r q = Ok d.
Proof.
  intros Hwf. rewrite dispatch_read_run, prepare_at_run.
  destruct (build_request env rtt) as [q|e]; [|intros [= <- <-]; split; [by left|done]].
  destruct (offer env q at_) as [[r row]|e] eqn:Ho; [|intros [= <- <-]; split; [by left|done]].
  destruct (offer_ok _ _ _ _ _ Ho) as (_ & _ & Hrtt & Hhash & Hkey & _).
  destruct (store_prepare r row s) as [y s1] eqn:Hp.
  pose proof (store_prepare_cases _ _ _ _ _ Hp) as Hc.
  destruct y as [r0|e]; [|intros [= <- <-]; split; [left|done]; naive_solver].
  assert (matches r0 q ∧ stored s1 (sub_rtt_id r0) = Some r0) as [Hm Hst].
  { unfold matches, stored.
    destruct Hc as [(? & ? & _)|[(? & [= <-] & -> & Hg & ? & ?)|([= ->] & _ & _ & _ & ->)]]; [done|..].
    - rewrite (wf_sub_key _ Hwf _ _ Hg). split; [|done]. repeat split; congruence.
    - split; [done|]. apply dget_dset_eq. }
  destruct Hm as (Hm1 & Hm2 & Hm3). rewrite Hm2, String.eqb_refl.
  intros [= <- <-]. split; [|intros d Hd; exists r0, q; done].
  destruct Hc as [(? & ? & _)|[(? & _ & -> & _)|([= ->] & Hg & _ & _ & _)]]; [done|by left|].
  right. exists q, r, row. done.
Qed.

(** ** The protocol *)
Inductive worker :=
  | WRead (idempotent : bool) (d : dispatch_decision)
  | WCalling (r : ProviderSubmissionRecord) (q : ProviderExecutionRequest)
  | WCalled (r : ProviderSubmissionRecord) (result : ProviderSubmissionResult).

Record config := Config {
  c_store : OperationsStore;
  c_workers : list worker;
  (** the requests handed to the provider so far *)
  c_calls : list ProviderExecutionRequest;
}.

(** The next worker of a run that returned, none of a run that raised. *)
Definition goes_on {A} (f : A → worker) (x : res A) (ws : list worker) : list worker :=
  match x with Ok a => f a :: ws | Err _ => ws end.

(** The relay's operations on the store. *)
Definition is_relay_op (o : store_op) : Prop :=
  match o with OpPrepare _ _ | OpTransition _ _ _ => False | _ => True end.

Inductive dispatch_step : config → config → Prop :=
  | step_read env ad rtt at_ s s' x ws calls :
      dispatch_read env ad rtt at_ s = (x, s') →
      dispatch_step (Config s ws calls)
        (Config s' (goes_on (WRead (ad_supports_idempotency ad)) x ws) calls)
  | step_settled idem r s ws ws' calls :
      ws ≡ₚ WRead idem (Settled r) :: ws' →
      dispatch_step (Config s ws calls) (Config s ws' calls)
  | step_blocked env idem r at_ s s' x ws ws' calls :
      ws ≡ₚ WRead idem (RecoveryBlocked r) :: ws' →
      complete env r (unknown_result "NON_IDEMPOTENT_RECOVERY_BLOCKED") at_ s = (x, s') →
      dispatch_step (Config s ws calls) (Config s' ws' calls)
  | step_start env ad r q at_ s s' x ws ws' calls :
      ws ≡ₚ WRead (ad_supports_idempotency ad) (ReadyToCall r q) :: ws' →
      dispatch_start env ad r at_ s = (x, s') →
      dispatch_step (Config s ws calls) (Config s' (goes_on (λ d, WCalling d q) x ws') calls)
  | step_call r q result s ws ws' calls :
      ws ≡ₚ WCalling r q :: ws' →
      dispatch_step (Config s ws calls) (Config s (WCalled r result :: ws') (calls ++ [q]))
  | step_complete env r result at_ s s' x ws ws' calls :
      ws ≡ₚ WCalled r result :: ws' →
      complete env r result at_ s = (x, s') →
      dispatch_step (Config s ws calls) (Config s' ws' calls)
  | step_crash w s ws ws' calls :
      ws ≡ₚ w :: ws' → dispatch_step (Config s ws calls) (Config s ws' calls)
  | step_relay o s ws calls :
      is_relay_op o → dispatch_step (Config s ws calls) (Config (apply_op o s) ws calls).

Definition idle : config := Config no_operations [] [].
End protocol.
