(* ===== verification/DispatchFacts.v ===== *)
(** The invariants of the dispatch protocol: the journal of a store (its
    submissions against its events), what workers know, and their
    preservation by every step. *)

From Stdlib Require Import Ascii String.
From S2P Require Import Prelude.
From S2P Require Import PyBase.
From S2P Require Import PyDict.
From S2P Require Import CanonicalJson.
From S2P Require Import Keys.
From S2P Require Import Signatures.
From S2P Require Import OperationsStore.
From S2P Require Import Operations.
From S2P Require Import OutboxFacts.
From S2P Require Import DispatchProtocol.

Implicit Types (s : OperationsStore) (row : OutboxRecord) (r : ProviderSubmissionRecord).

(** ** The journal *)

(** Submissions and events mirror each other: every version that a submission
    ever had is reported by a stored event, and every stored event reports
    such a version.  Idempotency keys are not shared. *)
Record journal_ok s : Prop := {
  jo_wf : operations_wf s;
  jo_sub k r : stored s k = Some r → submission_ok r;
  jo_key k r : stored s k = Some r → dget (rtt_by_idempotency s) (sub_idempotency_key r) = Some k;
  jo_events k r n : stored s k = Some r → 1 <= n <= sub_version r →
    ∃ id row, dget (outbox s) id = Some row ∧ announces row r n;
  jo_rows id row : dget (outbox s) id = Some row →
    ∃ k r n, stored s k = Some r ∧ announces row r n ∧ 1 <= n <= sub_version r;
}.

Lemma journal_empty : journal_ok no_operations.
Proof. split; [apply no_operations_wf|done..]. Qed.

(** What a store never forgets. *)
Definition advances s s' : Prop :=
  evolves s s' ∧
  ∀ k r, stored s k = Some r → ∃ r', stored s' k = Some r' ∧ rtc sub_step r r'.

Lemma advances_refl s : operations_wf s → advances s s.
Proof. intros Hwf. split; [by apply evolves_refl|]. intros k r Hk. by exists r. Qed.

(** The store holds [r] or a later version of it. *)
Definition known s r : Prop :=
  ∃ r0, stored s (sub_rtt_id r) = Some r0 ∧ rtc sub_step r r0.

Lemma known_stored s r : operations_wf s → stored s (sub_rtt_id r) = Some r → known s r.
Proof. intros _ Hs. by exists r. Qed.

Lemma known_advances s s' r : advances s s' → known s r → known s' r.
Proof.
  intros [_ Ha] (r0 & Hs & Hr). destruct (Ha _ _ Hs) as (r1 & Hs' & Hr').
  exists r1. split; [done|]. by etrans.
Qed.

(** The compare-and-swap succeeds only on the version that was read. *)
Lemma known_version s r r0 :
  known s r → stored s (sub_rtt_id r) = Some r0 → sub_version r0 = sub_version r → r0 = r.
Proof.
  intros (r1 & Hs & Hr) Hs0 Hv. rewrite Hs in Hs0. injection Hs0 as ->.
  destruct (sub_steps_facts _ _ Hr) as (_ & _ & Heq & _). by apply Heq.
Qed.

(** An event stays: its reports do too. *)
Lemma evolves_announces s s' id row r n :
  evolves s s' → dget (outbox s) id = Some row → announces row r n →
  ∃ row', dget (outbox s') id = Some row' ∧ announces row' r n.
Proof.
  intros [_ He] Hid Ha. destruct (He _ _ Hid) as (row' & Hid' & Hsteps).
  exists row'. split; [done|]. eapply announces_identity; [done| |done].
  by apply row_steps_facts.
Qed.

(** A first version with its event. *)
Lemma journal_prepare s r row s' :
  journal_ok s → fresh_row row → announces row r 1 → submission_ok r → sub_version r = 1 →
  stored s (sub_rtt_id r) = None → store_prepare r row s = (Ok r, s') →
  journal_ok s' ∧ advances s s' ∧ stored s' (sub_rtt_id r) = Some r.
Proof.
  intros Hj Hf Ha Hok Hv Hnew Hp. pose proof (jo_wf _ Hj) as Hwf.
  pose proof (evolves_prepare r row s _ s' Hwf (fresh_row_ok _ Hf) Hp) as Hev.
  apply store_prepare_cases in Hp as [(? & ? & _)|[(? & _ & _ & Hg & _)|(_ & _ & Hi & Ho & ->)]];
    [done|unfold stored in Hnew; congruence|].
  assert (∀ k r', stored (Operations (dset (submissions_by_rtt s) (sub_rtt_id r) r)
      (dset (rtt_by_idempotency s) (sub_idempotency_key r) (sub_rtt_id r))
      (dset (outbox s) (ob_event_id row) row)) k = Some r' ↔
    (sub_rtt_id r = k ∧ r = r') ∨ (sub_rtt_id r ≠ k ∧ stored s k = Some r')) as Hst
    by (intros; apply dget_dset_Some).
  split; [|split].
  - split; [apply Hev|..].
    + intros k r' [[_ <-]|[_ Hk]]%Hst; [done|by eapply jo_sub].
    + intros k r' [[<- <-]|[_ Hk]]%Hst; cbn; apply dget_dset_Some; [by left|right].
      pose proof (jo_key _ Hj _ _ Hk). split; [congruence|done].
    + intros k r' n [[_ <-]|[_ Hk]]%Hst Hn.
      * exists (ob_event_id row), row. cbn. rewrite dget_dset_eq. by replace n with 1 by lia.
      * destruct (jo_events _ Hj _ _ _ Hk Hn) as (id & row' & Hid & Ha').
        exists id. eapply evolves_announces; eauto.
    + intros id row'. cbn [outbox put_outbox put_submission]. intros [[_ <-]|[_ Hid]]%dget_dset_Some.
      * exists (sub_rtt_id r), r, 1. rewrite Hst. split; [by left|]. split; [done|lia].
      * destruct (jo_rows _ Hj _ _ Hid) as (k & r' & n & Hk & Ha' & Hn).
        exists k, r', n. rewrite Hst. split; [|done]. right. split; [congruence|done].
  - split; [done|]. intros k r' Hk. exists r'. rewrite Hst. split; [|done].
    right. split; [congruence|done].
  - apply Hst. by left.
Qed.

(** A later version with its event. *)
Lemma journal_transition s r r' row x s' :
  journal_ok s → known s r → sub_step r r' → fresh_row row →
  announces row r' (sub_version r') → transition (sub_version r) r' row s = (x, s') →
  journal_ok s' ∧ advances s s' ∧
  (x = Ok tt → stored s (sub_rtt_id r) = Some r ∧ stored s' (sub_rtt_id r) = Some r').
Proof.
  intros Hj Hk Hstep Hf Ha Ht. pose proof (jo_wf _ Hj) as Hwf.
  destruct (sub_step_facts _ _ Hstep) as (Hid & Hv & _ & _).
  assert (sub_rtt_id r' = sub_rtt_id r) as Hrtt by (by injection Hid).
  assert (sub_idempotency_key r' = sub_idempotency_key r) as Hkey by (by injection Hid).
  pose proof (evolves_transition _ r' row s x s' Hwf (fresh_row_ok _ Hf) Ht) as Hev.
  apply transition_cases in Ht as [(? & -> & ->)|(r0 & -> & Hg & Hv0 & _ & Ho & ->)];
    [by split; [|split; [by apply advances_refl|]]|].
  rewrite Hrtt in Hg. pose proof (known_version _ _ _ Hk Hg Hv0) as ->.
  assert (∀ k r0, stored (put_outbox row (put_submission r' s)) k = Some r0 ↔
    (sub_rtt_id r = k ∧ r' = r0) ∨ (sub_rtt_id r ≠ k ∧ stored s k = Some r0)) as Hst
    by (intros; rewrite <- Hrtt; apply dget_dset_Some).
  split; [|split].
  - split; [apply Hev|..].
    + intros k r0 [[<- <-]|[_ Hk']]%Hst; [|by eapply jo_sub].
      eapply sub_step_ok; [done|]. by eapply jo_sub.
    + intros k r0 [[<- <-]|[_ Hk']]%Hst; [rewrite Hkey|]; by eapply (jo_key _ Hj).
    + intros k r0 n [[<- <-]|[_ Hk']]%Hst Hn.
      * destruct (decide (n = sub_version r')) as [->|Hne].
        { exists (ob_event_id row), row. cbn. by rewrite dget_dset_eq. }
        destruct (jo_events _ Hj _ _ n Hg) as (id & row' & Hrow & Ha'); [lia|].
        exists id. eapply evolves_announces; [done..|].
        by eapply announces_identity.
      * destruct (jo_events _ Hj _ _ _ Hk' Hn) as (id & row' & Hrow & Ha').
        exists id. eapply evolves_announces; eauto.
    + intros id row'. cbn [outbox put_outbox put_submission]. intros [[_ <-]|[_ Hrow]]%dget_dset_Some.
      * exists (sub_rtt_id r), r', (sub_version r'). rewrite Hst. split; [by left|].
        split; [done|]. destruct (jo_sub _ Hj _ _ Hg). lia.
      * destruct (jo_rows _ Hj _ _ Hrow) as (k & r0 & n & Hk' & Ha' & Hn).
        destruct (decide (sub_rtt_id r = k)) as [<-|Hne].
        { assert (r0 = r) as -> by (unfold stored in Hk'; congruence).
          exists (sub_rtt_id r), r', n. rewrite Hst. split; [by left|].
          split; [by eapply announces_identity|lia]. }
        exists k, r0, n. rewrite Hst. split; [by right|done].
  - split; [done|]. intros k r0 Hk'. destruct (decide (sub_rtt_id r = k)) as [<-|Hne].
    + assert (r0 = r) as -> by (unfold stored in Hk'; congruence).
      exists r'. rewrite Hst. split; [by left|by apply rtc_once].
    + exists r0. rewrite Hst. split; [by right|done].
  - intros _. split; [done|]. apply Hst. by left.
Qed.

(** The relay moves events only. *)
Lemma relay_op_submissions o s :
  is_relay_op o → submissions_by_rtt (apply_op o s) = submissions_by_rtt s ∧
                  rtt_by_idempotency (apply_op o s) = rtt_by_idempotency s.
Proof.
  destruct o as [| |w at_ l n|id w at_|id w at_ av er mx]; intros Hr; [done..| | |]; cbn.
  - destruct (claim_outbox w at_ l n s) as [[us|e] s'] eqn:Hc; cbn.
    + apply claim_outbox_ok in Hc as (? & ? & _ & _ & _ & _ & _ & ->). apply put_all_submissions.
    + by apply claim_outbox_err in Hc as ->.
  - destruct (mark_published id w at_ s) as [x s'] eqn:Hm; cbn.
    by apply mark_published_cases in Hm as [(? & _ & ->)|(? & _ & _ & ->)].
  - destruct (reschedule id w at_ av er mx s) as [x s'] eqn:Hm; cbn.
    by apply reschedule_cases in Hm as [(? & _ & ->)|(? & ? & _ & _ & _ & _ & _ & ->)].
Qed.

(** An event of the later store is one of the earlier store. *)
Lemma relay_op_rows o s id row' :
  operations_wf s → is_relay_op o → dget (outbox (apply_op o s)) id = Some row' →
  ∃ row, dget (outbox s) id = Some row.
Proof.
  intros Hwf. destruct o as [| |w at_ l n|id' w at_|id' w at_ av er mx]; intros Hr; [done..| | |]; cbn.
  - destruct (claim_outbox w at_ l n s) as [[us|e] s'] eqn:Hc; cbn.
    + intros Hg. apply (claim_get _ _ _ _ _ _ _ id row' Hwf Hc) in Hg as [[Hin <-]|[_ Hg]]; [|eauto].
      destruct (claim_outbox_ok _ _ _ _ _ _ _ Hc) as (? & ? & _ & _ & _ & _ & Hus & _).
      destruct (claimed_from _ _ _ _ _ _ _ Hwf Hus Hin) as (row & _ & _ & Hg & _). eauto.
    + apply claim_outbox_err in Hc as ->. eauto.
  - destruct (mark_published id' w at_ s) as [x s'] eqn:Hm; cbn.
    apply mark_published_cases in Hm as [(? & _ & ->)|(row & Ho & _ & ->)]; [eauto|].
    apply require_owned_ok in Ho as [Ho _].
    cbn. intros [[<- _]|[_ ?]]%dget_dset_Some; eauto.
  - destruct (reschedule id' w at_ av er mx s) as [x s'] eqn:Hm; cbn.
    apply reschedule_cases in Hm as [(? & _ & ->)|(row & m & Ho & _ & _ & _ & _ & ->)]; [eauto|].
    apply require_owned_ok in Ho as [Ho _].
    cbn. intros [[<- _]|[_ ?]]%dget_dset_Some; eauto.
Qed.

Lemma journal_relay o s :
  journal_ok s → is_relay_op o → journal_ok (apply_op o s) ∧ advances s (apply_op o s).
Proof.
  intros Hj Hr. pose proof (jo_wf _ Hj) as Hwf.
  assert (evolves s (apply_op o s)) as Hev by (apply evolves_op; [done|by destruct o]).
  destruct (relay_op_submissions o s Hr) as [Hs Hi].
  assert (∀ k, stored (apply_op o s) k = stored s k) as Hst by (intros; unfold stored; by rewrite Hs).
  split; [split|split].
  - apply Hev.
  - intros k r. rewrite Hst. apply Hj.
  - intros k r. rewrite Hst, Hi. apply Hj.
  - intros k r n. rewrite Hst. intros Hk Hn.
    destruct (jo_events _ Hj _ _ _ Hk Hn) as (id & row & Hid & Ha).
    exists id. eapply evolves_announces; eauto.
  - intros id row' Hid. destruct (relay_op_rows _ _ _ _ Hwf Hr Hid) as [row Hrow].
    destruct (jo_rows _ Hj _ _ Hrow) as (k & r & n & Hk & Ha & Hn).
    destruct (evolves_announces _ _ _ _ _ _ Hev Hrow Ha) as (row2 & Hid2 & Ha2). simplify_eq.
    exists k, r, n. by rewrite Hst.
  - done.
  - intros k r. rewrite Hst. intros Hk. by exists r.
Qed.

(** ** Workers *)
Section workers.
Context {P : Type} `{!SigningKeyProvider P} `{Ed25519}.
Context {R : Type} `{!AccountEndpointResolver R} {W : Type}.
Implicit Types (env : CoordinatorEnv P R) (ad : ProviderAdapter W) (c : config).

(** What a worker's local variables say about the store. *)
Definition worker_ok s (w : worker) : Prop :=
  match w with
  | WRead _ (Settled r) => known s r
  | WRead _ (RecoveryBlocked r) => known s r ∧ sub_state r = SUB_DISPATCHING
  | WRead idempotent (ReadyToCall r q) =>
      known s r ∧ submission_ok r ∧ matches r q ∧ final_state (sub_state r) = false ∧
      (idempotent = false → sub_state r = SUB_PREPARED)
  | WCalling r q =>
      known s r ∧ submission_ok r ∧ matches r q ∧ sub_state r = SUB_DISPATCHING
  | WCalled r _ => known s r ∧ sub_state r = SUB_DISPATCHING
  end.

(** A request that was handed to the provider belongs to a stored submission
    that had left its first version. *)
Definition call_ok s (q : ProviderExecutionRequest) : Prop :=
  ∃ r, stored s (pr_rtt_id q) = Some r ∧ matches r q ∧ 2 <= sub_version r.

Record protocol_ok c : Prop := {
  po_journal : journal_ok (c_store c);
  po_workers w : w ∈ c_workers c → worker_ok (c_store c) w;
  po_calls q : q ∈ c_calls c → call_ok (c_store c) q;
}.

Lemma matches_identity r r' q : sub_identity r' = sub_identity r → matches r q → matches r' q.
Proof. unfold matches. intros Hi. by injection Hi as _ -> -> _ -> _ _. Qed.

Lemma worker_advances s s' w : advances s s' → worker_ok s w → worker_ok s' w.
Proof.
  intros Ha. destruct w as [idem []| |]; cbn; [|intros [? ?]..];
    try (split; [|assumption]); by eapply known_advances.
Qed.

Lemma call_advances s s' q : advances s s' → call_ok s q → call_ok s' q.
Proof.
  intros [_ Ha] (r & Hs & Hm & Hv). destruct (Ha _ _ Hs) as (r' & Hs' & Hr).
  destruct (sub_steps_facts _ _ Hr) as (Hi & Hle & _).
  exists r'. split; [done|]. split; [by eapply matches_identity|lia].
Qed.

(** A step of the store with the workers and calls that remain. *)
Lemma protocol_advance s s' ws ws' calls :
  protocol_ok (Config s ws calls) → journal_ok s' → advances s s' →
  (∀ w, w ∈ ws' → w ∈ ws ∨ worker_ok s' w) → protocol_ok (Config s' ws' calls).
Proof.
  intros [Hj Hw Hc] Hj' Ha Hws. split; cbn in *; [done| |].
  - intros w [Hin|Hok]%Hws; [|done]. eapply worker_advances; eauto.
  - intros q Hq. eapply call_advances; eauto.
Qed.

Lemma protocol_forget s ws ws' calls w :
  ws ≡ₚ w :: ws' → protocol_ok (Config s ws calls) → protocol_ok (Config s ws' calls).
Proof.
  intros Hp Hok. eapply protocol_advance; [done|apply Hok| |].
  - apply advances_refl, jo_wf, Hok.
  - intros w' Hin. left. rewrite Hp. by constructor.
Qed.

Lemma protocol_worker s ws ws' calls w :
  ws ≡ₚ w :: ws' → protocol_ok (Config s ws calls) → worker_ok s w.
Proof. intros Hp Hok. apply (po_workers _ Hok). cbn. rewrite Hp. constructor. Qed.

Lemma decide_dispatch_ok ad r q d :
  decide_dispatch ad r q = Ok d →
  (d = Settled r ∧ final_state (sub_state r) = true) ∨
  (d = RecoveryBlocked r ∧ sub_state r = SUB_DISPATCHING ∧
   ad_supports_idempotency ad = false) ∨
  (d = ReadyToCall r q ∧ final_state (sub_state r) = false ∧
   (ad_supports_idempotency ad = false → sub_state r = SUB_PREPARED)).
Proof.
  unfold decide_dispatch. intros Hd. inv_ok Hd.
  destruct (sub_state r) eqn:Hs, (ad_supports_idempotency ad);
    (injection Hd as <- || (rewrite ?bool_decide_eq_true_2, ?bool_decide_eq_false_2 in Hd by done;
       injection Hd as <-)); rewrite ?Hs; naive_solver.
Qed.

Lemma dispatch_start_run env ad r at_ s :
  dispatch_start env ad r at_ s =
  match event env (dispatching_record r at_) "PROVIDER_DISPATCH_STARTED"
    (fields [("dispatch_attempt", PInt (sub_dispatch_attempts r + 1));
             ("provider_idempotency_supported", PBool (ad_supports_idempotency ad))]) at_ with
  | Err e => (Err e, s)
  | Ok row =>
      match transition (sub_version r) (dispatching_record r at_) row s with
      | (Ok _, s') => (Ok (dispatching_record r at_), s')
      | (Err e, s') => (Err e, s')
      end
  end.
Proof.
  unfold dispatch_start, lift, mbind, M_bind. lazy beta zeta.
  change (sub_dispatch_attempts (dispatching_record r at_)) with (sub_dispatch_attempts r + 1).
  destruct (event _ _ _ _ _) as [row|e]; [|done].
  by destruct (transition _ _ row s) as [[]].
Qed.

Lemma complete_run env r result at_ s :
  complete env r result at_ s =
  match completed_record r result at_ with
  | Err e => (Err e, s)
  | Ok (r', ty, data) =>
      match event env r' ty data at_ with
      | Err e => (Err e, s)
      | Ok row =>
          match transition (sub_version r) r' row s with
          | (Ok _, s') => (Ok r', s')
          | (Err e, s') => (Err e, s')
          end
      end
  end.
Proof.
  unfold complete, lift, mbind, M_bind. lazy beta zeta.
  destruct (completed_record r result at_) as [[[r' ty] data]|e]; [|done]. lazy beta iota.
  destruct (event _ _ _ _ _) as [row|e]; [|done]. lazy beta iota.
  by destruct (transition _ _ row s) as [[]].
Qed.

(** The commit before the call. *)
Lemma dispatch_start_step env ad r at_ s x s' :
  journal_ok s → known s r → final_state (sub_state r) = false →
  dispatch_start env ad r at_ s = (x, s') →
  journal_ok s' ∧ advances s s' ∧
  ∀ d, x = Ok d → d = dispatching_record r at_ ∧ stored s (sub_rtt_id r) = Some r ∧
                  stored s' (sub_rtt_id r) = Some d.
Proof.
  intros Hj Hk Hf. rewrite dispatch_start_run.
  assert (sub_step r (dispatching_record r at_)) as Hstep by by constructor.
  destruct (event _ _ _ _ _) as [row|e] eqn:He;
    [|intros [= <- <-]; split; [done|]; split; [by apply advances_refl, jo_wf|done]].
  apply event_ok in He as [Hfr Ha].
  destruct (transition _ _ row s) as [y s1] eqn:Ht.
  destruct (journal_transition _ _ _ _ _ _ Hj Hk Hstep Hfr Ha Ht) as (Hj' & Had & Hst).
  destruct y as [[]|e]; intros [= <- <-]; (split; [done|]); (split; [done|]); [|done].
  intros d [= <-]. split; [done|]. by apply Hst.
Qed.

(** The commit of an outcome. *)
Lemma complete_step env r result at_ s x s' :
  journal_ok s → known s r → sub_state r = SUB_DISPATCHING →
  complete env r result at_ s = (x, s') →
  journal_ok s' ∧ advances s s' ∧
  ∀ r', x = Ok r' → final_state (sub_state r') = true ∧ stored s (sub_rtt_id r) = Some r ∧
                    stored s' (sub_rtt_id r) = Some r'.
Proof.
  intros Hj Hk Hs. rewrite complete_run.
  assert (∀ e : exn, journal_ok s ∧ advances s s ∧
    ∀ r', Err e = Ok r' → final_state (sub_state r') = true ∧ stored s (sub_rtt_id r) = Some r ∧
      stored s (sub_rtt_id r) = Some r') as Hsame
    by (split; [done|]; split; [by apply advances_refl, jo_wf|done]).
  destruct (completed_record r result at_) as [[[r' ty] data]|e] eqn:Hc; [|intros [= <- <-]; apply Hsame].
  assert (sub_step r r') as Hstep by by eapply sub_completed.
  destruct (event _ _ _ _ _) as [row|e] eqn:He; [|intros [= <- <-]; apply Hsame].
  apply event_ok in He as [Hfr Ha].
  destruct (transition _ _ row s) as [y s1] eqn:Ht.
  destruct (journal_transition _ _ _ _ _ _ Hj Hk Hstep Hfr Ha Ht) as (Hj' & Had & Hst).
  apply completed_record_ok in Hc as (_ & _ & Hfin).
  destruct y as [[]|e]; intros [= <- <-]; (split; [done|]); (split; [done|]); [|done].
  intros d [= <-]. split; [done|]. by apply Hst.
Qed.

(** Reading: the store may gain a first version, and the worker knows what it
    read. *)
Lemma dispatch_read_step env ad rtt at_ s x s' :
  journal_ok s → dispatch_read env ad rtt at_ s = (x, s') →
  journal_ok s' ∧ advances s s' ∧
  ∀ d, x = Ok d → worker_ok s' (WRead (ad_supports_idempotency ad) d).
Proof.
  intros Hj Hr. pose proof (jo_wf _ Hj) as Hwf.
  destruct (dispatch_read_cases _ _ _ _ _ _ _ Hwf Hr) as [Heff Hd].
  assert (journal_ok s' ∧ advances s s') as [Hj' Ha].
  { destruct Heff as [->|(q & r & row & Ho & Hp & Hn & _)]; [by split; [|apply advances_refl]|].
    apply offer_ok in Ho as (Hf & Ha & _ & _ & _ & Hs & Hv).
    destruct (journal_prepare s r row s') as (? & ? & _); try done.
    split; [lia|by rewrite Hs, Hv]. }
  split; [done|]. split; [done|]. intros d Hx.
  destruct (Hd d Hx) as (r & q & Hst & Hm & Hdec).
  pose proof (known_stored _ _ (jo_wf _ Hj') Hst) as Hk.
  pose proof (jo_sub _ Hj' _ _ Hst) as Hok.
  apply decide_dispatch_ok in Hdec as [[-> _]|[(-> & ? & _)|(-> & ? & ?)]]; cbn; auto.
Qed.

(** Every step keeps the invariant and only advances the store. *)
Lemma dispatch_step_ok c c' :
  dispatch_step (P := P) (R := R) (W := W) c c' → protocol_ok c →
  protocol_ok c' ∧ advances (c_store c) (c_store c').
Proof.
  intros Hstep Hok.
  destruct Hstep as [env ad rtt at_ s s' x ws calls Hr|idem r s ws ws' calls Hp
    |env idem r at_ s s' x ws ws' calls Hp Hr|env ad r q at_ s s' x ws ws' calls Hp Hr
    |r q result s ws ws' calls Hp|env r result at_ s s' x ws ws' calls Hp Hr
    |w s ws ws' calls Hp|o s ws calls Ho]; cbn;
    pose proof (po_journal _ Hok) as Hj; cbn in Hj;
    try pose proof (protocol_worker _ _ _ _ _ Hp Hok) as Hw;
    try pose proof (protocol_forget _ _ _ _ _ Hp Hok) as Hrest;
    try pose proof (advances_refl _ (jo_wf _ Hj)) as Hrefl.
  - destruct (dispatch_read_step _ _ _ _ _ _ _ Hj Hr) as (Hj' & Ha & Hd). split; [|done].
    eapply protocol_advance; [done..|]. intros w Hw.
    destruct x as [d|e]; cbn in Hw; [|by left].
    apply elem_of_cons in Hw as [->|Hw]; [right; by apply Hd|by left].
  - done.
  - destruct Hw as [Hk Hs].
    destruct (complete_step _ _ _ _ _ _ _ Hj Hk Hs Hr) as (Hj' & Ha & _). split; [|done].
    eapply protocol_advance; [exact Hrest|done..|by left].
  - destruct Hw as (Hk & Hso & Hm & Hf & _).
    destruct (dispatch_start_step _ _ _ _ _ _ _ Hj Hk Hf Hr) as (Hj' & Ha & Hd). split; [|done].
    eapply protocol_advance; [exact Hrest|done..|]. intros w Hw.
    destruct x as [d|e]; cbn in Hw; [|by left].
    apply elem_of_cons in Hw as [->|Hw]; [right|by left].
    destruct (Hd d eq_refl) as (-> & _ & Hst). cbn.
    split; [by apply known_stored; [apply jo_wf|]|]. split; [|done].
    eapply sub_step_ok; [by constructor|done].
  - destruct Hw as (Hk & Hso & Hm & Hs). split; [|done].
    destruct Hrest as [_ Hws Hcalls]. split; cbn in *; [done| |].
    + intros w [->|Hw]%elem_of_cons; [done|by apply Hws].
    + intros q' [Hq| ->%list_elem_of_singleton]%elem_of_app; [by apply Hcalls|].
      destruct Hk as (r0 & Hst & Hsteps). destruct (sub_steps_facts _ _ Hsteps) as (Hi & Hv & _).
      exists r0. split; [by rewrite <- (proj1 Hm)|]. split; [by eapply matches_identity|].
      destruct Hso as [Hv1 Hs1]. assert (sub_version r ≠ 1); [|lia].
      intros Heq%Hs1. congruence.
  - destruct Hw as [Hk Hs].
    destruct (complete_step _ _ _ _ _ _ _ Hj Hk Hs Hr) as (Hj' & Ha & _). split; [|done].
    eapply protocol_advance; [exact Hrest|done..|by left].
  - done.
  - destruct (journal_relay o s Hj Ho) as [Hj' Ha]. split; [|done].
    eapply protocol_advance; [done..|by left].
Qed.

Lemma idle_ok : protocol_ok idle.
Proof. split; [apply journal_empty|cbn; set_solver..]. Qed.

Lemma dispatch_steps_ok c c' :
  rtc (dispatch_step (P := P) (R := R) (W := W)) c c' → protocol_ok c →
  protocol_ok c' ∧ ∀ k r, stored (c_store c) k = Some r →
    ∃ r', stored (c_store c') k = Some r' ∧ rtc sub_step r r'.
Proof.
  induction 1 as [c|c c1 c2 Hstep _ IH]; intros Hok.
  { split; [done|]. intros k r Hk. by exists r. }
  destruct (dispatch_step_ok _ _ Hstep Hok) as [Hok1 [_ Ha1]].
  destruct (IH Hok1) as [Hok2 Ha2]. split; [done|]. intros k r Hk.
  destruct (Ha1 _ _ Hk) as (r1 & Hk1 & ?). destruct (Ha2 _ _ Hk1) as (r2 & ? & ?).
  exists r2. split; [done|]. by etrans.
Qed.
End workers.
