(* ===== verification/DispatchClaims.v ===== *)
(** What dispatch promises: a provider without idempotency is called at most
    once per RTT, repeated calls carry the same idempotency key and request,
    every version of a submission is journalled, and the code's [dispatch] is
    a run of the protocol. *)

From Stdlib Require Import Ascii String.
From S2P Require Import Prelude.
From S2P Require Import PyBase.
From S2P Require Import PyDict.
From S2P Require Import CanonicalJson.
From S2P Require Import Keys.
From S2P Require Import Signatures.
From S2P Require Import Contracts.
From S2P Require Import ExecutionStore.
From S2P Require Import ExecutionProtocol.
From S2P Require Import Routing.
From S2P Require Import ExecutionClaims.
From S2P Require Import OperationsStore.
From S2P Require Import Operations.
From S2P Require Import OutboxFacts.
From S2P Require Import DispatchProtocol.
From S2P Require Import DispatchFacts.

(** ** Calls per RTT *)

(** The worker is about to call the provider for [rtt]. *)
Definition about_to_call (rtt : string) (w : worker) : Prop :=
  match w with WCalling _ q => pr_rtt_id q = rtt | _ => False end.
#[global] Instance about_to_call_dec rtt w : Decision (about_to_call rtt w).
Proof. destruct w; cbn; apply _. Defined.

(** The calls made for [rtt]. *)
Definition calls_for (rtt : string) (c : config) : list ProviderExecutionRequest :=
  filter (λ q, pr_rtt_id q = rtt) (c_calls c).

(** Calls made or about to be made. *)
Definition load (rtt : string) (c : config) : nat :=
  length (calls_for rtt c) + length (filter (about_to_call rtt) (c_workers c)).

(** The worker's adapter offers no idempotency. *)
Definition not_idempotent (w : worker) : Prop :=
  match w with WRead idempotent _ => idempotent = false | _ => True end.

Section claims.
Context {P : Type} `{!SigningKeyProvider P} `{Ed25519}.
Context {R : Type} `{!AccountEndpointResolver R} {W : Type}.
Notation step := (dispatch_step (P := P) (R := R) (W := W)).

Definition blind_step (c c' : config) : Prop :=
  step c c' ∧ Forall not_idempotent (c_workers c').

(** A provider that was or will be called has left the first version. *)
Definition load_ok (c : config) : Prop :=
  ∀ rtt, (load rtt c <= 1)%nat ∧
    (load rtt c ≠ 0%nat → ∃ r, stored (c_store c) rtt = Some r ∧ 2 <= sub_version r).

Lemma load_ok_advance s s' ws ws' calls :
  advances s s' → load_ok (Config s ws calls) →
  (∀ rtt, (length (filter (about_to_call rtt) ws') <= length (filter (about_to_call rtt) ws))%nat) →
  load_ok (Config s' ws' calls).
Proof.
  intros [_ Ha] Hl Hle rtt. destruct (Hl rtt) as [H1 H2]. specialize (Hle rtt).
  unfold load, calls_for in *. cbn in *. split; [lia|]. intros Hne.
  destruct H2 as (r & Hs & Hv); [lia|]. destruct (Ha _ _ Hs) as (r' & Hs' & Hr).
  exists r'. split; [done|]. apply sub_steps_facts in Hr as (_ & ? & _). lia.
Qed.

Lemma worker_load ws ws' w rtt :
  ws ≡ₚ w :: ws' →
  length (filter (about_to_call rtt) ws) =
  ((if decide (about_to_call rtt w) then 1 else 0) + length (filter (about_to_call rtt) ws'))%nat.
Proof. intros ->. rewrite filter_cons. by case_decide. Qed.

Lemma start_load env (ad : ProviderAdapter W) r q at_ s s' x ws ws' calls :
  ws ≡ₚ WRead (ad_supports_idempotency ad) (ReadyToCall r q) :: ws' →
  Forall not_idempotent ws → protocol_ok (Config s ws calls) →
  dispatch_start (P := P) (R := R) env ad r at_ s = (x, s') →
  load_ok (Config s ws calls) → load_ok (Config s' (goes_on (λ d, WCalling d q) x ws') calls).
Proof.
  intros Hp Hb Hok Hr Hl. rewrite Hp in Hb. apply Forall_cons in Hb as [Hidem _]. cbn in Hidem.
  destruct (protocol_worker _ _ _ _ _ Hp Hok) as (Hk & [Hv1 Hv] & (Hrtt & _) & Hf & Hprep).
  destruct (dispatch_start_step _ _ _ _ _ _ _ (po_journal _ Hok) Hk Hf Hr) as (_ & Ha & Hd).
  assert (∀ rtt, length (filter (about_to_call rtt) ws') = length (filter (about_to_call rtt) ws)) as Hws
    by (intros; by rewrite (worker_load _ _ _ _ Hp)).
  destruct x as [d|e]; cbn; [|eapply load_ok_advance; [done..|intros; by rewrite Hws]].
  destruct (Hd d eq_refl) as (-> & Hs & Hs'). cbn in Hs, Ha.
  assert (load (pr_rtt_id q) (Config s ws calls) = 0%nat) as Hzero.
  { destruct (decide (load (pr_rtt_id q) (Config s ws calls) = 0%nat)) as [|Hne]; [done|].
    destruct (Hl (pr_rtt_id q)) as [_ (r0 & Hr0 & Hge)]; [done|]. cbn in Hr0.
    rewrite <- Hrtt in Hr0.
    assert (r0 = r) as -> by congruence.
    rewrite (proj2 Hv (Hprep Hidem)) in Hge. lia. }
  intros rtt. destruct (decide (rtt = pr_rtt_id q)) as [->|Hne].
  - unfold load, calls_for in *. cbn in *. rewrite decide_True by done. cbn.
    rewrite Hws. split; [lia|]. intros _.
    exists (dispatching_record r at_). rewrite <- Hrtt. split; [done|]. cbn. lia.
  - pose proof (load_ok_advance s s' ws ws' calls Ha Hl) as Hrest.
    destruct (Hrest ltac:(intros; by rewrite Hws) rtt) as [H1 H2].
    unfold load, calls_for in *. cbn in *.
    by rewrite decide_False by done.
Qed.

Lemma blind_step_load c c' :
  blind_step c c' → Forall not_idempotent (c_workers c) → protocol_ok c → load_ok c → load_ok c'.
Proof.
  intros [Hstep _] Hb Hok Hl. destruct (dispatch_step_ok _ _ Hstep Hok) as [_ Ha].
  destruct Hstep as [env ad rtt at_ s s' x ws calls Hr|idem r s ws ws' calls Hp
    |env idem r at_ s s' x ws ws' calls Hp Hr|env ad r q at_ s s' x ws ws' calls Hp Hr
    |r q result s ws ws' calls Hp|env r result at_ s s' x ws ws' calls Hp Hr
    |w s ws ws' calls Hp|o s ws calls Ho]; cbn in *;
    try (eapply load_ok_advance; [exact Ha|exact Hl|intros rtt'; by rewrite (worker_load _ _ _ rtt' Hp); lia]).
  - eapply load_ok_advance; [done..|]. intros rtt'. by destruct x.
  - by eapply start_load.
  - intros rtt. destruct (Hl rtt) as [H1 H2]. unfold load, calls_for in *.
    cbn [c_calls c_workers c_store] in *.
    rewrite filter_app, length_app, !filter_cons, !filter_nil.
    rewrite (decide_False (P := about_to_call rtt (WCalled r result))) by (intros []).
    rewrite (worker_load _ _ _ rtt Hp) in H1, H2.
    assert (length (if decide (pr_rtt_id q = rtt) then [q] else []) =
      if decide (about_to_call rtt (WCalling r q)) then 1 else 0)%nat as ->
      by (by repeat case_decide).
    split; [lia|]. intros Hne. apply H2. lia.
  - by eapply load_ok_advance.
Qed.

Lemma blind_steps c :
  rtc blind_step idle c → Forall not_idempotent (c_workers c) ∧ protocol_ok c ∧ load_ok c.
Proof.
  revert c. apply (rtc_ind_r (λ c, Forall not_idempotent (c_workers c) ∧ protocol_ok c ∧ load_ok c)).
  - split; [constructor|]. split; [apply idle_ok|]. intros rtt. split; [cbn; lia|done].
  - intros c1 c2 _ Hstep (Hb & Hok & Hl). split; [apply Hstep|].
    split; [by eapply dispatch_step_ok; [apply Hstep|]|by eapply blind_step_load].
Qed.

(** *** The code's [dispatch] *)
Implicit Types (env : CoordinatorEnv P R).

Lemma dispatch_run {W'} env rtt (ad : ProviderAdapter W') at_ clock s w :
  dispatch env rtt ad at_ clock (s, w) =
  match operation_instant at_ clock with
  | Err e => (Err e, (s, w))
  | Ok now =>
      match dispatch_read env ad rtt now s with
      | (Err e, s1) => (Err e, (s1, w))
      | (Ok (Settled r), s1) => (Ok r, (s1, w))
      | (Ok (RecoveryBlocked r), s1) =>
          let '(x, s2) := complete env r
            (unknown_result "NON_IDEMPOTENT_RECOVERY_BLOCKED") now s1 in (x, (s2, w))
      | (Ok (ReadyToCall r q), s1) =>
          match dispatch_start env ad r now s1 with
          | (Err e, s2) => (Err e, (s2, w))
          | (Ok d, s2) =>
              let '(y, w1) := ad_submit ad q w in
              let result := match y with
                            | Ok result => result
                            | Err _ => unknown_result "ADAPTER_EXCEPTION_OUTCOME_UNKNOWN"
                            end in
              let '(x, s3) := complete env d result now s2 in (x, (s3, w1))
          end
      end
  end.
Proof.
  unfold dispatch, on_fst, on_snd, zoom, lift, mbind, M_bind. cbn [fst snd].
  destruct (operation_instant at_ clock) as [now|e]; [|done].
  destruct (dispatch_read env ad rtt now s) as [[[r|r|r q]|e] s1]; cbn [fst snd]; [done|done| |done].
  destruct (dispatch_start env ad r now s1) as [[d|e] s2]; cbn [fst snd]; [|done].
  unfold call_adapter, catch. by destruct (ad_submit ad q w) as [[result|e] w1].
Qed.

(** The adapter with a log of the requests it was handed. *)
Definition recorded {W'} (ad : ProviderAdapter W')
    : ProviderAdapter (W' * list ProviderExecutionRequest) :=
  {| ad_provider_id := ad_provider_id ad;
     ad_supports_idempotency := ad_supports_idempotency ad;
     ad_submit := λ q w, let '(x, w') := ad_submit ad q w.1 in (x, (w', w.2 ++ [q])) |}.

(** The state that an outcome leads to. *)
Definition state_of_outcome (o : ProviderOutcome) : ProviderSubmissionState :=
  match o with
  | OUT_ACCEPTED => SUB_ACCEPTED | OUT_REJECTED => SUB_REJECTED | OUT_UNKNOWN => SUB_UNKNOWN
  end.

Lemma completed_state r result at_ r' ty data :
  completed_record r result at_ = Ok (r', ty, data) →
  sub_state r' = state_of_outcome (out_outcome result) ∧
  sub_normalized_code r' = Some (upper (strip (out_code result))) ∧
  sub_external_reference r' = out_external_reference result ∧
  sub_disposition r' = out_disposition result.
Proof.
  unfold completed_record. intros Hc. inv_ok Hc.
  match goal with v : ProviderSubmissionState * string |- _ => destruct v as [st ty'] end.
  inv_ok Hc. simplify_eq/=.
  match goal with H : require_text _ _ = Ok _ |- _ => apply require_text_ok in H as [-> _] end.
  match goal with H : outcome_state _ = Ok _ |- _ => unfold outcome_state in H; destruct (out_outcome result); inv_ok H end;
    by simplify_eq.
Qed.

Lemma complete_state env r result at_ s r' s' :
  complete env r result at_ s = (Ok r', s') →
  sub_identity r' = sub_identity r ∧
  sub_state r' = state_of_outcome (out_outcome result) ∧
  sub_normalized_code r' = Some (upper (strip (out_code result))) ∧
  sub_external_reference r' = out_external_reference result ∧
  sub_disposition r' = out_disposition result.
Proof.
  rewrite complete_run.
  destruct (completed_record r result at_) as [[[r1 ty] data]|e] eqn:Hc; [|done].
  destruct (event _ _ _ _ _) as [row|e]; [|done].
  destruct (transition _ _ row s) as [[[]|e] s1]; [|done]. intros [= -> ->].
  split; [by eapply completed_record_ok|by eapply completed_state].
Qed.

(** What a dispatch that returns has done, on a store whose journal is in
    order.  It returns the stored, final submission.  Either that submission
    was already final and neither the store nor the provider was touched; or
    an earlier run had been interrupted and the adapter offers no idempotency:
    the provider is not called and the outcome is recorded as unknown; or the
    provider was called exactly once, with the request of this submission, and
    the state, code, reference and disposition are those that it answered,
    unknown if it raised. *)
Theorem dispatch_outcome {W'} env rtt (ad : ProviderAdapter W') at_ clock s w r s' w' :
  journal_ok s → dispatch env rtt ad at_ clock (s, w) = (Ok r, (s', w')) →
  final_state (sub_state r) = true ∧ stored s' (sub_rtt_id r) = Some r ∧
  ((s' = s ∧ w' = w) ∨
   (w' = w ∧ ad_supports_idempotency ad = false ∧ sub_state r = SUB_UNKNOWN ∧
    sub_normalized_code r = Some "NON_IDEMPOTENT_RECOVERY_BLOCKED") ∨
   (∃ q y, matches r q ∧ ad_submit ad q w = (y, w') ∧
      match y with
      | Ok result =>
          sub_state r = state_of_outcome (out_outcome result) ∧
          sub_normalized_code r = Some (upper (strip (out_code result))) ∧
          sub_external_reference r = out_external_reference result ∧
          sub_disposition r = out_disposition result
      | Err _ =>
          sub_state r = SUB_UNKNOWN ∧
          sub_normalized_code r = Some "ADAPTER_EXCEPTION_OUTCOME_UNKNOWN"
      end)).
Proof.
  intros Hj. rewrite dispatch_run.
  destruct (operation_instant at_ clock) as [now|e]; [|done].
  destruct (dispatch_read env ad rtt now s) as [[d|e] s1] eqn:Hr; [|done].
  destruct (dispatch_read_step _ _ _ _ _ _ _ Hj Hr) as (Hj1 & _ & Hok). specialize (Hok d eq_refl).
  destruct (dispatch_read_cases _ _ _ _ _ _ _ (jo_wf _ Hj) Hr) as [Heff Hd].
  destruct (Hd d eq_refl) as (r0 & q0 & Hst & Hm & Hdec).
  apply decide_dispatch_ok in Hdec as [[-> Hf]|[(-> & Hf & Hno)|(-> & Hf & _)]].
  - intros [= <- <- <-]. split; [done|]. split; [done|]. left. split; [|done].
    destruct Heff as [->|(q & r1 & row & Ho & _ & _ & Hx)]; [done|].
    apply offer_ok in Ho as (_ & _ & _ & _ & _ & Hs & _). symmetry in Hx.
    apply decide_dispatch_ok in Hx as [[[= <-] Hx]|[[? _]|[? _]]]; [|done..].
    by rewrite Hs in Hx.
  - cbn in Hok. destruct Hok as [Hk Hdis].
    destruct (complete env r0 _ now s1) as [x s2] eqn:Hc. intros [= -> <- <-].
    destruct (complete_state _ _ _ _ _ _ _ Hc) as (Hi & Hs & Hcode & _).
    destruct (complete_step _ _ _ _ _ _ _ Hj1 Hk Hdis Hc) as (_ & _ & Hfin).
    destruct (Hfin r eq_refl) as (Hfr & _ & Hst').
    assert (sub_rtt_id r = sub_rtt_id r0) as Hrtt by (by injection Hi). rewrite Hrtt.
    split; [done|]. split; [done|]. by right; left.
  - destruct Hok as (Hk & _).
    destruct (dispatch_start env ad r0 now s1) as [[d|e] s2] eqn:Hds; [|done].
    destruct (dispatch_start_step _ _ _ _ _ _ _ Hj1 Hk Hf Hds) as (Hj2 & _ & Hd2).
    destruct (Hd2 d eq_refl) as (-> & _ & Hst2).
    pose proof (known_stored _ (dispatching_record r0 now) (jo_wf _ Hj2) Hst2) as Hk2.
    destruct (ad_submit ad q0 w) as [y w1] eqn:Hy. cbv zeta.
    destruct (complete env (dispatching_record r0 now) _ now s2) as [x s3] eqn:Hc.
    intros [= -> <- <-].
    destruct (complete_state _ _ _ _ _ _ _ Hc) as (Hi & Hs & Hcode & Href & Hdisp).
    destruct (complete_step _ _ _ _ _ _ _ Hj2 Hk2 eq_refl Hc) as (_ & _ & Hfin).
    destruct (Hfin r eq_refl) as (Hfr & _ & Hst').
    assert (sub_rtt_id r = sub_rtt_id (dispatching_record r0 now)) as Hrtt by (by injection Hi).
    rewrite Hrtt. split; [done|]. split; [done|]. right; right. exists q0, y.
    split; [eapply matches_identity; [exact Hi|exact Hm]|]. split; [done|].
    destruct y as [result|e]; [done|]. by rewrite Hcode.
Qed.

(** One step of a run of [dispatch] with the adapter [ad]: every worker that
    it adds has the adapter's idempotency. *)
Definition step_with {W'} (ad : ProviderAdapter W') (c c' : config) : Prop :=
  dispatch_step (P := P) (R := R) (W := W') c c' ∧
  (ad_supports_idempotency ad = false →
   Forall not_idempotent (c_workers c) → Forall not_idempotent (c_workers c')).

Lemma dispatch_trace {W'} env rtt (ad : ProviderAdapter W') at_ clock s w log x s' w' log'
    ws calls :
  dispatch env rtt (recorded ad) at_ clock (s, (w, log)) = (x, (s', (w', log'))) →
  ∃ qs, log' = log ++ qs ∧ (length qs <= 1)%nat ∧
    rtc (step_with (recorded ad)) (Config s ws calls) (Config s' ws (calls ++ qs)).
Proof.
  rewrite dispatch_run.
  destruct (operation_instant at_ clock) as [now|e].
  2: { intros [= _ <- _ <-]. exists []. rewrite !app_nil_r. split; [done|]. split; [cbn; lia|apply rtc_refl]. }
  destruct (dispatch_read env (recorded ad) rtt now s) as [y s1] eqn:Hr.
  assert (step_with (recorded ad) (Config s ws calls)
    (Config s1 (goes_on (WRead (ad_supports_idempotency (recorded ad))) y ws) calls)) as Hread.
  { split; [by eapply step_read|]. intros Hi Hb. destruct y; cbn; [by constructor|done]. }
  destruct y as [[r|r|r q]|e]; cbn [goes_on] in Hread.
  - intros [= _ <- _ <-]. exists []. rewrite !app_nil_r. split; [done|]. split; [cbn; lia|].
    eapply rtc_l; [exact Hread|]. apply rtc_once.
    split; [by eapply step_settled|]. by intros _ [_ ?]%Forall_cons.
  - destruct (complete env r _ now s1) as [z s2] eqn:Hc. intros [= _ <- _ <-].
    exists []. rewrite !app_nil_r. split; [done|]. split; [cbn; lia|].
    eapply rtc_l; [exact Hread|]. apply rtc_once.
    split; [by eapply step_blocked|]. by intros _ [_ ?]%Forall_cons.
  - destruct (dispatch_start env (recorded ad) r now s1) as [z s2] eqn:Hs.
    assert (step_with (recorded ad)
      (Config s1 (WRead (ad_supports_idempotency (recorded ad)) (ReadyToCall r q) :: ws) calls)
      (Config s2 (goes_on (λ d, WCalling d q) z ws) calls)) as Hstart.
    { split; [by eapply step_start|]. intros _ [_ ?]%Forall_cons. destruct z; cbn; [by constructor|done]. }
    destruct z as [d|e]; cbn [goes_on] in Hstart.
    2: { intros [= _ <- _ <-]. exists []. rewrite !app_nil_r. split; [done|]. split; [cbn; lia|].
         eapply rtc_l; [exact Hread|]. by apply rtc_once. }
    cbn [recorded ad_submit fst snd]. destruct (ad_submit ad q w) as [y w1].
    destruct (complete env d _ now s2) as [u s3] eqn:Hc. intros [= _ <- _ <-].
    exists [q]. split; [done|]. split; [cbn; lia|].
    eapply rtc_l; [exact Hread|]. eapply rtc_l; [exact Hstart|].
    eapply rtc_l.
    { split; [by eapply (step_call d q)|]. intros _ [_ ?]%Forall_cons. by constructor. }
    apply rtc_once. split; [by eapply step_complete|]. by intros _ [_ ?]%Forall_cons.
  - intros [= _ <- _ <-]. exists []. rewrite !app_nil_r. split; [done|]. split; [cbn; lia|].
    by apply rtc_once.
Qed.

(** A worker that dies right after it has called the provider. *)
Lemma interrupted env (ad : ProviderAdapter W) rtt at_ s r q s1 d s2 calls :
  dispatch_read env ad rtt at_ s = (Ok (ReadyToCall r q), s1) →
  dispatch_start env ad r at_ s1 = (Ok d, s2) →
  rtc step (Config s [] calls) (Config s2 [] (calls ++ [q])).
Proof.
  intros Hr Hs. eapply rtc_l; [by eapply (step_read env ad)|].
  eapply rtc_l; [by eapply (step_start env ad r q at_ _ _ _ _ []); [done|exact Hs]|].
  eapply rtc_l; [by apply (step_call d q (unknown_result EmptyString) s2 [WCalling d q] [])|].
  apply rtc_once.
  by apply (step_crash (WCalled d (unknown_result EmptyString)) s2 [WCalled d (unknown_result EmptyString)] []).
Qed.

(** C8: the code's dispatch is a run of the protocol.  Whatever it returns or
    raises, and whatever other workers are doing, the store operations and the
    provider calls of one [dispatch] are a sequence of protocol steps, so that
    every guarantee of the protocol holds for it. *)
Theorem dispatch_is_a_run {W'} env rtt (ad : ProviderAdapter W') at_ clock s w log x s' w' log'
    ws calls :
  dispatch env rtt (recorded ad) at_ clock (s, (w, log)) = (x, (s', (w', log'))) →
  ∃ qs, log' = log ++ qs ∧ (length qs <= 1)%nat ∧
    rtc (dispatch_step (P := P) (R := R) (W := W' * list ProviderExecutionRequest))
      (Config s ws calls) (Config s' ws (calls ++ qs)).
Proof.
  intros Hd. destruct (dispatch_trace _ _ _ _ _ _ _ _ _ _ _ _ ws calls Hd) as (qs & ? & ? & Hs).
  exists qs. split; [done|]. split; [done|]. eapply rtc_subrel; [|exact Hs]. by intros c c' [].
Qed.

(** C3: a provider that offers no idempotency is called at most once per RTT.
    In every interleaving of workers that dispatch, crash anywhere and start
    over, and of the relay, starting from an empty store, as long as the
    adapters offer no idempotency the provider is handed at most one request
    for each RTT. *)
Theorem provider_called_at_most_once c rtt :
  rtc blind_step idle c → (length (calls_for rtt c) <= 1)%nat.
Proof.
  intros (_ & _ & Hl)%blind_steps. destruct (Hl rtt) as [Hle _]. unfold load in Hle. lia.
Qed.

(** C7: repeated provider calls are replays.  In every interleaving, with any
    adapters, two requests handed to the provider for the same RTT carry the
    same idempotency key and the same request hash, namely those of the stored
    submission, and requests for different RTTs carry different keys. *)
Theorem provider_calls_replay c q q' :
  rtc step idle c → q ∈ c_calls c → q' ∈ c_calls c →
  (∃ r, stored (c_store c) (pr_rtt_id q) = Some r ∧
     pr_idempotency_key q = sub_idempotency_key r ∧
     pr_request_sha256 q = sub_request_sha256 r ∧ sub_state r ≠ SUB_PREPARED) ∧
  (pr_rtt_id q = pr_rtt_id q' →
     pr_idempotency_key q = pr_idempotency_key q' ∧
     pr_request_sha256 q = pr_request_sha256 q') ∧
  (pr_idempotency_key q = pr_idempotency_key q' → pr_rtt_id q = pr_rtt_id q').
Proof.
  intros Hsteps Hq Hq'. destruct (dispatch_steps_ok _ _ Hsteps idle_ok) as [Hok _].
  destruct (po_calls _ Hok _ Hq) as (r & Hs & (Hr1 & Hr2 & Hr3) & Hv).
  destruct (po_calls _ Hok _ Hq') as (r' & Hs' & (Hr1' & Hr2' & Hr3') & Hv').
  pose proof (po_journal _ Hok) as Hj. split; [|split].
  - exists r. repeat split; try congruence. intros Hst.
    destruct (jo_sub _ Hj _ _ Hs) as [_ Hiff]. apply Hiff in Hst. lia.
  - intros Heq. rewrite Heq in Hs. assert (r' = r) as -> by congruence. split; congruence.
  - intros Heq. pose proof (jo_key _ Hj _ _ Hs). pose proof (jo_key _ Hj _ _ Hs'). congruence.
Qed.

(** C6: the transactional outbox.  In every interleaving, each stored
    submission has gone through versions 1 to its current one and every one of
    them is reported by a stored signed event; conversely every stored event
    reports such a version of a stored submission.  Whatever happens next, the
    submission keeps its identity, its version never falls, and once it is
    accepted, rejected or unknown it never changes. *)
Theorem submission_journal c c' k r :
  rtc step idle c → rtc step c c' → stored (c_store c) k = Some r →
  submission_ok r ∧
  (∀ n, 1 <= n <= sub_version r →
     ∃ id row, dget (outbox (c_store c)) id = Some row ∧ announces row r n) ∧
  (∀ id row, dget (outbox (c_store c)) id = Some row →
     ∃ k' r' n, stored (c_store c) k' = Some r' ∧ announces row r' n ∧
       1 <= n <= sub_version r') ∧
  ∃ r', stored (c_store c') k = Some r' ∧ rtc sub_step r r' ∧
    sub_identity r' = sub_identity r ∧ sub_version r <= sub_version r' ∧
    (final_state (sub_state r) = true → r' = r).
Proof.
  intros Hc Hc' Hs. destruct (dispatch_steps_ok _ _ Hc idle_ok) as [Hok _].
  destruct (dispatch_steps_ok _ _ Hc' Hok) as [_ Ha].
  pose proof (po_journal _ Hok) as Hj. split; [by eapply jo_sub|].
  split; [intros n Hn; by eapply jo_events|]. split; [apply Hj|].
  destruct (Ha _ _ Hs) as (r' & Hs' & Hr). exists r'.
  destruct (sub_steps_facts _ _ Hr) as (? & ? & _ & _ & ?). done.
Qed.
End claims.

(** ** Concrete runs *)
Module DemoDispatch.
Import ToyEd25519 DemoContracts DemoRoutes DemoExecution.

Definition demo_resolver : InMemoryAccountEndpointResolver :=
  (register_endpoint (PStr "BANK") (PStr "B") (PStr "acct-ref") ∅).2.
Definition coordinator_env : CoordinatorEnv InMemoryEd25519KeyProvider InMemoryAccountEndpointResolver :=
  {| co_keys := demo_keys; co_contracts := demo_store; co_executions := store2;
     co_resolver := demo_resolver; co_event_key := "KX" |}.
Definition demo_rtt : string := rtt_id (new_attempt_of worker1).
(** An adapter that counts its calls and accepts. *)
Definition accepting : ProviderAdapter nat :=
  {| ad_provider_id := "MPESA"; ad_supports_idempotency := false;
     ad_submit := λ q n, (Ok {| out_outcome := OUT_ACCEPTED; out_code := "ok";
       out_external_reference := Some "EXT-1"; out_disposition := None;
       out_context := [(PStr "checkout_id", PStr "C1")] |}, S n) |}.
Definition no_submission : ProviderSubmissionRecord :=
  prepared_record EmptyString EmptyString EmptyString EmptyString EmptyString EmptyString 0.
Definition no_request : ProviderExecutionRequest :=
  {| pr_idempotency_key := EmptyString; pr_request_sha256 := EmptyString;
    pr_utt_id := EmptyString; pr_rtt_id := EmptyString; pr_attempt_number := 0;
    pr_provider_id := EmptyString; pr_adapter_binding_ref := EmptyString;
    pr_rail := EmptyString; pr_amount_minor := 0; pr_currency_from := EmptyString;
    pr_receive_amount_minor := 0; pr_currency_to := EmptyString;
    pr_source_institution_id := EmptyString; pr_destination_institution_id := EmptyString;
    pr_payer_account_reference := EmptyString;
    pr_beneficiary_account_reference := EmptyString |}.

(** A worker's stages, each evaluated once. *)
Definition prepared_run (t : Z) (s : OperationsStore)
    : res (ProviderSubmissionRecord * ProviderExecutionRequest) * OperationsStore :=
  prepare coordinator_env demo_rtt (Some (Aware (seconds t))) (seconds t) s.
Definition started_run (ad : ProviderAdapter nat) (r : ProviderSubmissionRecord) (t : Z)
    (s : OperationsStore) : res ProviderSubmissionRecord * OperationsStore :=
  dispatch_start coordinator_env ad r (seconds t) s.
Definition the_result : ProviderSubmissionResult :=
  {| out_outcome := OUT_ACCEPTED; out_code := "ok"; out_external_reference := Some "EXT-1";
     out_disposition := None; out_context := [(PStr "checkout_id", PStr "C1")] |}.
Definition completed_run (r : ProviderSubmissionRecord) (t : Z) (s : OperationsStore)
    : res ProviderSubmissionRecord * OperationsStore :=
  complete coordinator_env r the_result (seconds t) s.

Definition prepared1 : res (ProviderSubmissionRecord * ProviderExecutionRequest) * OperationsStore :=
  Eval vm_compute in prepared_run 300 no_operations.
Definition first_record : ProviderSubmissionRecord := (from_ok (no_submission, no_request) prepared1.1).1.
Definition first_request : ProviderExecutionRequest := (from_ok (no_submission, no_request) prepared1.1).2.
Definition started1 : res ProviderSubmissionRecord * OperationsStore := Eval vm_compute in
  started_run accepting first_record 300 prepared1.2.
Definition completed1 : res ProviderSubmissionRecord * OperationsStore := Eval vm_compute in
  completed_run (from_ok no_submission started1.1) 300 started1.2.

Lemma prepared1_eq : prepared_run 300 no_operations = prepared1.
Proof. vm_compute. reflexivity. Qed.
Lemma started1_eq : started_run accepting first_record 300 prepared1.2 = started1.
Proof. vm_compute. reflexivity. Qed.
Lemma completed1_eq :
  completed_run (from_ok no_submission started1.1) 300 started1.2 = completed1.
Proof. vm_compute. reflexivity. Qed.

Lemma prepared_reads {W} (ad : ProviderAdapter W) t s r q s1 :
  prepared_run t s = (Ok (r, q), s1) → decide_dispatch ad r q = Ok (ReadyToCall r q) →
  dispatch_read coordinator_env ad demo_rtt (seconds t) s = (Ok (ReadyToCall r q), s1).
Proof.
  unfold prepared_run, dispatch_read. intros Hp Hd.
  rewrite (run_bind_eq _ _ _ _ _ Hp). unfold lift. by rewrite Hd.
Qed.

(** The stages of a logged dispatch, composed. *)
Lemma dispatch_stages (ad : ProviderAdapter nat) t s n l r q s1 d s2 r' s3 :
  prepared_run t s = (Ok (r, q), s1) →
  decide_dispatch (recorded ad) r q = Ok (ReadyToCall r q) →
  started_run ad r t s1 = (Ok d, s2) → ad_submit ad q n = (Ok the_result, S n) →
  completed_run d t s2 = (Ok r', s3) →
  dispatch coordinator_env demo_rtt (recorded ad) (Some (Aware (seconds t))) 0 (s, (n, l)) =
  (Ok r', (s3, (S n, l ++ [q]))).
Proof.
  intros Hp Hd Hs Hc Hf. unfold dispatch. rewrite (run_lift_bind _ _ (seconds t)) by done.
  unfold mbind, M_bind, on_fst, on_snd, zoom. cbn [fst snd].
  rewrite (prepared_reads (recorded ad) t s r q s1 Hp Hd).
  assert (dispatch_start coordinator_env (recorded ad) r (seconds t) (s1, (n, l)).1 = (Ok d, s2))
    as -> by exact Hs.
  assert (call_adapter (recorded ad) q (n, l) = (Ok the_result, (S n, l ++ [q]))) as Hcall.
  { unfold call_adapter, catch, recorded. cbn. by rewrite Hc. }
  cbn [fst snd]. rewrite Hcall. cbn [fst snd].
  assert (complete coordinator_env d the_result (seconds t) s2 = (Ok r', s3)) as -> by exact Hf.
  done.
Qed.

Definition dispatched : ProviderSubmissionRecord := from_ok no_submission completed1.1.
Definition dispatched_store : OperationsStore := completed1.2.
Definition requests : list ProviderExecutionRequest := [first_request].

Lemma recorded_run :
  dispatch coordinator_env demo_rtt (recorded accepting) (Some (Aware (seconds 300))) 0
    (no_operations, (0%nat, [])) = (Ok dispatched, (dispatched_store, (1%nat, requests))).
Proof.
  apply (dispatch_stages accepting 300 no_operations 0 [] first_record first_request prepared1.2
    (from_ok no_submission started1.1) started1.2 dispatched dispatched_store).
  - exact prepared1_eq.
  - vm_compute. reflexivity.
  - exact started1_eq.
  - reflexivity.
  - exact completed1_eq.
Qed.

Definition provider_step : config → config → Prop :=
  dispatch_step (P := InMemoryEd25519KeyProvider) (R := InMemoryAccountEndpointResolver)
    (W := nat * list ProviderExecutionRequest).

Lemma demo_steps :
  rtc (step_with (P := InMemoryEd25519KeyProvider) (R := InMemoryAccountEndpointResolver)
         (recorded accepting)) idle (Config dispatched_store [] requests).
Proof.
  destruct (dispatch_trace coordinator_env demo_rtt accepting _ 0 no_operations 0%nat []
    _ _ _ _ [] [] recorded_run) as (qs & Hqs & _ & Hs). change (requests = qs) in Hqs. subst qs. exact Hs.
Qed.

(** An idempotent adapter: its first worker dies after the call, a second one
    starts over. *)
Definition replaying : ProviderAdapter nat :=
  {| ad_provider_id := "mpesa"; ad_supports_idempotency := true;
     ad_submit := ad_submit accepting |}.
Definition first_start : res ProviderSubmissionRecord * OperationsStore := Eval vm_compute in
  started_run replaying first_record 300 prepared1.2.
Definition prepared2 : res (ProviderSubmissionRecord * ProviderExecutionRequest) * OperationsStore :=
  Eval vm_compute in prepared_run 310 first_start.2.
Definition second_record : ProviderSubmissionRecord := (from_ok (no_submission, no_request) prepared2.1).1.
Definition second_request : ProviderExecutionRequest := (from_ok (no_submission, no_request) prepared2.1).2.
Definition started2 : res ProviderSubmissionRecord * OperationsStore := Eval vm_compute in
  started_run replaying second_record 310 prepared2.2.
Definition completed2 : res ProviderSubmissionRecord * OperationsStore := Eval vm_compute in
  completed_run (from_ok no_submission started2.1) 310 started2.2.
Definition second_requests : list ProviderExecutionRequest := [second_request].

Lemma first_start_eq : started_run replaying first_record 300 prepared1.2 = first_start.
Proof. vm_compute. reflexivity. Qed.
Lemma prepared2_eq : prepared_run 310 first_start.2 = prepared2.
Proof. vm_compute. reflexivity. Qed.
Lemma started2_eq : started_run replaying second_record 310 prepared2.2 = started2.
Proof. vm_compute. reflexivity. Qed.
Lemma completed2_eq :
  completed_run (from_ok no_submission started2.1) 310 started2.2 = completed2.
Proof. vm_compute. reflexivity. Qed.

Lemma first_reads :
  dispatch_read coordinator_env (recorded replaying) demo_rtt (seconds 300) no_operations
  = (Ok (ReadyToCall first_record first_request), prepared1.2).
Proof.
  apply prepared_reads; [exact prepared1_eq|vm_compute; reflexivity].
Qed.
Lemma second_run :
  dispatch coordinator_env demo_rtt (recorded replaying) (Some (Aware (seconds 310))) 0
    (first_start.2, (0%nat, [])) =
  (Ok (from_ok no_submission completed2.1), (completed2.2, (1%nat, second_requests))).
Proof.
  apply (dispatch_stages replaying 310 first_start.2 0 [] second_record second_request prepared2.2
    (from_ok no_submission started2.1) started2.2 _ completed2.2).
  - exact prepared2_eq.
  - vm_compute. reflexivity.
  - exact started2_eq.
  - reflexivity.
  - exact completed2_eq.
Qed.

Lemma replay_steps :
  rtc provider_step idle (Config completed2.2 [] (first_request :: second_requests)).
Proof.
  etrans.
  { exact (interrupted coordinator_env (recorded replaying) demo_rtt (seconds 300) no_operations
      first_record first_request prepared1.2 (from_ok no_submission first_start.1) first_start.2
      [] first_reads first_start_eq). }
  destruct (dispatch_trace coordinator_env demo_rtt replaying _ 0 _ 0%nat []
    _ _ _ _ [] [first_request] second_run) as (qs & Hqs & _ & Hs).
  change (second_requests = qs) in Hqs. subst qs.
  eapply rtc_subrel; [|exact Hs]. by intros c c' [].
Qed.
End DemoDispatch.
Import ToyEd25519 DemoContracts DemoExecution DemoDispatch.

Lemma provider_called_at_most_once_witness :
  length (calls_for demo_rtt (Config dispatched_store [] requests)) = 1%nat ∧
  (length (calls_for demo_rtt (Config dispatched_store [] requests)) <= 1)%nat.
Proof.
  split; [vm_compute; reflexivity|].
  apply (provider_called_at_most_once (P := InMemoryEd25519KeyProvider)
    (R := InMemoryAccountEndpointResolver) (W := nat * list ProviderExecutionRequest)).
  assert (Forall not_idempotent (c_workers idle)) as Hb by constructor.
  revert Hb. induction demo_steps as [c|c c1 c2 [Hstep Hblind] _ IH]; intros Hb; [apply rtc_refl|].
  specialize (Hblind eq_refl Hb). eapply rtc_l; [by split|by apply IH].
Defined.

Lemma provider_calls_replay_witness :
  head second_requests = Some second_request ∧
  pr_idempotency_key first_request = pr_idempotency_key second_request ∧
  pr_request_sha256 first_request = pr_request_sha256 second_request.
Proof.
  assert (head second_requests = Some second_request) as Hq by reflexivity.
  assert (pr_rtt_id first_request = pr_rtt_id second_request) as Hrtt by (vm_compute; reflexivity).
  pose proof (head_Some_elem_of _ _ Hq) as Hin.
  refine (conj Hq _).
  refine (proj1 (proj2 (provider_calls_replay _ first_request second_request replay_steps _ _)) Hrtt).
  - exact (list_elem_of_here _ _).
  - exact (list_elem_of_further _ _ _ Hin).
Defined.

Lemma submission_journal_witness :
  sub_version dispatched = 3 ∧ sub_state dispatched = SUB_ACCEPTED ∧
  ∃ id row, dget (outbox dispatched_store) id = Some row ∧ announces row dispatched 2.
Proof.
  split; [vm_compute; reflexivity|]. split; [vm_compute; reflexivity|].
  assert (stored dispatched_store demo_rtt = Some dispatched) as Hst by (vm_compute; reflexivity).
  assert (rtc provider_step idle (Config dispatched_store [] requests)) as Hsteps
    by (eapply rtc_subrel; [|exact demo_steps]; by intros c c' []).
  destruct (submission_journal _ _ demo_rtt dispatched Hsteps (rtc_refl _ _) Hst) as (_ & Hev & _).
  apply Hev. assert (sub_version dispatched = 3) as -> by (vm_compute; reflexivity). lia.
Defined.

Lemma dispatch_is_a_run_witness :
  ∃ qs, requests = [] ++ qs ∧ (length qs <= 1)%nat ∧
    rtc provider_step idle (Config dispatched_store [] ([] ++ qs)).
Proof.
  exact (dispatch_is_a_run coordinator_env demo_rtt accepting _ 0 no_operations 0%nat []
    _ _ _ _ [] [] recorded_run).
Defined.

Lemma dispatch_outcome_witness :
  final_state (sub_state dispatched) = true ∧
  stored dispatched_store (sub_rtt_id dispatched) = Some dispatched.
Proof.
  destruct (dispatch_outcome coordinator_env demo_rtt (recorded accepting) _ 0 no_operations
    (0%nat, []) dispatched _ _ journal_empty recorded_run) as (Hf & Hs & _).
  by split.
Defined.
