(* ===== verification/Identity.v ===== *)
(** [railone_identity]: attested, privacy-preserving identity continuity.
    [models.py] (records), [attestation.py] (institutional attestations) and
    [continuity.py] (seed normalisation, derivation of the identity anchor, the
    repository with its compare-and-swap revisions, the service).

    The Unicode tables behind [unicodedata.normalize] are a parameter. *)

From Stdlib Require Import Ascii String Strings.Byte.
From S2P Require Import Prelude.
From S2P Require Import PyBase.
From S2P Require Import Bytes.
From S2P Require Import Sha256.
From S2P Require Import CanonicalJson.
From S2P Require Import Keys.
From S2P Require Import Signatures.

(** ** [models.py] *)
Inductive TrustTier := T0 | T1 | T2 | T3 | T4 | T5.
Inductive IdentityStatus :=
  | ID_ACTIVE | ID_REVERIFICATION_REQUIRED | ID_SUSPENDED | ID_REVOKED.
#[global] Instance TrustTier_eq_dec : EqDecision TrustTier.
Proof. solve_decision. Defined.
#[global] Instance IdentityStatus_eq_dec : EqDecision IdentityStatus.
Proof. solve_decision. Defined.

(** [TrustTier(value)]; [None] where the constructor raises. *)
Definition TrustTier_of (s : string) : option TrustTier :=
  if String.eqb s "T0" then Some T0 else if String.eqb s "T1" then Some T1
  else if String.eqb s "T2" then Some T2 else if String.eqb s "T3" then Some T3
  else if String.eqb s "T4" then Some T4 else if String.eqb s "T5" then Some T5
  else None.

Record IdentityGenesis := {
  gen_rig_id : string;
  gen_continuity_uid : string;
  gen_continuity_key_id : string;
  gen_fingerprint : string;
  gen_provider_id : string;
  gen_verification_reference : string;
  gen_evidence_sha256 : string;
  gen_attestation_id : string;
  gen_created_at : instant;
}.

Record IdentityRevision := {
  riv_id : string;
  riv_rio_id : string;
  riv_continuity_uid : string;
  riv_revision : Z;
  riv_trust_tier : TrustTier;
  riv_status : IdentityStatus;
  riv_reason : string;
  riv_attestation_id : string;
  riv_created_at : instant;
}.

Record IdentityObject := {
  io_rio_id : string;
  io_railone_id : string;
  io_continuity_uid : string;
  io_rig_id : string;
  io_active_riv_id : string;
  io_corridor : string;
  io_status : IdentityStatus;
  io_created_at : instant;
}.

Record IdentityBundle := Bundle {
  genesis : IdentityGenesis;
  identity : IdentityObject;
  active_revision : IdentityRevision;
}.

#[global] Instance IdentityGenesis_eq_dec : EqDecision IdentityGenesis.
Proof. solve_decision. Defined.
#[global] Instance IdentityRevision_eq_dec : EqDecision IdentityRevision.
Proof. solve_decision. Defined.

(** ** [attestation.py] *)
Record AttestationValidationResult := AttestationResult {
  att_valid : bool;
  att_reason : string;
  att_claims : option mapping;
}.

(** [^[0-9a-f]{64}$] *)
Definition hex_digit (c : ascii) : bool :=
  is_digit c || (97 <=? code c) && (code c <=? 102).
Definition sha256_pattern (s : string) : bool :=
  (len s =? 64) && str_forall hex_digit s.

Definition required_strings : list string :=
  ["attestation_id"; "provider_id"; "provider_subject_reference"; "verification_reference";
   "country_code"; "verification_result"; "trust_tier"; "evidence_sha256"].

(** The first required field that is no text or is blank. *)
Definition bad_field (claims : mapping) : option string :=
  head (filter (λ f, match get claims f with
                     | Some (PStr t) => blank t
                     | _ => true
                     end = true) required_strings).

(** [isinstance(v, int)] is true of booleans too. *)
Definition int_claim (claims : mapping) (k : string) : option Z :=
  match get claims k with
  | Some (PInt n) => Some n
  | Some (PBool b) => Some (Z.b2z b)
  | _ => None
  end.

(** The text of a field that the loop has checked. *)
Definition claim (claims : mapping) (k : string) : string :=
  match get claims k with Some (PStr t) => t | _ => EmptyString end.

(** The checks after the signature, in their order: the reason of the first
    that fails. *)
Definition attestation_refusal (e : SignatureEnvelope) (expected_provider : string)
    (now : Z) : option string :=
  let claims := payload e in
  match bad_field claims with
  | Some f => Some (upper f +:+ "_INVALID")
  | None =>
    if negb (String.eqb (claim claims "provider_id") expected_provider)
    then Some "PROVIDER_MISMATCH" else
    if negb (eq_str (get (protected e) "iss") (claim claims "provider_id"))
    then Some "ATTESTATION_ISSUER_MISMATCH" else
    if negb (String.eqb (claim claims "verification_result") "VERIFIED")
    then Some "IDENTITY_NOT_VERIFIED" else
    if negb (is_some_b (TrustTier_of (claim claims "trust_tier")))
    then Some "TRUST_TIER_INVALID" else
    if negb (sha256_pattern (claim claims "evidence_sha256"))
    then Some "EVIDENCE_HASH_INVALID" else
    match int_claim claims "issued_at", int_claim claims "expires_at" with
    | Some issued, Some expires =>
        if expires <=? issued then Some "ATTESTATION_WINDOW_INVALID"
        else if now <? issued then Some "ATTESTATION_NOT_YET_VALID"
        else if expires <=? now then Some "ATTESTATION_EXPIRED"
        else None
    | _, _ => Some "ATTESTATION_TIME_INVALID"
    end
  end.

Definition attestation_verify `{!SigningKeyProvider P} `{Ed25519} (p : P)
    (e : SignatureEnvelope) (expected_provider : string) (at_ : instant)
    : res AttestationValidationResult :=
  check ← verify_artifact p e (Some IDENTITY_ATTESTATION) false;
  mret (if negb (valid check) then AttestationResult false (reason check) None
        else match attestation_refusal e expected_provider (epoch at_) with
             | Some why => AttestationResult false why None
             | None => AttestationResult true "VALID" (Some (payload e))
             end).

(** ** [continuity.py] *)
(** [unicodedata.normalize("NFKC", _)]: the tables are not in the source. *)
Class UnicodeData := nfkc : string → string.
Definition normalize `{UnicodeData} (value : string) : res string :=
  let normalized := upper (strip (nfkc value)) in
  _ ← raise_if (str_empty normalized) ValueError "identity seed value cannot be empty";
  mret normalized.

Record IdentitySeed := {
  seed_provider_id : string;
  seed_subject_reference : string;
  seed_country_code : string;
}.

(** [canonical_payload]: the seed with its values normalised. *)
Definition canonical_payload `{UnicodeData} (s : IdentitySeed) : res IdentitySeed :=
  provider ← normalize (seed_provider_id s);
  subject ← normalize (seed_subject_reference s);
  country ← normalize (seed_country_code s);
  mret {| seed_provider_id := provider; seed_subject_reference := subject;
          seed_country_code := country |}.

Definition seed_value (s : IdentitySeed) : pyval :=
  pdict [("provider_id", PStr (seed_provider_id s));
         ("provider_subject_reference", PStr (seed_subject_reference s));
         ("country_code", PStr (seed_country_code s))].

(** *** The secret provider *)
Class ContinuitySecretProvider (S : Type) :=
  derive : S → string → bytes → res bytes.

Definition InMemoryContinuitySecretProvider : Type := gmap string bytes.

Definition register_secret (key_id : string) (secret : bytes)
    : M InMemoryContinuitySecretProvider unit :=
  _ ← raise_if (length secret <? 32)%nat ValueError
        "continuity secret must contain at least 32 bytes";
  secrets ← getS;
  _ ← raise_if (is_some_b ((secrets : gmap string bytes) !! key_id)) ValueError
        ("duplicate continuity key: " +:+ key_id);
  putS (<[key_id := secret]> (secrets : gmap string bytes)).

#[global] Instance derive_in_memory : ContinuitySecretProvider InMemoryContinuitySecretProvider :=
  λ secrets key_id message,
    secret ← require ((secrets : gmap string bytes) !! key_id) KeyError
               ("continuity key not found: " +:+ key_id);
    mret (hmac_sha256 secret message).

(** *** The repository *)
Record InMemoryIdentityRepository := Identities {
  by_fingerprint : gmap string IdentityBundle;
  by_continuity_uid : gmap string IdentityBundle;
  revisions : gmap string (list IdentityRevision);
}.
Implicit Types (repo : InMemoryIdentityRepository) (b : IdentityBundle).

Definition no_identities : InMemoryIdentityRepository := Identities ∅ ∅ ∅.

Definition get_by_fingerprint repo (f : string) : option IdentityBundle :=
  by_fingerprint repo !! f.
Definition get_by_continuity_uid repo (uid : string) : option IdentityBundle :=
  by_continuity_uid repo !! uid.
Definition list_revisions repo (uid : string) : list IdentityRevision :=
  default [] (revisions repo !! uid).

Definition save b : M InMemoryIdentityRepository unit :=
  repo ← getS;
  let f := gen_fingerprint (genesis b) in
  let uid := io_continuity_uid (identity b) in
  _ ← raise_if (is_some_b (by_fingerprint repo !! f)) ValueError
        "identity fingerprint already exists";
  _ ← raise_if (is_some_b (by_continuity_uid repo !! uid)) ValueError
        "continuity UID already exists";
  putS (Identities (<[f := b]> (by_fingerprint repo)) (<[uid := b]> (by_continuity_uid repo))
          (<[uid := [active_revision b]]> (revisions repo))).

(** The anchor that no revision may change. *)
Definition anchor b :=
  (genesis b, io_rio_id (identity b), io_railone_id (identity b),
   io_continuity_uid (identity b), io_rig_id (identity b), io_corridor (identity b),
   io_created_at (identity b)).

Definition append_revision (expected : Z) b : M InMemoryIdentityRepository unit :=
  repo ← getS;
  let uid := io_continuity_uid (identity b) in
  let revision := active_revision b in
  current ← require (by_continuity_uid repo !! uid) LookupError
              ("continuity identity not found: " +:+ uid);
  _ ← raise_if (negb (riv_revision (active_revision current) =? expected)) RuntimeError
        "identity revision changed concurrently";
  _ ← raise_if (negb (riv_revision revision =? expected + 1)) ValueError
        "identity revision must advance exactly once";
  _ ← raise_if (negb (bool_decide (anchor current = anchor b))) ValueError
        "immutable identity anchor fields cannot change";
  _ ← raise_if (negb (String.eqb (io_active_riv_id (identity b)) (riv_id revision))) ValueError
        "identity projection must point to the active revision";
  _ ← raise_if (negb (bool_decide (io_status (identity b) = riv_status revision))) ValueError
        "identity projection status must match active revision";
  _ ← raise_if (negb (String.eqb (riv_rio_id revision) (io_rio_id (identity b)))
                || negb (String.eqb (riv_continuity_uid revision) uid)) ValueError
        "identity revision lineage does not match projection";
  history ← require (revisions repo !! uid) KeyError uid;
  _ ← raise_if (existsb (λ r, String.eqb (riv_attestation_id r) (riv_attestation_id revision))
                  history) ValueError
        "identity attestation was already used by a revision";
  putS (Identities
    (<[gen_fingerprint (genesis current) := b]> (by_fingerprint repo))
    (<[uid := b]> (by_continuity_uid repo))
    (<[uid := history ++ [revision]]> (revisions repo))).

(** *** [base64.b32encode(_).rstrip("=")] *)
Definition b32_char (v : Z) : ascii := if v <? 26 then chr (65 + v) else chr (24 + v).

(** Five bytes to eight characters. *)
Definition b32_group (v w x y z : Z) : string :=
  String (b32_char (v / 8)) (String (b32_char (v mod 8 * 4 + w / 64))
  (String (b32_char (w / 2 mod 32)) (String (b32_char (w mod 2 * 16 + x / 16))
  (String (b32_char (x mod 16 * 2 + y / 128)) (String (b32_char (y / 4 mod 32))
  (String (b32_char (y mod 4 * 8 + z / 32)) (String (b32_char (z mod 32)) EmptyString))))))).

Fixpoint b32_text (l : bytes) : string :=
  match l with
  | [] => EmptyString
  | [v] => str_take 2 (b32_group (bz v) 0 0 0 0)
  | [v; w] => str_take 4 (b32_group (bz v) (bz w) 0 0 0)
  | [v; w; x] => str_take 5 (b32_group (bz v) (bz w) (bz x) 0 0)
  | [v; w; x; y] => str_take 7 (b32_group (bz v) (bz w) (bz x) (bz y) 0)
  | v :: w :: x :: y :: z :: l' =>
      b32_group (bz v) (bz w) (bz x) (bz y) (bz z) +:+ b32_text l'
  end.

(** *** The service *)
(** [b"RAILONE-IDENTITY-CONTINUITY-V1\x00"] *)
Definition identity_domain : bytes :=
  encode_utf8 "RAILONE-IDENTITY-CONTINUITY-V1" ++ [x00].

Record OnboardingResult := Onboarded { onboarded : IdentityBundle; existing : bool }.

Definition identity_instant (at_ : option datetime) (clock : instant) : res instant :=
  aware "identity timestamp must be timezone-aware" (or_now at_ clock).

Section service.
Context {P : Type} `{!SigningKeyProvider P} `{Ed25519} `{UnicodeData}.
Context {S : Type} `{!ContinuitySecretProvider S}.

Record IdentityEnv := {
  ide_key_id : string;
  ide_secrets : S;
  ide_keys : P;
}.
Implicit Types (env : IdentityEnv).

(** The claims of a valid attestation that is about the seed. *)
Definition attested_claims env (seed : IdentitySeed) (attestation : SignatureEnvelope)
    (now : instant) : res mapping :=
  validation ← attestation_verify (ide_keys env) attestation (seed_provider_id seed) now;
  claims ← match att_valid validation, att_claims validation with
           | true, Some claims => mret claims
           | _, _ => raise PermissionError
                       ("identity attestation rejected: " +:+ att_reason validation)
           end;
  subject ← str_item claims "provider_subject_reference" ≫= normalize;
  _ ← raise_if (negb (String.eqb subject (seed_subject_reference seed))) PermissionError
        "identity attestation subject mismatch";
  country ← str_item claims "country_code" ≫= normalize;
  _ ← raise_if (negb (String.eqb country (seed_country_code seed))) PermissionError
        "identity attestation country mismatch";
  mret claims.

(** The digest that anchors an identity; [seed] is normalised. *)
Definition identity_digest env (seed : IdentitySeed) : res bytes :=
  b ← canonical_json_bytes (seed_value seed);
  derive (ide_secrets env) (ide_key_id env) (identity_domain ++ b).

(** What both operations establish before they look at the repository: the
    normalised seed, the attested claims and the digest. *)
Definition anchored env (seed : IdentitySeed) (attestation : SignatureEnvelope)
    (now : instant) : res (IdentitySeed * mapping * bytes) :=
  seed ← canonical_payload seed;
  claims ← attested_claims env seed attestation now;
  digest ← identity_digest env seed;
  mret (seed, claims, digest).

Definition tier_claim (claims : mapping) : res TrustTier :=
  t ← str_item claims "trust_tier";
  require (TrustTier_of t) ValueError (t +:+ " is not a valid TrustTier").

(** The bundle that a first onboarding stores. *)
Definition new_bundle env (seed : IdentitySeed) (claims : mapping) (digest : bytes)
    (corridor : string) (now : instant) : res IdentityBundle :=
  let segment := b32_text (take 20 digest) in
  let uid := "CUID-" +:+ segment in
  let riv := "RIV-" +:+ segment +:+ "-R1" in
  normalized_corridor ← normalize corridor;
  tier ← tier_claim claims;
  verification ← str_item claims "verification_reference";
  evidence ← str_item claims "evidence_sha256";
  attestation ← str_item claims "attestation_id";
  mret (Bundle
    {| gen_rig_id := "RIG-" +:+ segment; gen_continuity_uid := uid;
       gen_continuity_key_id := ide_key_id env; gen_fingerprint := hex digest;
       gen_provider_id := seed_provider_id seed; gen_verification_reference := verification;
       gen_evidence_sha256 := evidence; gen_attestation_id := attestation;
       gen_created_at := now |}
    {| io_rio_id := "RIO-" +:+ segment;
       io_railone_id := "R1-" +:+ normalized_corridor +:+ "-" +:+ segment;
       io_continuity_uid := uid; io_rig_id := "RIG-" +:+ segment; io_active_riv_id := riv;
       io_corridor := normalized_corridor; io_status := ID_ACTIVE; io_created_at := now |}
    {| riv_id := riv; riv_rio_id := "RIO-" +:+ segment; riv_continuity_uid := uid;
       riv_revision := 1; riv_trust_tier := tier; riv_status := ID_ACTIVE;
       riv_reason := "INITIAL_VERIFIED_ONBOARDING"; riv_attestation_id := attestation;
       riv_created_at := now |}).

Definition onboard env (seed : IdentitySeed) (attestation : SignatureEnvelope)
    (corridor : string) (at_ : option datetime) (clock : instant)
    : M InMemoryIdentityRepository OnboardingResult :=
  now ← lift (identity_instant at_ clock);
  '(seed, claims, digest) ← lift (anchored env seed attestation now);
  repo ← getS;
  match get_by_fingerprint repo (hex digest) with
  | Some b => mret (Onboarded b true)
  | None =>
      b ← lift (new_bundle env seed claims digest corridor now);
      _ ← save b;
      mret (Onboarded b false)
  end.

Definition get_identity repo (uid : string) : res IdentityBundle :=
  normalized ← normalize uid;
  require (get_by_continuity_uid repo normalized) LookupError
    ("continuity identity not found: " +:+ normalized).

Definition identity_history repo (uid : string) : res (list IdentityRevision) :=
  b ← get_identity repo uid;
  mret (list_revisions repo (io_continuity_uid (identity b))).

(** The bundle that a revision stores. *)
Definition revised_bundle (current : IdentityBundle) (claims : mapping)
    (status : IdentityStatus) (reason : string) (now : instant) : res IdentityBundle :=
  let i := identity current in
  let number := riv_revision (active_revision current) + 1 in
  let uid := io_continuity_uid i in
  let riv := "RIV-" +:+ substring 5 (String.length uid) uid +:+ "-R" +:+ str_int number in
  tier ← tier_claim claims;
  attestation ← str_item claims "attestation_id";
  mret (Bundle (genesis current)
    {| io_rio_id := io_rio_id i; io_railone_id := io_railone_id i; io_continuity_uid := uid;
       io_rig_id := io_rig_id i; io_active_riv_id := riv; io_corridor := io_corridor i;
       io_status := status; io_created_at := io_created_at i |}
    {| riv_id := riv; riv_rio_id := io_rio_id i; riv_continuity_uid := uid;
       riv_revision := number; riv_trust_tier := tier; riv_status := status;
       riv_reason := reason; riv_attestation_id := attestation; riv_created_at := now |}).

Definition revise env (seed : IdentitySeed) (attestation : SignatureEnvelope)
    (status : IdentityStatus) (reason : string) (at_ : option datetime) (clock : instant)
    : M InMemoryIdentityRepository IdentityBundle :=
  now ← lift (identity_instant at_ clock);
  normalized_reason ← lift (normalize reason);
  '(seed, claims, digest) ← lift (anchored env seed attestation now);
  repo ← getS;
  current ← require (get_by_fingerprint repo (hex digest)) LookupError
              "identity must be onboarded before it can be revised";
  _ ← raise_if (bool_decide (io_status (identity current) = ID_REVOKED)) PermissionError
        "revoked identity cannot be revised";
  b ← lift (revised_bundle current claims status normalized_reason now);
  _ ← append_revision (riv_revision (active_revision current)) b;
  mret b.
End service.
Arguments IdentityEnv : clear implicits.
