(* ===== verification/IdentityClaims.v ===== *)
(** What identity continuity promises: the repository's history invariant, the
    immutability of anchors, idempotent onboarding, the separation of
    identities, and exactly which attestations are accepted. *)

From Stdlib Require Import Ascii String Strings.Byte.
From S2P Require Import Prelude.
From S2P Require Import PyBase.
From S2P Require Import Bytes.
From S2P Require Import Sha256.
From S2P Require Import CanonicalJson.
From S2P Require Import CanonicalFacts.
From S2P Require Import Keys.
From S2P Require Import Signatures.
From S2P Require Import Identity.

Implicit Types (repo : InMemoryIdentityRepository) (b : IdentityBundle).

(** ** Base 32 keeps apart what it encodes *)
Lemma b32_char_check :
  forallb (λ n, forallb (λ m, negb (Ascii.eqb (b32_char (Z.of_nat n)) (b32_char (Z.of_nat m)))
    || (n =? m)%nat) (seq 0 32)) (seq 0 32) = true.
Proof. vm_compute. reflexivity. Qed.

Lemma b32_char_inj n m : 0 <= n < 32 → 0 <= m < 32 → b32_char n = b32_char m → n = m.
Proof.
  intros Hn Hm Heq. pose proof b32_char_check as Hall.
  rewrite forallb_forall in Hall. specialize (Hall (Z.to_nat n)).
  rewrite forallb_forall in Hall.
  specialize (Hall ltac:(apply in_seq; lia) (Z.to_nat m) ltac:(apply in_seq; lia)).
  rewrite !Z2Nat.id, Heq, Ascii.eqb_refl in Hall by lia. simpl in Hall.
  apply Nat.eqb_eq in Hall. lia.
Qed.

Ltac b32_inj H := apply b32_char_inj in H; [|div_lia..].

Lemma b32_group_inj v w x y z v' w' x' y' z' s s' :
  0 <= v < 256 → 0 <= w < 256 → 0 <= x < 256 → 0 <= y < 256 → 0 <= z < 256 →
  0 <= v' < 256 → 0 <= w' < 256 → 0 <= x' < 256 → 0 <= y' < 256 → 0 <= z' < 256 →
  b32_group v w x y z +:+ s = b32_group v' w' x' y' z' +:+ s' →
  v = v' ∧ w = w' ∧ x = x' ∧ y = y' ∧ z = z' ∧ s = s'.
Proof.
  intros Hv Hw Hx Hy Hz Hv' Hw' Hx' Hy' Hz' Heq. unfold b32_group in Heq.
  rewrite !str_app_cons, !str_app_nil_l in Heq.
  injection Heq as E1 E2 E3 E4 E5 E6 E7 E8 Hs.
  b32_inj E1. b32_inj E2. b32_inj E3. b32_inj E4. b32_inj E5. b32_inj E6. b32_inj E7. b32_inj E8.
  assert (v = v') as -> by div_lia. assert (w = w') as -> by div_lia.
  assert (x = x') as -> by div_lia. assert (y = y') as -> by div_lia.
  assert (z = z') as -> by div_lia. done.
Qed.

Lemma bz_inj a a' : bz a = bz a' → a = a'.
Proof. intros Heq. rewrite <- (byte_of_bz a), <- (byte_of_bz a'). by f_equal. Qed.

Lemma b32_text_group v w x y z l :
  b32_text (v :: w :: x :: y :: z :: l) =
  b32_group (bz v) (bz w) (bz x) (bz y) (bz z) +:+ b32_text l.
Proof. done. Qed.

(** For whole groups: the 20 bytes of an anchor are four. *)
Lemma b32_text_inj n l l' :
  length l = (5 * n)%nat → length l' = (5 * n)%nat → b32_text l = b32_text l' → l = l'.
Proof.
  revert l l'. induction n as [|n IH]; intros l l' Hl Hl' Heq.
  { by destruct l, l'. }
  destruct l as [|v [|w [|x [|y [|z l]]]]]; cbn [length] in Hl; try lia.
  destruct l' as [|v' [|w' [|x' [|y' [|z' l']]]]]; cbn [length] in Hl'; try lia.
  rewrite !b32_text_group in Heq.
  apply b32_group_inj in Heq as (Ev & Ew & Ex & Ey & Ez & Hs); [|apply bz_range..].
  apply bz_inj in Ev as ->. apply bz_inj in Ew as ->. apply bz_inj in Ex as ->.
  apply bz_inj in Ey as ->. apply bz_inj in Ez as ->.
  do 5 f_equal. apply IH; [lia|lia|done].
Qed.

(** ** The repository *)
Definition uid_of b : string := io_continuity_uid (identity b).

(** The history [h] of the bundle [b]. *)
Record history_ok b (h : list IdentityRevision) : Prop := {
  ho_last : last h = Some (active_revision b);
  ho_revision i r : h !! i = Some r →
    riv_revision r = Z.of_nat i + 1 ∧ riv_continuity_uid r = uid_of b ∧
    riv_rio_id r = io_rio_id (identity b);
  ho_attestations : NoDup (riv_attestation_id <$> h);
  ho_status : io_status (identity b) = riv_status (active_revision b);
  ho_active : io_active_riv_id (identity b) = riv_id (active_revision b);
}.

Record identities_wf repo : Prop := {
  iw_fingerprint f b : by_fingerprint repo !! f = Some b →
    gen_fingerprint (genesis b) = f ∧ by_continuity_uid repo !! uid_of b = Some b;
  iw_uid u b : by_continuity_uid repo !! u = Some b →
    uid_of b = u ∧ by_fingerprint repo !! gen_fingerprint (genesis b) = Some b;
  iw_history u b : by_continuity_uid repo !! u = Some b →
    ∃ h, revisions repo !! u = Some h ∧ history_ok b h;
}.

Lemma no_identities_wf : identities_wf no_identities.
Proof. split; intros ?? H; cbn in H; by rewrite lookup_empty in H. Qed.

Lemma history_number b h : history_ok b h → riv_revision (active_revision b) = Z.of_nat (length h).
Proof.
  intros Hh. pose proof (ho_last _ _ Hh) as Hl. rewrite last_lookup in Hl.
  destruct (ho_revision _ _ Hh _ _ Hl) as [-> _].
  destruct h; [done|]. cbn. lia.
Qed.

(** A bundle as a first onboarding makes it. *)
Definition first_bundle b : Prop := history_ok b [active_revision b].

Lemma save_cases b repo r repo' :
  save b repo = (r, repo') →
  (∃ e, r = Err e ∧ repo' = repo) ∨
  (r = Ok tt ∧ by_fingerprint repo !! gen_fingerprint (genesis b) = None ∧
   by_continuity_uid repo !! uid_of b = None ∧
   repo' = Identities (<[gen_fingerprint (genesis b) := b]> (by_fingerprint repo))
             (<[uid_of b := b]> (by_continuity_uid repo))
             (<[uid_of b := [active_revision b]]> (revisions repo))).
Proof. unfold save. intros Hs. run_paths; guards; eauto 10. Qed.

Lemma append_cases expected b repo r repo' :
  append_revision expected b repo = (r, repo') →
  (∃ e, r = Err e ∧ repo' = repo) ∨
  (∃ current h, r = Ok tt ∧ by_continuity_uid repo !! uid_of b = Some current ∧
     revisions repo !! uid_of b = Some h ∧
     riv_revision (active_revision current) = expected ∧
     riv_revision (active_revision b) = expected + 1 ∧ anchor current = anchor b ∧
     io_active_riv_id (identity b) = riv_id (active_revision b) ∧
     io_status (identity b) = riv_status (active_revision b) ∧
     riv_rio_id (active_revision b) = io_rio_id (identity b) ∧
     riv_continuity_uid (active_revision b) = uid_of b ∧
     riv_attestation_id (active_revision b) ∉ riv_attestation_id <$> h ∧
     repo' = Identities (<[gen_fingerprint (genesis current) := b]> (by_fingerprint repo))
               (<[uid_of b := b]> (by_continuity_uid repo))
               (<[uid_of b := h ++ [active_revision b]]> (revisions repo))).
Proof.
  intros Ha. destruct r as [[]|e].
  - right. unfold append_revision in Ha. inv_ok Ha. guards. guards.
    match goal with
    | H : existsb _ ?h = false, Hc : by_continuity_uid repo !! _ = Some ?c |- _ =>
        rename H into Hex; exists c, h
    end.
    do 10 (split; [done|]). split; [|done].
    intros (x & Hx & Hin)%list_elem_of_fmap.
    apply not_true_iff_false in Hex. apply Hex, existsb_exists. exists x.
    split; [by apply list_elem_of_In|by apply String.eqb_eq].
  - left. exists e. split; [done|]. unfold append_revision in Ha. err_keeps Ha.
Qed.

Lemma history_append b b' h :
  history_ok b h → anchor b = anchor b' →
  riv_revision (active_revision b') = riv_revision (active_revision b) + 1 →
  io_active_riv_id (identity b') = riv_id (active_revision b') →
  io_status (identity b') = riv_status (active_revision b') →
  riv_rio_id (active_revision b') = io_rio_id (identity b') →
  riv_continuity_uid (active_revision b') = uid_of b' →
  riv_attestation_id (active_revision b') ∉ riv_attestation_id <$> h →
  history_ok b' (h ++ [active_revision b']).
Proof.
  intros Hh Ha Hn Hriv Hst Hrio Huid Hnew.
  assert (uid_of b = uid_of b') as Hu by (unfold anchor in Ha; unfold uid_of; congruence).
  assert (io_rio_id (identity b) = io_rio_id (identity b')) as Hr by (unfold anchor in Ha; congruence).
  split; [by rewrite last_snoc| | |done|done].
  - intros i r [Hi|[Hle Hi]]%lookup_app_Some.
    + destruct (ho_revision _ _ Hh _ _ Hi) as (? & ? & ?). repeat split; congruence.
    + apply list_lookup_singleton_Some in Hi as [Hi <-].
      rewrite Hn, (history_number _ _ Hh). split; [lia|done].
  - rewrite fmap_app. apply NoDup_app. split; [apply Hh|].
    split; [|repeat constructor; set_solver].
    intros x Hx ->%list_elem_of_singleton. done.
Qed.

Lemma save_wf b repo r repo' :
  identities_wf repo → first_bundle b → save b repo = (r, repo') → identities_wf repo'.
Proof.
  intros Hwf Hb [(? & _ & ->)|(_ & Hf & Hu & ->)]%save_cases; [done|].
  split; cbn.
  - intros f b0 [[<- <-]|[Hne Hk]]%lookup_insert_Some.
    + split; [done|]. by rewrite lookup_insert_eq.
    + destruct (iw_fingerprint _ Hwf _ _ Hk) as [? Hk']. split; [done|].
      rewrite lookup_insert_ne; [done|]. intros Heq. rewrite <- Heq in Hk'. congruence.
  - intros u b0 [[<- <-]|[Hne Hk]]%lookup_insert_Some.
    + split; [done|]. by rewrite lookup_insert_eq.
    + destruct (iw_uid _ Hwf _ _ Hk) as [? Hk']. split; [done|].
      rewrite lookup_insert_ne; [done|]. intros Heq. rewrite <- Heq in Hk'. congruence.
  - intros u b0 [[<- <-]|[Hne Hk]]%lookup_insert_Some.
    + exists [active_revision b]. by rewrite lookup_insert_eq.
    + destruct (iw_history _ Hwf _ _ Hk) as (h & ? & ?). exists h.
      by rewrite lookup_insert_ne.
Qed.

Lemma append_wf expected b repo r repo' :
  identities_wf repo → append_revision expected b repo = (r, repo') → identities_wf repo'.
Proof.
  intros Hwf [(? & _ & ->)|(c & h & _ & Hc & Hh & Hv & Hv' & Ha & H1 & H2 & H3 & H4 & H5 & ->)]%append_cases;
    [done|].
  assert (uid_of c = uid_of b) as Hu by (unfold anchor in Ha; unfold uid_of; congruence).
  assert (genesis c = genesis b) as Hg by (unfold anchor in Ha; congruence).
  destruct (iw_uid _ Hwf _ _ Hc) as [_ Hcf].
  destruct (iw_history _ Hwf _ _ Hc) as (h' & Hh' & Hok). rewrite Hh in Hh'. injection Hh' as <-.
  split; cbn; rewrite Hg in *.
  - intros f b0 [[<- <-]|[Hne Hk]]%lookup_insert_Some.
    + split; [done|]. by rewrite lookup_insert_eq.
    + destruct (iw_fingerprint _ Hwf _ _ Hk) as [Hf Hk']. split; [done|].
      rewrite lookup_insert_ne; [done|]. intros Heq. rewrite <- Heq, Hc in Hk'.
      injection Hk' as <-. congruence.
  - intros u b0 [[<- <-]|[Hne Hk]]%lookup_insert_Some.
    + split; [done|]. by rewrite lookup_insert_eq.
    + destruct (iw_uid _ Hwf _ _ Hk) as [? Hk']. split; [done|].
      rewrite lookup_insert_ne; [done|]. intros Heq. rewrite <- Heq, Hcf in Hk'.
      injection Hk' as <-. congruence.
  - intros u b0 [[<- <-]|[Hne Hk]]%lookup_insert_Some.
    + exists (h ++ [active_revision b]). rewrite lookup_insert_eq. split; [done|].
      eapply history_append; try done. lia.
    + destruct (iw_history _ Hwf _ _ Hk) as (h2 & ? & ?). exists h2.
      by rewrite lookup_insert_ne.
Qed.

(** What a repository never forgets. *)
Definition identity_extends repo repo' : Prop :=
  ∀ u b, by_continuity_uid repo !! u = Some b →
    ∃ b', by_continuity_uid repo' !! u = Some b' ∧ anchor b' = anchor b ∧
      (∃ more, list_revisions repo' u = list_revisions repo u ++ more) ∧
      (io_status (identity b) = ID_REVOKED → b' = b).

Lemma identity_extends_refl repo : identity_extends repo repo.
Proof. intros u b Hu. exists b. do 2 (split; [done|]). split; [|done]. exists []. by rewrite app_nil_r. Qed.

Lemma identity_extends_trans r1 r2 r3 :
  identity_extends r1 r2 → identity_extends r2 r3 → identity_extends r1 r3.
Proof.
  intros H12 H23 u b Hu. destruct (H12 u b Hu) as (b2 & Hu2 & Ha2 & [m2 Hm2] & Hr2).
  destruct (H23 u b2 Hu2) as (b3 & Hu3 & Ha3 & [m3 Hm3] & Hr3).
  exists b3. split; [done|]. split; [congruence|]. split.
  - exists (m2 ++ m3). by rewrite Hm3, Hm2, app_assoc.
  - intros Hs. pose proof (Hr2 Hs) as ->. by apply Hr3.
Qed.

Lemma save_extends b repo r repo' : save b repo = (r, repo') → identity_extends repo repo'.
Proof.
  intros [(? & _ & ->)|(_ & _ & Hn & ->)]%save_cases; [apply identity_extends_refl|].
  intros u b0 Hu. exists b0. unfold list_revisions. cbn.
  assert (uid_of b ≠ u) as Hne by congruence. rewrite !lookup_insert_ne by done.
  do 2 (split; [done|]). split; [|done]. exists []. by rewrite app_nil_r.
Qed.

Lemma append_extends expected b repo r repo' :
  append_revision expected b repo = (r, repo') →
  (∀ c, by_continuity_uid repo !! uid_of b = Some c → io_status (identity c) ≠ ID_REVOKED) →
  identity_extends repo repo'.
Proof.
  intros [(? & _ & ->)|(c & h & _ & Hc & Hh & _ & _ & Ha & _ & _ & _ & _ & _ & ->)]%append_cases Hrev;
    [apply identity_extends_refl|].
  intros u b0 Hu. unfold list_revisions. cbn.
  destruct (decide (uid_of b = u)) as [<-|Hne].
  - rewrite Hc in Hu. injection Hu as <-. exists b. rewrite !lookup_insert_eq, Hh.
    split; [done|]. split; [done|]. split; [by exists [active_revision b]|].
    intros Hs. by destruct (Hrev c Hc).
  - exists b0. rewrite !lookup_insert_ne by done. do 2 (split; [done|]). split; [|done].
    exists []. by rewrite app_nil_r.
Qed.

(** ** The service *)
Section service.
Context {P : Type} `{!SigningKeyProvider P} `{Ed25519} `{UnicodeData}.
Context {S : Type} `{!ContinuitySecretProvider S}.
Implicit Types (env : IdentityEnv P S) (seed : IdentitySeed).

Lemma new_bundle_ok env seed claims digest corridor now b :
  new_bundle env seed claims digest corridor now = Ok b →
  first_bundle b ∧ gen_fingerprint (genesis b) = hex digest ∧
  uid_of b = "CUID-" +:+ b32_text (take 20 digest) ∧ io_status (identity b) = ID_ACTIVE.
Proof.
  unfold new_bundle. intros Hb. inv_ok Hb. subst. split; [|done].
  split; cbn; [done| |repeat constructor; set_solver|done..].
  intros i r [-> <-]%list_lookup_singleton_Some. done.
Qed.

Lemma revised_bundle_ok current claims status reason now b :
  revised_bundle current claims status reason now = Ok b →
  anchor b = anchor current ∧ uid_of b = uid_of current ∧ io_status (identity b) = status ∧
  riv_revision (active_revision b) = riv_revision (active_revision current) + 1.
Proof. unfold revised_bundle. intros Hb. inv_ok Hb. by subst. Qed.

(** What an onboarding did. *)
Lemma onboard_cases env seed att corridor at_ clock repo r repo' :
  onboard env seed att corridor at_ clock repo = (r, repo') →
  (∃ e, r = Err e ∧ repo' = repo) ∨
  (∃ now seed' claims digest b,
     identity_instant at_ clock = Ok now ∧
     anchored env seed att now = Ok (seed', claims, digest) ∧
     ((r = Ok (Onboarded b true) ∧ repo' = repo ∧ by_fingerprint repo !! hex digest = Some b) ∨
      (r = Ok (Onboarded b false) ∧ by_fingerprint repo !! hex digest = None ∧
       new_bundle env seed' claims digest corridor now = Ok b ∧
       save b repo = (Ok tt, repo')))).
Proof.
  unfold onboard, lift, getS, mbind, M_bind, get_by_fingerprint.
  destruct (identity_instant at_ clock) as [now|e] eqn:Hi; [|intros [= <- <-]; eauto].
  destruct (anchored env seed att now) as [[[seed' claims] digest]|e] eqn:Ha;
    [|intros [= <- <-]; eauto].
  destruct (by_fingerprint repo !! hex digest) as [b|] eqn:Hf.
  - intros [= <- <-]. right. exists now, seed', claims, digest, b. auto 10.
  - destruct (new_bundle env seed' claims digest corridor now) as [b|e] eqn:Hb;
      [|intros [= <- <-]; eauto].
    destruct (save b repo) as [[[]|e] repo1] eqn:Hs; intros [= <- <-].
    + right. exists now, seed', claims, digest, b. auto 10.
    + left. apply save_cases in Hs as [(? & _ & ->)|(? & _)]; [eauto|done].
Qed.

Lemma revise_cases env seed att status reason at_ clock repo r repo' :
  revise env seed att status reason at_ clock repo = (r, repo') →
  (∃ e, r = Err e ∧ repo' = repo) ∨
  (∃ now why seed' claims digest current b,
     r = Ok b ∧ anchored env seed att now = Ok (seed', claims, digest) ∧
     by_fingerprint repo !! hex digest = Some current ∧
     io_status (identity current) ≠ ID_REVOKED ∧
     revised_bundle current claims status why now = Ok b ∧
     append_revision (riv_revision (active_revision current)) b repo = (Ok tt, repo')).
Proof.
  unfold revise, lift, getS, mbind, M_bind, get_by_fingerprint.
  destruct (identity_instant at_ clock) as [now|e]; [|intros [= <- <-]; eauto].
  destruct (normalize reason) as [why|e]; [|intros [= <- <-]; eauto].
  destruct (anchored env seed att now) as [[[seed' claims] digest]|e] eqn:Ha;
    [|intros [= <- <-]; eauto].
  destruct (by_fingerprint repo !! hex digest) as [current|] eqn:Hf; cbn;
    [|intros [= <- <-]; eauto].
  destruct (bool_decide (io_status (identity current) = ID_REVOKED)) eqn:Hr; cbn;
    [intros [= <- <-]; eauto|]. apply bool_decide_eq_false in Hr.
  destruct (revised_bundle current claims status why now) as [b|e] eqn:Hb; cbn;
    [|intros [= <- <-]; eauto].
  destruct (append_revision _ b repo) as [[[]|e] repo1] eqn:Hap; intros [= <- <-].
  - right. exists now, why, seed', claims, digest, current, b. done.
  - left. apply append_cases in Hap as [(? & _ & ->)|(? & ? & ? & _)]; [eauto|done].
Qed.

(** Any operation of the service, whether it returns or raises. *)
Inductive identity_step : InMemoryIdentityRepository → InMemoryIdentityRepository → Prop :=
  | step_onboard env seed att corridor at_ clock repo r repo' :
      onboard env seed att corridor at_ clock repo = (r, repo') → identity_step repo repo'
  | step_revise env seed att status reason at_ clock repo r repo' :
      revise env seed att status reason at_ clock repo = (r, repo') → identity_step repo repo'.

Lemma identity_step_ok repo repo' :
  identity_step repo repo' → identities_wf repo →
  identities_wf repo' ∧ identity_extends repo repo'.
Proof.
  intros [env seed att corridor at_ clock ? r ? Ho|env seed att status reason at_ clock ? r ? Hr] Hwf.
  - apply onboard_cases in Ho as [(? & _ & ->)|(now & seed' & claims & digest & b & _ & _ &
      [(_ & -> & _)|(_ & _ & Hb & Hs)])]; [by split; [|apply identity_extends_refl]..|].
    apply new_bundle_ok in Hb as [Hb _]. split; [by eapply save_wf|by eapply save_extends].
  - apply revise_cases in Hr as [(? & _ & ->)|(now & why & seed' & claims & digest & c & b & _ & _ &
      Hc & Hst & Hb & Ha)]; [by split; [|apply identity_extends_refl]|].
    apply revised_bundle_ok in Hb as (_ & Hu & _ & _).
    split; [by eapply append_wf|]. eapply append_extends; [done|].
    intros c' Hc'. destruct (iw_fingerprint _ Hwf _ _ Hc) as [_ Hcu].
    rewrite Hu, Hcu in Hc'. by injection Hc' as <-.
Qed.

Lemma identity_steps_ok repo repo' :
  rtc identity_step repo repo' → identities_wf repo →
  identities_wf repo' ∧ identity_extends repo repo'.
Proof.
  induction 1 as [|repo repo1 repo2 Hstep _ IH]; intros Hwf; [by split; [|apply identity_extends_refl]|].
  destruct (identity_step_ok _ _ Hstep Hwf) as [Hwf1 He1].
  destruct (IH Hwf1) as [Hwf2 He2]. split; [done|]. by eapply identity_extends_trans.
Qed.

(** C36: identities keep their anchor.  After any onboardings and revisions,
    each identity is stored under its continuity UID and its fingerprint, its
    history counts revisions 1, 2, 3, ... of one lineage without using an
    attestation twice, and its projection is the last revision; whatever
    happens next, the genesis and the identifiers never change, the history
    only grows, and a revoked identity stays exactly as it is. *)
Theorem identity_anchor_immutable repo repo' u b :
  rtc identity_step no_identities repo → rtc identity_step repo repo' →
  by_continuity_uid repo !! u = Some b →
  uid_of b = u ∧ by_fingerprint repo !! gen_fingerprint (genesis b) = Some b ∧
  history_ok b (list_revisions repo u) ∧
  ∃ b', by_continuity_uid repo' !! u = Some b' ∧ anchor b' = anchor b ∧
    (∃ more, list_revisions repo' u = list_revisions repo u ++ more) ∧
    (io_status (identity b) = ID_REVOKED → b' = b).
Proof.
  intros Hr Hr' Hu. destruct (identity_steps_ok _ _ Hr no_identities_wf) as [Hwf _].
  destruct (identity_steps_ok _ _ Hr' Hwf) as [_ He].
  destruct (iw_uid _ Hwf _ _ Hu) as [? ?]. split; [done|]. split; [done|].
  split; [|by apply He]. destruct (iw_history _ Hwf _ _ Hu) as (h & Hh & Hok).
  unfold list_revisions. by rewrite Hh.
Qed.

(** The normalised seed determines the digest. *)
Lemma anchored_ok env seed att now seed' claims digest :
  anchored env seed att now = Ok (seed', claims, digest) →
  canonical_payload seed = Ok seed' ∧ identity_digest env seed' = Ok digest.
Proof. unfold anchored. intros Ha. inv_ok Ha. by simplify_eq. Qed.

Lemma fingerprint_extends repo repo' f b :
  identities_wf repo → identities_wf repo' → identity_extends repo repo' →
  by_fingerprint repo !! f = Some b →
  ∃ b', by_fingerprint repo' !! f = Some b' ∧ anchor b' = anchor b ∧
        (io_status (identity b) = ID_REVOKED → b' = b).
Proof.
  intros Hwf Hwf' He Hf. destruct (iw_fingerprint _ Hwf _ _ Hf) as [Hg Hu].
  destruct (He _ _ Hu) as (b' & Hu' & Ha & _ & Hr). exists b'. split; [|done].
  assert (genesis b' = genesis b) as Hgen by (unfold anchor in Ha; congruence).
  destruct (iw_uid _ Hwf' _ _ Hu') as [_ Hf']. by rewrite Hgen, Hg in Hf'.
Qed.

(** Onboarding is idempotent.  Once a seed has been onboarded, every later
    onboarding whose seed has the same normal form and that returns at all
    finds the existing identity, whatever happened in between and whatever
    corridor and attestation it comes with: it changes nothing and answers
    with the same anchor. *)
Theorem onboarding_idempotent env seed att corridor at_ clock repo o repo1 repo2
    seed2 att2 corridor2 at2 clock2 o2 repo3 :
  rtc identity_step no_identities repo →
  onboard env seed att corridor at_ clock repo = (Ok o, repo1) →
  rtc identity_step repo1 repo2 →
  onboard env seed2 att2 corridor2 at2 clock2 repo2 = (Ok o2, repo3) →
  canonical_payload seed2 = canonical_payload seed →
  existing o2 = true ∧ repo3 = repo2 ∧ anchor (onboarded o2) = anchor (onboarded o) ∧
  (io_status (identity (onboarded o)) = ID_REVOKED → onboarded o2 = onboarded o).
Proof.
  intros Hr Ho Hr2 Ho2 Hseed.
  destruct (identity_steps_ok _ _ Hr no_identities_wf) as [Hwf _].
  destruct (identity_step_ok _ _ (step_onboard _ _ _ _ _ _ _ _ _ Ho) Hwf) as [Hwf1 _].
  destruct (identity_steps_ok _ _ Hr2 Hwf1) as [Hwf2 He].
  apply onboard_cases in Ho as [(? & ? & _)|(now & s' & claims & digest & b & _ & Ha & Hcase)]; [done|].
  apply onboard_cases in Ho2 as [(? & ? & _)|(now2 & s2' & claims2 & digest2 & b2 & _ & Ha2 & Hcase2)]; [done|].
  apply anchored_ok in Ha as [Hs Hd]. apply anchored_ok in Ha2 as [Hs2 Hd2].
  assert (s2' = s') as -> by congruence. assert (digest2 = digest) as -> by congruence.
  assert (by_fingerprint repo1 !! hex digest = Some b ∧ onboarded o = b) as [Hf <-].
  { destruct Hcase as [([= ->] & -> & ?)|([= ->] & _ & Hb & Hsave)]; [done|]. split; [|done].
    apply new_bundle_ok in Hb as (_ & Hfp & _ & _).
    apply save_cases in Hsave as [(? & ? & _)|(_ & _ & _ & ->)]; [done|].
    cbn. rewrite <- Hfp. apply lookup_insert_eq. }
  destruct (fingerprint_extends _ _ _ _ Hwf1 Hwf2 He Hf) as (b' & Hf2 & Hanchor & Hrev).
  destruct Hcase2 as [([= ->] & -> & Hf3)|(_ & Hf3 & _)]; rewrite Hf2 in Hf3; [|done].
  injection Hf3 as <-. done.
Qed.

(** Different people get different identities, or the secret derivation
    collides.  Two onboardings with one secret provider and key whose
    normalised seeds differ answer with the same fingerprint only when the
    derivation maps two different messages to the same digest, and two new
    identities share a continuity UID only when two digests agree in their
    first 20 bytes. *)
Theorem onboarding_separates env seed att now seed' claims digest
    seed2 att2 now2 seed2' claims2 digest2 corridor corridor2 b b2 :
  anchored env seed att now = Ok (seed', claims, digest) →
  anchored env seed2 att2 now2 = Ok (seed2', claims2, digest2) →
  seed' ≠ seed2' →
  new_bundle env seed' claims digest corridor now = Ok b →
  new_bundle env seed2' claims2 digest2 corridor2 now2 = Ok b2 →
  length digest = 32%nat → length digest2 = 32%nat →
  (gen_fingerprint (genesis b) = gen_fingerprint (genesis b2) →
     ∃ m m2, m ≠ m2 ∧ derive (ide_secrets env) (ide_key_id env) m = Ok digest ∧
             derive (ide_secrets env) (ide_key_id env) m2 = Ok digest) ∧
  (uid_of b = uid_of b2 → take 20 digest = take 20 digest2).
Proof.
  intros [_ Hd]%anchored_ok [_ Hd2]%anchored_ok Hne
    (_ & Hf & Hu & _)%new_bundle_ok (_ & Hf2 & Hu2 & _)%new_bundle_ok Hl Hl2.
  split.
  - rewrite Hf, Hf2. intros <-%hex_inj. unfold identity_digest in Hd, Hd2.
    inv_ok Hd. inv_ok Hd2.
    match goal with H1 : canonical_json_bytes (seed_value seed') = Ok ?x,
                    H2 : canonical_json_bytes (seed_value seed2') = Ok ?y |- _ =>
      rename x into m, y into m2; rename H1 into Hm, H2 into Hm2 end.
    exists (identity_domain ++ m), (identity_domain ++ m2). split; [|done].
    intros <-%app_inv_head. apply Hne.
    pose proof (canonical_bytes_inj _ _ _ Hm Hm2) as Hsame.
    destruct seed' as [p1 s1 c1], seed2' as [p2 s2 c2].
    unfold seed_value, py_same in Hsame. cbn in Hsame.
    injection Hsame. cbn. intros. congruence.
  - rewrite Hu, Hu2. intros Heq%(str_app_inv_l "CUID-").
    apply (b32_text_inj 4) in Heq; [done|..]; rewrite length_take; lia.
Qed.
End service.

(** ** Attestations *)
(** What an accepted attestation says at [now]. *)
Record attests (e : SignatureEnvelope) (provider : string) (now : Z) : Prop := {
  at_fields f : f ∈ required_strings →
    ∃ t, get (payload e) f = Some (PStr t) ∧ blank t = false;
  at_provider : get (payload e) "provider_id" = Some (PStr provider);
  at_issuer : get (protected e) "iss" = Some (PStr provider);
  at_result : get (payload e) "verification_result" = Some (PStr "VERIFIED");
  at_tier : ∃ t tier, get (payload e) "trust_tier" = Some (PStr t) ∧ TrustTier_of t = Some tier;
  at_evidence : ∃ h, get (payload e) "evidence_sha256" = Some (PStr h) ∧ sha256_pattern h = true;
  at_window : ∃ issued expires, int_claim (payload e) "issued_at" = Some issued ∧
    int_claim (payload e) "expires_at" = Some expires ∧ issued <= now < expires;
}.

Lemma bad_field_none m :
  bad_field m = None ↔ ∀ f, f ∈ required_strings → ∃ t, get m f = Some (PStr t) ∧ blank t = false.
Proof.
  unfold bad_field. rewrite head_None. split.
  - intros Hnil f Hf.
    assert (¬ (match get m f with Some (PStr t) => blank t | _ => true end = true)) as Hn.
    { intros Hb. assert (f ∈ @nil string) as []%not_elem_of_nil. rewrite <- Hnil.
      by apply list_elem_of_filter. }
    destruct (get m f) as [[]|]; try by destruct Hn. exists s. split; [done|].
    by apply not_true_iff_false.
  - intros Hall. apply elem_of_nil_inv. intros f [Hb Hf]%list_elem_of_filter.
    destruct (Hall f Hf) as (t & Hg & Hn). rewrite Hg in Hb. congruence.
Qed.

Lemma claim_text m k t : get m k = Some (PStr t) → claim m k = t.
Proof. unfold claim. by intros ->. Qed.

Lemma attestation_refusal_none e provider now :
  attestation_refusal e provider now = None ↔ attests e provider now.
Proof.
  unfold attestation_refusal. pose proof (bad_field_none (payload e)) as Hb. split.
  - destruct (bad_field (payload e)); [done|]. destruct Hb as [Hb _]. specialize (Hb eq_refl).
    assert (∀ f, f ∈ required_strings → get (payload e) f = Some (PStr (claim (payload e) f))) as Hc.
    { intros f Hf. destruct (Hb f Hf) as (t & Hg & _). by rewrite (claim_text _ _ _ Hg). }
    pose proof (Hc "provider_id" ltac:(set_solver)) as H1.
    pose proof (Hc "verification_result" ltac:(set_solver)) as H2.
    pose proof (Hc "trust_tier" ltac:(set_solver)) as H3.
    pose proof (Hc "evidence_sha256" ltac:(set_solver)) as H4.
    destruct (String.eqb_spec (claim (payload e) "provider_id") provider) as [E1|]; [|done].
    destruct (eq_str (get (protected e) "iss") _) eqn:E2; [|done]. apply eq_str_true in E2.
    destruct (String.eqb_spec (claim (payload e) "verification_result") "VERIFIED") as [E3|]; [|done].
    destruct (TrustTier_of (claim (payload e) "trust_tier")) as [tier|] eqn:E4; [|done].
    destruct (sha256_pattern (claim (payload e) "evidence_sha256")) eqn:E5; [|done]. cbn.
    destruct (int_claim (payload e) "issued_at") as [i|] eqn:E6; [|done].
    destruct (int_claim (payload e) "expires_at") as [x|] eqn:E7; [|done].
    destruct (Z.leb_spec x i), (Z.ltb_spec now i), (Z.leb_spec x now); try done. intros _.
    split; [done|congruence..| | |]; eauto 10.
  - intros [Hf Hp Hi Hr (t & tier & Ht & Htier) (h & Hh & Hpat) (i & x & Hi' & Hx & Hw)].
    rewrite (proj2 Hb Hf), (claim_text _ _ _ Hp), (claim_text _ _ _ Hr), (claim_text _ _ _ Ht),
      (claim_text _ _ _ Hh), Hi, Htier, Hpat, Hi', Hx, String.eqb_refl.
    assert (eq_str (Some (PStr provider)) provider = true) as -> by by apply eq_str_true.
    cbn. destruct (Z.leb_spec x i), (Z.ltb_spec now i), (Z.leb_spec x now); try lia. done.
Qed.

(** Exactly which attestations are accepted.  A verification that returns
    is positive exactly when the signature is valid for an identity
    attestation, the eight required fields are texts that are not blank, the
    provider is the expected one and the issuer of the signature, the result
    is VERIFIED, the trust tier is known, the evidence is a SHA-256 digest and
    the current second lies in the window; the claims it then hands on are the
    signed payload, and otherwise it hands on none. *)
Theorem attestation_valid_iff `{SigningKeyProvider P} `{Ed25519} (p : P) e provider at_ res :
  attestation_verify p e provider at_ = Ok res →
  (att_valid res = true ↔
     (∃ v, verify_artifact p e (Some IDENTITY_ATTESTATION) false = Ok v ∧ valid v = true) ∧
     attests e provider (epoch at_)) ∧
  att_claims res = if att_valid res then Some (payload e) else None.
Proof.
  unfold attestation_verify. intros Hv. inv_ok Hv.
  match goal with H : verify_artifact _ _ _ _ = Ok ?v |- _ => rename v into check; rewrite H end.
  pose proof (attestation_refusal_none e provider (epoch at_)) as Hr.
  destruct (valid check) eqn:Hc; cbn.
  - destruct (attestation_refusal e provider (epoch at_)); cbn; (split; [|done]).
    + split; [done|]. intros [_ Ha]. by apply Hr in Ha.
    + split; [|done]. intros _. split; [by exists check|by apply Hr].
  - split; [|done]. split; [done|]. intros [(v & [= <-] & Hvalid) _]. congruence.
Qed.

(** ** Concrete runs *)
Module DemoIdentity.
Import ToyEd25519.

#[export] Instance ascii_only : UnicodeData := λ s, s.

Definition identity_keys : InMemoryEd25519KeyProvider :=
  (generate (encode_utf8 "KI") 0 "KI" "SAFARICOM" IDENTITY_SIGNING 0 (seconds 1000000) None
     no_keys).2.
Definition demo_secrets : InMemoryContinuitySecretProvider :=
  (register_secret "CK" (encode_utf8 "0123456789abcdef0123456789abcdef") ∅).2.
Definition identity_env : IdentityEnv InMemoryEd25519KeyProvider InMemoryContinuitySecretProvider :=
  {| ide_key_id := "CK"; ide_secrets := demo_secrets; ide_keys := identity_keys |}.
Definition demo_seed (subject : string) : IdentitySeed :=
  {| seed_provider_id := " safaricom"; seed_subject_reference := subject;
     seed_country_code := "ke" |}.
Definition demo_attestation (id subject : string) : SignatureEnvelope :=
  from_ok (Envelope [] [] EmptyString)
    (sign_artifact identity_keys IDENTITY_ATTESTATION
      (fields [("attestation_id", PStr id); ("provider_id", PStr "SAFARICOM");
         ("provider_subject_reference", PStr subject); ("verification_reference", PStr "VR");
         ("country_code", PStr "KE"); ("verification_result", PStr "VERIFIED");
         ("trust_tier", PStr "T2");
         ("evidence_sha256", PStr (sha256_hex (encode_utf8 "evidence")));
         ("issued_at", PInt 100); ("expires_at", PInt 1000)]) "KI" (seconds 100)).
Definition no_revision : IdentityRevision :=
  {| riv_id := EmptyString; riv_rio_id := EmptyString; riv_continuity_uid := EmptyString;
     riv_revision := 0; riv_trust_tier := T0; riv_status := ID_ACTIVE; riv_reason := EmptyString;
     riv_attestation_id := EmptyString; riv_created_at := 0 |}.
Definition no_bundle : IdentityBundle :=
  Bundle {| gen_rig_id := EmptyString; gen_continuity_uid := EmptyString;
       gen_continuity_key_id := EmptyString; gen_fingerprint := EmptyString;
       gen_provider_id := EmptyString; gen_verification_reference := EmptyString;
       gen_evidence_sha256 := EmptyString; gen_attestation_id := EmptyString;
       gen_created_at := 0 |}
    {| io_rio_id := EmptyString; io_railone_id := EmptyString; io_continuity_uid := EmptyString;
       io_rig_id := EmptyString; io_active_riv_id := EmptyString; io_corridor := EmptyString;
       io_status := ID_ACTIVE; io_created_at := 0 |} no_revision.

(** The first onboarding, a revocation, and a second onboarding with another
    spelling of the seed. *)
Definition run1 : res OnboardingResult * InMemoryIdentityRepository :=
  onboard identity_env (demo_seed "S-1") (demo_attestation "A1" "s-1") "ke-ke"
    (Some (Aware (seconds 200))) 0 no_identities.
Definition run2 : res IdentityBundle * InMemoryIdentityRepository :=
  revise identity_env (demo_seed "s-1") (demo_attestation "A2" "S-1") ID_REVOKED "fraud"
    (Some (Aware (seconds 300))) 0 run1.2.
Definition run3 : res OnboardingResult * InMemoryIdentityRepository :=
  onboard identity_env (demo_seed "s-1 ") (demo_attestation "A3" "S-1") "elsewhere"
    (Some (Aware (seconds 400))) 0 run2.2.
Definition result1 : OnboardingResult := from_ok (Onboarded no_bundle false) run1.1.
Definition result3 : OnboardingResult := from_ok (Onboarded no_bundle false) run3.1.

Lemma run1_eq :
  onboard identity_env (demo_seed "S-1") (demo_attestation "A1" "s-1") "ke-ke"
    (Some (Aware (seconds 200))) 0 no_identities = (Ok result1, run1.2).
Proof. unfold result1, run1. apply from_ok_run. vm_compute. reflexivity. Qed.
Lemma run2_eq :
  revise identity_env (demo_seed "s-1") (demo_attestation "A2" "S-1") ID_REVOKED "fraud"
    (Some (Aware (seconds 300))) 0 run1.2 = (run2.1, run2.2).
Proof. unfold run2. apply surjective_pairing. Qed.
Lemma run3_eq :
  onboard identity_env (demo_seed "s-1 ") (demo_attestation "A3" "S-1") "elsewhere"
    (Some (Aware (seconds 400))) 0 run2.2 = (Ok result3, run3.2).
Proof. unfold result3, run3. apply from_ok_run. vm_compute. reflexivity. Qed.

Definition demo_step := identity_step (P := InMemoryEd25519KeyProvider)
  (S := InMemoryContinuitySecretProvider).
Lemma step1 : demo_step no_identities run1.2.
Proof. eapply step_onboard, run1_eq. Qed.
Lemma step2 : demo_step run1.2 run2.2.
Proof. eapply step_revise, run2_eq. Qed.
End DemoIdentity.
Import ToyEd25519 DemoIdentity.

Lemma identity_anchor_immutable_witness :
  list_revisions run2.2 (uid_of (onboarded result1)) ≠ [] ∧
  io_status (identity (default no_bundle
    (by_continuity_uid run2.2 !! uid_of (onboarded result1)))) = ID_REVOKED ∧
  ∃ b', by_continuity_uid run2.2 !! uid_of (onboarded result1) = Some b' ∧
    anchor b' = anchor (onboarded result1).
Proof.
  split; [vm_compute; discriminate|]. split; [vm_compute; reflexivity|].
  assert (by_continuity_uid run1.2 !! uid_of (onboarded result1) = Some (onboarded result1)) as Hu
    by (vm_compute; reflexivity).
  destruct (identity_anchor_immutable _ _ _ _ (rtc_once _ _ step1) (rtc_once _ _ step2) Hu)
    as (_ & _ & _ & b' & Hb' & Ha & _).
  exact (ex_intro _ b' (conj Hb' Ha)).
Defined.

Lemma onboarding_idempotent_witness :
  existing result3 = true ∧ anchor (onboarded result3) = anchor (onboarded result1).
Proof.
  assert (canonical_payload (demo_seed "s-1 ") = canonical_payload (demo_seed "S-1")) as Hs
    by (vm_compute; reflexivity).
  destruct (onboarding_idempotent identity_env (demo_seed "S-1") (demo_attestation "A1" "s-1")
    "ke-ke" (Some (Aware (seconds 200))) 0 no_identities result1 run1.2 run2.2
    (demo_seed "s-1 ") (demo_attestation "A3" "S-1") "elsewhere" (Some (Aware (seconds 400))) 0
    result3 run3.2 (rtc_refl _ _) run1_eq (rtc_once _ _ step2) run3_eq Hs) as (He & _ & Ha & _).
  exact (conj He Ha).
Defined.

Lemma attestation_valid_iff_witness :
  attests (demo_attestation "A1" "s-1") "SAFARICOM" 200.
Proof.
  assert (attestation_verify identity_keys (demo_attestation "A1" "s-1") "SAFARICOM" (seconds 200)
    = Ok (AttestationResult true "VALID" (Some (payload (demo_attestation "A1" "s-1"))))) as Hv
    by (vm_compute; reflexivity).
  destruct (attestation_valid_iff _ _ _ _ _ Hv) as [[Hi _] _].
  destruct (Hi eq_refl) as [_ Ha]. exact Ha.
Defined.

Definition inputs1 : IdentitySeed * mapping * bytes := Eval vm_compute in
  from_ok (demo_seed EmptyString, [], [])
    (anchored identity_env (demo_seed "S-1") (demo_attestation "A" "S-1") (seconds 200)).
Definition inputs2 : IdentitySeed * mapping * bytes := Eval vm_compute in
  from_ok (demo_seed EmptyString, [], [])
    (anchored identity_env (demo_seed "S-2") (demo_attestation "A" "S-2") (seconds 200)).
Definition bundle1 : IdentityBundle := Eval vm_compute in
  from_ok no_bundle (new_bundle identity_env inputs1.1.1 inputs1.1.2 inputs1.2 "ke" (seconds 200)).
Definition bundle2 : IdentityBundle := Eval vm_compute in
  from_ok no_bundle (new_bundle identity_env inputs2.1.1 inputs2.1.2 inputs2.2 "ke" (seconds 200)).
Lemma inputs1_eq :
  anchored identity_env (demo_seed "S-1") (demo_attestation "A" "S-1") (seconds 200)
  = Ok (inputs1.1.1, inputs1.1.2, inputs1.2).
Proof. vm_compute. reflexivity. Qed.
Lemma inputs2_eq :
  anchored identity_env (demo_seed "S-2") (demo_attestation "A" "S-2") (seconds 200)
  = Ok (inputs2.1.1, inputs2.1.2, inputs2.2).
Proof. vm_compute. reflexivity. Qed.

Lemma onboarding_separates_witness :
  inputs1.2 ≠ inputs2.2 ∧ (uid_of bundle1 = uid_of bundle2 → take 20 inputs1.2 = take 20 inputs2.2).
Proof.
  split; [vm_compute; discriminate|].
  apply (onboarding_separates identity_env (demo_seed "S-1") (demo_attestation "A" "S-1") (seconds 200)
    inputs1.1.1 inputs1.1.2 inputs1.2
    (demo_seed "S-2") (demo_attestation "A" "S-2") (seconds 200)
    inputs2.1.1 inputs2.1.2 inputs2.2 "ke" "ke" bundle1 bundle2);
    first [exact inputs1_eq | exact inputs2_eq | solve [vm_compute; reflexivity]
          | solve [vm_compute; discriminate]].
Defined.
