(* ===== verification/Projection.v ===== *)
(** [railone_projection]: the exactly-once read model of provider progress.
    The projector verifies a signed execution event, recomputes its content
    identifier and applies it; the store consumes each event identifier once
    and keeps, per submission, the projection of the highest version. *)

From Stdlib Require Import Ascii String.
From S2P Require Import Prelude.
From S2P Require Import PyBase.
From S2P Require Import CanonicalJson.
From S2P Require Import CanonicalFacts.
From S2P Require Import Keys.
From S2P Require Import Signatures.
From S2P Require Import Authority.

(** ** [models.py] *)
Inductive ProviderProgressState :=
  | PROG_PREPARED | PROG_DISPATCHING | PROG_ACCEPTED_FOR_PROCESSING | PROG_REJECTED
  | PROG_OUTCOME_UNKNOWN.

Record ProviderOutcomeProjection := {
  po_submission_id : string;
  po_utt_id : string;
  po_rtt_id : string;
  po_provider_id : string;
  po_state : ProviderProgressState;
  po_normalized_code : pyval;
  po_external_reference : pyval;
  po_rejection_disposition : pyval;
  po_submission_version : Z;
  po_source_event_id : string;
  po_occurred_at : instant;
  po_projected_at : instant;
}.

(** ** [store.py] *)
Record ProjectionStore := Projections {
  event_hashes : gmap string string;
  projections : gmap string ProviderOutcomeProjection;
}.
Implicit Types (s : ProjectionStore) (p : ProviderOutcomeProjection).

Definition no_projections : ProjectionStore := Projections ∅ ∅.

(** Does [p] replace what the store has for its submission? *)
Definition newer (current : option ProviderOutcomeProjection) p : bool :=
  match current with
  | None => true
  | Some c => po_submission_version c <? po_submission_version p
  end.

Definition apply (event_id hash : string) p : M ProjectionStore bool :=
  s ← getS;
  match event_hashes s !! event_id with
  | Some prior_hash =>
      _ ← raise_if (negb (String.eqb prior_hash hash)) ProjectionEventConflictError
            "event identifier was reused with different signed material";
      mret false
  | None =>
      let id := po_submission_id p in
      _ ← putS (Projections (<[event_id := hash]> (event_hashes s))
                  (if newer (projections s !! id) p then <[id := p]> (projections s)
                   else projections s));
      mret true
  end.

Definition get_projection s (submission_id : string) : option ProviderOutcomeProjection :=
  projections s !! submission_id.

(** ** [service.py] *)
(** [_STATE_BY_EVENT] *)
Definition state_by_event (event_type : string) : option ProviderProgressState :=
  if String.eqb event_type "PROVIDER_SUBMISSION_PREPARED" then Some PROG_PREPARED
  else if String.eqb event_type "PROVIDER_DISPATCH_STARTED" then Some PROG_DISPATCHING
  else if String.eqb event_type "PROVIDER_SUBMISSION_ACCEPTED"
    then Some PROG_ACCEPTED_FOR_PROCESSING
  else if String.eqb event_type "PROVIDER_SUBMISSION_REJECTED" then Some PROG_REJECTED
  else if String.eqb event_type "PROVIDER_SUBMISSION_OUTCOME_UNKNOWN"
    then Some PROG_OUTCOME_UNKNOWN
  else None.

(** A mapping, or a tuple that holds one, has no hash: looking it up in a
    [dict] raises. *)
Fixpoint unhashable (v : pyval) : bool :=
  match v with
  | PDict _ | PList _ => true
  | PTuple l => existsb unhashable l
  | _ => false
  end.

Definition progress_of (event_type : option pyval) : res ProviderProgressState :=
  match event_type with
  | Some (PStr t) =>
      require (state_by_event t) ValueError ("unsupported provider execution event: " +:+ t)
  | Some v =>
      if unhashable v then raise TypeError "unhashable type"
      else raise ValueError "unsupported provider execution event"
  | None => raise ValueError "unsupported provider execution event: None"
  end.

(** [{key: value for key, value in payload.items() if key != "event_id"}] *)
Definition without_event_id (m : mapping) : mapping :=
  filter (λ kv, kv.1 ≠ KStr "event_id") m.

(** [data.get(k)] *)
Definition get_or_none (m : mapping) (k : string) : pyval := default PNone (get m k).

Section projector.
Context {P : Type} `{!SigningKeyProvider P} `{Ed25519}.

(** The event identifier and the projection of a verified event. *)
Definition read_event (keys : P) (e : SignatureEnvelope) (at_ : option datetime)
    (clock : instant) : res (string * ProviderOutcomeProjection) :=
  verification ← verify_artifact keys e (Some EXECUTION_EVENT) false;
  _ ← raise_if (negb (valid verification)) PermissionError
        ("execution event rejected: " +:+ reason verification);
  let m := payload e in
  event_id ← match get m "event_id" with
             | Some (PStr (String c t)) => mret (String c t)
             | _ => raise ValueError "execution event_id is required"
             end;
  state ← progress_of (get m "event_type");
  expected ← content_id "EVT" (PDict (without_event_id m));
  _ ← raise_if (negb (String.eqb event_id expected)) PermissionError
        "execution event content identifier mismatch";
  data ← match get m "data" with
         | Some (PDict d) => mret d
         | _ => raise ValueError "execution event data must be an object"
         end;
  occurred ← match get m "occurred_at" with
             | Some (PInt n) => mret n
             | _ => raise ValueError "execution event occurred_at must be an epoch integer"
             end;
  now ← aware "projection timestamp must be timezone-aware" (or_now at_ clock);
  submission ← str_item m "aggregate_id";
  utt ← str_item m "utt_id";
  rtt ← str_item m "rtt_id";
  provider ← str_item m "provider_id";
  version ← int_item m "submission_version";
  occurred_at ← fromtimestamp occurred;
  mret (event_id,
    {| po_submission_id := submission; po_utt_id := utt; po_rtt_id := rtt;
       po_provider_id := provider; po_state := state;
       po_normalized_code := get_or_none data "code";
       po_external_reference := get_or_none data "external_reference";
       po_rejection_disposition := get_or_none data "rejection_disposition";
       po_submission_version := version; po_source_event_id := event_id;
       po_occurred_at := occurred_at; po_projected_at := now |}).

Definition project (keys : P) (e : SignatureEnvelope) (at_ : option datetime) (clock : instant)
    : M ProjectionStore (ProviderOutcomeProjection * bool) :=
  '(event_id, p) ← lift (read_event keys e at_ clock);
  hash ← lift (str_item (protected e) "payload_sha256");
  applied ← apply event_id hash p;
  mret (p, applied).
End projector.

(** ** Exactly once, in any order *)

(** A delivery: an event identifier, the hash of its signed payload and its
    projection. *)
Record delivery := Delivery {
  dl_id : string;
  dl_hash : string;
  dl_projection : ProviderOutcomeProjection;
}.
Implicit Types (d : delivery) (l : list delivery).

Definition deliver d : M ProjectionStore bool := apply (dl_id d) (dl_hash d) (dl_projection d).
Definition deliver_all l : M ProjectionStore (list bool) := mapM_ deliver l.

(** What does not depend on the moment of projection. *)
Definition material p :=
  (po_submission_id p, po_utt_id p, po_rtt_id p, po_provider_id p, po_state p,
   (po_normalized_code p, po_external_reference p, po_rejection_disposition p),
   po_submission_version p, po_source_event_id p, po_occurred_at p).

(** Deliveries of one event agree, and a submission has one event per
    version. *)
Definition coherent l : Prop :=
  ∀ d d', d ∈ l → d' ∈ l →
    (dl_id d = dl_id d' → dl_hash d = dl_hash d' ∧
       material (dl_projection d) = material (dl_projection d')) ∧
    (po_submission_id (dl_projection d) = po_submission_id (dl_projection d') →
     po_submission_version (dl_projection d) = po_submission_version (dl_projection d') →
     material (dl_projection d) = material (dl_projection d')).

(** The store after the deliveries [l]: the identifiers that were consumed, and
    the newest projection of each submission. *)
Record consumed l s : Prop := {
  co_hash id h : event_hashes s !! id = Some h ↔ ∃ d, d ∈ l ∧ dl_id d = id ∧ dl_hash d = h;
  co_some k p : projections s !! k = Some p →
    ∃ d, d ∈ l ∧ dl_projection d = p ∧ po_submission_id p = k;
  co_newest d : d ∈ l → ∃ p, projections s !! po_submission_id (dl_projection d) = Some p ∧
    po_submission_version (dl_projection d) <= po_submission_version p;
}.

Lemma consumed_nil : consumed [] no_projections.
Proof.
  split; cbn.
  - intros id h. rewrite lookup_empty. split; [done|]. by intros (d & []%not_elem_of_nil & _).
  - intros k p. by rewrite lookup_empty.
  - by intros d []%not_elem_of_nil.
Qed.

(** One more delivery: it is applied exactly when its event is new. *)
Lemma deliver_step l d s :
  coherent (l ++ [d]) → consumed l s →
  ∃ s', deliver d s = (Ok (bool_decide (dl_id d ∉ dl_id <$> l)), s') ∧ consumed (l ++ [d]) s'.
Proof.
  intros Hco Hs. unfold deliver, apply, mbind, M_bind, getS.
  destruct (event_hashes s !! dl_id d) as [h|] eqn:Hh.
  - apply (co_hash _ _ Hs) in Hh as (d0 & Hin & Hid & <-).
    destruct (Hco d0 d) as [Hsame _]; [set_solver..|]. destruct (Hsame Hid) as [-> Hmat].
    rewrite String.eqb_refl. exists s. split.
    { rewrite bool_decide_eq_false_2; [done|]. intros Hn. apply Hn. rewrite <- Hid.
      by apply list_elem_of_fmap_2. }
    split.
    + intros id h. rewrite (co_hash _ _ Hs). split; [intros (x & ? & ?); exists x; set_solver|].
      intros (x & [Hx| ->%list_elem_of_singleton]%elem_of_app & Hxid & Hxh); [eauto|].
      exists d0. destruct (Hsame Hid) as [Hd0 _]. split; [done|]. split; congruence.
    + intros k p Hp. destruct (co_some _ _ Hs _ _ Hp) as (x & ? & ?). exists x. set_solver.
    + intros x [Hx| ->%list_elem_of_singleton]%elem_of_app; [by apply (co_newest _ _ Hs)|].
      unfold material in Hmat. injection Hmat as Hsub _ _ _ _ _ _ _ Hv _ _.
      rewrite <- Hsub, <- Hv. by apply (co_newest _ _ Hs).
  - assert (dl_id d ∉ dl_id <$> l) as Hn.
    { intros (x & Hx & Hin)%list_elem_of_fmap.
      assert (event_hashes s !! dl_id d = Some (dl_hash x)) as Hs' by (apply (co_hash _ _ Hs); eauto).
      congruence. }
    rewrite bool_decide_eq_true_2 by done. eexists. split; [reflexivity|].
    set (p := dl_projection d). set (k := po_submission_id p).
    assert (∀ j q, (if newer (projections s !! k) p then <[k := p]> (projections s)
       else projections s) !! j = Some q →
       (j = k ∧ q = p) ∨ projections s !! j = Some q) as Hlook.
    { intros j q. destruct (newer _ p); [|by right].
      intros [[<- <-]|[_ ?]]%lookup_insert_Some; auto. }
    assert (∀ j q, projections s !! j = Some q → ∃ q',
       (if newer (projections s !! k) p then <[k := p]> (projections s) else projections s) !! j
         = Some q' ∧ po_submission_version q <= po_submission_version q') as Hup.
    { intros j q Hq. destruct (newer (projections s !! k) p) eqn:Hnew; [|by exists q].
      destruct (decide (k = j)) as [<-|Hne].
      - exists p. rewrite lookup_insert_eq. split; [done|]. rewrite Hq in Hnew.
        apply Z.ltb_lt in Hnew. lia.
      - exists q. by rewrite lookup_insert_ne. }
    split; cbn.
    + intros id h. rewrite lookup_insert_Some, (co_hash _ _ Hs). split.
      * intros [[<- <-]|[_ (x & ? & ?)]]; [exists d|exists x]; set_solver.
      * intros (x & [Hx| ->%list_elem_of_singleton]%elem_of_app & <- & <-); [right|by left].
        split; [|eauto]. intros Heq. apply Hn. rewrite Heq. by apply list_elem_of_fmap_2.
    + intros j q [[-> ->]|Hq]%Hlook; [exists d; set_solver|].
      destruct (co_some _ _ Hs _ _ Hq) as (x & ? & ?). exists x. set_solver.
    + intros x [Hx| ->%list_elem_of_singleton]%elem_of_app.
      * destruct (co_newest _ _ Hs x Hx) as (q & Hq & Hle).
        destruct (Hup _ _ Hq) as (q' & Hq' & Hle'). exists q'. split; [done|lia].
      * fold p k. destruct (newer (projections s !! k) p) eqn:Hnew.
        { exists p. rewrite lookup_insert_eq. split; [done|lia]. }
        unfold newer in Hnew. destruct (projections s !! k) as [c|] eqn:Hc; [|done].
        exists c. apply Z.ltb_ge in Hnew. split; [done|lia].
Qed.

(** Which deliveries are the first of their event. *)
Fixpoint first_seen (seen : list string) l : list bool :=
  match l with
  | [] => []
  | d :: l' => bool_decide (dl_id d ∉ seen) :: first_seen (seen ++ [dl_id d]) l'
  end.

Lemma deliver_all_run l l' s :
  coherent (l ++ l') → consumed l s →
  ∃ s', deliver_all l' s = (Ok (first_seen (dl_id <$> l) l'), s') ∧ consumed (l ++ l') s'.
Proof.
  revert l s. induction l' as [|d l' IH]; intros l s Hco Hs.
  { exists s. by rewrite app_nil_r. }
  assert (coherent (l ++ [d])) as Hco1 by (intros x y Hx Hy; apply Hco; set_solver).
  destruct (deliver_step l d s Hco1 Hs) as (s1 & Hd & Hs1).
  assert (l ++ d :: l' = (l ++ [d]) ++ l') as Happ by by rewrite <- (assoc (++)).
  rewrite Happ in Hco |- *.
  destruct (IH (l ++ [d]) s1 Hco Hs1) as (s2 & Hrun & Hs2).
  exists s2. split; [|done]. rewrite fmap_app in Hrun.
  unfold deliver_all. cbn. rewrite (run_bind_eq _ _ _ _ _ Hd).
  by rewrite (run_bind_eq _ _ _ _ _ Hrun).
Qed.
