(* ===== verification/ProjectionClaims.v ===== *)
(** What the read model promises: deliveries are applied once and in any
    order, redelivery changes nothing, and the events that the coordinator
    signs are the ones the projector accepts. *)

From Stdlib Require Import Ascii String.
From S2P Require Import Prelude.
From S2P Require Import PyBase.
From S2P Require Import Sha256.
From S2P Require Import CanonicalJson.
From S2P Require Import CanonicalFacts.
From S2P Require Import Keys.
From S2P Require Import Signatures.
From S2P Require Import Authority.
From S2P Require Import OperationsStore.
From S2P Require Import Operations.
From S2P Require Import DispatchProtocol.
From S2P Require Import DispatchClaims.
From S2P Require Import Projection.

(** Two stores that consumed the same events hold the same material. *)
Lemma consumed_same l l' s s' :
  coherent (l ++ l') → (∀ id, id ∈ dl_id <$> l ↔ id ∈ dl_id <$> l') →
  consumed l s → consumed l' s' →
  (∀ id h, event_hashes s !! id = Some h → event_hashes s' !! id = Some h) ∧
  (∀ k p, projections s !! k = Some p →
     ∃ p', projections s' !! k = Some p' ∧ material p' = material p).
Proof.
  intros Hco Hids Hs Hs'.
  assert (∀ d, d ∈ l → ∃ d', d' ∈ l' ∧ dl_id d' = dl_id d ∧ dl_hash d' = dl_hash d ∧
    material (dl_projection d') = material (dl_projection d)) as Hmatch.
  { intros d Hd. assert (dl_id d ∈ dl_id <$> l') as (d' & Hid & Hd')%list_elem_of_fmap
      by (apply Hids; by apply list_elem_of_fmap_2).
    exists d'. destruct (Hco d d') as [Hsame _]; [set_solver..|].
    destruct (Hsame Hid) as [-> ->]. done. }
  assert (∀ d', d' ∈ l' → ∃ d, d ∈ l ∧ material (dl_projection d) = material (dl_projection d')) as Hback.
  { intros d' Hd'. assert (dl_id d' ∈ dl_id <$> l) as (d & Hid & Hd)%list_elem_of_fmap
      by (apply Hids; by apply list_elem_of_fmap_2).
    exists d. destruct (Hco d d') as [Hsame _]; [set_solver..|].
    split; [done|]. by apply Hsame. }
  assert (∀ p q, material p = material q → po_submission_id p = po_submission_id q ∧
    po_submission_version p = po_submission_version q) as Hkey.
  { intros p q Hm. unfold material in Hm. by injection Hm. }
  split.
  - intros id h (d & Hd & <- & <-)%(co_hash _ _ Hs). apply (co_hash _ _ Hs').
    destruct (Hmatch d Hd) as (d' & ? & ? & ? & _). eauto.
  - intros k p Hp. destruct (co_some _ _ Hs _ _ Hp) as (d & Hd & <- & <-).
    destruct (Hmatch d Hd) as (d' & Hd' & _ & _ & Hm). destruct (Hkey _ _ Hm) as [Hsub Hver].
    destruct (co_newest _ _ Hs' d' Hd') as (p' & Hp' & Hle). rewrite Hsub in Hp'.
    exists p'. split; [done|].
    destruct (co_some _ _ Hs' _ _ Hp') as (d2 & Hd2 & <- & Hsub2).
    destruct (Hback d2 Hd2) as (d3 & Hd3 & Hm3). destruct (Hkey _ _ Hm3) as [Hsub3 Hver3].
    destruct (co_newest _ _ Hs d3 Hd3) as (q & Hq & Hle3).
    rewrite Hsub3, Hsub2, Hp in Hq. injection Hq as <-.
    destruct (Hco d2 d) as [_ Hvers]; [set_solver..|]. apply Hvers; [congruence|lia].
Qed.

(** C37: the read model applies events exactly once and in any order.  Take two
    sequences of deliveries of the same events, with any repetitions and in
    any order, in which the deliveries of one event agree and a submission has
    one event per version.  Both are accepted completely; a delivery is
    answered with "applied" exactly when it is the first of its event; the
    consumed identifiers and the projected material end up the same, and each
    submission shows its highest delivered version. *)
Theorem projections_order_independent l l' :
  coherent (l ++ l') → (∀ id, id ∈ dl_id <$> l ↔ id ∈ dl_id <$> l') →
  ∃ s s', deliver_all l no_projections = (Ok (first_seen [] l), s) ∧
    deliver_all l' no_projections = (Ok (first_seen [] l'), s') ∧
    event_hashes s = event_hashes s' ∧
    (∀ k, material <$> projections s !! k = material <$> projections s' !! k) ∧
    (∀ d, d ∈ l → ∃ p, projections s !! po_submission_id (dl_projection d) = Some p ∧
       po_submission_version (dl_projection d) <= po_submission_version p) ∧
    (∀ k p, projections s !! k = Some p → ∃ d, d ∈ l ∧ dl_projection d = p).
Proof.
  intros Hco Hids.
  assert (coherent l ∧ coherent l') as [Hl Hl'] by (split; intros x y ? ?; apply Hco; set_solver).
  destruct (deliver_all_run [] l _ Hl consumed_nil) as (s & Hrun & Hs).
  destruct (deliver_all_run [] l' _ Hl' consumed_nil) as (s' & Hrun' & Hs').
  assert (coherent (l' ++ l)) as Hco' by (intros x y ? ?; apply Hco; set_solver).
  destruct (consumed_same l l' s s' Hco Hids Hs Hs') as [Hh Hp].
  destruct (consumed_same l' l s' s Hco' (λ id, iff_sym (Hids id)) Hs' Hs) as [Hh' Hp'].
  exists s, s'. split; [done|]. split; [done|]. split; [|split; [|split]].
  - apply map_eq. intros id. apply option_eq. intros h. split; [apply Hh|apply Hh'].
  - intros k. destruct (projections s !! k) as [p|] eqn:Hk.
    + destruct (Hp _ _ Hk) as (p' & -> & Hm). cbn. by rewrite Hm.
    + destruct (projections s' !! k) as [p'|] eqn:Hk'; [|done].
      destruct (Hp' _ _ Hk') as (p & Hk2 & _). congruence.
  - apply Hs.
  - intros k p Hk. destruct (co_some _ _ Hs _ _ Hk) as (d & ? & ? & _). eauto.
Qed.

Section projector.
Context {P : Type} `{!SigningKeyProvider P} `{Ed25519}.

Lemma project_ok (keys : P) e at_ clock s p applied s1 :
  project keys e at_ clock s = (Ok (p, applied), s1) →
  ∃ id hash, read_event keys e at_ clock = Ok (id, p) ∧
    str_item (protected e) "payload_sha256" = Ok hash ∧ apply id hash p s = (Ok applied, s1).
Proof.
  unfold project, lift, mbind, M_bind.
  destruct (read_event keys e at_ clock) as [[id p0]|x]; [|done]. lazy beta iota.
  destruct (str_item (protected e) _) as [hash|x]; [|done]. lazy beta iota.
  destruct (apply id hash p0 s) as [[b|x] s2] eqn:Hap; [|done].
  intros [= -> -> ->]. eauto 10.
Qed.

Lemma project_run (keys : P) e at_ clock s id p hash :
  read_event keys e at_ clock = Ok (id, p) →
  str_item (protected e) "payload_sha256" = Ok hash →
  project keys e at_ clock s =
  match apply id hash p s with (Ok b, s') => (Ok (p, b), s') | (Err x, s') => (Err x, s') end.
Proof.
  intros Hr Hh. unfold project, lift, mbind, M_bind. rewrite Hr. lazy beta iota.
  rewrite Hh. lazy beta iota. by destruct (apply id hash p s) as [[] ?].
Qed.

Lemma read_event_id (keys : P) e at_ clock id p :
  read_event keys e at_ clock = Ok (id, p) → po_source_event_id p = id.
Proof. unfold read_event. intros Hr. inv_ok Hr. by simplify_eq. Qed.

(** The hash of a consumed event. *)
Lemma apply_consumes id hash p s b s1 :
  apply id hash p s = (Ok b, s1) → event_hashes s1 !! id = Some hash.
Proof.
  unfold apply. intros Hap. run_paths; guards; subst; try done. by rewrite lookup_insert_eq.
Qed.

(** Redelivery and reuse.  Once an event was projected, projecting it
    again, at whatever time, answers with the same material and "not applied"
    and changes nothing; an event with the same identifier but another payload
    hash is refused as a conflict and changes nothing either. *)
Theorem projection_redelivery (keys : P) e at_ clock s p applied s1 e2 at2 clock2 p2 :
  project keys e at_ clock s = (Ok (p, applied), s1) →
  read_event keys e2 at2 clock2 = Ok (po_source_event_id p, p2) →
  ∀ hash2, str_item (protected e2) "payload_sha256" = Ok hash2 →
  (str_item (protected e) "payload_sha256" = Ok hash2 →
     project keys e2 at2 clock2 s1 = (Ok (p2, false), s1)) ∧
  (str_item (protected e) "payload_sha256" ≠ Ok hash2 →
     project keys e2 at2 clock2 s1 = (Err (Exn ProjectionEventConflictError
       "event identifier was reused with different signed material"), s1)).
Proof.
  intros (id & hash & Hr & Hh & Hap)%project_ok Hr2 hash2 Hh2.
  apply apply_consumes in Hap. rewrite (read_event_id _ _ _ _ _ _ Hr) in Hr2.
  rewrite Hh, (project_run _ _ _ _ _ _ _ _ Hr2 Hh2). unfold apply, mbind, M_bind, getS.
  rewrite Hap. split.
  - intros [= ->]. by rewrite String.eqb_refl.
  - intros Hsame. assert (String.eqb hash hash2 = false) as -> by (apply String.eqb_neq; congruence). done.
Qed.

Lemma without_event_id_core id m :
  (∀ k v, (k, v) ∈ m → k ≠ KStr "event_id") →
  without_event_id (freeze_mapping (fields [("event_id", PStr id)] ++ m)) = freeze_mapping m.
Proof.
  intros Hm. unfold without_event_id, freeze_mapping, fields.
  cbn [fmap list_fmap app map fst snd freeze].
  rewrite filter_cons_False by (cbn; tauto).
  induction m as [|[k v] m IH]; [done|]. cbn [map fst snd].
  rewrite filter_cons_True by (cbn; eapply Hm; constructor). f_equal.
  apply IH. intros k' v' Hin. apply (Hm k' v'). by constructor.
Qed.
End projector.

Section composition.
Context {P : Type} `{!SigningKeyProvider P} `{Ed25519}.
Context {R : Type} `{!AccountEndpointResolver R}.

(** The projection of a submission's event. *)
Definition projection_of (r : ProviderSubmissionRecord) (st : ProviderProgressState)
    (data : mapping) (event_id : string) (occurred now : instant) : ProviderOutcomeProjection :=
  {| po_submission_id := sub_submission_id r; po_utt_id := sub_utt_id r;
     po_rtt_id := sub_rtt_id r; po_provider_id := sub_provider_id r; po_state := st;
     po_normalized_code := get_or_none (freeze_mapping data) "code";
     po_external_reference := get_or_none (freeze_mapping data) "external_reference";
     po_rejection_disposition := get_or_none (freeze_mapping data) "rejection_disposition";
     po_submission_version := sub_version r; po_source_event_id := event_id;
     po_occurred_at := occurred; po_projected_at := now |}.

Lemma event_shape (env : CoordinatorEnv P R) r ty data at_ row :
  event env r ty data at_ = Ok row →
  content_id "EVT" (PDict (event_core r ty data at_)) = Ok (ob_event_id row) ∧
  payload (ob_signed_event row) =
    freeze_mapping (fields [("event_id", PStr (ob_event_id row))] ++ event_core r ty data at_).
Proof.
  unfold event. intros He. inv_ok He. split; [done|].
  match goal with H : sign_artifact _ _ _ _ _ = Ok _ |- _ =>
    apply sign_artifact_ok in H as (? & ? & ? & ? & _ & _ & _ & _ & _ & _ & ->) end.
  done.
Qed.

Lemma content_id_freeze m id :
  content_id "EVT" (PDict m) = Ok id → content_id "EVT" (PDict (freeze_mapping m)) = Ok id.
Proof.
  unfold content_id. intros Hc. inv_ok Hc.
  assert (py_same (PDict m) (PDict (freeze_mapping m))) as Hsame
    by (symmetry; apply freeze_mapping_same).
  match goal with H : canonical_json_bytes _ = Ok ?b |- _ =>
    rewrite (canonical_same _ _ _ H Hsame) end.
  done.
Qed.

Lemma content_id_text v id : content_id "EVT" v = Ok id → ∃ c t, id = String c t.
Proof. unfold content_id. intros Hc. inv_ok Hc. subst. by eexists _, _. Qed.

(** The projector reads what the coordinator writes.  For every event that
    the coordinator signs, of one of the five types and at an instant within
    the calendar, if its signature verifies then the projector accepts its
    content identifier and projects exactly the submission, version, state and
    outcome data that the event was made for. *)
Theorem projector_reads_coordinator (env : CoordinatorEnv P R) (keys : P)
    r ty st data at_ row v occurred now clock :
  event env r ty data at_ = Ok row → state_by_event ty = Some st →
  fromtimestamp (epoch at_) = Ok occurred →
  verify_artifact keys (ob_signed_event row) (Some EXECUTION_EVENT) false = Ok v →
  valid v = true →
  read_event keys (ob_signed_event row) (Some (Aware now)) clock =
    Ok (ob_event_id row, projection_of r st data (ob_event_id row) occurred now).
Proof.
  intros [Hid Hpay]%event_shape Hst Hoc Hv Hvalid.
  assert (content_id "EVT" (PDict (without_event_id (payload (ob_signed_event row))))
    = Ok (ob_event_id row)) as Hcontent.
  { rewrite Hpay, without_event_id_core; [by apply content_id_freeze|].
    intros k w Hin. unfold event_core, fields in Hin.
    apply list_elem_of_fmap in Hin as ([k' w'] & [= -> ->] & Hin). intros [= ->].
    repeat (apply elem_of_cons in Hin as [Hin|Hin]; [discriminate Hin|]).
    by apply not_elem_of_nil in Hin. }
  destruct (content_id_text _ _ Hid) as (c & t & Heid).
  assert (∀ k x, get (fields [("event_id", PStr (ob_event_id row))] ++ event_core r ty data at_) k
    = Some x → get (payload (ob_signed_event row)) k = Some (freeze x)) as Hget
    by (intros k x Hk; by rewrite Hpay, get_freeze, Hk).
  assert (∀ k x, get (fields [("event_id", PStr (ob_event_id row))] ++ event_core r ty data at_) k
    = Some (PStr x) → str_item (payload (ob_signed_event row)) k = Ok x) as Hstr
    by (intros k x Hk; apply str_item_ok; by apply (Hget _ (PStr x))).
  pose proof (Hget "event_id" _ eq_refl) as Hg. pose proof (Hget "event_type" _ eq_refl) as Hty.
  pose proof (Hget "data" _ eq_refl) as Hdata. pose proof (Hget "occurred_at" _ eq_refl) as Hocc.
  cbn [freeze snd] in Hg, Hty, Hdata, Hocc.
  unfold read_event.
  apply res_bind_ok. eexists. split; [exact Hv|].
  apply res_bind_ok. exists tt. split; [by rewrite Hvalid|].
  apply res_bind_ok. eexists. split; [rewrite Hg, Heid; reflexivity|].
  apply res_bind_ok. exists st. split; [rewrite Hty; cbn [progress_of]; by rewrite Hst|].
  apply res_bind_ok. eexists. split; [exact Hcontent|].
  apply res_bind_ok. exists tt. split; [by rewrite Heid, String.eqb_refl|].
  apply res_bind_ok. eexists. split; [by rewrite Hdata|].
  apply res_bind_ok. eexists. split; [by rewrite Hocc|].
  apply res_bind_ok. eexists. split; [reflexivity|].
  do 4 (apply res_bind_ok; eexists; split; [by apply Hstr|]).
  apply res_bind_ok. exists (sub_version r).
  split; [unfold int_item, item; by rewrite (Hget "submission_version" _ eq_refl)|].
  apply res_bind_ok. eexists. split; [exact Hoc|]. by rewrite Heid.
Qed.
End composition.

(** ** Concrete runs *)
Module DemoProjection.
Import ToyEd25519 Contracts.DemoContracts DemoDispatch.

Definition demo_data : mapping := fields [("code", PStr "OK"); ("outcome", PStr "ACCEPTED")].
Definition no_event : OutboxRecord :=
  fresh_event EmptyString EmptyString EmptyString (Envelope [] [] EmptyString) 0.
Definition demo_row : OutboxRecord := Eval vm_compute in
  from_ok no_event (event coordinator_env dispatched "PROVIDER_SUBMISSION_ACCEPTED" demo_data
    (seconds 300)).
Definition demo_projection : ProviderOutcomeProjection :=
  projection_of dispatched PROG_ACCEPTED_FOR_PROCESSING demo_data (ob_event_id demo_row)
    (seconds 300) (seconds 320).

Definition delivered (id : string) (version : Z) (t : Z) : delivery :=
  Delivery id (id +:+ "-hash")
    {| po_submission_id := "SUB-1"; po_utt_id := "U"; po_rtt_id := "R"; po_provider_id := "P";
       po_state := PROG_PREPARED; po_normalized_code := PNone; po_external_reference := PNone;
       po_rejection_disposition := PNone; po_submission_version := version;
       po_source_event_id := id; po_occurred_at := 0; po_projected_at := t |}.
Definition in_order : list delivery := [delivered "E1" 1 10; delivered "E2" 2 11].
Definition shuffled : list delivery :=
  [delivered "E2" 2 20; delivered "E1" 1 21; delivered "E2" 2 22].
(** The event that the coordinator signed, read back by the projector. *)
Definition demo_hash : string := Eval vm_compute in
  from_ok EmptyString (str_item (protected (ob_signed_event demo_row)) "payload_sha256").
Definition demo_verification : VerificationResult := Eval vm_compute in
  from_ok (Verification false EmptyString None None)
    (verify_artifact demo_keys (ob_signed_event demo_row) (Some EXECUTION_EVENT) false).
Definition read_at (t : Z) : ProviderOutcomeProjection :=
  projection_of dispatched PROG_ACCEPTED_FOR_PROCESSING demo_data (ob_event_id demo_row)
    (seconds 300) (seconds t).

Lemma demo_row_eq :
  event coordinator_env dispatched "PROVIDER_SUBMISSION_ACCEPTED" demo_data (seconds 300) = Ok demo_row.
Proof. vm_compute. reflexivity. Qed.
Lemma demo_verified :
  verify_artifact demo_keys (ob_signed_event demo_row) (Some EXECUTION_EVENT) false
  = Ok demo_verification.
Proof. vm_compute. reflexivity. Qed.
Lemma demo_reads t :
  read_event demo_keys (ob_signed_event demo_row) (Some (Aware (seconds t))) 0
  = Ok (ob_event_id demo_row, read_at t).
Proof. unfold read_event. rewrite demo_verified. vm_compute. reflexivity. Qed.

Definition first_projection : res bool * ProjectionStore :=
  apply (ob_event_id demo_row) demo_hash demo_projection no_projections.
Lemma first_projects :
  project demo_keys (ob_signed_event demo_row) (Some (Aware (seconds 320))) 0 no_projections =
  (Ok (demo_projection, true), first_projection.2).
Proof.
  unfold project. rewrite (run_lift_bind _ _ _ _ (demo_reads 320)).
  rewrite (run_lift_bind _ _ demo_hash) by reflexivity. reflexivity.
Qed.
End DemoProjection.
Import ToyEd25519 Contracts.DemoContracts DemoDispatch DemoProjection.

Lemma projections_order_independent_witness :
  ∃ s s', deliver_all in_order no_projections = (Ok [true; true], s) ∧
    deliver_all shuffled no_projections = (Ok [true; true; false], s') ∧
    material <$> projections s !! "SUB-1" = material <$> projections s' !! "SUB-1".
Proof.
  destruct (projections_order_independent in_order shuffled) as (s & s' & H1 & H2 & _ & Hk & _).
  - intros d d' Hd Hd'. unfold in_order, shuffled in Hd, Hd'. cbn in Hd, Hd'.
    rewrite !elem_of_cons in Hd, Hd'.
    destruct Hd as [->|[->|[->|[->|[->|[]%not_elem_of_nil]]]]],
      Hd' as [->|[->|[->|[->|[->|[]%not_elem_of_nil]]]]]; done.
  - intros id. cbn. set_solver.
  - exists s, s'. split; [exact H1|]. split; [exact H2|]. apply Hk.
Defined.

Lemma projection_redelivery_witness :
  project demo_keys (ob_signed_event demo_row) (Some (Aware (seconds 999))) 0 first_projection.2
  = (Ok (read_at 999, false), first_projection.2).
Proof.
  assert (str_item (protected (ob_signed_event demo_row)) "payload_sha256" = Ok demo_hash) as Hh
    by reflexivity.
  exact (proj1 (projection_redelivery _ _ _ _ _ _ _ _ _ _ _ _ first_projects (demo_reads 999)
    demo_hash Hh) Hh).
Defined.

Lemma projector_reads_coordinator_witness :
  read_event demo_keys (ob_signed_event demo_row) (Some (Aware (seconds 320))) 0 =
    Ok (ob_event_id demo_row, demo_projection).
Proof.
  apply (projector_reads_coordinator coordinator_env demo_keys dispatched
    "PROVIDER_SUBMISSION_ACCEPTED" PROG_ACCEPTED_FOR_PROCESSING demo_data (seconds 300) demo_row
    demo_verification); [exact demo_row_eq|reflexivity|reflexivity|exact demo_verified|reflexivity].
Defined.
