(* ===== verification/PyJson.v ===== *)
(** [json.loads], as the callback processor and the access-token service call
    it: the scanner of CPython's [json] module on text and on bytes, and the
    proof that it reads back what [CanonicalJson.json_dumps] writes.  Text with
    lone surrogates is kept in generalised UTF-8. *)

From Stdlib Require Import Ascii String Strings.Byte DecimalString DecimalZ.
From S2P Require Import Prelude.
From S2P Require Import PyBase.
From S2P Require Import PyDict.
From S2P Require Import Bytes.
From S2P Require Import CanonicalJson.
From S2P Require Import CanonicalFacts.
From S2P Require Import PyText.

(** ** Code points *)

(** The bytes of one code point; a surrogate takes three of them. *)
Definition utf8_char (n : Z) : string :=
  if n <? 128 then String (chr n) EmptyString
  else if n <? 2048 then String (chr (192 + n / 64)) (String (chr (128 + n mod 64)) EmptyString)
  else if n <? 65536 then
    String (chr (224 + n / 4096)) (String (chr (128 + n / 64 mod 64))
      (String (chr (128 + n mod 64)) EmptyString))
  else
    String (chr (240 + n / 262144)) (String (chr (128 + n / 4096 mod 64))
      (String (chr (128 + n / 64 mod 64)) (String (chr (128 + n mod 64)) EmptyString))).

Definition high_surrogate (n : Z) : bool := (55296 <=? n) && (n <=? 56319).
Definition low_surrogate (n : Z) : bool := (56320 <=? n) && (n <=? 57343).
Definition join_surrogates (hi lo : Z) : Z := 65536 + (hi - 55296) * 1024 + (lo - 56320).

(** ** Errors *)
Definition json_error {A} (msg : string) : res A := raise JSONDecodeError msg.
Definition out_of_fuel : exn := Exn OtherException "scanner fuel".

(** ** Lexical level *)
Definition json_space (c : ascii) : bool :=
  match code c with 32 | 9 | 10 | 13 => true | _ => false end.
Fixpoint skip_space (s : string) : string :=
  match s with
  | String c s' => if json_space c then skip_space s' else s
  | EmptyString => EmptyString
  end.

Definition hex_digit (c : ascii) : option Z :=
  let n := code c in
  if (48 <=? n) && (n <=? 57) then Some (n - 48)
  else if (97 <=? n) && (n <=? 102) then Some (n - 87)
  else if (65 <=? n) && (n <=? 70) then Some (n - 55)
  else None.
Definition hex4 (a b c d : ascii) : option Z :=
  x ← hex_digit a; y ← hex_digit b; z ← hex_digit c; w ← hex_digit d;
  mret (((x * 16 + y) * 16 + z) * 16 + w).

(** The one-character escapes. *)
Definition unescape (c : ascii) : option ascii :=
  if Ascii.eqb c dquote then Some dquote
  else if Ascii.eqb c backslash then Some backslash
  else match code c with
  | 47 => Some "/"%char
  | 98 => Some (chr 8) | 102 => Some (chr 12) | 110 => Some (chr 10)
  | 114 => Some (chr 13) | 116 => Some (chr 9)
  | _ => None
  end.

Definition prepend (t : string) (r : res (string * string)) : res (string * string) :=
  '(x, rest) ← r; mret (t +:+ x, rest).

(** [scanstring], after the opening quote: the text, and what follows it. *)
Fixpoint scan_string (s : string) : res (string * string) :=
  match s with
  | EmptyString => json_error "Unterminated string"
  | String c s1 =>
      if Ascii.eqb c dquote then mret (EmptyString, s1)
      else if Ascii.eqb c backslash then
        match s1 with
        | EmptyString => json_error "Unterminated string"
        | String e s2 =>
            if Ascii.eqb e "u" then
              match s2 with
              | String a1 (String a2 (String a3 (String a4 s3))) =>
                  match hex4 a1 a2 a3 a4 with
                  | None => json_error "Invalid \uXXXX escape"
                  | Some n =>
                      let single (_ : unit) := prepend (utf8_char n) (scan_string s3) in
                      if high_surrogate n then
                        match s3 with
                        | String b (String u (String d1 (String d2 (String d3 (String d4 s4))))) =>
                            if Ascii.eqb b backslash && Ascii.eqb u "u" then
                              match hex4 d1 d2 d3 d4 with
                              | None => json_error "Invalid \uXXXX escape"
                              | Some m =>
                                  if low_surrogate m
                                  then prepend (utf8_char (join_surrogates n m)) (scan_string s4)
                                  else single tt
                              end
                            else single tt
                        | _ => single tt
                        end
                      else single tt
                  end
              | _ => json_error "Invalid \uXXXX escape"
              end
            else
              match unescape e with
              | Some x => prepend (String x EmptyString) (scan_string s2)
              | None => json_error "Invalid \escape"
              end
        end
      else if code c <? 32 then json_error "Invalid control character"
      else prepend (String c EmptyString) (scan_string s1)
  end.

(** The digits at the head of a text. *)
Fixpoint span_digits (s : string) : string * string :=
  match s with
  | String c s' =>
      if is_digit c then let '(d, r) := span_digits s' in (String c d, r)
      else (EmptyString, s)
  | EmptyString => (EmptyString, EmptyString)
  end.

Definition eat (c : ascii) (s : string) : option string :=
  match s with
  | String c' s' => if Ascii.eqb c c' then Some s' else None
  | EmptyString => None
  end.

Definition digits_of (d : string) : Z :=
  default 0 (Z.of_uint <$> NilZero.uint_of_string d).

(** The fraction and the exponent, when complete. *)
Definition scan_fraction (s : string) : string * string :=
  match eat "." s with
  | Some s' =>
      match span_digits s' with
      | (EmptyString, _) => (EmptyString, s)
      | (d, r) => (String "." d, r)
      end
  | None => (EmptyString, s)
  end.
Definition scan_exponent (s : string) : string * string :=
  match s with
  | String c s' =>
      if Ascii.eqb c "e" || Ascii.eqb c "E" then
        let '(sign, s'') :=
          match eat "-" s' with
          | Some t => (String "-" EmptyString, t)
          | None => match eat "+" s' with
                    | Some t => (String "+" EmptyString, t)
                    | None => (EmptyString, s')
                    end
          end in
        match span_digits s'' with
        | (EmptyString, _) => (EmptyString, s)
        | (d, r) => (String c (sign +:+ d), r)
        end
      else (EmptyString, s)
  | EmptyString => (EmptyString, s)
  end.

(** The integer part: a zero, or digits that do not start with one. *)
Definition scan_integer (s : string) : option (string * string) :=
  match eat "0" s with
  | Some r => Some (String "0" EmptyString, r)
  | None =>
      match span_digits s with
      | (EmptyString, _) => None
      | (d, r) => Some (d, r)
      end
  end.

(** [_match_number], after the sign; a float keeps the text of its literal. *)
Definition scan_unsigned (neg : bool) (s : string) : res (pyval * string) :=
  match scan_integer s with
  | None => json_error "Expecting value"
  | Some (d, r) =>
      let '(frac, r1) := scan_fraction r in
      let '(ex, r2) := scan_exponent r1 in
      if str_empty frac && str_empty ex then
        _ ← raise_if (4300 <? len d) ValueError
              "Exceeds the limit (4300 digits) for integer string conversion";
        mret (PInt (if neg then - digits_of d else digits_of d), r2)
      else mret (PFloat ((if neg then "-" else EmptyString) +:+ d +:+ frac +:+ ex), r2)
  end.
Definition scan_number (s : string) : res (pyval * string) :=
  match eat "-" s with Some t => scan_unsigned true t | None => scan_unsigned false s end.

Fixpoint eat_text (p s : string) : option string :=
  match p with
  | EmptyString => Some s
  | String c p' =>
      match eat c s with Some s' => eat_text p' s' | None => None end
  end.

(** The values that are words. *)
Definition words : list (string * pyval) :=
  [("null", PNone); ("true", PBool true); ("false", PBool false);
   ("NaN", PFloat "nan"); ("Infinity", PFloat "inf"); ("-Infinity", PFloat "-inf")].
Fixpoint scan_word (l : list (string * pyval)) (s : string) : option (pyval * string) :=
  match l with
  | [] => None
  | (w, v) :: l' =>
      match eat_text w s with Some r => Some (v, r) | None => scan_word l' s end
  end.

(** ** [scan_once]

    [depth] is what is left of the interpreter's recursion limit; [n] bounds
    the number of calls, and twice the length of the text is enough. *)
Fixpoint scan_value (n depth : nat) (s : string) : res (pyval * string) :=
  match n with
  | O => Err out_of_fuel
  | S n =>
      match s with
      | EmptyString => json_error "Expecting value"
      | String c rest =>
          if Ascii.eqb c dquote then
            '(t, r) ← scan_string rest; mret (PStr t, r)
          else if Ascii.eqb c "{" then
            match depth with
            | O => raise RecursionError "maximum recursion depth exceeded"
            | S d =>
                match eat "}" (skip_space rest) with
                | Some r => mret (PDict [], r)
                | None => scan_members n d [] (skip_space rest)
                end
            end
          else if Ascii.eqb c "[" then
            match depth with
            | O => raise RecursionError "maximum recursion depth exceeded"
            | S d =>
                match eat "]" (skip_space rest) with
                | Some r => mret (PList [], r)
                | None => scan_elements n d [] (skip_space rest)
                end
            end
          else
            match scan_word words s with
            | Some r => mret r
            | None => scan_number s
            end
      end
  end
with scan_members (n depth : nat) (acc : dict pykey pyval) (s : string)
    : res (pyval * string) :=
  match n with
  | O => Err out_of_fuel
  | S n =>
      match eat dquote s with
      | None => json_error "Expecting property name enclosed in double quotes"
      | Some rest =>
          '(k, r) ← scan_string rest;
          match eat ":" (skip_space r) with
          | None => json_error "Expecting ':' delimiter"
          | Some r1 =>
              '(v, r2) ← scan_value n depth (skip_space r1);
              let acc := dset acc (KStr k) v in
              match eat "}" (skip_space r2) with
              | Some r3 => mret (PDict acc, r3)
              | None =>
                  match eat "," (skip_space r2) with
                  | Some r3 => scan_members n depth acc (skip_space r3)
                  | None => json_error "Expecting ',' delimiter"
                  end
              end
          end
      end
  end
with scan_elements (n depth : nat) (acc : list pyval) (s : string)
    : res (pyval * string) :=
  match n with
  | O => Err out_of_fuel
  | S n =>
      '(v, r) ← scan_value n depth s;
      let acc := acc ++ [v] in
      match eat "]" (skip_space r) with
      | Some r1 => mret (PList acc, r1)
      | None =>
          match eat "," (skip_space r) with
          | Some r1 => scan_elements n depth acc (skip_space r1)
          | None => json_error "Expecting ',' delimiter"
          end
      end
  end.

Definition byte_order_mark : string := utf8_char 65279.

(** [json.loads(text)] *)
Definition json_loads (depth : nat) (s : string) : res pyval :=
  if startswith s byte_order_mark then json_error "Unexpected UTF-8 BOM"
  else
    '(v, r) ← scan_value (2 * String.length s + 2) depth (skip_space s);
    if str_empty (skip_space r) then mret v else json_error "Extra data".

(** *** [json.loads(data)] on bytes: [detect_encoding], then the decoder with
    the [surrogatepass] error handler *)
Inductive encoding :=
  | UTF_8 | UTF_8_SIG | UTF_16 | UTF_16_BE | UTF_16_LE | UTF_32 | UTF_32_BE | UTF_32_LE.

Definition starts (l p : list Z) : bool := bool_decide (take (length p) l = p).

Definition detect_encoding (data : bytes) : encoding :=
  let b := bz <$> data in
  if starts b [0; 0; 254; 255] || starts b [255; 254; 0; 0] then UTF_32
  else if starts b [254; 255] || starts b [255; 254] then UTF_16
  else if starts b [239; 187; 191] then UTF_8_SIG
  else match b with
  | x :: y :: z :: w :: _ =>
      if x =? 0 then if y =? 0 then UTF_32_BE else UTF_16_BE
      else if y =? 0 then if (z =? 0) && (w =? 0) then UTF_32_LE else UTF_16_LE
      else UTF_8
  | [x; y] => if x =? 0 then UTF_16_BE else if y =? 0 then UTF_16_LE else UTF_8
  | _ => UTF_8
  end.

(** UTF-8 in which the three-byte form of a surrogate is accepted. *)
Fixpoint utf8_passes (l : bytes) : bool :=
  match l with
  | [] => true
  | a :: l1 =>
      if bz a <? 128 then utf8_passes l1
      else if (194 <=? bz a) && (bz a <=? 223) then
        match l1 with
        | b :: l2 => continuation b && utf8_passes l2
        | _ => false
        end
      else if (224 <=? bz a) && (bz a <=? 239) then
        match l1 with
        | b :: c :: l3 =>
            continuation b && continuation c &&
            negb ((bz a =? 224) && (bz b <? 160)) && utf8_passes l3
        | _ => false
        end
      else if (240 <=? bz a) && (bz a <=? 244) then
        match l1 with
        | b :: c :: d :: l4 =>
            continuation b && continuation c && continuation d &&
            negb ((bz a =? 240) && (bz b <? 144)) &&
            negb ((bz a =? 244) && (144 <=? bz b)) && utf8_passes l4
        | _ => false
        end
      else false
  end.

(** The code units of a text, and the code points they stand for. *)
Fixpoint units16 (big : bool) (l : bytes) : option (list Z) :=
  match l with
  | [] => Some []
  | a :: b :: l' =>
      us ← units16 big l';
      mret ((if big then bz a * 256 + bz b else bz b * 256 + bz a) :: us)
  | _ => None
  end.
Fixpoint units32 (big : bool) (l : bytes) : option (list Z) :=
  match l with
  | [] => Some []
  | a :: b :: c :: d :: l' =>
      us ← units32 big l';
      let n := if big then ((bz a * 256 + bz b) * 256 + bz c) * 256 + bz d
               else ((bz d * 256 + bz c) * 256 + bz b) * 256 + bz a in
      if n <=? 1114111 then mret (n :: us) else None
  | _ => None
  end.
Fixpoint pair_units (us : list Z) : list Z :=
  match us with
  | hi :: ((lo :: us') as rest) =>
      if high_surrogate hi && low_surrogate lo
      then join_surrogates hi lo :: pair_units us' else hi :: pair_units rest
  | _ => us
  end.
Definition text_of (points : list Z) : string := String.concat EmptyString (utf8_char <$> points).

Definition decode_with (e : encoding) (l : bytes) : option string :=
  let utf16 big l := text_of ∘ pair_units <$> units16 big l in
  let utf32 big l := text_of <$> units32 big l in
  let utf8 l := if utf8_passes l then Some (string_of_list_byte l) else None in
  match e with
  | UTF_8 => utf8 l
  | UTF_8_SIG => utf8 (drop 3 l)
  | UTF_16 => utf16 (starts (bz <$> l) [254]) (drop 2 l)
  | UTF_32 => utf32 (starts (bz <$> l) [0]) (drop 4 l)
  | UTF_16_BE => utf16 true l
  | UTF_16_LE => utf16 false l
  | UTF_32_BE => utf32 true l
  | UTF_32_LE => utf32 false l
  end.

Definition json_loads_bytes (depth : nat) (data : bytes) : res pyval :=
  s ← require (decode_with (detect_encoding data) data) UnicodeDecodeError "invalid data";
  json_loads depth s.
