(* ===== verification/PyJsonFacts.v ===== *)
(** [json.loads] is total on every text (its fuel is enough) and reads back
    what [json.dumps] writes, with tuples as lists and sorted keys. *)

From Stdlib Require Import Ascii String Strings.Byte DecimalString DecimalZ.
From S2P Require Import Prelude.
From S2P Require Import PyBase.
From S2P Require Import PyDict.
From S2P Require Import Bytes.
From S2P Require Import CanonicalJson.
From S2P Require Import CanonicalFacts.
From S2P Require Import PyText.
From S2P Require Import PyJson.

Abbreviation size := String.length.

(** ** Every scanner consumes text *)
Lemma skip_space_size s : (size (skip_space s) <= size s)%nat.
Proof. induction s as [|c s IH]; cbn; [lia|]. destruct (json_space c); cbn; lia. Qed.

Lemma eat_size c s t : eat c s = Some t → size s = S (size t).
Proof. destruct s as [|d s]; cbn; [done|]. case_match; [|done]. by intros [= ->]. Qed.

Lemma eat_skip_size c s t : eat c (skip_space s) = Some t → (size t < size s)%nat.
Proof. intros He%eat_size. pose proof (skip_space_size s). lia. Qed.

Lemma eat_text_size p s t : eat_text p s = Some t → size s = (size p + size t)%nat.
Proof.
  revert s. induction p as [|c p IH]; cbn; intros s; [by intros [= ->]|].
  destruct (eat c s) as [u|] eqn:He; [|done]. apply eat_size in He. intros Ht%IH. lia.
Qed.

Lemma scan_word_size l s v t :
  Forall (λ w, w.1 ≠ EmptyString) l → scan_word l s = Some (v, t) → (size t < size s)%nat.
Proof.
  induction 1 as [|[w x] l Hw _ IH]; cbn; [done|].
  destruct (eat_text w s) as [r|] eqn:He; [|done]. intros [= <- <-].
  apply eat_text_size in He. destruct w; [done|]. cbn in He. lia.
Qed.

Lemma span_digits_size s d r :
  span_digits s = (d, r) → (size s = size d + size r)%nat.
Proof.
  revert d r. induction s as [|c s IH]; cbn; intros d r; [by intros [= <- <-]|].
  destruct (is_digit c); [|by intros [= <- <-]].
  destruct (span_digits s) as [d' r'] eqn:Hs. intros [= <- <-]. cbn. by rewrite (IH _ _ eq_refl).
Qed.

Lemma scan_integer_size s d r : scan_integer s = Some (d, r) → (size r < size s)%nat.
Proof.
  unfold scan_integer. destruct (eat "0" s) as [t|] eqn:He.
  { apply eat_size in He. intros [= <- <-]. lia. }
  destruct (span_digits s) as [[|c e] t] eqn:Hs; [done|].
  apply span_digits_size in Hs. cbn in Hs. intros [= <- <-]. lia.
Qed.

Lemma scan_fraction_size s f r : scan_fraction s = (f, r) → (size r <= size s)%nat.
Proof.
  unfold scan_fraction. destruct (eat "." s) as [t|] eqn:He; [|intros [= <- <-]; lia].
  apply eat_size in He. destruct (span_digits t) as [[|c e] u] eqn:Hs; intros [= <- <-]; [lia|].
  apply span_digits_size in Hs. lia.
Qed.

Lemma scan_exponent_size s f r : scan_exponent s = (f, r) → (size r <= size s)%nat.
Proof.
  unfold scan_exponent. destruct s as [|c s]; [intros [= <- <-]; lia|].
  destruct (_ || _); [|intros [= <- <-]; lia].
  assert (∀ sg t, (size t <= size s)%nat →
    match span_digits t with
    | (EmptyString, _) => (EmptyString, String c s)
    | (String _ _ as d, r) => (String c (sg +:+ d), r)
    end = (f, r) → (size r <= size (String c s))%nat) as Hd.
  { intros sg t Ht. destruct (span_digits t) as [[|x e] u] eqn:Hs; intros [= <- <-]; [lia|].
    apply span_digits_size in Hs. cbn. lia. }
  destruct (eat "-" s) as [t|] eqn:He; [apply Hd; apply eat_size in He; lia|].
  destruct (eat "+" s) as [t|] eqn:He'; [apply Hd; apply eat_size in He'; lia|].
  by apply Hd.
Qed.

(** A scan either consumed text or failed for a reason of its own. *)
Definition scanned {A} (s : string) (x : res (A * string)) : Prop :=
  match x with
  | Ok (_, r) => (size r < size s)%nat
  | Err e => e ≠ out_of_fuel
  end.

Lemma scanned_error {A} s k msg : k ≠ OtherException → scanned s (raise k msg : res (A * string)).
Proof. intros Hk [=]. by subst. Qed.

Lemma scanned_bind {A B} s s' (x : res (A * string)) (f : A → string → B * string) :
  scanned s' x → (∀ a r, (size r < size s')%nat → (size (f a r).2 < size s)%nat) →
  scanned s ('(a, r) ← x; mret (f a r)).
Proof.
  destruct x as [[a r]|e]; cbn; [|done]. intros Hr Hf.
  specialize (Hf a r Hr). by destruct (f a r).
Qed.

Lemma prepend_scanned t s s' x :
  (size s' < size s)%nat → scanned s' x → scanned s (prepend t x).
Proof.
  intros Hs Hx. apply (scanned_bind s s' x (λ a r, (t +:+ a, r))); [done|].
  intros a r Hr. cbn. lia.
Qed.

Lemma scan_string_scanned s : scanned s (scan_string s).
Proof.
  remember (size s) as n eqn:Hn. revert s Hn.
  induction (lt_wf n) as [n _ IH]. intros s ->.
  assert (∀ t u, (size u < size s)%nat → scanned s (prepend t (scan_string u))) as Hrec.
  { intros t u Hu. apply (prepend_scanned t s u); [done|]. by eapply IH. }
  destruct s as [|c s1]; [by apply scanned_error|]. cbn [scan_string].
  destruct (Ascii.eqb c dquote); [cbn; lia|].
  destruct (Ascii.eqb c backslash);
    [|destruct (code c <? 32); [by apply scanned_error|apply Hrec; cbn; lia]].
  destruct s1 as [|e s2]; [by apply scanned_error|].
  destruct (Ascii.eqb e "u");
    [|destruct (unescape e); [apply Hrec; cbn; lia|by apply scanned_error]].
  destruct s2 as [|a1 [|a2 [|a3 [|a4 s3]]]]; try by apply scanned_error.
  destruct (hex4 a1 a2 a3 a4) as [m|]; [|by apply scanned_error].
  assert (scanned (String c (String e (String a1 (String a2 (String a3 (String a4 s3))))))
    (prepend (utf8_char m) (scan_string s3))) as Hsingle by (apply Hrec; cbn; lia).
  cbv zeta beta. destruct (high_surrogate m); [|done].
  destruct s3 as [|b [|u [|d1 [|d2 [|d3 [|d4 s4]]]]]]; try done.
  destruct (_ && _); [|done].
  destruct (hex4 d1 d2 d3 d4) as [k|]; [|by apply scanned_error].
  destruct (low_surrogate k); [|done]. apply Hrec. cbn. lia.
Qed.

Lemma scan_number_scanned s : scanned s (scan_number s).
Proof.
  assert (∀ neg t, (size t <= size s)%nat → scanned s (scan_unsigned neg t)) as Hn.
  { intros neg t Ht. unfold scan_unsigned.
    destruct (scan_integer t) as [[d r]|] eqn:Hi; [|by apply scanned_error].
    destruct (scan_fraction r) as [fr r1] eqn:Hf. destruct (scan_exponent r1) as [ex r2] eqn:He.
    apply scan_integer_size in Hi. apply scan_fraction_size in Hf. apply scan_exponent_size in He.
    destruct (_ && _); [destruct (4300 <? len d)|]; cbn; [done|lia..]. }
  unfold scan_number. destruct (eat "-" s) as [t|] eqn:He; [|by apply Hn].
  apply eat_size in He. apply Hn. lia.
Qed.

(** Twice the length of the text is enough fuel. *)
Lemma scan_fuel n :
  (∀ d s, (2 * size s < n)%nat → scanned s (scan_value n d s)) ∧
  (∀ d acc s, (2 * size s < n)%nat → scanned s (scan_members n d acc s)) ∧
  (∀ d acc s, (2 * size s + 1 < n)%nat → scanned s (scan_elements n d acc s)).
Proof.
  induction n as [|n (IHv & IHm & IHe)]; [repeat split; intros; lia|].
  split; [|split].
  - intros d s Hs. cbn [scan_value]. destruct s as [|c s]; [by apply scanned_error|].
    cbn [size] in Hs. pose proof (skip_space_size s) as Hsp.
    destruct (Ascii.eqb c dquote).
    { apply (scanned_bind _ s _ (λ t r, (PStr t, r))); [apply scan_string_scanned|].
      intros. cbn. lia. }
    destruct (Ascii.eqb c "{").
    { destruct d as [|d]; [by apply scanned_error|].
      destruct (eat "}" (skip_space s)) as [r|] eqn:He.
      { apply eat_skip_size in He. cbn. lia. }
      specialize (IHm d [] (skip_space s)). unfold scanned in *. cbn [size].
      destruct (scan_members _ _ _ _) as [[v r]|]; [assert (size r < size (skip_space s))%nat; [apply IHm|]; lia|].
      apply IHm. lia. }
    destruct (Ascii.eqb c "[").
    { destruct d as [|d]; [by apply scanned_error|].
      destruct (eat "]" (skip_space s)) as [r|] eqn:He.
      { apply eat_skip_size in He. cbn. lia. }
      specialize (IHe d [] (skip_space s)). unfold scanned in *. cbn [size].
      destruct (scan_elements _ _ _ _) as [[v r]|]; [assert (size r < size (skip_space s))%nat; [apply IHe|]; lia|].
      apply IHe. lia. }
    destruct (scan_word words (String c s)) as [[v r]|] eqn:Hw.
    { apply scan_word_size in Hw; [done|]. repeat constructor; done. }
    apply scan_number_scanned.
  - intros d acc s Hs. cbn [scan_members].
    destruct (eat dquote s) as [rest|] eqn:Hq; [|by apply scanned_error].
    apply eat_size in Hq. pose proof (scan_string_scanned rest) as Hk.
    destruct (scan_string rest) as [[k r]|e]; [|done]. cbn in Hk.
    unfold mbind, res_bind. destruct (eat ":" (skip_space r)) as [r1|] eqn:Hc; [|by apply scanned_error].
    apply eat_skip_size in Hc. pose proof (skip_space_size r1).
    specialize (IHv d (skip_space r1) ltac:(lia)).
    destruct (scan_value n d (skip_space r1)) as [[v r2]|e]; [|done]. cbn in IHv.
    cbv zeta. destruct (eat "}" (skip_space r2)) as [r3|] eqn:Hb.
    { apply eat_skip_size in Hb. cbn. lia. }
    destruct (eat "," (skip_space r2)) as [r3|] eqn:Hb'; [|by apply scanned_error].
    apply eat_skip_size in Hb'. pose proof (skip_space_size r3).
    specialize (IHm d (dset acc (KStr k) v) (skip_space r3) ltac:(lia)). unfold scanned in *.
    destruct (scan_members _ _ _ _) as [[w r4]|]; [lia|done].
  - intros d acc s Hs. cbn [scan_elements].
    specialize (IHv d s ltac:(lia)).
    destruct (scan_value n d s) as [[v r]|e]; [|done]. cbn in IHv.
    unfold mbind, res_bind. destruct (eat "]" (skip_space r)) as [r1|] eqn:Hb.
    { apply eat_skip_size in Hb. cbn. lia. }
    destruct (eat "," (skip_space r)) as [r1|] eqn:Hb'; [|by apply scanned_error].
    apply eat_skip_size in Hb'. pose proof (skip_space_size r1).
    specialize (IHe d (acc ++ [v]) (skip_space r1) ltac:(lia)). unfold scanned in *.
    destruct (scan_elements _ _ _ _) as [[w r4]|]; [lia|done].
Qed.

(** [json_loads] never runs out of fuel. *)
Lemma json_loads_total depth s : json_loads depth s ≠ Err out_of_fuel.
Proof.
  unfold json_loads. destruct (startswith _ _); [done|].
  destruct (scan_fuel (2 * size s + 2)) as (Hv & _ & _).
  pose proof (skip_space_size s). specialize (Hv depth (skip_space s) ltac:(lia)).
  destruct (scan_value _ _ _) as [[v r]|e]; [|intros [= ->]; by apply Hv].
  unfold mbind, res_bind. by destruct (str_empty _).
Qed.

(** ** Reading back what [json_dumps] wrote *)

(** *** Strings *)
Lemma scan_escaped_char c rest :
  scan_string (escape_char c +:+ rest) = prepend (String c EmptyString) (scan_string rest).
Proof. destruct c as [[] [] [] [] [] [] [] []]; reflexivity. Qed.

Lemma prepend_ok c t r : prepend (String c EmptyString) (Ok (t, r)) = Ok (String c t, r).
Proof. done. Qed.

Lemma scan_escaped s r : scan_string (escape s +:+ String dquote r) = Ok (s, r).
Proof.
  induction s as [|c s IH]; [done|]. cbn [escape].
  by rewrite str_app_assoc, scan_escaped_char, IH.
Qed.

(** *** Integers *)
Definition no_digit (r : string) : Prop :=
  match r with
  | String c _ => is_digit c = false ∧ c ≠ "."%char ∧ c ≠ "e"%char ∧ c ≠ "E"%char
  | EmptyString => True
  end.

Lemma span_digits_app d r :
  str_forall is_digit d = true → no_digit r → span_digits (d +:+ r) = (d, r).
Proof.
  intros Hd Hr. induction d as [|c d IH].
  - rewrite str_app_nil_l. destruct r as [|c r]; [done|]. cbn. by destruct Hr as [-> _].
  - rewrite str_app_cons. cbn in Hd |- *. apply andb_true_iff in Hd as [-> Hd].
    by rewrite (IH Hd).
Qed.

Lemma no_fraction r : no_digit r → scan_fraction r = (EmptyString, r).
Proof.
  unfold scan_fraction. destruct r as [|c r]; [done|]. cbn [eat]. intros (_ & Hc & _).
  apply not_eq_sym, Ascii.eqb_neq in Hc. by rewrite Hc.
Qed.
Lemma no_exponent r : no_digit r → scan_exponent r = (EmptyString, r).
Proof.
  unfold scan_exponent. destruct r as [|c r]; [done|]. intros (_ & _ & Hc & Hc').
  by apply Ascii.eqb_neq in Hc as ->, Hc' as ->.
Qed.

(** Decimals that [str(n)] can print: no superfluous zero. *)
Definition plain (d : Decimal.uint) : Prop := d ≠ Decimal.Nil ∧ Decimal.unorm d = d.

Lemma plain_head d : plain (Decimal.D0 d) → d = Decimal.Nil.
Proof.
  intros [_ Hu]. change (Decimal.unorm (Decimal.D0 d)) with (Decimal.unorm d) in Hu.
  destruct (Decimal.nzhead d) as [| | | | | | | | | |] eqn:Hn;
    unfold Decimal.unorm in Hu; rewrite Hn in Hu; try discriminate Hu.
  - by injection Hu.
  - by apply DecimalFacts.nzhead_nonzero in Hn.
Qed.

Lemma string_of_plain d :
  plain d → NilZero.string_of_uint d = NilEmpty.string_of_uint d.
Proof. intros [Hd _]. by destruct d. Qed.

Lemma digits_of_text d : plain d → digits_of (NilZero.string_of_uint d) = Z.of_uint d.
Proof. intros [Hd _]. unfold digits_of. by rewrite NilZero.usu. Qed.

Lemma scan_integer_text d r :
  plain d → no_digit r →
  scan_integer (NilZero.string_of_uint d +:+ r) = Some (NilZero.string_of_uint d, r).
Proof.
  intros Hp Hr. rewrite (string_of_plain _ Hp). unfold scan_integer.
  destruct (Decimal.uint_eq_dec d (Decimal.D0 Decimal.Nil)) as [->|Hz]; [done|].
  assert (eat "0" (NilEmpty.string_of_uint d +:+ r) = None) as ->.
  { destruct d; try done; [by destruct Hp|]. by rewrite (plain_head _ Hp) in Hz. }
  rewrite span_digits_app; [|apply uint_digits|done]. destruct d; try done. by destruct Hp.
Qed.

Lemma scan_unsigned_text neg d r :
  plain d → no_digit r → len (NilZero.string_of_uint d) <= 4300 →
  scan_unsigned neg (NilZero.string_of_uint d +:+ r)
  = Ok (PInt (if neg : bool then - Z.of_uint d else Z.of_uint d), r).
Proof.
  intros Hp Hr Hl. unfold scan_unsigned.
  rewrite scan_integer_text, no_fraction, no_exponent by done. cbn [str_empty andb].
  destruct (Z.ltb_spec 4300 (len (NilZero.string_of_uint d))) as [?|_]; [lia|].
  cbn. by rewrite digits_of_text.
Qed.

Lemma plain_to_int z :
  match Z.to_int z with Decimal.Pos d | Decimal.Neg d => plain d end.
Proof.
  assert (∀ p, plain (Pos.to_uint p)) as Hp.
  { intros p. split; [apply DecimalPos.Unsigned.to_uint_nonnil|].
    rewrite <- (DecimalN.Unsigned.to_of (Pos.to_uint p)).
    assert (N.of_uint (Pos.to_uint p) = Npos p) as -> by apply (DecimalN.Unsigned.of_to (Npos p)).
    done. }
  by destruct z as [|p|p]; cbn.
Qed.

(** A plain decimal of [k] digits is at least [10 ^ (k-1)]. *)
Lemma of_uint_acc_lower d acc :
  Z.pos acc * 10 ^ Z.of_nat (Decimal.nb_digits d) <= Z.pos (Pos.of_uint_acc d acc).
Proof.
  revert acc. induction d; intros acc; cbn [Decimal.nb_digits Pos.of_uint_acc];
    [lia|..]; rewrite Nat2Z.inj_succ, Z.pow_succ_r by lia;
    (etrans; [|apply IHd]); nia.
Qed.

Lemma plain_lower d :
  plain d → d ≠ Decimal.D0 Decimal.Nil →
  10 ^ (Z.of_nat (Decimal.nb_digits d) - 1) <= Z.of_uint d.
Proof.
  intros Hp Hz. unfold Z.of_uint.
  destruct d; [by destruct Hp|by rewrite (plain_head _ Hp) in Hz|..];
    cbn [Decimal.nb_digits Pos.of_uint Z.of_N];
    rewrite Nat2Z.inj_succ; replace (Z.succ _ - 1) with (Z.of_nat (Decimal.nb_digits d)) by lia;
    (etrans; [|apply of_uint_acc_lower]); nia.
Qed.

Lemma uint_text_size d : size (NilEmpty.string_of_uint d) = Decimal.nb_digits d.
Proof. induction d; cbn; by f_equal. Qed.

Lemma plain_size d k : plain d → 1 <= k → Z.of_uint d < 10 ^ k → len (NilZero.string_of_uint d) <= k.
Proof.
  intros Hp Hk Hl. unfold len. rewrite (string_of_plain _ Hp), uint_text_size.
  destruct (Decimal.uint_eq_dec d (Decimal.D0 Decimal.Nil)) as [->|Hz]; [cbn; lia|].
  pose proof (plain_lower d Hp Hz) as Hlow.
  destruct (Z.le_gt_cases (Z.of_nat (Decimal.nb_digits d)) k) as [|Hgt]; [done|].
  assert (10 ^ k <= 10 ^ (Z.of_nat (Decimal.nb_digits d) - 1)) by (apply Z.pow_le_mono_r; lia).
  lia.
Qed.

Lemma abs_below z b n : Z.abs z < b → z = n ∨ z = - n → n < b.
Proof. lia. Qed.

Lemma scan_number_text z r :
  int_printable z = true → no_digit r → scan_number (str_int z +:+ r) = Ok (PInt z, r).
Proof.
  rewrite int_printable_spec. intros Hz Hr. unfold str_int, scan_number.
  pose proof (plain_to_int z) as Hp. pose proof (DecimalZ.of_to z) as Hof.
  destruct (Z.to_int z) as [d|d]; cbn [NilZero.string_of_int] in *; unfold Z.of_int in Hof.
  - assert (eat "-" (NilZero.string_of_uint d +:+ r) = None) as ->.
    { rewrite (string_of_plain _ Hp). destruct d; try done. by destruct Hp. }
    rewrite scan_unsigned_text; [by rewrite Hof|done..|].
    apply plain_size; [done..|]. by eapply abs_below; [|left].
  - rewrite str_app_cons. cbn [eat]. rewrite Ascii.eqb_refl.
    rewrite scan_unsigned_text; [by rewrite Hof|done..|].
    apply plain_size; [done..|]. by eapply abs_below; [|right].
Qed.

(** *** Values *)
Fixpoint nesting (v : pyval) : nat :=
  match v with
  | PList l | PTuple l => S (foldr (λ x n, Nat.max (nesting x) n) O l)
  | PDict l => S (foldr (λ kv n, Nat.max (nesting kv.2) n) O l)
  | _ => O
  end.

(** No dictionary repeats a key: what a Python value is. *)
Fixpoint well_keyed (v : pyval) : bool :=
  match v with
  | PList l | PTuple l => forallb well_keyed l
  | PDict l => bool_decide (NoDup (fst <$> l)) && forallb (λ kv, well_keyed kv.2) l
  | _ => true
  end.

Definition readable (v : pyval) : Prop :=
  storable v = true ∧ printable_ints v = true ∧ well_keyed v = true.

Definition reads (v : pyval) : Prop :=
  ∀ n d r, (nesting v <= d)%nat → (2 * size (json_dumps v) <= n)%nat → no_digit r →
  scan_value n d (json_dumps v +:+ r) = Ok (canon v, r).

Lemma size_app s t : size (s +:+ t) = (size s + size t)%nat.
Proof. induction s as [|c s IH]; [done|]. rewrite str_app_cons. cbn. by rewrite IH. Qed.

Lemma lead_space v c : lead v c = true → json_space c = false.
Proof.
  destruct v as [|[]|z| | | | | | |]; cbn [lead]; try done;
    try (by intros ->%Ascii.eqb_eq).
  revert c. apply (ascii_forall (λ c, is_num c = true → json_space c = false)). reflexivity.
Qed.

Lemma skip_dumps v r : storable v = true → skip_space (json_dumps v +:+ r) = json_dumps v +:+ r.
Proof.
  intros Hs. destruct (dumps_lead v Hs) as (c & t & -> & Hl). rewrite str_app_cons.
  cbn [skip_space]. by rewrite (lead_space _ _ Hl).
Qed.

Lemma eat_close v r c :
  storable v = true → c = "]"%char ∨ c = "}"%char → eat c (json_dumps v +:+ r) = None.
Proof.
  intros Hs Hc. destruct (eat c (json_dumps v +:+ r)) as [t|] eqn:He; [|done]. exfalso.
  eapply (dumps_not_close v r c Hs Hc t). destruct (json_dumps v +:+ r) as [|d u]; [done|].
  cbn [eat] in He. destruct (Ascii.eqb c d) eqn:Hd; [|done]. apply Ascii.eqb_eq in Hd as ->.
  by injection He as ->.
Qed.

Lemma tail_no_digit {A} (pr : A → string) l c r :
  c = "]"%char ∨ c = "}"%char → no_digit (tail_text pr l +:+ String c r).
Proof. by intros [-> | ->]; destruct l. Qed.

Lemma elements_read x l n d acc r :
  Forall reads (x :: l) → Forall (λ v, storable v = true) (x :: l) →
  Forall (λ v, nesting v <= d)%nat (x :: l) →
  (2 * size (json_dumps x +:+ tail_text json_dumps l) < n)%nat →
  scan_elements n d acc (json_dumps x +:+ tail_text json_dumps l +:+ String "]" r)
  = Ok (PList (acc ++ map canon (x :: l)), r).
Proof.
  revert x n acc. induction l as [|y l IH]; intros x n acc Hr Hs Hn Hf;
    (destruct n as [|n]; [lia|]); cbn [scan_elements];
    apply Forall_cons in Hr as [Hx Hr], Hs as [Hsx Hs], Hn as [Hnx Hn];
    rewrite size_app in Hf;
    rewrite Hx; [|done|lia|apply tail_no_digit; by left| |done|lia|apply tail_no_digit; by left];
    cbn [mbind res_bind tail_text foldr].
  { done. }
  change (foldr (λ x acc, String ","%char (json_dumps x +:+ acc)) EmptyString l)
    with (tail_text json_dumps l).
  rewrite str_app_cons, str_app_assoc.
  change (skip_space (String "," ?u)) with (String "," u). cbn [eat].
  change (Ascii.eqb "]" ",") with false. change (Ascii.eqb "," ",") with true. cbv iota.
  pose proof Hs as [Hsy _]%Forall_cons. rewrite skip_dumps by done.
  rewrite IH; [by rewrite <- app_assoc|done..|].
  cbn [tail_text foldr size] in Hf. rewrite !size_app in *.
  change (foldr (λ x acc, String ","%char (json_dumps x +:+ acc)) EmptyString l)
    with (tail_text json_dumps l) in Hf. lia.
Qed.

(** *** Objects *)
Abbreviation entry_canon := (λ kv : pykey * pyval, (kv.1, canon kv.2)).

Lemma entry_size kv : (size (json_dumps kv.2) < size (entry kv))%nat.
Proof. unfold entry, quote. rewrite !size_app. cbn [String.length]. lia. Qed.

Lemma members_read kv l n d acc r :
  Forall (λ kv, reads kv.2) (kv :: l) → Forall storable_entry (kv :: l) →
  Forall (λ kv, nesting kv.2 <= d)%nat (kv :: l) →
  NoDup (acc.*1 ++ (kv :: l).*1) →
  (2 * size (entry kv +:+ tail_text entry l) <= n)%nat →
  scan_members n d acc (entry kv +:+ tail_text entry l +:+ String "}" r)
  = Ok (PDict (acc ++ map entry_canon (kv :: l)), r).
Proof.
  revert kv n acc. induction l as [|kv' l IH]; intros [k v] n acc Hr Hs Hn Hd Hf;
    rewrite size_app in Hf; pose proof (entry_size (k, v)) as Hsz; cbn [snd] in Hsz;
    (destruct n as [|n]; [lia|]);
    apply Forall_cons in Hr as [Hx Hr], Hs as [Hsx Hs], Hn as [Hnx Hn];
    cbn [fst snd] in *; unfold storable_entry in Hsx; cbn [fst snd] in Hsx;
    (destruct k as [k|]; [|done]); cbn [andb] in Hsx.
  all: assert (dget acc (KStr k) = None) as Hk
    by (destruct (dget acc (KStr k)) as [w|] eqn:Hg; [|done];
        apply dget_elem in Hg; apply NoDup_app in Hd as (_ & Hd & _);
        exfalso; apply (Hd (KStr k)); [apply list_elem_of_fmap; by exists (KStr k, w)|by constructor]).
  all: cbn [scan_members]; unfold entry at 1; cbn [fst snd key_text]; unfold quote;
    rewrite !str_app_cons, !str_app_assoc, !str_app_cons; cbn [eat]; rewrite Ascii.eqb_refl;
    rewrite scan_escaped; cbn [mbind res_bind]; rewrite !str_app_nil_l.
  all: change (skip_space (String ":" ?u)) with (String ":" u); cbn [eat];
    change (Ascii.eqb ":" ":") with true; cbv iota; rewrite skip_dumps by done.
  all: rewrite Hx; [|done|lia|first [done|apply tail_no_digit; by right]]; cbn [mbind res_bind];
    cbv zeta; rewrite dset_new by done.
  { done. }
  cbn [tail_text foldr].
  change (foldr (λ x acc, String ","%char (entry x +:+ acc)) EmptyString l)
    with (tail_text entry l).
  rewrite str_app_cons, str_app_assoc.
  change (skip_space (String "," ?u)) with (String "," u). cbn [eat].
  change (Ascii.eqb "}" ",") with false. change (Ascii.eqb "," ",") with true. cbv iota.
  assert (∀ u, skip_space (entry kv' +:+ u) = entry kv' +:+ u) as -> by done.
  rewrite IH; [by rewrite <- app_assoc|done..| |].
  - rewrite fmap_app, <- app_assoc. done.
  - cbn [tail_text foldr size] in Hf. rewrite !size_app in *.
    change (foldr (λ x acc, String ","%char (entry x +:+ acc)) EmptyString l)
      with (tail_text entry l) in Hf. lia.
Qed.

(** *** Every value *)
Lemma nesting_list (l : list pyval) d :
  (foldr (λ x n, Nat.max (nesting x) n) O l <= d)%nat → Forall (λ v, nesting v <= d)%nat l.
Proof. induction l as [|x l IH]; cbn; intros Hl; constructor; [lia|apply IH; lia]. Qed.

Lemma nesting_dict (l : list (pykey * pyval)) d :
  (foldr (λ kv n, Nat.max (nesting kv.2) n) O l <= d)%nat →
  Forall (λ kv, nesting kv.2 <= d)%nat l.
Proof. induction l as [|x l IH]; cbn; intros Hl; constructor; [lia|apply IH; lia]. Qed.

Lemma readable_dict l :
  readable (PDict l) →
  NoDup (l.*1) ∧ Forall storable_entry l ∧ Forall (λ kv, readable kv.2) l.
Proof.
  intros (Hs & Hp & Hk). cbn in Hs, Hp, Hk. apply andb_true_iff in Hk as [Hnd Hk].
  apply bool_decide_eq_true in Hnd. split; [done|].
  rewrite !Forall_forallb in *. rewrite Forall_forall in Hs, Hp, Hk. split.
  - apply Forall_forall. intros kv Hin. by apply Hs.
  - apply Forall_forall. intros kv Hin. split; [|split; [by apply Hp|by apply Hk]].
    specialize (Hs _ Hin). by apply andb_true_iff in Hs as [_ Hs].
Qed.

Lemma readable_list l :
  forallb storable l = true → forallb printable_ints l = true → forallb well_keyed l = true →
  Forall readable l ∧ Forall (λ v, storable v = true) l.
Proof.
  rewrite !Forall_forallb, !Forall_forall. intros Hs Hp Hk.
  split; [|done]. intros x Hin. by split; [apply Hs|split; [apply Hp|apply Hk]].
Qed.

(** A text that starts like no word is scanned as a number. *)
Lemma scan_digits_value n d s :
  match s with String c _ => is_num c = true | EmptyString => False end →
  eat_text "-Infinity" s = None →
  scan_value (S n) d s = scan_number s.
Proof.
  destruct s as [|c s]; [done|]. intros Hc Hi. cbn [scan_value].
  assert (Ascii.eqb c dquote = false ∧ Ascii.eqb c "{" = false ∧ Ascii.eqb c "[" = false ∧
    Ascii.eqb "n" c = false ∧ Ascii.eqb "t" c = false ∧ Ascii.eqb "f" c = false ∧
    Ascii.eqb "N" c = false ∧ Ascii.eqb "I" c = false) as (-> & -> & -> & Hn & Ht & Hf & HN & HI).
  { clear Hi. revert c Hc.
    apply (ascii_forall (λ c, is_num c = true →
      Ascii.eqb c dquote = false ∧ Ascii.eqb c "{" = false ∧ Ascii.eqb c "[" = false ∧
      Ascii.eqb "n" c = false ∧ Ascii.eqb "t" c = false ∧ Ascii.eqb "f" c = false ∧
      Ascii.eqb "N" c = false ∧ Ascii.eqb "I" c = false)). reflexivity. }
  cbn [scan_word words]. rewrite Hi.
  cbn [eat_text eat]. by rewrite Hn, Ht, Hf, HN, HI.
Qed.

Lemma int_not_infinity z r : eat_text "-Infinity" (str_int z +:+ r) = None.
Proof.
  unfold str_int. pose proof (plain_to_int z) as Hp.
  destruct (Z.to_int z) as [d|d]; cbn [NilZero.string_of_int]; rewrite (string_of_plain _ Hp).
  - destruct d; try done. by destruct Hp.
  - destruct d; try done. by destruct Hp.
Qed.

Lemma reads_int z : int_printable z = true → reads (PInt z).
Proof.
  intros Hz n d r _ Hf Hr. cbn [json_dumps canon] in *.
  pose proof (str_int_num z) as Hn. pose proof (str_int_nonempty z) as Hne.
  destruct n as [|n]; [destruct (str_int z); [done|cbn in Hf; lia]|].
  rewrite scan_digits_value; [by apply scan_number_text| |apply int_not_infinity].
  destruct (str_int z) as [|c t]; [done|]. by apply andb_true_iff in Hn as [? _].
Qed.

(** The text of a container: its brackets around its items. *)
Lemma reads_list v l :
  json_dumps v = "[" +:+ String.concat "," (map json_dumps l) +:+ "]" →
  canon v = PList (map canon l) → (∀ d, nesting v <= d → ∃ d', d = S d' ∧
    Forall (λ v, nesting v <= d') l)%nat →
  Forall reads l → Forall (λ v, storable v = true) l → reads v.
Proof.
  intros Hv Hc Hnest Hr Hs n d r Hd Hf Hsep. destruct (Hnest d Hd) as (d' & -> & Hn).
  rewrite Hv, Hc in *. rewrite !size_app in Hf. cbn [size] in Hf.
  destruct n as [|n]; [lia|]. cbn [scan_value]. rewrite !str_app_cons, !str_app_nil_l.
  change (Ascii.eqb "[" dquote) with false. change (Ascii.eqb "[" "{") with false.
  change (Ascii.eqb "[" "[") with true. cbv iota.
  destruct l as [|x l]; [done|]. rewrite concat_cons in *.
  rewrite !str_app_assoc, !str_app_cons, !str_app_nil_l.
  pose proof Hs as [Hx _]%Forall_cons. rewrite skip_dumps, eat_close by (try done; by left).
  rewrite (elements_read x l n d' []); try done. lia.
Qed.

Lemma reads_dict l :
  NoDup (l.*1) → Forall storable_entry l → Forall (λ kv, reads kv.2) l → reads (PDict l).
Proof.
  intros Hnd Hs Hr n d r Hd Hf Hsep. destruct d as [|d]; [cbn in Hd; lia|].
  apply le_S_n, nesting_dict in Hd. rewrite dumps_dict, canon_dict in *.
  assert (NoDup ((by_key l).*1)) as Hnd' by (unfold by_key; by rewrite sort_on_perm).
  rewrite <- (Forall_by_key _ l) in Hd. rewrite <- (Forall_by_key storable_entry l) in Hs.
  rewrite <- (Forall_by_key _ l) in Hr. revert Hnd' Hs Hr Hd Hf. generalize (by_key l) as m.
  intros m Hnd' Hs Hr Hd Hf. rewrite !size_app in Hf. cbn [size] in Hf.
  destruct n as [|n]; [lia|]. cbn [scan_value]. rewrite !str_app_cons, !str_app_nil_l.
  change (Ascii.eqb "{" dquote) with false. change (Ascii.eqb "{" "{") with true. cbv iota.
  destruct m as [|kv m]; [done|]. rewrite concat_cons in *.
  rewrite !str_app_assoc, !str_app_cons, !str_app_nil_l.
  assert (∀ u, skip_space (entry kv +:+ u) = entry kv +:+ u) as -> by done.
  assert (∀ u, eat "}" (entry kv +:+ u) = None) as -> by done.
  rewrite (members_read kv m n d []); try done. lia.
Qed.

(** *** [json.loads(json.dumps(v))] *)
Lemma dumps_read v : readable v → reads v.
Proof.
  induction v as [|b|z|fl|s|bs|l IH|l IH|l IH|ty] using pyval_deep_ind; intros Hv.
  1, 2: intros [|n] d r _ Hf Hr; [cbn in Hf; try destruct b; cbn in Hf; lia|]; try destruct b; done.
  - apply reads_int. by destruct Hv as (_ & ? & _).
  - by destruct Hv.
  - intros [|n] d r _ Hf Hr; [cbn in Hf; lia|]. cbn [json_dumps canon]. unfold quote.
    rewrite str_app_cons, str_app_assoc, str_app_cons, str_app_nil_l. cbn [scan_value].
    rewrite Ascii.eqb_refl, scan_escaped. done.
  - by destruct Hv.
  - destruct Hv as (Hs & Hp & Hk). destruct (readable_list l Hs Hp Hk) as [Hl Hst].
    apply (reads_list _ l); [done..| | |done].
    + intros [|d] Hd; cbn in Hd; [lia|]. exists d. split; [done|]. apply nesting_list. lia.
    + rewrite Forall_forall in *. intros x Hx. apply IH; [done|]. by apply Hl.
  - destruct Hv as (Hs & Hp & Hk). destruct (readable_list l Hs Hp Hk) as [Hl Hst].
    apply (reads_list _ l); [done..| | |done].
    + intros [|d] Hd; cbn in Hd; [lia|]. exists d. split; [done|]. apply nesting_list. lia.
    + rewrite Forall_forall in *. intros x Hx. apply IH; [done|]. by apply Hl.
  - destruct (readable_dict l Hv) as (Hnd & Hs & Hl). apply reads_dict; [done..|].
    rewrite Forall_forall in *. intros x Hx. apply IH; [done|]. by apply Hl.
  - by destruct Hv.
Qed.

Lemma no_byte_order_mark v r :
  storable v = true → startswith (json_dumps v +:+ r) byte_order_mark = false.
Proof.
  intros Hs. destruct (dumps_lead v Hs) as (c & t & -> & Hl). rewrite str_app_cons.
  unfold startswith, byte_order_mark.
  assert (utf8_char 65279 = String "239" (String "187" (String "191" EmptyString))) as -> by done.
  cbn [String.prefix]. destruct (ascii_dec "239" c) as [<-|]; [|done]. exfalso.
  destruct v as [|[]| | | | | | | |]; discriminate Hl.
Qed.

Lemma loads_dumps depth v :
  readable v → (nesting v <= depth)%nat → json_loads depth (json_dumps v) = Ok (canon v).
Proof.
  intros Hv Hd. pose proof Hv as (Hs & _). unfold json_loads.
  rewrite <- (str_app_nil_r (json_dumps v)), no_byte_order_mark, skip_dumps by done.
  rewrite (dumps_read v Hv); [done|done|rewrite str_app_nil_r; lia|done].
Qed.
