(* ===== verification/History.v ===== *)
(** [railone_history]: the privacy-limited transaction history.  [models.py]
    (records), [store.py] (immutable projections, subject links, access audit),
    [service.py] (the indexer of accepted UTTs, the permissioned queries and
    their keyset cursors).  [uuid4().hex] is an argument of the operation that
    draws it. *)

From Stdlib Require Import Ascii String.
From stdpp Require Import countable.
From S2P Require Import Prelude.
From S2P Require Import PyBase.
From S2P Require Import PyDict.
From S2P Require Import Bytes.
From S2P Require Import CanonicalJson.
From S2P Require Import Keys.
From S2P Require Import Signatures.
From S2P Require Import ContractModels.
From S2P Require Import Contracts.
From S2P Require Import Identity.
From S2P Require Import PyText.

(** ** [models.py] *)
Inductive SubjectKind := SUBJ_CONTINUITY_UID | SUBJ_MERCHANT_ID | SUBJ_BRANCH_ID | SUBJ_PARTNER_ID.
Inductive TransactionRole :=
  | PAYER | BENEFICIARY | AUTHORIZER | ORIGIN_MERCHANT | ORIGIN_BRANCH | ORIGIN_PARTNER.
Inductive AccessOutcome := ALLOWED | DENIED.

#[global] Instance SubjectKind_eq_dec : EqDecision SubjectKind.
Proof. solve_decision. Defined.
#[global] Instance TransactionRole_eq_dec : EqDecision TransactionRole.
Proof. solve_decision. Defined.
#[global] Instance AccessOutcome_eq_dec : EqDecision AccessOutcome.
Proof. solve_decision. Defined.

Definition SubjectKind_value (k : SubjectKind) : string :=
  match k with
  | SUBJ_CONTINUITY_UID => "CONTINUITY_UID" | SUBJ_MERCHANT_ID => "MERCHANT_ID"
  | SUBJ_BRANCH_ID => "BRANCH_ID" | SUBJ_PARTNER_ID => "PARTNER_ID"
  end.
Definition TransactionRole_value (r : TransactionRole) : string :=
  match r with
  | PAYER => "PAYER" | BENEFICIARY => "BENEFICIARY" | AUTHORIZER => "AUTHORIZER"
  | ORIGIN_MERCHANT => "ORIGIN_MERCHANT" | ORIGIN_BRANCH => "ORIGIN_BRANCH"
  | ORIGIN_PARTNER => "ORIGIN_PARTNER"
  end.

#[global] Instance SubjectKind_value_inj : Inj (=) (=) SubjectKind_value.
Proof. by intros [] []. Qed.
#[global] Instance TransactionRole_value_inj : Inj (=) (=) TransactionRole_value.
Proof. by intros [] []. Qed.

#[global] Instance SubjectKind_countable : Countable SubjectKind.
Proof.
  refine (inj_countable' (λ k, match k with
      SUBJ_CONTINUITY_UID => 0%nat | SUBJ_MERCHANT_ID => 1%nat
    | SUBJ_BRANCH_ID => 2%nat | SUBJ_PARTNER_ID => 3%nat end)
    (λ n, match n with
      0%nat => SUBJ_CONTINUITY_UID | 1%nat => SUBJ_MERCHANT_ID
    | 2%nat => SUBJ_BRANCH_ID | _ => SUBJ_PARTNER_ID end) _).
  by intros [].
Defined.

(** A party a transaction is indexed under. *)
Definition subject : Type := SubjectKind * string.

Definition READ_ANY_PERMISSION : string := "railone.transactions.read:any".

(** Fields copied from the UTT payload keep the value they have there. *)
Record UttTransactionProjection := {
  tp_utt_id : string;
  tp_payload_sha256 : string;
  tp_quote_id : pyval;
  tp_purpose : pyval;
  tp_context_type : pyval;
  tp_amount_minor : pyval;
  tp_currency_from : pyval;
  tp_receive_amount_minor : pyval;
  tp_currency_to : pyval;
  tp_commercial_state : pyval;
  tp_accepted_at : instant;
  tp_indexed_at : instant;
}.

Record TransactionSubjectLink := Link {
  ln_utt_id : string;
  ln_kind : SubjectKind;
  ln_subject_id : string;
  ln_roles : list TransactionRole;
  ln_linked_at : instant;
}.
#[global] Instance TransactionSubjectLink_eq_dec : EqDecision TransactionSubjectLink.
Proof. solve_decision. Defined.

Definition ln_subject (l : TransactionSubjectLink) : subject := (ln_kind l, ln_subject_id l).

Record TransactionReadContext := {
  rc_principal_id : string;
  rc_continuity_uid : option string;
  rc_merchant_ids : list string;
  rc_branch_ids : list string;
  rc_partner_ids : list string;
  rc_permissions : list string;
  rc_access_reason : option string;
}.

Record TransactionHistoryEntry := Entry {
  en_transaction : UttTransactionProjection;
  en_matched_roles : list TransactionRole;
}.

Record TransactionHistoryPage := Page {
  pg_entries : list TransactionHistoryEntry;
  pg_next_cursor : option string;
}.

Record TransactionAccessAudit := Audit {
  au_audit_id : string;
  au_principal_id : string;
  au_target_kind : string;
  au_target_id : string;
  au_outcome : AccessOutcome;
  au_access_reason : string;
  au_occurred_at : instant;
}.

Definition utc_datetime_from_epoch (value : pyval) : res instant :=
  match value with
  | PInt n => fromtimestamp n
  | _ => raise TypeError "epoch timestamp must be an integer"
  end.

(** ** [store.py] *)
Record HistoryStore := History {
  transactions : gmap string UttTransactionProjection;
  links_by_utt : gmap string (list TransactionSubjectLink);
  utts_by_subject : gmap subject (gset string);
  audits : list TransactionAccessAudit;
}.
Implicit Types (s : HistoryStore) (p : UttTransactionProjection) (l : TransactionSubjectLink).

Definition no_history : HistoryStore := History ∅ ∅ ∅ [].

(** [setdefault(key, set()).add(utt_id)] *)
Definition enlist (utt_id : string) (m : gmap subject (gset string)) l
    : gmap subject (gset string) :=
  <[ln_subject l := {[utt_id]} ∪ default ∅ (m !! ln_subject l)]> m.

Definition commit_history p (links : list TransactionSubjectLink)
    : M HistoryStore UttTransactionProjection :=
  s ← getS;
  match transactions s !! tp_utt_id p with
  | Some present =>
      _ ← raise_if (negb (String.eqb (tp_payload_sha256 present) (tp_payload_sha256 p)))
            RuntimeError "UTT transaction projection conflict";
      mret present
  | None =>
      _ ← raise_if (bool_decide (links = [])) ValueError
            "UTT transaction projection requires at least one subject";
      _ ← raise_if (existsb (λ l, negb (String.eqb (ln_utt_id l) (tp_utt_id p))) links)
            ValueError "transaction link UTT does not match projection";
      _ ← raise_if (negb (bool_decide (NoDup (ln_subject <$> links)))) ValueError
            "transaction subject links must be aggregated";
      _ ← putS (History (<[tp_utt_id p := p]> (transactions s))
                  (<[tp_utt_id p := links]> (links_by_utt s))
                  (foldl (enlist (tp_utt_id p)) (utts_by_subject s) links) (audits s));
      mret p
  end.

Definition require_projection s (utt_id : string) : res UttTransactionProjection :=
  require (transactions s !! utt_id) TransactionProjectionNotFoundError
    ("transaction projection not found: " +:+ utt_id).

Definition links_for_utt s (utt_id : string) : res (list TransactionSubjectLink) :=
  _ ← require_projection s utt_id;
  require (links_by_utt s !! utt_id) KeyError utt_id.

Definition row : Type := UttTransactionProjection * TransactionSubjectLink.
(** [(row[0].accepted_at, row[0].utt_id)] *)
Definition row_key (r : row) : instant * string := (tp_accepted_at r.1, tp_utt_id r.1).

(** [reverse=True] *)
Definition later_first : instant * string → instant * string → Prop := flip (lex_le Z.le).
#[global] Instance later_first_dec : RelDecision later_first.
Proof. intros x y. unfold later_first, flip. apply _. Defined.

(** One row of a listing; [next] raises [StopIteration] when no link matches. *)
Definition row_of s (sub : subject) (utt_id : string) : res row :=
  p ← require (transactions s !! utt_id) KeyError utt_id;
  links ← require (links_by_utt s !! utt_id) KeyError utt_id;
  l ← require (head (filter (λ l, ln_subject l = sub) links)) OtherException "StopIteration";
  mret (p, l).

Definition list_for_subject s (sub : subject) : res (list row) :=
  rows ← mapR (row_of s sub) (elements (default ∅ (utts_by_subject s !! sub)));
  mret (sort_on row_key later_first rows).

Definition append_audit (a : TransactionAccessAudit) : M HistoryStore unit :=
  s ← getS;
  _ ← raise_if (existsb (λ e, String.eqb (au_audit_id e) (au_audit_id a)) (audits s))
        RuntimeError "transaction access audit identifier collision";
  putS (History (transactions s) (links_by_utt s) (utts_by_subject s) (audits s ++ [a])).

(** ** [service.py] *)
Definition history_instant (at_ : option datetime) (clock : instant) : res instant :=
  aware "transaction-history timestamp must be timezone-aware" (or_now at_ clock).

(** *** [UttTransactionIndexer] *)
Definition roles_by_subject : Type := dict subject (list TransactionRole).

(** [roles_by_subject.setdefault(key, set()).add(role)]; a set of roles is a
    list without repetitions. *)
Definition add_role (d : roles_by_subject) (sub : subject) (r : TransactionRole)
    : roles_by_subject :=
  let roles := default [] (dget d sub) in
  dset d sub (if bool_decide (r ∈ roles) then roles else roles ++ [r]).

(** The closure [add] of [index]. *)
Definition add_subject (d : roles_by_subject) (kind : SubjectKind) (subject_id : pyval)
    (r : TransactionRole) : res roles_by_subject :=
  normalized ← require_text_v "subject_id" subject_id;
  mret (add_role d (kind, upper normalized) r).

Definition require_identity (identities : InMemoryIdentityRepository) (continuity_uid : pyval)
    : res unit :=
  normalized ← require_text_v "continuity_uid" continuity_uid;
  raise_if (negb (is_some_b (get_by_continuity_uid identities (upper normalized))))
    PermissionError ("unknown continuity UID cannot be indexed: " +:+ upper normalized).

Definition add_actor (identities : InMemoryIdentityRepository) (d : roles_by_subject)
    (actor : pyval) (r : TransactionRole) : res roles_by_subject :=
  m ← as_mapping actor;
  actor_type ← item m "actor_type" ≫= str_of;
  actor_id ← item m "actor_id" ≫= str_of;
  let ty := upper actor_type in
  let id := upper actor_id in
  if startswith id "CUID-" then
    _ ← require_identity identities (PStr id);
    mret (add_role d (SUBJ_CONTINUITY_UID, id) r)
  else if String.eqb ty "MERCHANT" then mret (add_role d (SUBJ_MERCHANT_ID, id) r)
  else if String.eqb ty "BRANCH" then mret (add_role d (SUBJ_BRANCH_ID, id) r)
  else if String.eqb ty "PARTNER" then mret (add_role d (SUBJ_PARTNER_ID, id) r)
  else mret d.

(** [if origin.get(k) is not None: add(kind, origin[k], role)] *)
Definition add_origin (origin : mapping) (d : roles_by_subject) (k : string)
    (kind : SubjectKind) (r : TransactionRole) : res roles_by_subject :=
  match get origin k with
  | None | Some PNone => mret d
  | Some v => add_subject d kind v r
  end.

(** The continuity identity that the origin names pays, or authorises. *)
Definition add_continuity (identities : InMemoryIdentityRepository) (origin : mapping)
    : res roles_by_subject :=
  match get origin "continuity_uid" with
  | None | Some PNone => mret []
  | Some uid =>
      _ ← require_identity identities uid;
      context ← item origin "context_type";
      add_subject [] SUBJ_CONTINUITY_UID uid
        (if eq_str (Some context) "P2P" then PAYER else AUTHORIZER)
  end.

(** Every subject that the payload names, with its roles. *)
Definition collect_roles (identities : InMemoryIdentityRepository) (utt origin : mapping)
    : res roles_by_subject :=
  d ← add_continuity identities origin;
  d ← add_origin origin d "merchant_id" SUBJ_MERCHANT_ID ORIGIN_MERCHANT;
  d ← add_origin origin d "branch_id" SUBJ_BRANCH_ID ORIGIN_BRANCH;
  d ← add_origin origin d "partner_id" SUBJ_PARTNER_ID ORIGIN_PARTNER;
  payer ← item utt "payer";
  d ← add_actor identities d payer PAYER;
  beneficiary ← item utt "beneficiary";
  add_actor identities d beneficiary BENEFICIARY.

Definition sorted_roles : list TransactionRole → list TransactionRole :=
  sort_on TransactionRole_value str_le.
(** [(item[0][0].value, item[0][1])] *)
Definition subject_key (item : subject * list TransactionRole) : string * string :=
  (SubjectKind_value item.1.1, item.1.2).
Definition links_of (utt_id : string) (at_ : instant) (d : roles_by_subject)
    : list TransactionSubjectLink :=
  (λ item, Link utt_id item.1.1 item.1.2 (sorted_roles item.2) at_) <$>
    sort_on subject_key (lex_le str_le) d.

Definition projection_of (utt_id : string) (utt_hash : string) (utt : mapping)
    (indexed_at : instant) : res (UttTransactionProjection * mapping) :=
  origin_value ← item utt "origin";
  quote ← item utt "quote_id";
  purpose ← item utt "purpose";
  origin ← as_mapping origin_value;
  context ← item origin "context_type";
  amount ← item utt "amount_minor";
  from ← item utt "currency_from";
  receive ← item utt "receive_amount_minor";
  to ← item utt "currency_to";
  state ← item utt "commercial_state";
  accepted ← item utt "accepted_at" ≫= utc_datetime_from_epoch;
  mret ({| tp_utt_id := utt_id; tp_payload_sha256 := utt_hash; tp_quote_id := quote;
           tp_purpose := purpose; tp_context_type := context; tp_amount_minor := amount;
           tp_currency_from := from; tp_receive_amount_minor := receive;
           tp_currency_to := to; tp_commercial_state := state;
           tp_accepted_at := accepted; tp_indexed_at := indexed_at |}, origin).

Section indexer.
Context {P : Type} `{!SigningKeyProvider P} `{Ed25519}.

(** What the indexer reads before it commits. *)
Definition read_utt (keys : P) (contracts : ContractStore)
    (identities : InMemoryIdentityRepository) (utt_id : string) (at_ : option datetime)
    (clock : instant) : res (UttTransactionProjection * list TransactionSubjectLink) :=
  indexed_at ← history_instant at_ clock;
  normalized ← require_text "utt_id" utt_id;
  signed ← require_utt contracts normalized;
  verification ← verify_artifact keys signed (Some UTT) false;
  _ ← raise_if (negb (valid verification)) PermissionError
        ("UTT rejected: " +:+ reason verification);
  let utt := payload signed in
  hash ← str_item (protected signed) "payload_sha256";
  '(p, origin) ← projection_of utt_id hash utt indexed_at;
  d ← collect_roles identities utt origin;
  mret (p, links_of utt_id indexed_at d).

Definition index_utt (keys : P) (contracts : ContractStore)
    (identities : InMemoryIdentityRepository) (utt_id : string) (at_ : option datetime)
    (clock : instant) : M HistoryStore UttTransactionProjection :=
  '(p, links) ← lift (read_utt keys contracts identities utt_id at_ clock);
  commit_history p links.
End indexer.

(** *** [TransactionHistoryService] *)
Implicit Types (access : TransactionReadContext).

Definition privileged access : bool :=
  bool_decide (READ_ANY_PERMISSION ∈ rc_permissions access).

(** [access.access_reason is None or not access.access_reason.strip()] *)
Definition no_reason access : bool :=
  match rc_access_reason access with None => true | Some t => blank t end.

Definition can_access (kind : SubjectKind) (subject_id : string) access : bool :=
  privileged access ||
  match kind with
  | SUBJ_CONTINUITY_UID =>
      String.eqb (upper (default EmptyString (rc_continuity_uid access))) (upper subject_id)
  | SUBJ_MERCHANT_ID => bool_decide (upper subject_id ∈ upper <$> rc_merchant_ids access)
  | SUBJ_BRANCH_ID => bool_decide (upper subject_id ∈ upper <$> rc_branch_ids access)
  | SUBJ_PARTNER_ID => bool_decide (upper subject_id ∈ upper <$> rc_partner_ids access)
  end.

Definition SUBJECT_SCOPED_ACCESS : string := "SUBJECT_SCOPED_ACCESS".
Definition PRIVILEGED_REASON_REQUIRED : string := "PRIVILEGED_REASON_REQUIRED".

(** The reason that goes to the audit trail. *)
Definition audit_reason access (fallback : string) : string :=
  if no_reason access then fallback else strip (default EmptyString (rc_access_reason access)).

Definition audit access (target_kind target_id : string) (allowed : bool) (at_ : instant)
    (fallback uuid_hex : string) : M HistoryStore unit :=
  principal ← lift (require_text "principal_id" (rc_principal_id access));
  append_audit (Audit ("TXAUD-" +:+ upper uuid_hex) principal target_kind target_id
    (if allowed then ALLOWED else DENIED) (audit_reason access fallback) at_).

Definition require_privileged_reason access (target_id : string) (at_ : instant)
    (uuid_hex : string) : M HistoryStore unit :=
  if privileged access && no_reason access then
    _ ← audit access "PRIVILEGED_QUERY" target_id false at_ PRIVILEGED_REASON_REQUIRED uuid_hex;
    raise TransactionAccessDeniedError "privileged transaction access requires an access reason"
  else mret tt.

(** The roles of the links that the principal may see. *)
Definition matched_roles (links : list TransactionSubjectLink) access : list TransactionRole :=
  links ≫= λ l, if can_access (ln_kind l) (ln_subject_id l) access then ln_roles l else [].

Definition get_by_utt (utt_id : string) access (at_ : option datetime) (clock : instant)
    (uuid_hex : string) : M HistoryStore TransactionHistoryEntry :=
  now ← lift (history_instant at_ clock);
  normalized ← lift (require_text "utt_id" utt_id);
  s ← getS;
  p ← lift (require_projection s normalized);
  links ← lift (links_for_utt s normalized);
  _ ← require_privileged_reason access normalized now uuid_hex;
  let matched := matched_roles links access in
  let allowed := negb (bool_decide (matched = [])) || privileged access in
  _ ← audit access "UTT" normalized allowed now SUBJECT_SCOPED_ACCESS uuid_hex;
  _ ← raise_if (negb allowed) TransactionAccessDeniedError "principal cannot read this UTT";
  mret (Entry p (sorted_roles (remove_dups matched))).

(** *** Cursors *)
Definition cursor_text p : string := str_int (epoch (tp_accepted_at p)) +:+ "|" +:+ tp_utt_id p.
Definition encode_cursor p : string := b64url_encode (encode_utf8 (cursor_text p)).

Definition decode_cursor (cursor : string) : res (Z * string) :=
  catch_res (λ k, subclass k ValueError)
    (raw ← b64url_decode cursor;
     decoded ← decode_utf8 raw;
     '(epoch_raw, utt_id) ← require (split_once "|" decoded) ValueError
                              "not enough values to unpack (expected 2, got 1)";
     _ ← raise_if (negb (startswith utt_id "UTT-")) ValueError EmptyString;
     n ← py_int epoch_raw;
     mret (n, utt_id))
    (λ _, raise ValueError "invalid transaction-history cursor").

(** [(int(row[0].accepted_at.timestamp()), row[0].utt_id) < cursor_key] *)
Definition cursor_key (r : row) : Z * string := (epoch (tp_accepted_at r.1), tp_utt_id r.1).
Definition key_lt (x y : Z * string) : bool :=
  bool_decide (lex_le Z.le x y) && negb (bool_decide (x = y)).

(** From the rows of a subject to the page after [cursor]. *)
Definition page_of (rows : list row) (limit : nat) : TransactionHistoryPage :=
  let visible := take limit rows in
  Page ((λ r : row, Entry r.1 (ln_roles r.2)) <$> visible)
    (if (limit <? length rows)%nat then encode_cursor ∘ fst <$> last visible else None).

Definition after_cursor (cursor : option string) (rows : list row) : res (list row) :=
  match cursor with
  | None => mret rows
  | Some c =>
      key ← decode_cursor c;
      mret (filter (λ r, key_lt (cursor_key r) key = true) rows)
  end.

Definition list_by_subject (kind : SubjectKind) (subject_id : string) access (limit : Z)
    (cursor : option string) (at_ : option datetime) (clock : instant) (uuid_hex : string)
    : M HistoryStore TransactionHistoryPage :=
  now ← lift (history_instant at_ clock);
  text ← lift (require_text "subject_id" subject_id);
  let normalized := upper text in
  _ ← raise_if (negb ((1 <=? limit) && (limit <=? 100))) ValueError
        "limit must be between 1 and 100";
  _ ← require_privileged_reason access normalized now uuid_hex;
  let allowed := can_access kind normalized access in
  _ ← audit access (SubjectKind_value kind) normalized allowed now SUBJECT_SCOPED_ACCESS uuid_hex;
  _ ← raise_if (negb allowed) TransactionAccessDeniedError
        "principal cannot read this subject transaction history";
  s ← getS;
  rows ← lift (list_for_subject s (kind, normalized));
  rows ← lift (after_cursor cursor rows);
  mret (page_of rows (Z.to_nat limit)).

Definition list_by_continuity_uid (continuity_uid : string) access (limit : Z)
    (cursor : option string) (at_ : option datetime) (clock : instant) (uuid_hex : string)
    : M HistoryStore TransactionHistoryPage :=
  list_by_subject SUBJ_CONTINUITY_UID continuity_uid access limit cursor at_ clock uuid_hex.
