(* ===== verification/HistoryFacts.v ===== *)
(** Lemmas on [History]: what a cursor round trip needs, the invariant of the
    store and its preservation, the listing of a subject, audited access and
    keyset paging. *)

From Stdlib Require Import Ascii String Strings.Byte DecimalString DecimalZ DecimalFacts.
From S2P Require Import Prelude.
From S2P Require Import PyBase.
From S2P Require Import PyDict.
From S2P Require Import Bytes.
From S2P Require Import Sha256.
From S2P Require Import CanonicalJson.
From S2P Require Import CanonicalFacts.
From S2P Require Import Keys.
From S2P Require Import Signatures.
From S2P Require Import Authority.
From S2P Require Import ContractModels.
From S2P Require Import Contracts.
From S2P Require Import Identity.
From S2P Require Import PyText.
From S2P Require Import History.

Implicit Types (s : HistoryStore) (p : UttTransactionProjection) (l : TransactionSubjectLink).

(** ** Cursors *)

(** *** Instants are printed in few digits *)
Lemma nb_digits_double d :
  (Decimal.nb_digits (Decimal.Little.double d) <= S (Decimal.nb_digits d))%nat ∧
  (Decimal.nb_digits (Decimal.Little.succ_double d) <= S (Decimal.nb_digits d))%nat.
Proof. induction d; cbn [Decimal.Little.double Decimal.Little.succ_double Decimal.nb_digits]; lia. Qed.

Lemma nb_digits_pos n : (Decimal.nb_digits (Pos.to_uint n) <= Pos.size_nat n)%nat.
Proof.
  unfold Pos.to_uint. rewrite nb_digits_rev.
  induction n as [n IH|n IH|]; cbn [Pos.to_little_uint Pos.size_nat]; [| |cbn; lia];
    destruct (nb_digits_double (Pos.to_little_uint n)); lia.
Qed.

Lemma uint_length d : String.length (NilEmpty.string_of_uint d) = Decimal.nb_digits d.
Proof. induction d; cbn; congruence. Qed.

Lemma str_int_length z : len (str_int z) <= 2 + Z.of_nat (Pos.size_nat (Z.to_pos (Z.abs z))).
Proof.
  assert (∀ n, len (NilZero.string_of_uint (Pos.to_uint n)) <= Z.of_nat (Pos.size_nat n)) as Hn.
  { intros n. pose proof (nb_digits_pos n) as Hd. unfold len.
    pose proof (DecimalPos.Unsigned.to_uint_nonnil n) as Hnil.
    destruct (Pos.to_uint n) eqn:E; [done|..]; rewrite <- E in *;
      (assert (NilZero.string_of_uint (Pos.to_uint n) = NilEmpty.string_of_uint (Pos.to_uint n))
        as -> by (by rewrite E)); rewrite uint_length; lia. }
  unfold str_int, len in *. destruct z as [|n|n]; cbn [Z.to_int NilZero.string_of_int Z.abs Z.to_pos].
  - by vm_compute.
  - change (Z.to_pos (Z.abs (Z.pos n))) with n. specialize (Hn n). lia.
  - change (Z.to_pos (Z.abs (Z.neg n))) with n. specialize (Hn n). cbn [String.length]. lia.
Qed.

(** The instants that the clock of the service can show. *)
Definition representable (n : Z) : Prop := -62135596800 <= n <= 253402300799.

Lemma representable_int n : representable n → py_int (str_int n) = Ok n.
Proof.
  intros Hn. apply py_int_str. etrans; [apply str_int_length|].
  assert (Pos.size_nat (Z.to_pos (Z.abs n)) <= 40)%nat; [|lia].
  destruct (decide (n = 0)) as [->|H0]; [vm_compute; lia|].
  unfold representable in Hn.
  transitivity (Pos.size_nat 253402300800%positive); [|vm_compute; lia].
  apply Pos.size_nat_monotone. lia.
Qed.

(** *** The text of a cursor *)
Definition utt_shaped (u : string) : Prop :=
  startswith u "UTT-" = true ∧ utf8_valid (encode_utf8 u) = true ∧ strip u = u.

(** The UTT was accepted at a whole second that the clock can show, and it is
    filed under a spelling of an identifier that RailOne minted: the indexer keeps
    the blanks that its caller put around the identifier. *)
Definition pageable p : Prop :=
  (∃ n, tp_accepted_at p = seconds n ∧ representable n) ∧ utt_shaped (strip (tp_utt_id p)).

Lemma str_int_text n :
  str_forall (λ c, negb (Ascii.eqb c "|")) (str_int n) = true ∧
  Forall (λ b, bz b < 128) (encode_utf8 (str_int n)).
Proof.
  assert (∀ d, str_forall (λ c, negb (Ascii.eqb c "|")) (NilEmpty.string_of_uint d) = true ∧
    Forall (λ b, bz b < 128) (encode_utf8 (NilEmpty.string_of_uint d))) as Hd.
  { unfold encode_utf8. induction d as [|d [IH1 IH2]|d [IH1 IH2]|d [IH1 IH2]|d [IH1 IH2]|d [IH1 IH2]|d [IH1 IH2]|d [IH1 IH2]|d [IH1 IH2]|d [IH1 IH2]|d [IH1 IH2]];
      (split; [done|]); cbn; constructor; try done. }
  unfold str_int. destruct (Z.to_int n) as [d|d]; cbn [NilZero.string_of_int].
  - destruct d; [split; [done|]; repeat constructor; done|apply Hd..].
  - destruct (Hd d) as [H1 H2].
    destruct d; [split; [done|]; repeat constructor; done|split; [done|constructor; done]..].
Qed.

Definition invalid_cursor : exn := Exn ValueError "invalid transaction-history cursor".

(** A cursor comes back as the key that it was made from, if the identifier is
    one that a cursor may hold; otherwise it is refused. *)
Lemma decode_encode_cursor p :
  representable (epoch (tp_accepted_at p)) →
  decode_cursor (encode_cursor p) =
    if utf8_valid (encode_utf8 (tp_utt_id p)) && startswith (tp_utt_id p) "UTT-"
    then Ok (epoch (tp_accepted_at p), tp_utt_id p) else Err invalid_cursor.
Proof.
  intros Hn. unfold decode_cursor, encode_cursor, cursor_text.
  rewrite b64url_roundtrip. destruct (str_int_text (epoch (tp_accepted_at p))) as [Hbar Hascii].
  unfold mbind at 1, res_bind at 1.
  assert (utf8_valid (encode_utf8 (str_int (epoch (tp_accepted_at p)) +:+ "|" +:+ tp_utt_id p))
    = utf8_valid (encode_utf8 (tp_utt_id p))) as Hutf.
  { rewrite !encode_utf8_app, utf8_ascii_app by exact Hascii. done. }
  destruct (utf8_valid (encode_utf8 (tp_utt_id p))); cbn [andb].
  2: { unfold decode_utf8. by rewrite Hutf. }
  rewrite decode_encode by done.
  cbn [mbind res_bind]. change ("|" +:+ tp_utt_id p) with (String "|" (tp_utt_id p)).
  rewrite split_once_app by done. cbn [require mret res_ret mbind res_bind].
  destruct (startswith (tp_utt_id p) "UTT-"); [|done].
  cbn [negb raise_if mret res_ret mbind res_bind]. by rewrite representable_int.
Qed.

(** *** Whatever the text, decoding succeeds or reports the one error *)
Definition value_errors {A} (m : res A) : Prop :=
  match m with Ok _ => True | Err x => subclass (exn_class x) ValueError = true end.

Lemma value_errors_bind {A B} (m : res A) (f : A → res B) :
  value_errors m → (∀ a, value_errors (f a)) → value_errors (m ≫= f).
Proof. destruct m; simpl; auto. Qed.

Lemma a2b_value_errors str q k n : value_errors (a2b_base64 str q k n).
Proof.
  revert q k n. induction str as [|c str IH]; intros q k n; cbn [a2b_base64].
  - by case_match.
  - repeat case_match; try done; try apply IH; (apply value_errors_bind; [apply IH|done]).
Qed.

Lemma decode_cursor_cases c :
  (∃ n u, decode_cursor c = Ok (n, u)) ∨ decode_cursor c = Err invalid_cursor.
Proof.
  unfold decode_cursor, catch_res.
  match goal with |- context [match ?m with _ => _ end] => assert (value_errors m) as Hm end.
  { apply value_errors_bind.
    { unfold b64url_decode, urlsafe_b64decode. case_match; [apply a2b_value_errors|done]. }
    intros raw. apply value_errors_bind; [unfold decode_utf8; by destruct (utf8_valid raw)|].
    intros text. apply value_errors_bind; [by destruct (split_once "|" text)|].
    intros [e u]. apply value_errors_bind; [by destruct (startswith u "UTT-")|].
    intros _. apply value_errors_bind; [|done].
    unfold py_int. by destruct (match strip e with String _ _ => _ | _ => _ end). }
  destruct (_ ≫= _) as [[n u]|x]; [left; eauto|]. cbn in Hm. rewrite Hm. by right.
Qed.

(** ** Identifiers that RailOne mints *)
Lemma solid_shape t : str_forall solid t = true →
  str_forall (λ c, negb (is_space c)) t = true ∧ utf8_valid (encode_utf8 t) = true.
Proof.
  induction t as [|c t IH]; [done|]. cbn [str_forall]. intros [Hc Ht]%andb_true_iff.
  apply andb_true_iff in Hc as [Hs Ha]. destruct (IH Ht) as [-> Hu].
  split; [by rewrite Hs|].
  change (encode_utf8 (String c t)) with (byte_of_ascii c :: encode_utf8 t).
  cbn [utf8_valid]. assert (bz (byte_of_ascii c) = code c) as ->; [|by rewrite Ha, Hu].
  clear. revert c. apply (ascii_forall (λ c, bz (byte_of_ascii c) = code c)). by vm_compute.
Qed.

Lemma minted_shape v u : content_id "UTT" v = Ok u → utt_shaped u.
Proof.
  intros (b & _ & ->)%content_id_ok. unfold sha256_hex.
  set (t := str_take 32 (upper (hex (sha256 b)))).
  assert (str_forall solid ("UTT" +:+ "-" +:+ t) = true) as Hs
    by (cbn; apply (solid_hex 32 (sha256 b))).
  destruct (solid_shape _ Hs) as [Hsp Hu]. split; [|split; [done|by apply strip_solid]].
  cbn. by destruct t.
Qed.

(** A contract store filled by acceptances, each under the keys of its time. *)
Inductive acceptance (P : Type) `{!SigningKeyProvider P} `{Ed25519} (st st' : ContractStore) : Prop :=
  | Acceptance (p : P) uk ak c at_ now r :
      accept p uk ak c at_ now st = (r, st') → acceptance P st st'.

Lemma minted_utts (P : Type) `{!SigningKeyProvider P} `{Ed25519} st :
  rtc (acceptance P) no_contracts st → ∀ u, is_Some (utts st !! u) → utt_shaped u.
Proof.
  revert st. apply (rtc_ind_r (λ st, ∀ u, is_Some (utts st !! u) → utt_shaped u)).
  { intros u. cbn. rewrite lookup_empty. by intros []. }
  intros st1 st2 _ [p uk ak c at_ now r Hrun] IH.
  intros u Hu. unfold accept in Hrun.
  destruct (decide (is_Some (utts st1 !! u))) as [Hold|Hnew]; [by apply IH|].
  unfold mbind, M_bind, lift, getS, mret, M_ret in Hrun.
  repeat (case_match; simplify_eq/=; try done).
  all: match goal with Hc : commit_acceptance _ _ _ = _ |- _ =>
    apply commit_cases in Hc as [[-> _]|(_ & _ & _ & _ & ->)]; [done|] end.
  all: cbn in Hu; destruct Hu as [signed [[<- _]|[_ Hin]]%lookup_insert_Some];
    [|by destruct Hnew; exists signed].
  all: match goal with Hb : build_contract _ _ _ _ _ _ _ = Ok _ |- _ =>
    unfold build_contract in Hb; inv_ok Hb; cbn end.
  all: match goal with Hc : content_id "UTT" _ = Ok _ |- _ => by apply minted_shape in Hc end.
Qed.
