(* ===== verification/HistoryInvariant.v ===== *)
(** The invariant of the transaction-history store, what it makes of a listing,
    and the audited runs of the two queries. *)

From Stdlib Require Import Ascii String.
From S2P Require Import Prelude.
From S2P Require Import PyBase.
From S2P Require Import PyDict.
From S2P Require Import CanonicalJson.
From S2P Require Import CanonicalFacts.
From S2P Require Import Keys.
From S2P Require Import Signatures.
From S2P Require Import ContractModels.
From S2P Require Import Contracts.
From S2P Require Import Identity.
From S2P Require Import History.
From S2P Require Import HistoryFacts.

Implicit Types (s : HistoryStore) (p : UttTransactionProjection) (l : TransactionSubjectLink).

(** ** The invariant *)
Record history_wf s : Prop := {
  hw_id u p : transactions s !! u = Some p → tp_utt_id p = u;
  hw_dom u : is_Some (transactions s !! u) ↔ is_Some (links_by_utt s !! u);
  hw_links u ls : links_by_utt s !! u = Some ls →
    ls ≠ [] ∧ Forall (λ l, ln_utt_id l = u) ls ∧ NoDup (ln_subject <$> ls);
  hw_index sub u : u ∈ default ∅ (utts_by_subject s !! sub) ↔
    ∃ ls, links_by_utt s !! u = Some ls ∧ sub ∈ ln_subject <$> ls;
  hw_audits : NoDup (au_audit_id <$> audits s);
}.

Definition all_pageable s : Prop := ∀ u p, transactions s !! u = Some p → pageable p.

Lemma no_history_wf : history_wf no_history ∧ all_pageable no_history.
Proof.
  split; [split|]; unfold no_history; cbn.
  - intros u p. by rewrite lookup_empty.
  - intros u. by rewrite !lookup_empty.
  - intros u ls. by rewrite lookup_empty.
  - intros sub u. rewrite lookup_empty. cbn. split; [set_solver|].
    intros (ls & Hls & _). by rewrite lookup_empty in Hls.
  - constructor.
  - intros u p. cbn. by rewrite lookup_empty.
Qed.

Lemma enlist_elem u m l sub v :
  v ∈ default ∅ (enlist u m l !! sub) ↔
  v ∈ default ∅ (m !! sub) ∨ v = u ∧ sub = ln_subject l.
Proof.
  unfold enlist. rewrite lookup_insert. case_decide as E; [subst|]; cbn; set_solver.
Qed.

Lemma enlist_all_elem u ls m sub v :
  v ∈ default ∅ (foldl (enlist u) m ls !! sub) ↔
  v ∈ default ∅ (m !! sub) ∨ v = u ∧ sub ∈ ln_subject <$> ls.
Proof.
  revert m. induction ls as [|l ls IH]; intros m; cbn [foldl]; [set_solver|].
  rewrite IH, enlist_elem, fmap_cons, elem_of_cons. tauto.
Qed.

(** A commit either leaves the store alone or adds one new projection. *)
Lemma commit_history_cases p ls s r s' :
  commit_history p ls s = (r, s') →
  s' = s ∨
  r = Ok p ∧ transactions s !! tp_utt_id p = None ∧ ls ≠ [] ∧
  Forall (λ l, ln_utt_id l = tp_utt_id p) ls ∧ NoDup (ln_subject <$> ls) ∧
  s' = History (<[tp_utt_id p := p]> (transactions s)) (<[tp_utt_id p := ls]> (links_by_utt s))
         (foldl (enlist (tp_utt_id p)) (utts_by_subject s) ls) (audits s).
Proof.
  unfold commit_history, mbind, M_bind, getS, putS, raise_if, mret, M_ret, raise, raise_exn,
    M_raise.
  intros Hrun. repeat (case_match; simplify_eq/=; try by left).
  right. guards. repeat split; try done.
  apply Forall_forall. intros l Hl.
  match goal with Hx : existsb _ _ = false |- _ =>
    destruct (String.eqb_spec (ln_utt_id l) (tp_utt_id p)) as [|Hne]; [done|];
    assert (existsb (λ l, negb (String.eqb (ln_utt_id l) (tp_utt_id p))) ls = true); [|congruence]
  end.
  apply existsb_exists. exists l. split; [by apply list_elem_of_In|].
  by apply negb_true_iff, String.eqb_neq.
Qed.

(** What a commit of a new projection answers, it has stored. *)
Lemma commit_history_new p ls s q s' :
  transactions s !! tp_utt_id p = None → commit_history p ls s = (Ok q, s') →
  q = p ∧ transactions s' !! tp_utt_id p = Some p ∧ links_by_utt s' !! tp_utt_id p = Some ls ∧
  NoDup (ln_subject <$> ls).
Proof.
  intros Hnew Hrun. unfold commit_history in Hrun. rewrite run_get_bind, Hnew in Hrun.
  inv_ok Hrun. guards. cbn. by rewrite !lookup_insert_eq.
Qed.

Lemma commit_history_wf p ls s r s' :
  commit_history p ls s = (r, s') → history_wf s → history_wf s'.
Proof.
  intros [->|(_ & Hnew & Hne & Hids & Hnd & ->)]%commit_history_cases Hwf; [done|].
  assert (links_by_utt s !! tp_utt_id p = None) as Hnol.
  { apply eq_None_not_Some. rewrite <- (hw_dom _ Hwf), Hnew. by intros []. }
  split; cbn.
  - intros u q [[<- <-]|[_ Hq]]%lookup_insert_Some; [done|]. by apply (hw_id _ Hwf).
  - intros u. rewrite !lookup_insert_is_Some, (hw_dom _ Hwf). done.
  - intros u ls' [[<- <-]|[_ Hq]]%lookup_insert_Some; [done|]. by apply (hw_links _ Hwf).
  - intros sub u. rewrite enlist_all_elem, (hw_index _ Hwf). split.
    + intros [(ls' & Hls & Hin)|[-> Hin]].
      * exists ls'. rewrite lookup_insert_ne by congruence. done.
      * exists ls. by rewrite lookup_insert_eq.
    + intros (ls' & [[<- <-]|[_ Hls]]%lookup_insert_Some & Hin); [by right|left; eauto].
  - apply (hw_audits _ Hwf).
Qed.

Lemma commit_history_pageable p ls s r s' :
  commit_history p ls s = (r, s') → pageable p → all_pageable s → all_pageable s'.
Proof.
  intros [->|(_ & _ & _ & _ & _ & ->)]%commit_history_cases Hp Hs; [done|].
  intros u q. cbn. intros [[<- <-]|[_ Hq]]%lookup_insert_Some; [done|]. by apply (Hs u).
Qed.

(** ** Audits *)
Definition audited s (a : TransactionAccessAudit) : HistoryStore :=
  History (transactions s) (links_by_utt s) (utts_by_subject s) (audits s ++ [a]).

Definition unused s (id : string) : Prop := id ∉ au_audit_id <$> audits s.

Lemma append_audit_cases a s :
  (unused s (au_audit_id a) ∧ append_audit a s = (Ok tt, audited s a)) ∨
  (¬ unused s (au_audit_id a) ∧ append_audit a s =
    (Err (Exn RuntimeError "transaction access audit identifier collision"), s)).
Proof.
  unfold append_audit, mbind, M_bind, getS, raise_if. cbn [fst snd].
  destruct (existsb _ (audits s)) eqn:Hx; [right|left]; (split; [|done]).
  - apply existsb_exists in Hx as (e & He & Heq). apply String.eqb_eq in Heq.
    intros Hn. apply Hn, list_elem_of_fmap. exists e. split; [done|by apply list_elem_of_In].
  - intros (e & He & Hin)%list_elem_of_fmap.
    assert (existsb (λ e, String.eqb (au_audit_id e) (au_audit_id a)) (audits s) = true);
      [|congruence].
    apply existsb_exists. exists e. split; [by apply list_elem_of_In|]. by apply String.eqb_eq.
Qed.

Lemma audited_wf s a : unused s (au_audit_id a) → history_wf s → history_wf (audited s a).
Proof.
  intros Hu [H1 H2 H3 H4 H5]. split; try done. cbn. rewrite fmap_app.
  apply NoDup_app. split; [done|]. split; [|by repeat constructor; set_solver].
  intros x Hx ->%list_elem_of_singleton. done.
Qed.

(** What a query may do to the store: nothing, or one audit record. *)
Definition at_most_audits s s' : Prop :=
  s' = s ∨ ∃ a, unused s (au_audit_id a) ∧ s' = audited s a.

Lemma at_most_audits_wf s s' : at_most_audits s s' → history_wf s → history_wf s'.
Proof. intros [->|(a & Hu & ->)] Hs; [done|]. by apply audited_wf. Qed.

Lemma audit_cases access kind id allowed at_ fallback uuid s r s' :
  audit access kind id allowed at_ fallback uuid s = (r, s') → at_most_audits s s'.
Proof.
  unfold audit, mbind, M_bind, lift. destruct (require_text _ _) as [principal|x]; cbn.
  - match goal with |- append_audit ?a s = _ → _ =>
      destruct (append_audit_cases a s) as [[Hu ->]|[_ ->]] end;
      intros [= _ <-]; [right|by left]. eauto.
  - intros [= _ <-]. by left.
Qed.

(** ** The listing of a subject *)

(** What a listing is made of: the projections that have a link to [sub], each
    with that link. *)
Definition listed s (sub : subject) (r : row) : Prop :=
  transactions s !! tp_utt_id r.1 = Some r.1 ∧ ln_subject r.2 = sub ∧
  ∃ ls, links_by_utt s !! tp_utt_id r.1 = Some ls ∧ r.2 ∈ ls.

#[global] Instance later_first_total : Total later_first.
Proof. intros x y. unfold later_first, flip. apply (total (lex_le Z.le)). Qed.
#[global] Instance later_first_trans : Transitive later_first.
Proof. intros x y z. unfold later_first, flip. intros Hxy Hyz. by transitivity y. Qed.
#[global] Instance later_first_antisymm : AntiSymm (=) later_first.
Proof. intros x y. unfold later_first, flip. intros Hxy Hyx. by apply (anti_symm (lex_le Z.le)). Qed.

Lemma mapR_ok {A B} (f : A → res B) (g : A → B) xs :
  (∀ x, x ∈ xs → f x = Ok (g x)) → mapR f xs = Ok (g <$> xs).
Proof.
  induction xs as [|x xs IH]; intros Hf; [done|]. cbn [mapR].
  rewrite Hf by constructor. cbn. rewrite IH; [done|]. intros y Hy. apply Hf. by constructor.
Qed.

Lemma mapR_Forall2 {A B} (f : A → res B) xs :
  (∀ x, x ∈ xs → ∃ y, f x = Ok y) → ∃ ys, mapR f xs = Ok ys ∧ Forall2 (λ x y, f x = Ok y) xs ys.
Proof.
  induction xs as [|x xs IH]; intros Hf; [exists []; eauto|].
  destruct (Hf x) as [y Hy]; [constructor|].
  destruct IH as (ys & Hys & HF); [intros z Hz; apply Hf; by constructor|].
  exists (y :: ys). cbn [mapR]. rewrite Hy. cbn. rewrite Hys. split; [done|by constructor].
Qed.

Lemma row_of_listed s sub u r :
  history_wf s → row_of s sub u = Ok r → tp_utt_id r.1 = u ∧ listed s sub r.
Proof.
  intros Hwf Hr. unfold row_of in Hr. inv_ok Hr. cbn in *.
  match goal with Ht : transactions s !! u = Some _ |- _ =>
    pose proof (hw_id _ Hwf _ _ Ht) as Hid end.
  split; [done|]. unfold listed. cbn. rewrite Hid. split; [done|].
  match goal with Hh : head (filter _ ?ls) = Some ?l |- _ =>
    assert (l ∈ filter (λ l, ln_subject l = sub) ls) as [Hs Hin]%list_elem_of_filter
      by (destruct (filter _ ls); [done|]; cbn in Hh; simplify_eq; constructor) end.
  split; [done|]. by eexists.
Qed.

Lemma row_of_total s sub u :
  history_wf s → u ∈ default ∅ (utts_by_subject s !! sub) → ∃ r, row_of s sub u = Ok r.
Proof.
  intros Hwf (ls & Hls & Hin)%(hw_index _ Hwf).
  destruct (proj2 (hw_dom _ Hwf u)) as [p Hp]; [by exists ls|].
  apply list_elem_of_fmap in Hin as (l & Hl & Hin).
  unfold row_of. rewrite Hp, Hls. cbn.
  destruct (filter (λ l, ln_subject l = sub) ls) as [|l' ls'] eqn:Hf; [|by eexists].
  exfalso. apply (not_elem_of_nil l). rewrite <- Hf. by apply list_elem_of_filter.
Qed.

(** A row is determined by its UTT and its subject. *)
Lemma listed_unique s sub r r' :
  history_wf s → listed s sub r → listed s sub r' → tp_utt_id r.1 = tp_utt_id r'.1 → r = r'.
Proof.
  intros Hwf (Ht & Hs & ls & Hls & Hin) (Ht' & Hs' & ls' & Hls' & Hin') Heq.
  rewrite Heq in *. simplify_eq. destruct r as [p l], r' as [p' l']; cbn in *. simplify_eq.
  f_equal. destruct (hw_links _ Hwf _ _ Hls) as (_ & _ & Hnd).
  apply list_elem_of_lookup in Hin as [i Hi]. apply list_elem_of_lookup in Hin' as [j Hj].
  assert (i = j) as <-; [|congruence].
  eapply (NoDup_lookup _ i j (ln_subject l)); [done|..]; rewrite list_lookup_fmap;
    [by rewrite Hi|rewrite Hj; cbn; unfold ln_subject; congruence].
Qed.

Lemma list_for_subject_spec s sub :
  history_wf s → ∃ rows, list_for_subject s sub = Ok rows ∧
    (∀ r, r ∈ rows ↔ listed s sub r) ∧
    NoDup ((λ r : row, tp_utt_id r.1) <$> rows) ∧ StronglySorted (on_key row_key later_first) rows.
Proof.
  intros Hwf. unfold list_for_subject. set (ids := elements _).
  destruct (mapR_Forall2 (row_of s sub) ids) as (ys & Hys & HF).
  { intros u Hu. apply row_of_total; [done|]. by apply elem_of_elements. }
  rewrite Hys. exists (sort_on row_key later_first ys). split; [done|].
  assert ((λ r : row, tp_utt_id r.1) <$> ys = ids) as Hids.
  { clear -HF Hwf. induction HF as [|u r us ys Hr _ IH]; [done|]. cbn.
    destruct (row_of_listed _ _ _ _ Hwf Hr) as [-> _]. f_equal. exact IH. }
  split; [|split].
  - intros r. rewrite elem_of_sort_on. split.
    + intros Hr. apply list_elem_of_lookup in Hr as [i Hi].
      destruct (Forall2_lookup_r _ _ _ _ _ HF Hi) as (u & _ & Hu). by eapply row_of_listed.
    + intros Hr. assert (tp_utt_id r.1 ∈ ids) as Hin.
      { apply elem_of_elements, (hw_index _ Hwf). destruct Hr as (_ & <- & ls & Hls & Hl).
        exists ls. split; [done|]. by apply list_elem_of_fmap_2. }
      rewrite <- Hids in Hin. apply list_elem_of_fmap in Hin as (r' & Heq & Hr').
      apply list_elem_of_lookup in Hr' as Hi. destruct Hi as [i Hi].
      destruct (Forall2_lookup_r _ _ _ _ _ HF Hi) as (u & _ & Hu).
      by rewrite (listed_unique _ _ _ _ Hwf Hr (proj2 (row_of_listed _ _ _ _ Hwf Hu)) Heq).
  - rewrite sort_on_perm, Hids. apply NoDup_elements.
  - unshelve eapply sort_on_sorted; apply _.
Qed.

(** ** Audited queries *)
Section queries.
Context (access : TransactionReadContext) (at_ : option datetime) (clock now : instant)
  (uuid principal : string).
Context (Hnow : history_instant at_ clock = Ok now)
  (Hprincipal : require_text "principal_id" (rc_principal_id access) = Ok principal).

Definition audit_id_of (uuid : string) : string := "TXAUD-" +:+ upper uuid.

(** The record that a query leaves. *)
Definition audit_record (kind id : string) (allowed : bool) (fallback : string)
    : TransactionAccessAudit :=
  Audit (audit_id_of uuid) principal kind id (if allowed then ALLOWED else DENIED)
    (audit_reason access fallback) now.

Lemma audit_run kind id allowed fallback s :
  unused s (audit_id_of uuid) →
  audit access kind id allowed now fallback uuid s =
    (Ok tt, audited s (audit_record kind id allowed fallback)).
Proof.
  intros Hu. unfold audit, mbind, M_bind, lift. rewrite Hprincipal.
  by destruct (append_audit_cases (audit_record kind id allowed fallback) s) as [[_ Ha]|[Hn _]].
Qed.

Definition needs_reason : bool := privileged access && no_reason access.
Definition reason_denied : exn :=
  Exn TransactionAccessDeniedError "privileged transaction access requires an access reason".

(** What follows the privileged check of a query on [id]. *)
Lemma query_run {A} kind id allowed s (rest : M HistoryStore A) :
  unused s (audit_id_of uuid) →
  (_ ← require_privileged_reason access id now uuid;
   _ ← audit access kind id allowed now SUBJECT_SCOPED_ACCESS uuid; rest) s =
  if needs_reason
  then (Err reason_denied,
        audited s (audit_record "PRIVILEGED_QUERY" id false PRIVILEGED_REASON_REQUIRED))
  else rest (audited s (audit_record kind id allowed SUBJECT_SCOPED_ACCESS)).
Proof.
  intros Hu. unfold require_privileged_reason, needs_reason.
  destruct (privileged access && no_reason access); unfold mbind, M_bind.
  - by rewrite audit_run.
  - cbn [mret M_ret]. by rewrite audit_run.
Qed.

Definition subject_denied : exn :=
  Exn TransactionAccessDeniedError "principal cannot read this subject transaction history".

Definition listing s (sub : subject) (limit : Z) (cursor : option string)
    : res TransactionHistoryPage :=
  rows ← list_for_subject s sub;
  rows ← after_cursor cursor rows;
  mret (page_of rows (Z.to_nat limit)).

Lemma list_run kind subject_id text limit cursor s :
  require_text "subject_id" subject_id = Ok text → 1 <= limit <= 100 →
  unused s (audit_id_of uuid) →
  list_by_subject kind subject_id access limit cursor at_ clock uuid s =
  if needs_reason
  then (Err reason_denied, audited s
          (audit_record "PRIVILEGED_QUERY" (upper text) false PRIVILEGED_REASON_REQUIRED))
  else let a := audit_record (SubjectKind_value kind) (upper text)
                  (can_access kind (upper text) access) SUBJECT_SCOPED_ACCESS in
       if can_access kind (upper text) access
       then (listing s (kind, upper text) limit cursor, audited s a)
       else (Err subject_denied, audited s a).
Proof.
  intros Htext Hlimit Hu. unfold list_by_subject. cbv zeta.
  rewrite (run_lift_bind _ _ _ _ Hnow), (run_lift_bind _ _ _ _ Htext), run_guard_bind.
  2: { apply negb_false_iff, andb_true_iff. rewrite !Z.leb_le. lia. }
  rewrite query_run by done.
  destruct needs_reason; [done|]. cbv zeta.
  destruct (can_access kind (upper text) access); [|done].
  unfold listing, raise_if, mbind, M_bind, res_bind, lift, getS, mret, M_ret, res_ret.
  cbn [negb]. change (list_for_subject (audited s _)) with (list_for_subject s).
  destruct (list_for_subject s (kind, upper text)) as [rows|x]; [|done].
  by destruct (after_cursor cursor rows).
Qed.

Definition utt_denied : exn :=
  Exn TransactionAccessDeniedError "principal cannot read this UTT".

Lemma get_run utt_id u s p ls :
  history_wf s → require_text "utt_id" utt_id = Ok u →
  transactions s !! u = Some p → links_by_utt s !! u = Some ls →
  unused s (audit_id_of uuid) →
  get_by_utt utt_id access at_ clock uuid s =
  if needs_reason
  then (Err reason_denied, audited s
          (audit_record "PRIVILEGED_QUERY" u false PRIVILEGED_REASON_REQUIRED))
  else let matched := matched_roles ls access in
       let allowed := negb (bool_decide (matched = [])) || privileged access in
       let a := audit_record "UTT" u allowed SUBJECT_SCOPED_ACCESS in
       if allowed then (Ok (Entry p (sorted_roles (remove_dups matched))), audited s a)
       else (Err utt_denied, audited s a).
Proof.
  intros Hwf Hutt Hp Hls Hu. unfold get_by_utt. cbv zeta.
  assert (require_projection s u = Ok p) as Hreq by (unfold require_projection; by rewrite Hp).
  assert (links_for_utt s u = Ok ls) as Hlinks
    by (unfold links_for_utt; rewrite Hreq; cbn; by rewrite Hls).
  rewrite (run_lift_bind _ _ _ _ Hnow), (run_lift_bind _ _ _ _ Hutt), run_get_bind,
    (run_lift_bind _ _ _ _ Hreq), (run_lift_bind _ _ _ _ Hlinks).
  rewrite query_run by done. destruct needs_reason; [done|]. cbv zeta.
  by destruct (negb _ || privileged access).
Qed.
End queries.

(** ** Every operation keeps the invariant *)
Lemma list_audits kind sid access limit cursor at_ clock uuid s r s' :
  list_by_subject kind sid access limit cursor at_ clock uuid s = (r, s') → at_most_audits s s'.
Proof.
  unfold list_by_subject, require_privileged_reason.
  unfold mbind, M_bind, lift, getS, raise_if, raise, raise_exn, M_raise, mret, M_ret.
  intros Hrun. repeat (case_match; simplify_eq/=; try by left);
    try (by eapply audit_cases); by left.
Qed.

Lemma get_audits utt_id access at_ clock uuid s r s' :
  get_by_utt utt_id access at_ clock uuid s = (r, s') → at_most_audits s s'.
Proof.
  unfold get_by_utt, require_privileged_reason.
  unfold mbind, M_bind, lift, getS, raise_if, raise, raise_exn, M_raise, mret, M_ret.
  intros Hrun. repeat (case_match; simplify_eq/=; try by left);
    try (by eapply audit_cases); by left.
Qed.
