(* ===== verification/HistoryPaging.v ===== *)
(** The operations of the transaction history as steps of one system, and the
    keyset pages that a client follows while it runs. *)

From Stdlib Require Import Ascii String.
From S2P Require Import Prelude.
From S2P Require Import PyBase.
From S2P Require Import CanonicalJson.
From S2P Require Import Keys.
From S2P Require Import Signatures.
From S2P Require Import ContractModels.
From S2P Require Import Contracts.
From S2P Require Import Identity.
From S2P Require Import History.
From S2P Require Import HistoryFacts.
From S2P Require Import HistoryInvariant.

Implicit Types (s : HistoryStore) (p : UttTransactionProjection) (l : TransactionSubjectLink)
  (r : row) (sub : subject).

(** ** Operations as steps *)
Section steps.
Context (P : Type) `{!SigningKeyProvider P} `{Ed25519}.

(** Any caller runs any operation, whatever its outcome.  The contract store
    that the indexer reads was filled by acceptances; keys change over time, and
    the indexer may be called with any spelling of an identifier. *)
Inductive history_step s s' : Prop :=
  | StepIndex (keys : P) contracts identities utt_id at_ clock o :
      rtc (acceptance P) no_contracts contracts →
      index_utt keys contracts identities utt_id at_ clock s = (o, s') → history_step s s'
  | StepGet utt_id access at_ clock uuid o :
      get_by_utt utt_id access at_ clock uuid s = (o, s') → history_step s s'
  | StepList kind sid access limit cursor at_ clock uuid o :
      list_by_subject kind sid access limit cursor at_ clock uuid s = (o, s') → history_step s s'.

Lemma read_utt_pageable (keys : P) contracts identities utt_id at_ clock p ls :
  rtc (acceptance P) no_contracts contracts →
  read_utt keys contracts identities utt_id at_ clock = Ok (p, ls) → pageable p.
Proof.
  intros Hc Hr. unfold read_utt in Hr. inv_ok Hr.
  destruct v5 as [q origin]. cbv beta iota in Hr. inv_ok Hr. simplify_eq.
  match goal with Hp : projection_of _ _ _ _ = Ok _ |- _ => unfold projection_of in Hp; inv_ok Hp end.
  simplify_eq. cbn. split; cbn.
  - match goal with Hu : utc_datetime_from_epoch ?v = Ok ?t |- _ =>
      destruct v; try discriminate Hu; apply fromtimestamp_ok in Hu as [-> Hrep] end.
    eexists. split; [reflexivity|exact Hrep].
  - match goal with Hq : require_text _ _ = Ok _ |- _ =>
      apply require_text_ok in Hq as [-> _] end.
    match goal with Hq : require_utt _ _ = Ok _ |- _ =>
      unfold require_utt in Hq; apply res_require_ok in Hq; by eapply minted_utts, ex_intro end.
Qed.

Lemma step_cases s s' :
  history_step s s' →
  at_most_audits s s' ∨ ∃ p ls o, pageable p ∧ commit_history p ls s = (o, s').
Proof.
  intros [keys contracts ids u at_ clock r Hc Hrun|u access at_ clock uuid r Hrun|
          kind sid access limit cursor at_ clock uuid r Hrun].
  - unfold index_utt, mbind, M_bind, lift in Hrun.
    destruct (read_utt _ _ _ _ _ _) as [[p ls]|x] eqn:Hread; [right|left; simplify_eq; by left].
    exists p, ls, r. split; [by eapply read_utt_pageable|done].
  - left. by eapply get_audits.
  - left. by eapply list_audits.
Qed.

Lemma step_wf s s' :
  history_step s s' → history_wf s → all_pageable s → history_wf s' ∧ all_pageable s'.
Proof.
  intros [Ha|(p & ls & r & Hp & Hrun)]%step_cases Hwf Hpg.
  - split; [by eapply at_most_audits_wf|]. by destruct Ha as [->|(a & _ & ->)].
  - split; [by eapply commit_history_wf|by eapply commit_history_pageable].
Qed.

Lemma steps_wf s s' :
  rtc history_step s s' → history_wf s → all_pageable s → history_wf s' ∧ all_pageable s'.
Proof.
  intros Hs. induction Hs as [|s1 s2 s3 Hstep _ IH]; [done|]. intros Hwf Hpg.
  destruct (step_wf _ _ Hstep Hwf Hpg). by apply IH.
Qed.

(** Nothing that was indexed is lost or changed. *)
Lemma step_keeps s s' sub r : history_step s s' → listed s sub r → listed s' sub r.
Proof.
  intros [Ha|(p & ls & x & _ & Hrun)]%step_cases (Ht & Hs & ls' & Hls & Hin).
  - destruct Ha as [->|(a & _ & ->)]; (split; [done|]; split; [done|]; by exists ls').
  - apply commit_history_cases in Hrun as [->|(_ & Hnew & _ & _ & _ & ->)].
    { split; [done|]. split; [done|]. by exists ls'. }
    assert (tp_utt_id p ≠ tp_utt_id r.1) as Hne by congruence.
    unfold listed. cbn. rewrite !lookup_insert_ne by done. split; [done|]. split; [done|].
    by exists ls'.
Qed.

Lemma steps_keep s s' sub r : rtc history_step s s' → listed s sub r → listed s' sub r.
Proof.
  intros Hs. induction Hs as [|s1 s2 s3 Hstep _ IH]; [done|]. intros Hl.
  by eapply IH, step_keeps.
Qed.
End steps.

(** ** Pages *)
Definition entry_of r : TransactionHistoryEntry := Entry r.1 (ln_roles r.2).
(** The position of an entry in a listing. *)
Definition entry_key (e : TransactionHistoryEntry) : Z * string :=
  (epoch (tp_accepted_at (en_transaction e)), tp_utt_id (en_transaction e)).
Definition before (x y : Z * string) : Prop := key_lt x y = true.

Lemma key_lt_spec x y : before x y ↔ lex_le Z.le x y ∧ x ≠ y.
Proof. unfold before, key_lt. rewrite andb_true_iff, negb_true_iff. by bool_solve. Qed.

#[global] Instance before_trans : Transitive before.
Proof.
  intros x y z [H1 N1]%key_lt_spec [H2 N2]%key_lt_spec. apply key_lt_spec.
  split; [by transitivity y|]. intros ->. apply N1. by apply (anti_symm (lex_le Z.le)).
Qed.
Lemma before_irrefl x : ¬ before x x.
Proof. intros [_ []]%key_lt_spec. done. Qed.

(** The order in which a subject's rows are listed: strictly, latest first. *)
Definition descending {A} (key : A → Z * string) : list A → Prop :=
  StronglySorted (λ a b, before (key b) (key a)).

Lemma descending_NoDup {A} (key : A → Z * string) xs : descending key xs → NoDup (key <$> xs).
Proof.
  induction 1 as [|x xs _ IH Hx]; [constructor|]. rewrite fmap_cons. constructor; [|done].
  intros (y & Heq & Hy)%list_elem_of_fmap. rewrite Forall_forall in Hx.
  apply (before_irrefl (key y)). rewrite <- Heq at 2. by apply Hx.
Qed.

Lemma descending_rows s sub rows :
  history_wf s → all_pageable s → list_for_subject s sub = Ok rows → descending cursor_key rows.
Proof.
  intros Hwf Hpg Hrows.
  destruct (list_for_subject_spec s sub Hwf) as (rows' & Hrows' & Hin & Hnd & Hsorted).
  assert (rows' = rows) as -> by congruence.
  assert (∀ r, r ∈ rows → ∃ n, tp_accepted_at r.1 = seconds n) as Hsec.
  { intros r (Ht & _)%Hin. destruct (Hpg _ _ Ht) as [(n & Hn & _) _]. by exists n. }
  clear Hin Hrows'. clear Hrows. unfold descending.
  induction Hsorted as [|r rows Hs IH Hr]; [constructor|].
  rewrite fmap_cons in Hnd. apply NoDup_cons in Hnd as [Hnew Hnd].
  constructor; [apply IH; [done|]; intros q Hq; apply Hsec; by constructor|].
  rewrite Forall_forall in Hr |- *. intros q Hq. apply key_lt_spec.
  destruct (Hsec r) as [n Hn]; [constructor|]. destruct (Hsec q) as [m Hm]; [by constructor|].
  specialize (Hr q Hq). unfold on_key, later_first, flip, lex_le, row_key in Hr. cbn in Hr.
  unfold lex_le, cursor_key. cbn. rewrite Hn, Hm in *. rewrite !epoch_seconds.
  assert (tp_utt_id q.1 ≠ tp_utt_id r.1) as Hne.
  { intros Heq. apply Hnew. rewrite <- Heq. by apply (list_elem_of_fmap_2 (λ r : row, tp_utt_id r.1)). }
  split; [|congruence]. unfold seconds in Hr. repeat case_decide; try done; lia.
Qed.

Lemma filter_all {A} (P : A → Prop) `{!∀ x, Decision (P x)} xs : Forall P xs → filter P xs = xs.
Proof. induction 1; [done|]. rewrite filter_cons_True by done. congruence. Qed.

Lemma filter_none {A} (P : A → Prop) `{!∀ x, Decision (P x)} xs :
  Forall (λ x, ¬ P x) xs → filter P xs = [].
Proof. induction 1; [done|]. by rewrite filter_cons_False. Qed.

Lemma filter_stronger {A} (P Q : A → Prop) `{!∀ x, Decision (P x), !∀ x, Decision (Q x)} (xs : list A) :
  (∀ x, P x → Q x) → filter P (filter Q xs) = filter P xs.
Proof.
  intros HPQ. induction xs as [|x xs IH]; [done|]. rewrite !filter_cons.
  destruct (decide (Q x)) as [HQ|HQ].
  - rewrite filter_cons. by rewrite IH.
  - rewrite IH. rewrite (decide_False (P := P x)); [done|]. intros HP. by apply HQ, HPQ.
Qed.

(** A descending list is cut by the key of any of its elements. *)
Lemma descending_cut {A} (key : A → Z * string) xs x ys :
  descending key (xs ++ x :: ys) →
  filter (λ a, key_lt (key a) (key x) = true) (xs ++ x :: ys) = ys.
Proof.
  intros Hs. rewrite filter_app, filter_cons_False by apply before_irrefl.
  rewrite filter_none, filter_all; [done|..].
  - induction xs as [|y xs IH]; cbn in Hs; apply StronglySorted_inv in Hs as [Hs Hall]; [done|].
    by apply IH.
  - induction xs as [|y xs IH]; cbn in Hs; apply StronglySorted_inv in Hs as [Hs Hall];
      [constructor|]. constructor; [|by apply IH].
    rewrite Forall_forall in Hall. intros Hyx.
    apply (before_irrefl (key x)). transitivity (key y); [|exact Hyx]. apply Hall. set_solver.
Qed.

Lemma descending_filter {A} (key : A → Z * string) (P : A → Prop) `{!∀ x, Decision (P x)} xs :
  descending key xs → descending key (filter P xs).
Proof.
  induction 1 as [|x xs _ IH Hx]; [constructor|]. rewrite filter_cons. case_decide; [|done].
  constructor; [done|]. rewrite Forall_forall in Hx |- *. intros y [_ Hy]%list_elem_of_filter.
  by apply Hx.
Qed.

(** One page of a descending list: its entries, and the cursor that continues
    right after them. *)
Lemma page_of_spec rows limit :
  descending cursor_key rows → (0 < limit)%nat →
  pg_entries (page_of rows limit) = entry_of <$> take limit rows ∧
  ((pg_next_cursor (page_of rows limit) = None ∧ take limit rows = rows) ∨
   ∃ c r, pg_next_cursor (page_of rows limit) = Some c ∧ r ∈ take limit rows ∧
     c = encode_cursor r.1 ∧ (limit < length rows)%nat ∧
     (∀ q, q ∈ take limit rows → q = r ∨ before (cursor_key r) (cursor_key q)) ∧
     filter (λ q, key_lt (cursor_key q) (cursor_key r) = true) rows = drop limit rows).
Proof.
  intros Hd Hl. split; [done|]. unfold page_of. cbn [pg_next_cursor].
  destruct (Nat.ltb_spec limit (length rows)) as [Hlt|Hge].
  2: { left. split; [done|]. by rewrite take_ge. }
  right. destruct (lookup_lt_is_Some_2 rows (pred limit)) as [r Hr]; [lia|].
  assert (rows = take (pred limit) rows ++ r :: drop limit rows) as Hcut.
  { rewrite <- (take_drop_middle _ _ _ Hr) at 1. by replace (S (pred limit)) with limit by lia. }
  assert (take limit rows = take (pred limit) rows ++ [r]) as Htake.
  { rewrite <- (take_S_r _ _ _ Hr). by replace (S (pred limit)) with limit by lia. }
  assert (last (take limit rows) = Some r) as Hlast by (by rewrite Htake, last_snoc).
  exists (encode_cursor r.1), r. rewrite Hlast. split; [done|].
  split; [rewrite Htake; set_solver|].
  split; [done|]. split; [done|]. split.
  - intros q. rewrite Htake. intros [Hq| ->%list_elem_of_singleton]%elem_of_app; [right|by left].
    rewrite Hcut in Hd. clear -Hd Hq. revert Hq Hd. generalize (take (pred limit) rows). intros xs Hq Hd.
    induction xs as [|x xs IH]; [by apply not_elem_of_nil in Hq|].
    cbn in Hd. apply StronglySorted_inv in Hd as [Hd Hall].
    apply elem_of_cons in Hq as [->|Hq]; [|by apply IH].
    rewrite Forall_forall in Hall. apply Hall. set_solver.
  - rewrite Hcut at 1. apply (descending_cut cursor_key). by rewrite <- Hcut.
Qed.

(** A cursor that a page handed out is refused, or names the page's last row. *)
Lemma own_cursor r y :
  pageable r.1 → decode_cursor (encode_cursor r.1) = Ok y → y = cursor_key r.
Proof.
  intros [(n & Hn & Hrep) _]. rewrite decode_encode_cursor by (by rewrite Hn, epoch_seconds).
  case_match; [by intros [= <-]|done].
Qed.

(** It is read if the row is filed under the identifier as RailOne minted it. *)
Lemma own_cursor_read r :
  pageable r.1 → utt_shaped (tp_utt_id r.1) → decode_cursor (encode_cursor r.1) = Ok (cursor_key r).
Proof.
  intros [(n & Hn & Hrep) _] (Hpre & Hutf & _).
  rewrite decode_encode_cursor by (by rewrite Hn, epoch_seconds). by rewrite Hpre, Hutf.
Qed.

(** What a successful query went through. *)
Lemma list_ok kind sid access limit cursor at_ clock uuid s pg s' :
  list_by_subject kind sid access limit cursor at_ clock uuid s = (Ok pg, s') →
  ∃ now text principal rows visible,
    history_instant at_ clock = Ok now ∧ require_text "subject_id" sid = Ok text ∧
    require_text "principal_id" (rc_principal_id access) = Ok principal ∧
    1 <= limit <= 100 ∧ can_access kind (upper text) access = true ∧
    needs_reason access = false ∧ unused s (audit_id_of uuid) ∧
    s' = audited s (audit_record access now uuid principal (SubjectKind_value kind) (upper text)
                      true SUBJECT_SCOPED_ACCESS) ∧
    list_for_subject s (kind, upper text) = Ok rows ∧ after_cursor cursor rows = Ok visible ∧
    pg = page_of visible (Z.to_nat limit).
Proof.
  intros Hrun. unfold list_by_subject in Hrun. cbv zeta in Hrun. inv_ok Hrun. guards.
  unfold require_privileged_reason in *. unfold needs_reason.
  match goal with Hr : (if ?b then _ else _) s = (Ok _, _) |- _ =>
    destruct b; inv_ok Hr end.
  match goal with Hr : audit _ _ _ _ _ _ _ _ = (Ok _, _) |- _ =>
    unfold audit in Hr; inv_ok Hr;
    match type of Hr with append_audit ?a _ = _ =>
      destruct (append_audit_cases a s) as [[Hu Ha]|[_ Ha]]; rewrite Ha in Hr; [|done] end;
    injection Hr as _ <- end.
  match goal with Hc : can_access _ _ _ = true |- _ => rewrite Hc in * end.
  eexists _, _, _, _, _. repeat (split; [done || lia|]). done.
Qed.

(** *** A client follows the cursors while the system runs *)
Section client.
Context (P : Type) `{!SigningKeyProvider P} `{Ed25519}.
Context (kind : SubjectKind) (sid : string) (access : TransactionReadContext) (limit : Z).

(** The entries that the client collects from [cursor] on, when any operations
    run between two of its requests. *)
Inductive pages : option string → HistoryStore → list TransactionHistoryEntry → HistoryStore → Prop :=
  | PagesEnd cursor at_ clock uuid s pg s' :
      list_by_subject kind sid access limit cursor at_ clock uuid s = (Ok pg, s') →
      pg_next_cursor pg = None → pages cursor s (pg_entries pg) s'
  | PagesMore cursor at_ clock uuid s pg c s1 s2 es s' :
      list_by_subject kind sid access limit cursor at_ clock uuid s = (Ok pg, s1) →
      pg_next_cursor pg = Some c → rtc (history_step P) s1 s2 → pages (Some c) s2 es s' →
      pages cursor s (pg_entries pg ++ es) s'.

(** The client alone, with one request per identifier of [uuids]. *)
Fixpoint walk (at_ : option datetime) (clock : instant) (cursor : option string)
    (uuids : list string) : M HistoryStore (list TransactionHistoryEntry) :=
  match uuids with
  | [] => raise OtherException "more pages remain"
  | uuid :: uuids' =>
      pg ← list_by_subject kind sid access limit cursor at_ clock uuid;
      match pg_next_cursor pg with
      | None => mret (pg_entries pg)
      | Some c => es ← walk at_ clock (Some c) uuids'; mret (pg_entries pg ++ es)
      end
  end.
End client.

(** What is left to list after a cursor. *)
Definition remains (k : option (Z * string)) (x : Z * string) : Prop :=
  match k with None => True | Some y => before x y end.
Definition cursor_at (cursor : option string) (k : option (Z * string)) : Prop :=
  match cursor with None => k = None | Some c => ∃ y, decode_cursor c = Ok y ∧ k = Some y end.

Lemma after_cursor_spec cursor k rows visible :
  cursor_at cursor k → descending cursor_key rows → after_cursor cursor rows = Ok visible →
  descending cursor_key visible ∧ ∀ r, r ∈ visible ↔ r ∈ rows ∧ remains k (cursor_key r).
Proof.
  destruct cursor as [c|]; cbn.
  - intros (y & Hc & ->) Hd Hv. rewrite Hc in Hv. cbn in Hv. injection Hv as <-.
    split; [by apply descending_filter|]. intros r. rewrite list_elem_of_filter. cbn. naive_solver.
  - intros -> Hd [= <-]. split; [done|]. cbn. naive_solver.
Qed.

(** The rows of one page and what follows it. *)
Lemma page_step kind sid access limit cursor k at_ clock uuid s pg s' :
  list_by_subject kind sid access limit cursor at_ clock uuid s = (Ok pg, s') →
  history_wf s → all_pageable s → cursor_at cursor k →
  ∃ shown, pg_entries pg = entry_of <$> shown ∧ descending cursor_key shown ∧
    (∀ r, r ∈ shown → listed s (kind, upper (strip sid)) r ∧ remains k (cursor_key r)) ∧
    match pg_next_cursor pg with
    | None => ∀ r, listed s (kind, upper (strip sid)) r → remains k (cursor_key r) → r ∈ shown
    | Some c => ∀ y, decode_cursor c = Ok y →
        (∀ r, r ∈ shown → cursor_key r = y ∨ before y (cursor_key r)) ∧
        (∃ r, r ∈ shown ∧ cursor_key r = y) ∧
        ∀ r, listed s (kind, upper (strip sid)) r → remains k (cursor_key r) →
          r ∈ shown ∨ before (cursor_key r) y
    end.
Proof.
  intros Hrun Hwf Hpg Hk.
  apply list_ok in Hrun as (now & text & principal & rows & visible & _ & Htext & _ & Hlim & _ & _ &
    _ & _ & Hrows & Hvis & ->).
  apply require_text_ok in Htext as [-> _].
  pose proof (descending_rows _ _ _ Hwf Hpg Hrows) as Hd.
  destruct (list_for_subject_spec s (kind, upper (strip sid)) Hwf) as (rows' & Hr' & Hin & _).
  assert (rows' = rows) as -> by congruence.
  destruct (after_cursor_spec _ _ _ _ Hk Hd Hvis) as [Hdv Hv].
  assert (Forall (λ r : row, pageable r.1) visible) as Hp.
  { apply Forall_forall. intros r [(Ht & _)%Hin _]%Hv. by eapply Hpg. }
  destruct (page_of_spec visible (Z.to_nat limit) Hdv) as [He Hn]; [lia|].
  exists (take (Z.to_nat limit) visible). split; [done|]. split.
  { rewrite <- (take_drop (Z.to_nat limit) visible) in Hdv. clear -Hdv.
    induction (take (Z.to_nat limit) visible) as [|x xs IH]; [constructor|].
    cbn in Hdv. apply StronglySorted_inv in Hdv as [Hdv Hall].
    constructor; [by apply IH|]. by apply Forall_app in Hall as [? _]. }
  split.
  { intros r Hr. destruct (proj1 (Hv r)) as [? ?]; [rewrite <- (take_drop (Z.to_nat limit) visible); set_solver|].
    split; [by apply Hin|done]. }
  destruct Hn as [[-> ->]|(c & r0 & -> & Hr0 & -> & _ & Hle & Hcut)].
  - intros r Hl Hrem. apply Hv. split; [by apply Hin|done].
  - intros y Hy. apply own_cursor in Hy as ->.
    2: { rewrite Forall_forall in Hp. apply Hp.
         rewrite <- (take_drop (Z.to_nat limit) visible). set_solver. }
    split; [|split; [eauto|]].
    + intros r [->|Hb]%Hle; [by left|by right].
    + intros r Hl Hrem. assert (r ∈ visible) as Hrv by (apply Hv; split; [by apply Hin|done]).
      rewrite <- (take_drop (Z.to_nat limit) visible), elem_of_app in Hrv.
      destruct Hrv as [?|Hdrop]; [by left|right]. rewrite <- Hcut in Hdrop.
      by apply list_elem_of_filter in Hdrop as [? _].
Qed.

Lemma descending_app {A} (key : A → Z * string) xs ys y :
  descending key xs → descending key ys →
  (∀ x, x ∈ xs → key x = y ∨ before y (key x)) → Forall (λ x, before (key x) y) ys →
  descending key (xs ++ ys).
Proof.
  intros Hx Hy Hge Hlt. induction Hx as [|x xs _ IH Hall]; [done|]. cbn.
  constructor; [apply IH; intros z Hz; apply Hge; by constructor|].
  apply Forall_app. split; [done|]. eapply Forall_impl; [done|]. intros z Hz. cbn in *.
  destruct (Hge x) as [->|Hb]; [constructor|done|]. by transitivity y.
Qed.

Lemma descending_entries shown :
  descending cursor_key shown → descending entry_key (entry_of <$> shown).
Proof.
  induction 1 as [|r rows _ IH Hr]; [constructor|]. rewrite fmap_cons.
  constructor; [done|]. rewrite Forall_forall. rewrite Forall_forall in Hr.
  intros e (q & -> & Hq)%list_elem_of_fmap. by apply Hr.
Qed.

(** *** Every row exactly once, latest first *)
Lemma pages_steps (P : Type) `{!SigningKeyProvider P} `{Ed25519} kind sid access limit
    cursor s es s' :
  pages P kind sid access limit cursor s es s' → rtc (history_step P) s s'.
Proof.
  induction 1 as [|cursor at_ clock uuid s pg c s1 s2 es s' Hrun _ Hs _ IH].
  - by eapply rtc_once, StepList.
  - eapply rtc_l; [by eapply StepList|]. by transitivity s2.
Qed.

(** Whoever goes on from a cursor could have it read. *)
Lemma pages_decoded (P : Type) `{!SigningKeyProvider P} `{Ed25519} kind sid access limit c s es s' :
  pages P kind sid access limit (Some c) s es s' → ∃ y, decode_cursor c = Ok y.
Proof.
  intros Hp. assert (∃ at_ clock uuid s1 pg, list_by_subject kind sid access limit (Some c) at_ clock
    uuid s = (Ok pg, s1)) as (? & ? & ? & ? & ? & Hrun) by (inversion Hp; subst; eauto 10).
  apply list_ok in Hrun as (? & ? & ? & ? & ? & _ & _ & _ & _ & _ & _ & _ & _ & _ & Hv & _).
  cbn [after_cursor] in Hv. destruct (decode_cursor c) as [y|]; [by exists y|done].
Qed.

Lemma pages_correct (P : Type) `{!SigningKeyProvider P} `{Ed25519} kind sid access limit
    cursor k s es s' :
  pages P kind sid access limit cursor s es s' →
  history_wf s → all_pageable s → cursor_at cursor k →
  let sub := (kind, upper (strip sid)) in
  descending entry_key es ∧
  (∀ e, e ∈ es → remains k (entry_key e) ∧ ∃ r, listed s' sub r ∧ e = entry_of r) ∧
  (∀ r, listed s sub r → remains k (cursor_key r) → entry_of r ∈ es).
Proof.
  intros Hpages. revert k.
  induction Hpages as [cursor at_ clock uuid s pg s1 Hrun Hnext
                      |cursor at_ clock uuid s pg c s1 s2 es s' Hrun Hnext Hsteps Hmore IH];
    intros k Hwf Hpg Hk; cbv zeta.
  - assert (history_step P s s1) as Hstep by (by eapply StepList).
    destruct (page_step _ _ _ _ _ _ _ _ _ _ _ _ Hrun Hwf Hpg Hk) as (shown & -> & Hd & Hin & Hrest).
    rewrite Hnext in Hrest. split; [by apply descending_entries|]. split.
    + intros e (r & -> & [Hl Hr]%Hin)%list_elem_of_fmap. split; [done|].
      exists r. split; [by eapply step_keeps|done].
    + intros r Hl Hr. by apply list_elem_of_fmap_2, Hrest.
  - assert (history_step P s s1) as Hstep by (by eapply StepList).
    destruct (page_step _ _ _ _ _ _ _ _ _ _ _ _ Hrun Hwf Hpg Hk) as (shown & -> & Hd & Hin & Hrest).
    destruct (pages_decoded _ _ _ _ _ _ _ _ _ Hmore) as [y Hdec].
    rewrite Hnext in Hrest. destruct (Hrest y Hdec) as (Hge & (r0 & Hr0 & Hy) & Hsplit).
    destruct (step_wf P _ _ Hstep Hwf Hpg) as [Hwf1 Hpg1].
    destruct (steps_wf P _ _ Hsteps Hwf1 Hpg1) as [Hwf2 Hpg2].
    destruct (IH (Some y) Hwf2 Hpg2) as (Hd2 & Hin2 & Hall2); [by exists y|].
    split; [|split].
    + apply (descending_app entry_key _ _ y); [by apply descending_entries|done|..].
      * intros e (r & -> & Hr)%list_elem_of_fmap. by apply Hge.
      * apply Forall_forall. intros e He. by apply Hin2.
    + intros e [(r & -> & Hr)%list_elem_of_fmap|He]%elem_of_app.
      * destruct (Hin r Hr) as [Hl Hrem]. split; [done|]. exists r. split; [|done].
        eapply steps_keep; [by eapply pages_steps|]. eapply steps_keep; [done|].
        by eapply step_keeps.
      * destruct (Hin2 e He) as [Hb Hl]. split; [|done].
        destruct k as [y'|]; [|done]. cbn in *. transitivity y; [done|].
        rewrite <- Hy. by apply (proj2 (Hin r0 Hr0)).
    + intros r Hl Hr. apply elem_of_app.
      destruct (Hsplit r Hl Hr) as [Hshown|Hb]; [left; by apply list_elem_of_fmap_2|right].
      apply Hall2; [|done]. eapply steps_keep; [done|]. by eapply step_keeps.
Qed.

(** *** A client that runs alone gets the whole listing, if every row is filed
    under the identifier as minted *)
Section alone.
Context (kind : SubjectKind) (sid : string) (access : TransactionReadContext) (limit : Z).
Context (at_ : option datetime) (clock now : instant) (principal text : string).
Context (Hnow : history_instant at_ clock = Ok now)
  (Hprincipal : require_text "principal_id" (rc_principal_id access) = Ok principal)
  (Htext : require_text "subject_id" sid = Ok text) (Hlimit : 1 <= limit <= 100)
  (Haccess : can_access kind (upper text) access = true)
  (Hreason : needs_reason access = false).

Definition fresh_ids s (uuids : list string) : Prop :=
  NoDup (audit_id_of <$> uuids) ∧ Forall (λ u, unused s (audit_id_of u)) uuids.

Lemma fresh_ids_cons s u uuids a :
  fresh_ids s (u :: uuids) → au_audit_id a = audit_id_of u →
  unused s (audit_id_of u) ∧ fresh_ids (audited s a) uuids.
Proof.
  intros [[Hnew Hnd]%NoDup_cons [Hu Hus]%Forall_cons] Ha. split; [done|]. split; [done|].
  rewrite Forall_forall in Hus |- *. intros x Hx. unfold unused, audited. cbn [audits].
  rewrite fmap_app, elem_of_app. intros [Hin|Hin]; [by apply (Hus x)|].
  apply list_elem_of_singleton in Hin. rewrite Ha in Hin. apply Hnew. rewrite <- Hin.
  by apply (list_elem_of_fmap_2 audit_id_of).
Qed.

Lemma walk_all uuids cursor k rows visible s :
  history_wf s → all_pageable s → list_for_subject s (kind, upper text) = Ok rows →
  Forall (λ r : row, utt_shaped (tp_utt_id r.1)) rows →
  cursor_at cursor k → after_cursor cursor rows = Ok visible →
  fresh_ids s uuids → uuids ≠ [] →
  (length visible <= Z.to_nat limit * length uuids)%nat →
  ∃ s', walk kind sid access limit at_ clock cursor uuids s = (Ok (entry_of <$> visible), s').
Proof.
  revert cursor k visible s. induction uuids as [|u uuids IH]; [done|].
  intros cursor k visible s Hwf Hpg Hrows Hshaped Hk Hvis Hfresh _ Hlen.
  pose proof (descending_rows _ _ _ Hwf Hpg Hrows) as Hdrows.
  destruct (after_cursor_spec _ _ _ _ Hk Hdrows Hvis) as [Hd Hsub].
  set (a := audit_record access now u principal (SubjectKind_value kind) (upper text) true
              SUBJECT_SCOPED_ACCESS).
  destruct (fresh_ids_cons s u uuids a Hfresh) as [Hu Hfresh']; [done|].
  pose proof (list_run access at_ clock now u principal Hnow Hprincipal kind sid text limit cursor s
                Htext Hlimit Hu) as Hrun.
  rewrite Hreason, Haccess in Hrun. cbv zeta in Hrun. unfold listing in Hrun.
  rewrite Hrows in Hrun. cbn in Hrun. rewrite Hvis in Hrun. cbn in Hrun.
  cbn [walk]. rewrite (run_bind_eq _ _ _ _ _ Hrun).
  assert (∀ r, r ∈ visible → decode_cursor (encode_cursor r.1) = Ok (cursor_key r)) as Hread.
  { destruct (list_for_subject_spec s (kind, upper text) Hwf) as (rows' & Hr' & Hin & _).
    intros r [Hr _]%Hsub. assert (rows' = rows) as -> by congruence.
    rewrite Forall_forall in Hshaped. apply own_cursor_read; [|by apply Hshaped].
    apply Hin in Hr as [Ht _]. by eapply Hpg. }
  destruct (page_of_spec visible (Z.to_nat limit) Hd) as [He Hn]; [lia|]. rewrite He.
  destruct Hn as [[-> ->]|(c & r & -> & Hr & -> & Hlt & _ & Hcut)]; [by eexists|].
  assert (decode_cursor (encode_cursor r.1) = Ok (cursor_key r)) as Hdec.
  { apply Hread. rewrite <- (take_drop (Z.to_nat limit) visible). set_solver. }
  destruct (IH (Some (encode_cursor r.1)) (Some (cursor_key r)) (drop (Z.to_nat limit) visible) (audited s a))
    as [s' Hs'].
  - by apply audited_wf.
  - exact Hpg.
  - exact Hrows.
  - exact Hshaped.
  - by eexists.
  - cbn [after_cursor]. rewrite Hdec. cbn [mbind res_bind mret res_ret]. f_equal. rewrite <- Hcut.
    assert (remains k (cursor_key r)) as Hrk.
    { apply Hsub. rewrite <- (take_drop (Z.to_nat limit) visible). set_solver. }
    destruct cursor as [c'|]; cbn in Hk, Hvis; [|by injection Hvis as ->].
    destruct Hk as (y & Hy & ->). rewrite Hy in Hvis. cbn in Hvis. injection Hvis as <-.
    symmetry. apply filter_stronger. intros q Hq. cbn in Hrk. change (before (cursor_key q) y).
    by transitivity (cursor_key r).
  - done.
  - intros ->. cbn in Hlen. lia.
  - rewrite length_drop. cbn in Hlen. lia.
  - exists s'. rewrite (run_bind_eq _ _ _ _ _ Hs'). cbn.
    by rewrite <- fmap_app, take_drop.
Qed.
End alone.
