(* ===== verification/HistoryIndex.v ===== *)
(** Which subjects an accepted UTT is indexed under, and in which roles: a
    specification by cases, and the indexer's links against it. *)

From Stdlib Require Import Ascii String.
From S2P Require Import Prelude.
From S2P Require Import PyBase.
From S2P Require Import PyDict.
From S2P Require Import CanonicalJson.
From S2P Require Import CanonicalFacts.
From S2P Require Import Keys.
From S2P Require Import Signatures.
From S2P Require Import ContractModels.
From S2P Require Import Contracts.
From S2P Require Import Identity.
From S2P Require Import History.
From S2P Require Import HistoryFacts.
From S2P Require Import HistoryInvariant.

Implicit Types (d : roles_by_subject) (sub : subject) (role : TransactionRole).

(** ** The specification *)
Inductive actor_kind (ty id : string) : SubjectKind → Prop :=
  | ActorContinuity : startswith id "CUID-" = true → actor_kind ty id SUBJ_CONTINUITY_UID
  | ActorMerchant : startswith id "CUID-" = false → ty = "MERCHANT" → actor_kind ty id SUBJ_MERCHANT_ID
  | ActorBranch : startswith id "CUID-" = false → ty = "BRANCH" → actor_kind ty id SUBJ_BRANCH_ID
  | ActorPartner : startswith id "CUID-" = false → ty = "PARTNER" → actor_kind ty id SUBJ_PARTNER_ID.

(** The fields of the origin that name a subject. *)
Inductive origin_kind (origin : mapping) : string → SubjectKind → TransactionRole → Prop :=
  | OriginPayer : get origin "context_type" = Some (PStr "P2P") →
      origin_kind origin "continuity_uid" SUBJ_CONTINUITY_UID PAYER
  | OriginAuthorizer : get origin "context_type" ≠ Some (PStr "P2P") →
      origin_kind origin "continuity_uid" SUBJ_CONTINUITY_UID AUTHORIZER
  | OriginMerchant : origin_kind origin "merchant_id" SUBJ_MERCHANT_ID ORIGIN_MERCHANT
  | OriginBranch : origin_kind origin "branch_id" SUBJ_BRANCH_ID ORIGIN_BRANCH
  | OriginPartner : origin_kind origin "partner_id" SUBJ_PARTNER_ID ORIGIN_PARTNER.

(** The fields of the UTT that name an actor. *)
Inductive party : string → TransactionRole → Prop :=
  | PartyPayer : party "payer" PAYER
  | PartyBeneficiary : party "beneficiary" BENEFICIARY.

(** The payload [utt] names the subject in the role. *)
Inductive named (utt origin : mapping) : subject → TransactionRole → Prop :=
  | NamedByOrigin k kind role id : origin_kind origin k kind role →
      get origin k = Some (PStr id) → named utt origin (kind, upper (strip id)) role
  | NamedAsActor k role m vty ty vid id kind : party k role →
      get utt k = Some (PDict m) → get m "actor_type" = Some vty → str_of vty = Ok ty →
      get m "actor_id" = Some vid → str_of vid = Ok id →
      actor_kind (upper ty) (upper id) kind → named utt origin (kind, upper id) role.

(** ** The accumulator *)
Definition has_role d sub role : Prop := ∃ roles, dget d sub = Some roles ∧ role ∈ roles.

Lemma add_role_has d sub role sub' role' :
  has_role (add_role d sub role) sub' role' ↔
  has_role d sub' role' ∨ sub' = sub ∧ role' = role.
Proof.
  unfold has_role, add_role. rewrite dget_dset. destruct (decide (sub = sub')) as [<-|Hne].
  - case_bool_decide as Hin; destruct (dget d sub) as [roles|] eqn:Hd; cbn in *.
    + split; [intros (rs & [= <-] & ?); left; eauto|].
      intros [(rs & [= <-] & ?)|[_ ->]]; eauto.
    + by apply not_elem_of_nil in Hin.
    + split; [intros (rs & [= <-] & ?); set_solver|].
      intros [(rs & [= <-] & ?)|[_ ->]]; eexists; (split; [done|]); set_solver.
    + split; [intros (rs & [= <-] & ?); set_solver|].
      intros [(rs & [=] & ?)|[_ ->]]; eexists; (split; [done|]); set_solver.
  - naive_solver.
Qed.

Lemma add_role_wf d sub role : dict_wf d → dict_wf (add_role d sub role).
Proof. apply dict_wf_dset. Qed.

(** What one step of the collection does: it keeps the accumulator well formed
    and adds exactly the roles [new]. *)
Definition adds d d' (new : subject → TransactionRole → Prop) : Prop :=
  (dict_wf d → dict_wf d') ∧
  ∀ sub role, has_role d' sub role ↔ has_role d sub role ∨ new sub role.

Lemma adds_one d sub role : adds d (add_role d sub role) (λ sub' role', sub' = sub ∧ role' = role).
Proof. split; [apply add_role_wf|]. intros. apply add_role_has. Qed.

Lemma adds_none d new : (∀ sub role, ¬ new sub role) → adds d d new.
Proof. intros Hnone. split; [done|]. intros. split; [by left|]. intros [?|Hn]; [done|]. by apply Hnone in Hn. Qed.

Lemma adds_iff d d' new new' :
  adds d d' new → (∀ sub role, new sub role ↔ new' sub role) → adds d d' new'.
Proof. intros [Hw Ha] Hn. split; [done|]. intros. by rewrite Ha, Hn. Qed.

Lemma adds_trans d d1 d2 new1 new2 :
  adds d d1 new1 → adds d1 d2 new2 → adds d d2 (λ sub role, new1 sub role ∨ new2 sub role).
Proof. intros [Hw1 H1] [Hw2 H2]. split; [auto|]. intros. rewrite H2, H1. tauto. Qed.

Lemma require_text_v_ok name v t :
  require_text_v name v = Ok t → ∃ u, v = PStr u ∧ t = strip u.
Proof. destruct v; try done. cbn. intros [-> _]%require_text_ok. eauto. Qed.

(** A field of the origin. *)
Definition origin_named (origin : mapping) (k : string) (kind : SubjectKind) role
    : subject → TransactionRole → Prop :=
  λ sub role', ∃ id, get origin k = Some (PStr id) ∧ sub = (kind, upper (strip id)) ∧ role' = role.

Lemma add_subject_adds origin d k kind v role d' :
  get origin k = Some v → add_subject d kind v role = Ok d' →
  adds d d' (origin_named origin k kind role).
Proof.
  intros Hk Ha. unfold add_subject in Ha. inv_ok Ha. simplify_eq.
  match goal with Ht : require_text_v _ _ = Ok _ |- _ =>
    apply require_text_v_ok in Ht as (id & -> & ->) end.
  eapply adds_iff; [apply adds_one|]. intros sub role'. unfold origin_named. rewrite Hk. naive_solver.
Qed.

Lemma add_origin_adds origin d k kind role d' :
  add_origin origin d k kind role = Ok d' → adds d d' (origin_named origin k kind role).
Proof.
  unfold add_origin. destruct (get origin k) as [v|] eqn:Hk.
  - destruct v; try (intros Ha; by eapply add_subject_adds).
    intros Ha. inv_ok Ha. simplify_eq. apply adds_none. intros sub r (id & Hid & _). congruence.
  - intros Ha. inv_ok Ha. simplify_eq. apply adds_none. intros sub r (id & Hid & _). congruence.
Qed.

(** An actor of the UTT. *)
Definition actor_named (actor : pyval) role : subject → TransactionRole → Prop :=
  λ sub role', ∃ m vty ty vid id kind, actor = PDict m ∧
    get m "actor_type" = Some vty ∧ str_of vty = Ok ty ∧
    get m "actor_id" = Some vid ∧ str_of vid = Ok id ∧
    actor_kind (upper ty) (upper id) kind ∧ sub = (kind, upper id) ∧ role' = role.

Lemma add_actor_adds identities d actor role d' :
  add_actor identities d actor role = Ok d' → adds d d' (actor_named actor role).
Proof.
  intros Ha. unfold add_actor in Ha. inv_ok Ha.
  match goal with Hm : as_mapping _ = Ok _ |- _ =>
    destruct actor; try discriminate Hm; injection Hm as -> end.
  repeat match goal with Hi : item _ _ = Ok _ |- _ => apply item_ok in Hi end.
  rename v into m, v0 into ty, v1 into vty, v2 into id, v3 into vid.
  assert (∀ kind, d' = add_role d (kind, upper id) role →
    (∀ kind', actor_kind (upper ty) (upper id) kind' ↔ kind' = kind) →
    adds d d' (actor_named (PDict m) role)) as Hone.
  { intros kind -> Hkind. eapply adds_iff; [apply adds_one|]. intros sub role'. split.
    - intros [-> ->]. exists m, vty, ty, vid, id, kind. by rewrite Hkind.
    - intros (m' & vty' & ty' & vid' & id' & k & [= <-] & ? & ? & ? & ? & Hk & -> & ->).
      assert (ty' = ty) as -> by congruence. assert (id' = id) as -> by congruence.
      by apply Hkind in Hk as ->. }
  destruct (startswith (upper id) "CUID-") eqn:Hcuid.
  { inv_ok Ha. apply (Hone SUBJ_CONTINUITY_UID); [done|].
    intros k. split; [by intros []; congruence|]. intros ->. by constructor. }
  destruct (String.eqb_spec (upper ty) "MERCHANT") as [Hty|Hm].
  { inv_ok Ha. apply (Hone SUBJ_MERCHANT_ID); [done|].
    intros k. split; [by intros []; congruence|]. intros ->. by constructor. }
  destruct (String.eqb_spec (upper ty) "BRANCH") as [Hty|Hb].
  { inv_ok Ha. apply (Hone SUBJ_BRANCH_ID); [done|].
    intros k. split; [by intros []; congruence|]. intros ->. by constructor. }
  destruct (String.eqb_spec (upper ty) "PARTNER") as [Hty|Hp].
  { inv_ok Ha. apply (Hone SUBJ_PARTNER_ID); [done|].
    intros k. split; [by intros []; congruence|]. intros ->. by constructor. }
  inv_ok Ha. apply adds_none.
  intros sub role' (m' & vty' & ty' & vid' & id' & k & [= <-] & ? & ? & ? & ? & Hk & _).
  assert (ty' = ty) as -> by congruence. assert (id' = id) as -> by congruence.
  destruct Hk; congruence.
Qed.

(** ** The collection and the links *)
Lemma add_continuity_adds identities origin d :
  add_continuity identities origin = Ok d →
  adds [] d (origin_named origin "continuity_uid" SUBJ_CONTINUITY_UID
    (if eq_str (get origin "context_type") "P2P" then PAYER else AUTHORIZER)).
Proof.
  unfold add_continuity. intros Ha. destruct (get origin "continuity_uid") as [v|] eqn:Hk.
  - destruct v; inv_ok Ha;
      [apply adds_none; intros sub r (id & Hid & _); congruence|..].
    all: match goal with Hi : item _ _ = Ok _ |- _ => apply item_ok in Hi as -> end.
    all: by eapply add_subject_adds.
  - inv_ok Ha. apply adds_none. intros sub r (id & Hid & _). congruence.
Qed.

Lemma collect_roles_named identities utt origin d :
  collect_roles identities utt origin = Ok d →
  dict_wf d ∧ ∀ sub role, has_role d sub role ↔ named utt origin sub role.
Proof.
  intros Hc. unfold collect_roles in Hc. inv_ok Hc.
  repeat match goal with Hi : item _ _ = Ok _ |- _ => apply item_ok in Hi end.
  repeat match goal with
  | Ha : add_origin _ _ _ _ _ = Ok _ |- _ => apply add_origin_adds in Ha
  | Ha : add_actor _ _ _ _ = Ok _ |- _ => apply add_actor_adds in Ha
  | Ha : add_continuity _ _ = Ok _ |- _ => apply add_continuity_adds in Ha
  end.
  match goal with Hp : get utt "payer" = Some ?p, Hb : get utt "beneficiary" = Some ?b |- _ =>
    rename p into payer, b into beneficiary; rename Hp into Hpayer, Hb into Hbeneficiary end.
  pose proof (adds_trans _ _ _ _ _ (adds_trans _ _ _ _ _ (adds_trans _ _ _ _ _
    (adds_trans _ _ _ _ _ (adds_trans _ _ _ _ _ H H0) H1) H2) H4) Hc) as [Hwf Hall].
  split; [by apply Hwf, dict_wf_empty|]. intros sub role. rewrite Hall. split.
  - intros [(roles & [=] & _)|[[[[[Hn|Hn]|Hn]|Hn]|Hn]|Hn]].
    1-4: destruct Hn as (id & Hid & -> & ->); eapply NamedByOrigin; [|done]; try constructor.
    { destruct (eq_str (get origin "context_type") "P2P") eqn:He; constructor.
      - by apply eq_str_true.
      - intros Hx. rewrite Hx in He. done. }
    all: destruct Hn as (m & vty & ty & vid & id & kind & -> & ? & ? & ? & ? & ? & -> & ->).
    all: eapply NamedAsActor; [constructor|done..].
  - intros [k kind r id Hkind Hid|k r m vty ty vid id kind Hparty Hm Hvty Hty Hvid Hid Hkind]; right.
    + destruct Hkind as [Hp|Hp| | |]; [..|left; left; right]; [..|by eexists].
      * do 5 left. exists id. rewrite Hp. done.
      * do 5 left. exists id. split; [done|]. split; [done|].
        destruct (eq_str _ _) eqn:He; [by apply eq_str_true in He|done].
      * do 4 left. right. by eexists.
      * do 3 left. right. by eexists.
    + destruct Hparty; [left; right|right]; simplify_eq;
        exists m, vty, ty, vid, id, kind; done.
Qed.

Definition in_links (ls : list TransactionSubjectLink) sub role : Prop :=
  ∃ l, l ∈ ls ∧ ln_subject l = sub ∧ role ∈ ln_roles l.

Lemma links_of_has utt_id at_ d sub role :
  dict_wf d → in_links (links_of utt_id at_ d) sub role ↔ has_role d sub role.
Proof.
  intros Hwf. unfold in_links, links_of, has_role. split.
  - intros (l & (item & -> & Hin)%list_elem_of_fmap & <- & Hr).
    destruct item as [[kind id] roles]. rewrite elem_of_sort_on in Hin. cbn in *.
    exists roles. split; [by apply elem_dget|]. by apply elem_of_sort_on in Hr.
  - intros (roles & Hd & Hr). destruct sub as [kind id].
    exists (Link utt_id kind id (sorted_roles roles) at_). split; [|split; [done|]].
    + apply list_elem_of_fmap. exists ((kind, id), roles). split; [done|].
      apply elem_of_sort_on. by apply dget_elem.
    + by apply elem_of_sort_on.
Qed.

Section indexing.
Context {P : Type} `{!SigningKeyProvider P} `{Ed25519}.

(** What the indexer read before a commit. *)
Lemma read_utt_ok (keys : P) contracts identities utt_id at_ clock p ls :
  read_utt keys contracts identities utt_id at_ clock = Ok (p, ls) →
  ∃ signed now origin d,
    utts contracts !! strip utt_id = Some signed ∧
    (∃ v, verify_artifact keys signed (Some UTT) false = Ok v ∧ valid v = true) ∧
    history_instant at_ clock = Ok now ∧ get (payload signed) "origin" = Some (PDict origin) ∧
    tp_utt_id p = utt_id ∧ get (protected signed) "payload_sha256" = Some (PStr (tp_payload_sha256 p)) ∧
    get (payload signed) "amount_minor" = Some (tp_amount_minor p) ∧
    get (payload signed) "accepted_at" = Some (PInt (epoch (tp_accepted_at p))) ∧
    dict_wf d ∧ ls = links_of utt_id now d ∧
    ∀ sub role, in_links ls sub role ↔ named (payload signed) origin sub role.
Proof.
  intros Hr. unfold read_utt in Hr. inv_ok Hr. guards.
  match goal with Hp : projection_of _ _ _ _ = Ok ?v |- _ => destruct v as [q origin] end.
  cbv beta iota in Hr. inv_ok Hr. simplify_eq.
  match goal with Hp : projection_of _ _ _ _ = Ok _ |- _ => unfold projection_of in Hp; inv_ok Hp end.
  simplify_eq. cbn.
  match goal with Hq : require_text _ _ = Ok _ |- _ => apply require_text_ok in Hq as [-> _] end.
  match goal with Hq : require_utt _ _ = Ok _ |- _ =>
    unfold require_utt in Hq; apply res_require_ok in Hq end.
  match goal with Hd : collect_roles _ _ _ = Ok _ |- _ => apply collect_roles_named in Hd as [Hwf Hn] end.
  repeat match goal with Hi : item _ _ = Ok _ |- _ => apply item_ok in Hi end.
  match goal with Hs : str_item _ _ = Ok _ |- _ => apply str_item_ok in Hs end.
  match goal with Hu : utc_datetime_from_epoch ?v = Ok ?t |- _ =>
    destruct v; try discriminate Hu; apply fromtimestamp_ok in Hu as [-> _]; rewrite epoch_seconds end.
  match goal with Hm : as_mapping ?v = Ok _ |- _ => destruct v; try discriminate Hm; injection Hm as -> end.
  eexists _, _, _, _. repeat (split; [by eauto|]).
  intros sub role. by rewrite links_of_has.
Qed.
Lemma read_utt_representable (keys : P) contracts identities utt_id at_ clock p ls :
  read_utt keys contracts identities utt_id at_ clock = Ok (p, ls) →
  representable (epoch (tp_accepted_at p)).
Proof.
  intros Hr. unfold read_utt in Hr. inv_ok Hr.
  match goal with Hp : projection_of _ _ _ _ = Ok ?v |- _ => destruct v as [q origin] end.
  cbv beta iota in Hr. inv_ok Hr. simplify_eq.
  match goal with Hp : projection_of _ _ _ _ = Ok _ |- _ => unfold projection_of in Hp; inv_ok Hp end.
  simplify_eq. cbn.
  match goal with Hu : utc_datetime_from_epoch ?v = Ok ?t |- _ =>
    destruct v; try discriminate Hu; apply fromtimestamp_ok in Hu as [-> Hrep] end.
  by rewrite epoch_seconds.
Qed.
End indexing.
