(* ===== verification/HistoryClaims.v ===== *)
(** What the transaction history promises: a consistent store, complete and
    stable pagination, audited access, and links that name every party. *)

From Stdlib Require Import Ascii String.
From S2P Require Import Prelude.
From S2P Require Import PyBase.
From S2P Require Import PyDict.
From S2P Require Import Bytes.
From S2P Require Import CanonicalJson.
From S2P Require Import CanonicalFacts.
From S2P Require Import Keys.
From S2P Require Import Signatures.
From S2P Require Import ContractModels.
From S2P Require Import Contracts.
From S2P Require Import Identity.
From S2P Require Import PyText.
From S2P Require Import History.
From S2P Require Import HistoryFacts.
From S2P Require Import HistoryInvariant.
From S2P Require Import HistoryPaging.
From S2P Require Import HistoryIndex.

(** ** Lemmas of the claims *)

Lemma reachable_ok (P : Type) `{!SigningKeyProvider P} `{Ed25519} s :
  rtc (history_step P) no_history s → history_wf s ∧ all_pageable s.
Proof. intros Hs. destruct no_history_wf. by eapply steps_wf. Qed.

(** A listing with a cursor that cannot be read is refused, nothing else. *)
Lemma listing_outcome s sub limit cursor :
  history_wf s →
  (∃ pg, listing s sub limit cursor = Ok pg) ∨
  listing s sub limit cursor = Err invalid_cursor ∧
    ∃ c, cursor = Some c ∧ decode_cursor c = Err invalid_cursor.
Proof.
  intros Hwf. unfold listing. destruct (list_for_subject_spec s sub Hwf) as (rows & -> & _).
  cbn [mbind res_bind]. destruct cursor as [c|]; cbn [after_cursor]; [|left; by eexists].
  destruct (decode_cursor_cases c) as [(n & u & Hd)|Hd]; rewrite Hd; [left; by eexists|right].
  split; [done|]. by exists c.
Qed.

(** The identifier of an answered query is the stripped one. *)
Lemma get_ok utt_id access at_ clock uuid s e s' :
  get_by_utt utt_id access at_ clock uuid s = (Ok e, s') →
  transactions s !! strip utt_id = Some (en_transaction e).
Proof.
  intros Hrun. unfold get_by_utt in Hrun. cbv zeta in Hrun. inv_ok Hrun. cbn.
  match goal with Hq : require_text _ _ = Ok _ |- _ => apply require_text_ok in Hq as [-> _] end.
  match goal with Hq : require_projection _ _ = Ok _ |- _ =>
    unfold require_projection in Hq; by apply res_require_ok in Hq end.
Qed.

(** A cursor that points at an identifier RailOne did not mint is refused. *)
Lemma foreign_cursor p :
  representable (epoch (tp_accepted_at p)) → startswith (tp_utt_id p) "UTT-" = false →
  decode_cursor (encode_cursor p) = Err invalid_cursor.
Proof.
  intros Hrep Hpre. rewrite decode_encode_cursor by done. by rewrite Hpre, andb_false_r.
Qed.

(** ** Demonstration data: two accepted transfers of one payer *)
Module DemoHistory.
Import ToyEd25519 DemoContracts.

Definition quote2 : SignatureEnvelope := Eval vm_compute in
  from_ok no_envelope (issue_quote demo_keys open_policy
    {| request_id := "R2"; q_payer := demo_actor "U1" DEBIT;
       q_beneficiary := demo_actor "U2" CREDIT; q_purpose := PERSON_TO_PERSON;
       q_amount_minor := 700; q_currency_from := "kes"; q_receive_amount_minor := 700;
       q_currency_to := "KES"; q_total_fee_minor := 50; q_routing_budget_minor := 30;
       fx_rate := "1.00"; corridor_id := "KE-KE"; service_level := "STANDARD";
       routing_policy_id := "RP1"; pricing_version := "V1"; q_max_attempts := 3 |}
    "KQ" (Aware (seconds 100)) (Aware (seconds 400))).
Definition command2 : QuoteAcceptanceCommand :=
  {| signed_quote := quote2;
     cmd_origin := {| origin_system := "app"; origin_intent_id := "I2";
       context_type := CTX_P2P; origin_purpose := PERSON_TO_PERSON;
       continuity_uid := Some "U1"; merchant_id := None; branch_id := None;
       partner_id := None |};
     authorization_method := "PIN"; authorization_reference := "AR2";
     idempotency_key := "key-2"; authority_ttl_seconds := 600 |}.
Definition origin2 : mapping := Eval vm_compute in
  from_ok [] (OriginContext_to_payload (cmd_origin command2)).
Definition contract2 : AcceptedContract := Eval vm_compute in
  from_ok demo_contract
    ('(key, origin, hash) ← request_identity command2;
     build_contract demo_keys "KX" "KX" command2 origin hash (seconds 201)).
Definition both_contracts : ContractStore :=
  Contracts (<["key-2" := contract2]> (idempotency demo_store))
    (<[c_quote_id contract2 := c_utt_id contract2]> (quote_to_utt demo_store))
    (<[c_utt_id contract2 := signed_utt contract2]> (utts demo_store)).

Definition utt1 : string := c_utt_id demo_contract.
Definition utt2 : string := c_utt_id contract2.

(** The payer's identity, as the repository would hold it. *)
Definition someone : IdentityBundle :=
  Bundle {| gen_rig_id := "RIG-1"; gen_continuity_uid := "U1"; gen_continuity_key_id := "K";
            gen_fingerprint := "F"; gen_provider_id := "P"; gen_verification_reference := "V";
            gen_evidence_sha256 := "E"; gen_attestation_id := "A"; gen_created_at := 0 |}
    {| io_rio_id := "RIO-1"; io_railone_id := "R1"; io_continuity_uid := "U1";
       io_rig_id := "RIG-1"; io_active_riv_id := "RIV-1"; io_corridor := "KE";
       io_status := ID_ACTIVE; io_created_at := 0 |}
    {| riv_id := "RIV-1"; riv_rio_id := "RIO-1"; riv_continuity_uid := "U1"; riv_revision := 1;
       riv_trust_tier := T1; riv_status := ID_ACTIVE; riv_reason := "ONBOARDED";
       riv_attestation_id := "A"; riv_created_at := 0 |}.
Definition people : InMemoryIdentityRepository :=
  Identities {["F" := someone]} {["U1" := someone]} {["U1" := [active_revision someone]]}.

(** What the indexer reads of the two transactions, and of the first under an
    identifier with a leading blank. *)
Definition no_projection : UttTransactionProjection :=
  {| tp_utt_id := EmptyString; tp_payload_sha256 := EmptyString; tp_quote_id := PNone;
     tp_purpose := PNone; tp_context_type := PNone; tp_amount_minor := PNone;
     tp_currency_from := PNone; tp_receive_amount_minor := PNone; tp_currency_to := PNone;
     tp_commercial_state := PNone; tp_accepted_at := 0; tp_indexed_at := 0 |}.
Definition utt_read : Type := UttTransactionProjection * list TransactionSubjectLink.
Definition read_demo (utt_id : string) (t : Z) : res utt_read :=
  read_utt demo_keys both_contracts people utt_id (Some (Aware (seconds t))) 0.
Definition blank_utt1 : string := " " +:+ utt1.
Definition read1 : utt_read := Eval vm_compute in from_ok (no_projection, []) (read_demo utt1 300).
Definition read2 : utt_read := Eval vm_compute in from_ok (no_projection, []) (read_demo utt2 301).
Definition read3 : utt_read := Eval vm_compute in
  from_ok (no_projection, []) (read_demo blank_utt1 302).

Definition indexed1 : HistoryStore := (commit_history read1.1 read1.2 no_history).2.
Definition indexed2 : HistoryStore := (commit_history read2.1 read2.2 indexed1).2.
Definition indexed3 : HistoryStore := (commit_history read3.1 read3.2 no_history).2.

Definition payer : TransactionReadContext :=
  {| rc_principal_id := "app-1"; rc_continuity_uid := Some "u1"; rc_merchant_ids := [];
     rc_branch_ids := []; rc_partner_ids := []; rc_permissions := []; rc_access_reason := None |}.
End DemoHistory.
Import ToyEd25519 DemoContracts DemoHistory.

Definition demo_step : HistoryStore → HistoryStore → Prop := history_step InMemoryEd25519KeyProvider.

Lemma identity2 : request_identity command2 = Ok ("key-2", origin2, request_sha256 contract2).
Proof. vm_compute. reflexivity. Qed.
Lemma built2 :
  build_contract demo_keys "KX" "KX" command2 origin2 (request_sha256 contract2) (seconds 201)
  = Ok contract2.
Proof. vm_compute. reflexivity. Qed.

Lemma accept_one : acceptance InMemoryEd25519KeyProvider no_contracts demo_store.
Proof.
  exact (Acceptance InMemoryEd25519KeyProvider no_contracts demo_store demo_keys "KX" "KX" demo_command
    (Some (Aware (seconds 200))) 0 _ demo_runs).
Qed.
Lemma accept_two : acceptance InMemoryEd25519KeyProvider demo_store both_contracts.
Proof.
  apply (Acceptance InMemoryEd25519KeyProvider demo_store both_contracts demo_keys "KX" "KX" command2
    (Some (Aware (seconds 201))) 0 (Ok {| contract := contract2; replayed := false |})).
  apply (accept_first demo_keys "KX" "KX" command2 (seconds 201) demo_store "key-2"
    origin2 contract2 identity2 built2); vm_compute; reflexivity.
Qed.
Lemma accepted_both : rtc (acceptance InMemoryEd25519KeyProvider) no_contracts both_contracts.
Proof. exact (rtc_l _ _ _ _ accept_one (rtc_l _ _ _ _ accept_two (rtc_refl _ _))). Qed.

Lemma read1_eq : read_demo utt1 300 = Ok (read1.1, read1.2).
Proof. vm_compute. reflexivity. Qed.
Lemma read2_eq : read_demo utt2 301 = Ok (read2.1, read2.2).
Proof. vm_compute. reflexivity. Qed.
Lemma read3_eq : read_demo blank_utt1 302 = Ok (read3.1, read3.2).
Proof. vm_compute. reflexivity. Qed.

(** An indexing is the commit of what was read. *)
Lemma index_read `{SigningKeyProvider P} `{Ed25519} (keys : P) contracts identities utt_id at_ clock
    p ls s :
  read_utt keys contracts identities utt_id at_ clock = Ok (p, ls) →
  index_utt keys contracts identities utt_id at_ clock s = commit_history p ls s.
Proof. intros Hr. unfold index_utt. by rewrite (run_lift_bind _ _ _ _ Hr). Qed.

Definition index_demo (utt_id : string) (t : Z) (s : HistoryStore)
    : res UttTransactionProjection * HistoryStore :=
  index_utt demo_keys both_contracts people utt_id (Some (Aware (seconds t))) 0 s.
Lemma indexed1_run : index_demo utt1 300 no_history = (Ok read1.1, indexed1).
Proof.
  unfold index_demo. rewrite (index_read _ _ _ _ _ _ _ _ _ read1_eq).
  apply run_result. vm_compute. reflexivity.
Qed.
Lemma indexed2_run : index_demo utt2 301 indexed1 = (Ok read2.1, indexed2).
Proof.
  unfold index_demo. rewrite (index_read _ _ _ _ _ _ _ _ _ read2_eq).
  apply run_result. vm_compute. reflexivity.
Qed.
Lemma indexed3_run : index_demo blank_utt1 302 no_history = (Ok read3.1, indexed3).
Proof.
  unfold index_demo. rewrite (index_read _ _ _ _ _ _ _ _ _ read3_eq).
  apply run_result. vm_compute. reflexivity.
Qed.

Lemma index_one : demo_step no_history indexed1.
Proof.
  exact (StepIndex InMemoryEd25519KeyProvider no_history indexed1 demo_keys both_contracts people utt1
    (Some (Aware (seconds 300))) 0 _ accepted_both indexed1_run).
Qed.
Lemma index_two : demo_step indexed1 indexed2.
Proof.
  exact (StepIndex InMemoryEd25519KeyProvider indexed1 indexed2 demo_keys both_contracts people utt2
    (Some (Aware (seconds 301))) 0 _ accepted_both indexed2_run).
Qed.
Lemma indexed_both : rtc demo_step no_history indexed2.
Proof. exact (rtc_l _ _ _ _ index_one (rtc_l _ _ _ _ index_two (rtc_refl _ _))). Qed.

(** Two pages of one entry each. *)
Definition no_page : TransactionHistoryPage := Page [] None.
Definition request1 : res TransactionHistoryPage * HistoryStore :=
  list_by_subject SUBJ_CONTINUITY_UID "u1" payer 1 None None (seconds 400) "a1" indexed2.
Definition page1 : TransactionHistoryPage := from_ok no_page request1.1.
Definition cursor1 : string := "MjAxfFVUVC1CQ0NBQjkwOTAzOTNGNDc5MTRDQjVDQTQ0RTIzQTIyQw".
Definition request2 : res TransactionHistoryPage * HistoryStore :=
  list_by_subject SUBJ_CONTINUITY_UID "u1" payer 1 (Some cursor1) None (seconds 401) "a2" request1.2.
Definition page2 : TransactionHistoryPage := from_ok no_page request2.1.

Lemma request1_eq :
  list_by_subject SUBJ_CONTINUITY_UID "u1" payer 1 None None (seconds 400) "a1" indexed2 = request1.
Proof. unfold request1. reflexivity. Qed.
Lemma request2_eq :
  list_by_subject SUBJ_CONTINUITY_UID "u1" payer 1 (Some cursor1) None (seconds 401) "a2" request1.2
  = request2.
Proof. unfold request2. reflexivity. Qed.
Lemma request1_run :
  list_by_subject SUBJ_CONTINUITY_UID "u1" payer 1 None None (seconds 400) "a1" indexed2
  = (Ok page1, request1.2).
Proof. rewrite request1_eq. apply (from_ok_run no_page request1). vm_compute. reflexivity. Qed.
Lemma request2_run :
  list_by_subject SUBJ_CONTINUITY_UID "u1" payer 1 (Some cursor1) None (seconds 401) "a2" request1.2
  = (Ok page2, request2.2).
Proof. rewrite request2_eq. apply (from_ok_run no_page request2). vm_compute. reflexivity. Qed.
Lemma page1_next : pg_next_cursor page1 = Some cursor1.
Proof. vm_compute. reflexivity. Qed.
Lemma page2_next : pg_next_cursor page2 = None.
Proof. vm_compute. reflexivity. Qed.

Definition demo_pages : option string → HistoryStore → list TransactionHistoryEntry →
    HistoryStore → Prop :=
  pages InMemoryEd25519KeyProvider SUBJ_CONTINUITY_UID "u1" payer 1.

Lemma two_pages : demo_pages None indexed2 (pg_entries page1 ++ pg_entries page2) request2.2.
Proof.
  apply (PagesMore InMemoryEd25519KeyProvider SUBJ_CONTINUITY_UID "u1" payer 1 None None (seconds 400) "a1"
    indexed2 page1 cursor1 request1.2 request1.2 (pg_entries page2) request2.2).
  - exact request1_run.
  - exact page1_next.
  - apply rtc_refl.
  - apply (PagesEnd InMemoryEd25519KeyProvider SUBJ_CONTINUITY_UID "u1" payer 1 (Some cursor1) None (seconds 401) "a2"
      request1.2 page2 request2.2); [exact request2_run|exact page2_next].
Qed.

(** ** The guarantees *)




(** C34 Pagination is stable: a client that follows the cursors of a subject's
    history, while callers run any operations between its requests (other
    transactions are indexed, other pages are read), collects entries strictly
    latest first, hence none twice; each is the projection and the roles of a
    transaction of that subject; and every transaction that was indexed for the
    subject before the first request is among them. *)
Theorem pagination_stable (P : Type) `{!SigningKeyProvider P} `{Ed25519} kind sid access limit
    s es s' :
  rtc (history_step P) no_history s →
  pages P kind sid access limit None s es s' →
  descending entry_key es ∧ NoDup (entry_key <$> es) ∧
  (∀ e, e ∈ es → ∃ r, listed s' (kind, upper (strip sid)) r ∧ e = entry_of r) ∧
  (∀ r, listed s (kind, upper (strip sid)) r → entry_of r ∈ es).
Proof.
  intros Hs Hpages. destruct (reachable_ok P s Hs) as [Hwf Hpg].
  destruct (pages_correct P kind sid access limit None None s es s' Hpages Hwf Hpg)
    as (Hd & Hin & Hall); [done|].
  split; [done|]. split; [by apply descending_NoDup|]. split.
  - intros e He. by apply Hin.
  - intros r Hr. by apply Hall.
Qed.

Lemma pagination_stable_witness :
  demo_pages None indexed2 (pg_entries page1 ++ pg_entries page2) request2.2 ∧
  descending entry_key (pg_entries page1 ++ pg_entries page2) ∧
  NoDup (entry_key <$> (pg_entries page1 ++ pg_entries page2)) ∧
  (∀ e, e ∈ pg_entries page1 ++ pg_entries page2 →
     ∃ r, listed request2.2 (SUBJ_CONTINUITY_UID, upper (strip "u1")) r ∧ e = entry_of r) ∧
  (∀ r, listed indexed2 (SUBJ_CONTINUITY_UID, upper (strip "u1")) r →
     entry_of r ∈ pg_entries page1 ++ pg_entries page2).
Proof.
  exact (conj two_pages (pagination_stable InMemoryEd25519KeyProvider SUBJ_CONTINUITY_UID "u1" payer 1 indexed2
    (pg_entries page1 ++ pg_entries page2) request2.2 indexed_both two_pages)).
Defined.

(** Pagination terminates: if the rows are filed under their identifiers as
    minted, then with requests that carry fresh audit identifiers and cover the
    listing, a permitted client that runs alone gets, page by page,
    exactly the rows of the subject in their order. *)
Theorem pagination_terminates (P : Type) `{!SigningKeyProvider P} `{Ed25519} kind sid access limit
    at_ clock now principal text uuids s rows :
  rtc (history_step P) no_history s →
  history_instant at_ clock = Ok now →
  require_text "principal_id" (rc_principal_id access) = Ok principal →
  require_text "subject_id" sid = Ok text → 1 <= limit <= 100 →
  can_access kind (upper text) access = true → needs_reason access = false →
  fresh_ids s uuids → list_for_subject s (kind, upper text) = Ok rows → uuids ≠ [] →
  Forall (λ r : row, utt_shaped (tp_utt_id r.1)) rows →
  (length rows <= Z.to_nat limit * length uuids)%nat →
  ∃ s', walk kind sid access limit at_ clock None uuids s = (Ok (entry_of <$> rows), s').
Proof.
  intros Hs Hnow Hprin Htext Hlimit Haccess Hreason Hfresh Hrows Hne Hshaped Hlen.
  destruct (reachable_ok P s Hs) as [Hwf Hpg].
  by apply (walk_all kind sid access limit at_ clock now principal text Hnow Hprin Htext Hlimit
    Haccess Hreason uuids None None rows rows).
Qed.

Definition demo_rows : list row :=
  from_ok [] (list_for_subject indexed2 (SUBJ_CONTINUITY_UID, "U1")).

Lemma demo_rows_eq :
  list_for_subject indexed2 (SUBJ_CONTINUITY_UID, "U1") = Ok demo_rows ∧ length demo_rows = 2%nat.
Proof. split; vm_compute; reflexivity. Qed.

Lemma demo_fresh_ids : fresh_ids indexed2 ["a1"; "a2"].
Proof.
  split; [apply (bool_decide_unpack _); vm_compute; exact I|].
  repeat constructor; unfold unused; apply (bool_decide_unpack _); vm_compute; exact I.
Qed.

Lemma pagination_terminates_witness :
  ∃ s', walk SUBJ_CONTINUITY_UID "u1" payer 1 None (seconds 400) None ["a1"; "a2"] indexed2
    = (Ok (entry_of <$> demo_rows), s').
Proof.
  apply (pagination_terminates InMemoryEd25519KeyProvider SUBJ_CONTINUITY_UID "u1" payer 1 None (seconds 400)
    (seconds 400) "app-1" "u1" ["a1"; "a2"] indexed2 demo_rows indexed_both).
  - reflexivity.
  - reflexivity.
  - reflexivity.
  - lia.
  - reflexivity.
  - reflexivity.
  - exact demo_fresh_ids.
  - exact (proj1 demo_rows_eq).
  - discriminate.
  - vm_compute. repeat constructor.
  - rewrite (proj2 demo_rows_eq). cbn. lia.
Defined.

(** Queries decide access and leave one audit record.  For a request with a
    usable clock, principal, subject, limit and fresh audit identifier, the
    listing of a subject changes nothing but the audit trail, to which it adds
    one record with the principal, the instant and the normalised subject.  A
    privileged principal without a reason is refused before anything is read; a
    principal without a right to the subject is refused and recorded as [DENIED];
    otherwise the access is recorded as [ALLOWED] and the answer is a page, or the
    one error of an unreadable cursor. *)
Theorem queries_audited kind sid access limit cursor at_ clock now principal text uuid s :
  history_wf s →
  history_instant at_ clock = Ok now →
  require_text "principal_id" (rc_principal_id access) = Ok principal →
  require_text "subject_id" sid = Ok text → 1 <= limit <= 100 →
  unused s (audit_id_of uuid) →
  ∃ o a, list_by_subject kind sid access limit cursor at_ clock uuid s = (o, audited s a) ∧
    au_principal_id a = principal ∧ au_occurred_at a = now ∧ au_target_id a = upper text ∧
    history_wf (audited s a) ∧
    ((needs_reason access = true ∧ o = Err reason_denied ∧ au_outcome a = DENIED ∧
      au_target_kind a = "PRIVILEGED_QUERY") ∨
     (needs_reason access = false ∧ au_target_kind a = SubjectKind_value kind ∧
      ((can_access kind (upper text) access = false ∧ o = Err subject_denied ∧
        au_outcome a = DENIED) ∨
       (can_access kind (upper text) access = true ∧ au_outcome a = ALLOWED ∧
        ((∃ pg, o = Ok pg) ∨
         o = Err invalid_cursor ∧ ∃ c, cursor = Some c ∧ decode_cursor c = Err invalid_cursor))))).
Proof.
  intros Hwf Hnow Hprin Htext Hlimit Hu.
  pose proof (list_run access at_ clock now uuid principal Hnow Hprin kind sid text limit cursor s
    Htext Hlimit Hu) as Hrun.
  destruct (needs_reason access) eqn:Hreason.
  - eexists _, _. split; [exact Hrun|]. do 3 (split; [done|]).
    split; [by apply audited_wf|]. by left.
  - cbv zeta in Hrun. destruct (can_access kind (upper text) access) eqn:Hcan.
    + eexists _, _. split; [exact Hrun|]. do 3 (split; [done|]).
      split; [by apply audited_wf|]. right. split; [done|]. split; [done|]. right.
      split; [done|]. split; [done|]. by apply listing_outcome.
    + eexists _, _. split; [exact Hrun|]. do 3 (split; [done|]).
      split; [by apply audited_wf|]. right. split; [done|]. split; [done|]. by left.
Qed.

Definition teller : TransactionReadContext :=
  {| rc_principal_id := " teller "; rc_continuity_uid := Some "U2"; rc_merchant_ids := ["M1"];
     rc_branch_ids := []; rc_partner_ids := []; rc_permissions := []; rc_access_reason := None |}.

Lemma queries_audited_witness :
  ∃ o a, list_by_subject SUBJ_CONTINUITY_UID "u1" teller 10 (Some "!") None (seconds 400) "a1" no_history
      = (o, audited no_history a) ∧
    au_principal_id a = "teller" ∧ au_occurred_at a = seconds 400 ∧ au_target_id a = upper "u1" ∧
    history_wf (audited no_history a) ∧
    ((needs_reason teller = true ∧ o = Err reason_denied ∧ au_outcome a = DENIED ∧
      au_target_kind a = "PRIVILEGED_QUERY") ∨
     (needs_reason teller = false ∧ au_target_kind a = SubjectKind_value SUBJ_CONTINUITY_UID ∧
      ((can_access SUBJ_CONTINUITY_UID (upper "u1") teller = false ∧ o = Err subject_denied ∧
        au_outcome a = DENIED) ∨
       (can_access SUBJ_CONTINUITY_UID (upper "u1") teller = true ∧ au_outcome a = ALLOWED ∧
        ((∃ pg, o = Ok pg) ∨
         o = Err invalid_cursor ∧ ∃ c, Some "!" = Some c ∧ decode_cursor c = Err invalid_cursor))))).
Proof.
  apply (queries_audited SUBJ_CONTINUITY_UID "u1" teller 10 (Some "!") None (seconds 400)
    (seconds 400) "teller" "u1" "a1" no_history).
  - exact (proj1 no_history_wf).
  - reflexivity.
  - reflexivity.
  - reflexivity.
  - lia.
  - unfold unused. cbn. apply not_elem_of_nil.
Defined.

(** Indexing names every party.  When the indexer commits a new transaction,
    the persisted UTT had verified as a valid UTT, the projection is filed under
    the identifier with the payload's hash, amount and acceptance second, and a
    link to a subject with a role exists exactly when the signed payload names
    that subject in that role: the origin's continuity identity (payer of a
    person-to-person transfer, else authoriser), merchant, branch and partner, and
    the two actors, by identity prefix or by type.  No subject has two links. *)
Theorem index_links `{SigningKeyProvider P} `{Ed25519} (keys : P) contracts identities
    utt_id at_ clock s p s' :
  history_wf s → transactions s !! utt_id = None →
  index_utt keys contracts identities utt_id at_ clock s = (Ok p, s') →
  ∃ signed origin ls,
    utts contracts !! strip utt_id = Some signed ∧
    (∃ v, verify_artifact keys signed (Some UTT) false = Ok v ∧ valid v = true) ∧
    get (payload signed) "origin" = Some (PDict origin) ∧
    transactions s' !! utt_id = Some p ∧ links_by_utt s' !! utt_id = Some ls ∧
    get (protected signed) "payload_sha256" = Some (PStr (tp_payload_sha256 p)) ∧
    get (payload signed) "amount_minor" = Some (tp_amount_minor p) ∧
    get (payload signed) "accepted_at" = Some (PInt (epoch (tp_accepted_at p))) ∧
    (∀ sub role, in_links ls sub role ↔ named (payload signed) origin sub role) ∧
    NoDup (ln_subject <$> ls).
Proof.
  intros Hwf Hnew Hrun. unfold index_utt, mbind, M_bind, lift in Hrun.
  destruct (read_utt _ _ _ _ _ _) as [[q ls]|x] eqn:Hread; [|done].
  apply read_utt_ok in Hread as (signed & now & origin & d & Hutt & Hv & _ & Horigin & Hid & Hhash &
    Hamount & Hacc & _ & _ & Hn). cbv beta iota in Hrun.
  subst utt_id. destruct (commit_history_new _ _ _ _ _ Hnew Hrun) as (-> & Ht & Hl & Hnd).
  exists signed, origin, ls. repeat (split; [done|]). done.
Qed.

Lemma index_links_witness :
  ∃ signed origin ls,
    utts both_contracts !! strip utt1 = Some signed ∧
    (∃ v, verify_artifact demo_keys signed (Some UTT) false = Ok v ∧ valid v = true) ∧
    get (payload signed) "origin" = Some (PDict origin) ∧
    transactions indexed1 !! utt1 = Some read1.1 ∧
    links_by_utt indexed1 !! utt1 = Some ls ∧
    get (protected signed) "payload_sha256" = Some (PStr (tp_payload_sha256 read1.1)) ∧
    get (payload signed) "amount_minor" = Some (tp_amount_minor read1.1) ∧
    get (payload signed) "accepted_at" = Some (PInt (epoch (tp_accepted_at read1.1))) ∧
    (∀ sub role, in_links ls sub role ↔ named (payload signed) origin sub role) ∧
    NoDup (ln_subject <$> ls).
Proof.
  exact (index_links demo_keys both_contracts people utt1 (Some (Aware (seconds 300))) 0 no_history
    read1.1 indexed1 (proj1 no_history_wf) (lookup_empty utt1) indexed1_run).
Defined.

(** An identifier is indexed as the caller spelled it.  The indexer reads the
    UTT under the stripped identifier but files the projection under the raw one:
    given one with a leading blank, it commits a projection that no query by UTT
    ever answers, whose subjects' listings show it, and whose cursor the listing
    hands out and then refuses. *)
Theorem indexed_as_spelled `{SigningKeyProvider P} `{Ed25519} (keys : P) contracts identities
    utt_id at_ clock s p s' :
  history_wf s → strip utt_id ≠ utt_id → startswith utt_id "UTT-" = false →
  transactions s !! utt_id = None →
  index_utt keys contracts identities utt_id at_ clock s = (Ok p, s') →
  transactions s' !! utt_id = Some p ∧
  (∀ text access at' clock' uuid e s'',
     get_by_utt text access at' clock' uuid s' = (Ok e, s'') → en_transaction e ≠ p) ∧
  (∃ sub rows, list_for_subject s' sub = Ok rows ∧ p ∈ rows.*1) ∧
  decode_cursor (encode_cursor p) = Err invalid_cursor.
Proof.
  intros Hwf Hstrip Hpre Hnew Hrun. unfold index_utt, mbind, M_bind, lift in Hrun.
  destruct (read_utt _ _ _ _ _ _) as [[q ls]|x] eqn:Hread; [|done]. cbv beta iota in Hrun.
  assert (representable (epoch (tp_accepted_at q)) ∧ tp_utt_id q = utt_id) as [Hrep Hid].
  { split; [by eapply read_utt_representable|].
    by apply read_utt_ok in Hread as (? & ? & ? & ? & _ & _ & _ & _ & ? & _). }
  subst utt_id. pose proof (commit_history_wf _ _ _ _ _ Hrun Hwf) as Hwf'.
  destruct (commit_history_new _ _ _ _ _ Hnew Hrun) as (-> & Ht & Hl & _).
  split; [done|]. split; [|split; [|by apply foreign_cursor]].
  - intros text access at' clock' uuid e s'' Hget Heq. apply get_ok in Hget.
    apply (hw_id _ Hwf') in Hget. rewrite Heq in Hget. apply Hstrip. rewrite Hget. apply strip_idemp.
  - destruct (hw_links _ Hwf' _ _ Hl) as (Hne & _). destruct ls as [|l ls]; [done|].
    destruct (list_for_subject_spec s' (ln_subject l) Hwf') as (rows & Hrows & Hin & _).
    exists (ln_subject l), rows. split; [done|]. apply list_elem_of_fmap. exists (q, l).
    split; [done|]. apply Hin. split; [done|]. split; [done|]. exists (l :: ls).
    split; [done|constructor].
Qed.

Lemma spelled_facts : strip blank_utt1 ≠ blank_utt1 ∧ startswith blank_utt1 "UTT-" = false.
Proof. split; [apply String.eqb_neq|]; vm_compute; reflexivity. Qed.

Lemma indexed_as_spelled_witness :
  transactions indexed3 !! blank_utt1 = Some read3.1 ∧
  (∀ text access at' clock' uuid e s'',
     get_by_utt text access at' clock' uuid indexed3 = (Ok e, s'') → en_transaction e ≠ read3.1) ∧
  (∃ sub rows, list_for_subject indexed3 sub = Ok rows ∧ read3.1 ∈ rows.*1) ∧
  decode_cursor (encode_cursor read3.1) = Err invalid_cursor.
Proof.
  exact (indexed_as_spelled demo_keys both_contracts people blank_utt1 (Some (Aware (seconds 302))) 0
    no_history read3.1 indexed3 (proj1 no_history_wf) (proj1 spelled_facts) (proj2 spelled_facts)
    (lookup_empty blank_utt1) indexed3_run).
Defined.
