(* ===== verification/Notifications.v ===== *)
(** [railone_notifications]: settlement evidence, the two SMS notifications of
    a settled transaction, and the relay that hands each of them to the SMS
    gateway at most once. *)

From Stdlib Require Import Ascii String.
From S2P Require Import Prelude.
From S2P Require Import PyBase.
From S2P Require Import PyDict.
From S2P Require Import Bytes.
From S2P Require Import Sha256.
From S2P Require Import CanonicalJson.
From S2P Require Import Keys.
From S2P Require Import Signatures.
From S2P Require Import Contracts.
From S2P Require Import ExecutionStore.
From S2P Require Import OperationsStore.
From S2P Require Import PyText.

(** ** [models.py] *)
Inductive NotificationRecipientRole := ROLE_SENDER | ROLE_RECEIVER.
Inductive SmsDeliveryState := SMS_PREPARED | SMS_DISPATCHING | SMS_SENT | SMS_REJECTED | SMS_UNKNOWN.
#[global] Instance NotificationRecipientRole_eq_dec : EqDecision NotificationRecipientRole.
Proof. solve_decision. Defined.
#[global] Instance SmsDeliveryState_eq_dec : EqDecision SmsDeliveryState.
Proof. solve_decision. Defined.

Definition NotificationRecipientRole_value (r : NotificationRecipientRole) : string :=
  match r with ROLE_SENDER => "SENDER" | ROLE_RECEIVER => "RECEIVER" end.

Record SettlementEvidenceRecord := {
  se_evidence_id : string;
  se_utt_id : string;
  se_provider_id : string;
  se_provider_transaction_id : string;
  se_callback_event_id : string;
  se_signed_evidence : SignatureEnvelope;
  se_settled_at : instant;
}.

Record SmsNotificationRecord := {
  sms_notification_id : string;
  sms_evidence_id : string;
  sms_utt_id : string;
  sms_recipient_role : NotificationRecipientRole;
  sms_contact_binding_id : string;
  sms_template_version : string;
  sms_rendered_body : string;
  sms_body_sha256 : string;
  sms_state : SmsDeliveryState;
  sms_gateway_reference : option string;
  sms_normalized_code : option string;
  sms_version : Z;
  sms_created_at : instant;
  sms_updated_at : instant;
}.

(** [replace(record, state=..., normalized_code=..., gateway_reference=...,
    version=record.version + 1, updated_at=...)] *)
Definition replace_sms (r : SmsNotificationRecord) (state : SmsDeliveryState)
    (code reference : option string) (at_ : instant) : SmsNotificationRecord :=
  {| sms_notification_id := sms_notification_id r; sms_evidence_id := sms_evidence_id r;
     sms_utt_id := sms_utt_id r; sms_recipient_role := sms_recipient_role r;
     sms_contact_binding_id := sms_contact_binding_id r;
     sms_template_version := sms_template_version r;
     sms_rendered_body := sms_rendered_body r; sms_body_sha256 := sms_body_sha256 r;
     sms_state := state; sms_gateway_reference := reference; sms_normalized_code := code;
     sms_version := sms_version r + 1; sms_created_at := sms_created_at r;
     sms_updated_at := at_ |}.

Record SettlementNotificationResult := SettlementResult {
  sr_evidence : SettlementEvidenceRecord;
  sr_notifications : SmsNotificationRecord * SmsNotificationRecord;
  sr_replayed : bool;
}.

Record SmsGatewayResult := GatewayResult {
  gw_accepted : bool;
  gw_code : string;
  gw_reference : option string;
}.

(** ** [InMemorySettlementNotificationStore] *)
Record SettlementStore := Settlements {
  evidence_by_utt : dict string SettlementEvidenceRecord;
  sms_notifications : dict string SmsNotificationRecord;
}.
Implicit Types (s : SettlementStore).

Definition no_settlements : SettlementStore := Settlements [] [].

Definition put_sms (n : SmsNotificationRecord) s : SettlementStore :=
  Settlements (evidence_by_utt s) (dset (sms_notifications s) (sms_notification_id n) n).
Definition put_evidence (e : SettlementEvidenceRecord) s : SettlementStore :=
  Settlements (dset (evidence_by_utt s) (se_utt_id e) e) (sms_notifications s).

(** [self._notifications[item.notification_id]] *)
Definition stored_sms s (n : SmsNotificationRecord) : res SmsNotificationRecord :=
  require (dget (sms_notifications s) (sms_notification_id n)) KeyError (sms_notification_id n).

Definition commit_settlement (evidence : SettlementEvidenceRecord)
    (first second : SmsNotificationRecord)
    : M SettlementStore (SettlementEvidenceRecord
                         * (SmsNotificationRecord * SmsNotificationRecord) * bool) :=
  s ← getS;
  match dget (evidence_by_utt s) (se_utt_id evidence) with
  | Some existing =>
      _ ← raise_if (negb (String.eqb (se_evidence_id existing) (se_evidence_id evidence)))
            SettlementConflictError "UTT received conflicting settlement evidence";
      row1 ← lift (stored_sms s first);
      row2 ← lift (stored_sms s second);
      mret (existing, (row1, row2), true)
  | None =>
      _ ← raise_if (bool_decide (sms_recipient_role first = sms_recipient_role second))
            ValueError "settlement requires sender and receiver notifications";
      _ ← raise_if (dmem (sms_notifications s) (sms_notification_id first))
            SettlementConflictError "notification identifier collision";
      _ ← raise_if (dmem (sms_notifications s) (sms_notification_id second))
            SettlementConflictError "notification identifier collision";
      _ ← modifyS (put_evidence evidence);
      _ ← modifyS (put_sms first);
      _ ← modifyS (put_sms second);
      mret (evidence, (first, second), false)
  end.

Definition require_notification s (id : string) : res SmsNotificationRecord :=
  require (dget (sms_notifications s) id) LookupError "SMS notification not found".

Definition transition_notification (previous_version : Z) (n : SmsNotificationRecord)
    : M SettlementStore unit :=
  s ← getS;
  current ← require (dget (sms_notifications s) (sms_notification_id n)) LookupError
              "SMS notification not found";
  _ ← raise_if (negb (sms_version current =? previous_version)) RuntimeError
        "SMS notification changed concurrently";
  _ ← raise_if (negb (sms_version n =? previous_version + 1)) ValueError
        "SMS notification version must advance exactly once";
  modifyS (put_sms n).

(** [limit] is an [int] or a [bool]. *)
Definition open_sms (n : SmsNotificationRecord) : bool :=
  bool_decide (sms_state n = SMS_PREPARED) || bool_decide (sms_state n = SMS_DISPATCHING).
Definition sms_key (n : SmsNotificationRecord) : instant * string :=
  (sms_created_at n, sms_notification_id n).
Definition pending_notifications s (limit : pyval) : res (list SmsNotificationRecord) :=
  n ← bounded_int 1 1000 "notification limit is outside policy" limit;
  mret (take (Z.to_nat n)
          (sort_on sms_key (lex_le Z.le)
             (filter (λ x, open_sms x = true) (dvalues (sms_notifications s))))).

(** ** Rendering *)

(** [f"{n:,}"]: groups of three digits. *)
Fixpoint group_digits (s : string) : string :=
  match s with
  | EmptyString => EmptyString
  | String c s' =>
      String c (if (String.length s' mod 3 =? 0)%nat && negb (str_empty s')
                then String "," (group_digits s') else group_digits s')
  end.
Definition with_commas (n : Z) : string :=
  (if n <? 0 then "-" else EmptyString) +:+ group_digits (str_int (Z.abs n)).

(** [f"{n:02d}"] for [0 <= n < 100] *)
Definition two_digits (n : Z) : string :=
  if n <? 10 then "0" +:+ str_int n else str_int n.

(** [_money]; [divmod] rounds toward minus infinity. *)
Definition money (amount_minor : Z) (currency : string) : string :=
  upper currency +:+ " " +:+ with_commas (amount_minor / 100) +:+ "."
  +:+ two_digits (amount_minor mod 100).

(** [_short_utt] *)
Definition short_utt (utt_id : string) : string :=
  if 10 <? char_len utt_id then char_take 10 utt_id else utt_id.

(** The month and the day of the month, from days since 1 January 1970 in the
    proleptic Gregorian calendar (years counted from 1 March). *)
Definition month_day (days : Z) : Z * Z :=
  let doe := (days + 719468) mod 146097 in
  let yoe := (doe - doe / 1460 + doe / 36524 - doe / 146096) / 365 in
  let doy := doe - (365 * yoe + yoe / 4 - yoe / 100) in
  let mp := (5 * doy + 2) / 153 in
  (if mp <? 10 then mp + 3 else mp - 9, doy - (153 * mp + 2) / 5 + 1).

Definition month_name (m : Z) : string :=
  match m with
  | 1 => "Jan" | 2 => "Feb" | 3 => "Mar" | 4 => "Apr" | 5 => "May" | 6 => "Jun"
  | 7 => "Jul" | 8 => "Aug" | 9 => "Sep" | 10 => "Oct" | 11 => "Nov" | _ => "Dec"
  end.

(** [f"{t:%d %b %H:%M}"] in the C locale. *)
Definition format_time (t : instant) : string :=
  let secs := t / 1000000 in
  let '(m, d) := month_day (secs / 86400) in
  two_digits d +:+ " " +:+ month_name m +:+ " " +:+ two_digits (secs mod 86400 / 3600)
  +:+ ":" +:+ two_digits (secs mod 3600 / 60).

(** ** [SettlementNotificationService] *)
Definition TEMPLATE_VERSION : string := "settled-sms-v1".

(** [_content_id] *)
Definition settlement_id (prefix : string) (material : pyval) : res string :=
  b ← canonical_json_bytes material;
  mret (prefix +:+ "-" +:+ str_take 32 (upper (sha256_hex b))).

(** [_notification] *)
Definition notification_id (evidence_id : string) (role : NotificationRecipientRole) : res string :=
  settlement_id "SMS" (pdict [
    ("evidence_id", PStr evidence_id);
    ("recipient_role", PStr (NotificationRecipientRole_value role));
    ("channel", PStr "SMS"); ("template_version", PStr TEMPLATE_VERSION)]).

Definition new_notification (e : SettlementEvidenceRecord) (role : NotificationRecipientRole)
    (contact body : string) (at_ : instant) : res SmsNotificationRecord :=
  _ ← raise_if (320 <? char_len body) ValueError "rendered settlement SMS exceeds two segments";
  b ← utf8_encode body;
  id ← notification_id (se_evidence_id e) role;
  mret {| sms_notification_id := id; sms_evidence_id := se_evidence_id e;
          sms_utt_id := se_utt_id e; sms_recipient_role := role;
          sms_contact_binding_id := contact; sms_template_version := TEMPLATE_VERSION;
          sms_rendered_body := body; sms_body_sha256 := sha256_hex b;
          sms_state := SMS_PREPARED; sms_gateway_reference := None;
          sms_normalized_code := None; sms_version := 1;
          sms_created_at := at_; sms_updated_at := at_ |}.

(** [_notifications]: the texts for both parties. *)
Definition rendered (offset : Z) (label : string) (utt_id : string) (utt : mapping) (at_ : instant)
    : res (string * string) :=
  local ← plus_seconds at_ (60 * offset);
  let when := format_time local +:+ " " +:+ label in
  payer ← sub_mapping utt "payer";
  beneficiary ← sub_mapping utt "beneficiary";
  amount ← int_item utt "amount_minor"; from ← str_item utt "currency_from";
  name ← str_item beneficiary "display_name";
  ep ← sub_mapping beneficiary "endpoint";
  institution ← str_item ep "institution_display_name";
  fee ← int_item utt "total_fee_minor";
  let sender := "RailOne: SETTLED. " +:+ money amount from +:+ " sent to " +:+ name
    +:+ " via " +:+ institution +:+ " on " +:+ when +:+ ". Ref " +:+ short_utt utt_id
    +:+ ". Fee " +:+ money fee from +:+ "." in
  received ← int_item utt "receive_amount_minor"; to ← str_item utt "currency_to";
  payer_name ← str_item payer "display_name";
  hint ← str_item ep "display_hint";
  mret (sender, "RailOne: SETTLED. You received " +:+ money received to +:+ " from "
    +:+ payer_name +:+ " into " +:+ institution +:+ " " +:+ hint +:+ " on " +:+ when
    +:+ ". Ref " +:+ short_utt utt_id +:+ ".").

Definition contact_of (utt : mapping) (party : string) : res string :=
  actor ← sub_mapping utt party;
  ep ← sub_mapping actor "endpoint";
  str_item ep "contact_binding_id".

Definition build_notifications (offset : Z) (label : string) (e : SettlementEvidenceRecord)
    (utt : mapping) (at_ : instant) : res (SmsNotificationRecord * SmsNotificationRecord) :=
  '(sender_body, receiver_body) ← rendered offset label (se_utt_id e) utt at_;
  payer_contact ← contact_of utt "payer";
  first ← new_notification e ROLE_SENDER payer_contact sender_body at_;
  beneficiary_contact ← contact_of utt "beneficiary";
  second ← new_notification e ROLE_RECEIVER beneficiary_contact receiver_body at_;
  mret (first, second).

Section service.
Context {P : Type} `{!SigningKeyProvider P} `{Ed25519}.

Record SettlementEnv := {
  st_keys : P;
  st_contracts : ContractStore;
  st_key_id : string;
  st_offset_minutes : Z;
  st_timezone_label : string;
  (** the instant of a naive [datetime] in the process's time zone *)
  st_local_time : Z → instant;
}.
Implicit Types (env : SettlementEnv).

(** [(at or datetime.now(timezone.utc)).astimezone(timezone.utc)] *)
Definition to_utc (local : Z → instant) (value : datetime) : instant :=
  match value with Aware us => us | Naive us => local us end.

(** The guards of [confirm_provider_settlement]: the verified UTT and the
    attempt that succeeded. *)
Definition settled_attempt env (executions : ExecutionStore) (utt_id : string)
    : res (SignatureEnvelope * RttAttemptRecord) :=
  signed_utt ← require_utt (st_contracts env) utt_id;
  verification ← verify_artifact (st_keys env) signed_utt (Some UTT) false;
  _ ← raise_if (negb (valid verification)) PermissionError "settlement cannot bind an invalid UTT";
  plan ← require_plan_for_utt executions utt_id;
  match plan_status plan, previous_rtt_id plan with
  | PLAN_FINALIZED, Some rtt =>
      attempt ← require_attempt executions rtt;
      _ ← raise_if (negb (bool_decide (rtt_state attempt = RTT_SUCCEEDED))) PermissionError
            "settlement notification requires a successful RTT";
      mret (signed_utt, attempt)
  | _, _ => raise PermissionError "settlement notification requires a finalized plan"
  end.

(** The evidence that the settlement of the attempt is bound to. *)
Definition evidence_identity (utt_id : string) (hash : pyval) (provider transaction callback : string)
    : list (string * pyval) :=
  [("utt_id", PStr utt_id); ("utt_payload_sha256", hash); ("provider_id", PStr provider);
   ("provider_transaction_id", PStr transaction); ("callback_event_id", PStr callback)].

Definition build_evidence env (signed_utt : SignatureEnvelope) (attempt : RttAttemptRecord)
    (utt_id provider transaction callback : string) (at_ : instant)
    : res SettlementEvidenceRecord :=
  hash ← item (protected signed_utt) "payload_sha256";
  let identity := evidence_identity utt_id hash provider transaction callback in
  id ← settlement_id "SET" (pdict identity);
  let utt := payload signed_utt in
  amount ← item utt "amount_minor"; from ← item utt "currency_from";
  received ← item utt "receive_amount_minor"; to ← item utt "currency_to";
  signed ← sign_artifact (st_keys env) SETTLEMENT_EVIDENCE
    (fields ([("evidence_id", PStr id)] ++ identity ++
       [("rtt_id", PStr (rtt_id attempt)); ("amount_minor", amount); ("currency_from", from);
        ("receive_amount_minor", received); ("currency_to", to);
        ("settled_at", PInt (epoch at_));
        ("evidence_kind", PStr "PROVIDER_CALLBACK_CORRELATED")]))
    (st_key_id env) at_;
  mret {| se_evidence_id := id; se_utt_id := utt_id; se_provider_id := provider;
          se_provider_transaction_id := transaction; se_callback_event_id := callback;
          se_signed_evidence := signed; se_settled_at := at_ |}.

(** What [confirm_provider_settlement] offers to the store. *)
Definition settlement_offer env (executions : ExecutionStore)
    (utt_id provider transaction callback : string) (at_ : instant)
    : res (SettlementEvidenceRecord * (SmsNotificationRecord * SmsNotificationRecord)) :=
  '(signed_utt, attempt) ← settled_attempt env executions utt_id;
  let transaction_id := strip transaction in
  let callback_id := strip callback in
  _ ← raise_if (str_empty transaction_id || str_empty callback_id) ValueError
        "provider settlement references are required";
  evidence ← build_evidence env signed_utt attempt utt_id provider transaction_id callback_id at_;
  ns ← build_notifications (st_offset_minutes env) (st_timezone_label env) evidence
         (payload signed_utt) at_;
  mret (evidence, ns).

Definition confirm_provider_settlement env (executions : ExecutionStore)
    (utt_id provider transaction callback : string) (at_ : option datetime) (clock : instant)
    : M SettlementStore SettlementNotificationResult :=
  let now := to_utc (st_local_time env) (or_now at_ clock) in
  '(evidence, (first, second)) ←
    lift (settlement_offer env executions utt_id provider transaction callback now);
  '(stored_evidence, stored, replayed) ← commit_settlement evidence first second;
  mret (SettlementResult stored_evidence stored replayed).
End service.
Arguments SettlementEnv : clear implicits.

(** ** [SmsOutboxRelay]

    The contact resolver and the gateway act on the outside world [W]; either
    may raise. *)
Section relay.
Context {W : Type}.

Record SmsChannel := {
  resolve_sms_destination : string → M W string;
  gateway_send : string → string → string → M W SmsGatewayResult;
}.
Implicit Types (ch : SmsChannel) (r : SmsNotificationRecord).

Definition final_sms (st : SmsDeliveryState) : bool :=
  match st with SMS_SENT | SMS_REJECTED | SMS_UNKNOWN => true | _ => false end.

(** The record as [deliver] claims it, and as [_finish] leaves it. *)
Definition claimed r (at_ : instant) : SmsNotificationRecord :=
  replace_sms r SMS_DISPATCHING (sms_normalized_code r) (sms_gateway_reference r) at_.
Definition finished r (state : SmsDeliveryState) (code : string) (reference : option string)
    (at_ : instant) : SmsNotificationRecord :=
  replace_sms r state (Some (upper code)) reference at_.

Definition finish r (state : SmsDeliveryState) (code : string) (reference : option string)
    (at_ : instant) : M SettlementStore SmsNotificationRecord :=
  let updated := finished r state code reference at_ in
  _ ← transition_notification (sms_version r) updated;
  mret updated.

(** The state, code and reference of an outcome; [except Exception] catches
    every failure of the channel. *)
Definition sms_verdict (outcome : res SmsGatewayResult)
    : SmsDeliveryState * string * option string :=
  match outcome with
  | Err _ => (SMS_UNKNOWN, "SMS_GATEWAY_OUTCOME_UNKNOWN", None)
  | Ok g => (if gw_accepted g then SMS_SENT else SMS_REJECTED, gw_code g, gw_reference g)
  end.

(** The body of the [try]. *)
Definition call_gateway ch r : M W SmsGatewayResult :=
  destination ← resolve_sms_destination ch (sms_contact_binding_id r);
  gateway_send ch (sms_notification_id r) destination (sms_rendered_body r).

Definition deliver (notification_id : string) ch (local : Z → instant)
    (at_ : option datetime) (clock : instant) : M (SettlementStore * W) SmsNotificationRecord :=
  let now := to_utc local (or_now at_ clock) in
  sw ← getS;
  record ← lift (require_notification sw.1 notification_id);
  if final_sms (sms_state record) then mret record
  else if bool_decide (sms_state record = SMS_DISPATCHING) then
    on_fst (finish record SMS_UNKNOWN "NON_IDEMPOTENT_SMS_RECOVERY_BLOCKED" None now)
  else
    let dispatching := claimed record now in
    _ ← on_fst (transition_notification (sms_version record) dispatching);
    result ← on_snd (outcome (call_gateway ch dispatching));
    let '(state, code, reference) := sms_verdict result in
    on_fst (finish dispatching state code reference now).
End relay.
Arguments SmsChannel : clear implicits.
