(* ===== verification/NotificationFacts.v ===== *)
(** Settlement notifications as a protocol of concurrent workers: settlements
    are confirmed, any number of workers run the parts of [deliver] and may
    crash between any two of them.  The invariant of every reachable
    configuration. *)

From Stdlib Require Import Ascii String.
From S2P Require Import Prelude.
From S2P Require Import PyBase.
From S2P Require Import PyDict.
From S2P Require Import Bytes.
From S2P Require Import Sha256.
From S2P Require Import CanonicalJson.
From S2P Require Import CanonicalFacts.
From S2P Require Import Keys.
From S2P Require Import Signatures.
From S2P Require Import ContractModels.
From S2P Require Import Contracts.
From S2P Require Import ExecutionStore.
From S2P Require Import PyText.
From S2P Require Import Notifications.

Implicit Types (s : SettlementStore) (r n : SmsNotificationRecord).

(** ** One notification *)
Definition sms_at s (id : string) : option SmsNotificationRecord := dget (sms_notifications s) id.
Arguments sms_at : simpl never.

(** What no delivery changes. *)
Definition sms_content r :=
  (sms_notification_id r, sms_evidence_id r, sms_utt_id r, sms_recipient_role r,
   sms_contact_binding_id r, sms_template_version r, sms_rendered_body r, sms_body_sha256 r,
   sms_created_at r).

(** Only a prepared notification is at its first version. *)
Definition sms_ok r : Prop := 1 <= sms_version r ∧ (sms_version r = 1 ↔ sms_state r = SMS_PREPARED).
Definition fresh_sms n : Prop := sms_version n = 1 ∧ sms_state n = SMS_PREPARED.

(** [r'] is [r] or a later version of it. *)
Definition sms_le r r' : Prop :=
  sms_content r' = sms_content r ∧ sms_version r <= sms_version r' ∧
  (sms_version r' = sms_version r → r' = r).
#[global] Instance sms_le_po : PreOrder sms_le.
Proof.
  split; [by intros r; repeat split|].
  intros r1 r2 r3 (Hc & Hv & He) (Hc' & Hv' & He'). repeat split; [congruence|lia|].
  intros Heq. rewrite He' by lia. apply He. lia.
Qed.

Lemma replace_sms_next r st code ref t :
  sms_ok r → st ≠ SMS_PREPARED →
  sms_ok (replace_sms r st code ref t) ∧ sms_le r (replace_sms r st code ref t).
Proof.
  intros [Hv _] Hst. unfold sms_ok, sms_le. cbn [sms_version sms_state replace_sms].
  split; [split; [lia|split; [lia|by intros ->]]|]. split; [done|split; lia].
Qed.

(** ** The store *)

(** The two notifications of one evidence have the same (hashed) identifier. *)
Definition ids_collide (evidence_id : string) : Prop :=
  notification_id evidence_id ROLE_SENDER = notification_id evidence_id ROLE_RECEIVER.

Record settlements_ok s : Prop := {
  so_key : ∀ k r, sms_at s k = Some r → sms_notification_id r = k;
  so_version : ∀ k r, sms_at s k = Some r → sms_ok r;
  (** the evidence of a transaction has both its notifications *)
  so_evidence : ∀ utt e, dget (evidence_by_utt s) utt = Some e → se_utt_id e = utt ∧
    ∀ role, ∃ id r, notification_id (se_evidence_id e) role = Ok id ∧ sms_at s id = Some r ∧
      sms_evidence_id r = se_evidence_id e ∧ sms_utt_id r = utt ∧
      (sms_recipient_role r = role ∨ ids_collide (se_evidence_id e));
}.

(** Evidence is final and notifications only advance. *)
Definition settlements_le s s' : Prop :=
  (∀ utt e, dget (evidence_by_utt s) utt = Some e → dget (evidence_by_utt s') utt = Some e) ∧
  ∀ k r, sms_at s k = Some r → ∃ r', sms_at s' k = Some r' ∧ sms_le r r'.
#[global] Instance settlements_le_po : PreOrder settlements_le.
Proof.
  split; [intros s; split; [done|]; intros k r; by exists r|].
  intros s1 s2 s3 [He Hn] [He' Hn']. split; [by auto|].
  intros k r Hk. destruct (Hn k r Hk) as (r' & Hk' & Hle).
  destruct (Hn' k r' Hk') as (r'' & Hk'' & Hle'). exists r''. split; [done|]. by etrans.
Qed.

Lemma no_settlements_ok : settlements_ok no_settlements.
Proof. by split. Qed.

Lemma sms_at_put n s k :
  sms_at (put_sms n s) k = if decide (sms_notification_id n = k) then Some n else sms_at s k.
Proof. unfold sms_at, put_sms. cbn. apply dget_dset. Qed.

(** A later version replaces its predecessor. *)
Lemma put_next s r r' :
  settlements_ok s → sms_at s (sms_notification_id r) = Some r → sms_ok r' → sms_le r r' →
  settlements_ok (put_sms r' s) ∧ settlements_le s (put_sms r' s).
Proof.
  intros [Hk Hv He] Hr Hok Hle. pose proof Hle as (Hc & _).
  injection Hc as Hid Hev Hutt Hrole _ _ _ _ _. split; [split|split; [done|]].
  - intros k x. rewrite sms_at_put. case_decide; [by intros [= <-]|apply Hk].
  - intros k x. rewrite sms_at_put. case_decide; [by intros [= <-]|apply Hv].
  - intros utt e Hget. destruct (He utt e Hget) as [Hu Hroles]. split; [done|].
    intros role. destruct (Hroles role) as (id & x & Hn & Hx & H1 & H2 & H3).
    exists id. rewrite sms_at_put. case_decide as Hd; [|by exists x].
    exists r'. rewrite Hid in Hd. subst id. rewrite Hr in Hx. injection Hx as <-.
    by rewrite Hev, Hutt, Hrole.
  - intros k x Hx. rewrite sms_at_put. case_decide as Hd; [|by exists x].
    exists r'. rewrite Hid in Hd. subst k. rewrite Hr in Hx. by injection Hx as <-.
Qed.

Lemma transition_notification_cases v n s x s' :
  transition_notification v n s = (x, s') →
  (s' = s ∧ ∃ e, x = Err e) ∨
  (x = Ok tt ∧ s' = put_sms n s ∧ sms_version n = v + 1 ∧
   ∃ cur, sms_at s (sms_notification_id n) = Some cur ∧ sms_version cur = v).
Proof.
  unfold transition_notification, getS, sms_at. unfold mbind at 1, M_bind at 1.
  destruct (dget (sms_notifications s) (sms_notification_id n)) as [cur|];
    [|intros [= <- <-]; left; eauto].
  unfold require, mbind, M_bind, mret, M_ret, raise_if.
  destruct (Z.eqb_spec (sms_version cur) v) as [Hv|]; [|intros [= <- <-]; left; eauto].
  destruct (Z.eqb_spec (sms_version n) (v + 1)) as [Hn|]; [|intros [= <- <-]; left; eauto].
  intros [= <- <-]. right. eauto 10.
Qed.

Lemma commit_settlement_cases e n1 n2 s x s' :
  commit_settlement e n1 n2 s = (x, s') →
  (s' = s ∧ match dget (evidence_by_utt s) (se_utt_id e) with
            | None => ∃ err, x = Err err
            | Some e0 =>
                (se_evidence_id e0 = se_evidence_id e ∧
                 ∀ r1 r2, sms_at s (sms_notification_id n1) = Some r1 →
                   sms_at s (sms_notification_id n2) = Some r2 → x = Ok (e0, (r1, r2), true)) ∨
                (se_evidence_id e0 ≠ se_evidence_id e ∧
                 x = Err (Exn SettlementConflictError "UTT received conflicting settlement evidence"))
            end) ∨
  (x = Ok (e, (n1, n2), false) ∧ dget (evidence_by_utt s) (se_utt_id e) = None ∧
   sms_recipient_role n1 ≠ sms_recipient_role n2 ∧
   sms_at s (sms_notification_id n1) = None ∧ sms_at s (sms_notification_id n2) = None ∧
   s' = put_sms n2 (put_sms n1 (put_evidence e s))).
Proof.
  unfold commit_settlement, getS, sms_at, stored_sms. unfold mbind at 1, M_bind at 1.
  destruct (dget (evidence_by_utt s) (se_utt_id e)) as [e0|].
  - destruct (String.eqb_spec (se_evidence_id e0) (se_evidence_id e)) as [Heq|Hne].
    + unfold mbind, M_bind, lift, require. cbn.
      destruct (dget _ (sms_notification_id n1)) as [r1|], (dget _ (sms_notification_id n2)) as [r2|];
        cbn; intros [= <- <-]; left; (split; [done|]); left; (split; [done|]); naive_solver.
    + cbn. intros [= <- <-]. left. split; [done|]. by right.
  - unfold dmem. case_bool_decide as Hrole; [cbn; intros [= <- <-]; left; eauto|].
    destruct (dget _ (sms_notification_id n1)) as [r1|] eqn:H1;
      [cbn; intros [= <- <-]; left; eauto|].
    destruct (dget _ (sms_notification_id n2)) as [r2|] eqn:H2;
      [cbn; intros [= <- <-]; left; eauto|].
    cbn. intros [= <- <-]. right. done.
Qed.

(** The notification of [e] for [role]. *)
Definition belongs (e : SettlementEvidenceRecord) n (role : NotificationRecipientRole) : Prop :=
  notification_id (se_evidence_id e) role = Ok (sms_notification_id n) ∧
  sms_evidence_id n = se_evidence_id e ∧ sms_utt_id n = se_utt_id e ∧ sms_recipient_role n = role.

(** Two fresh notifications and their evidence. *)
Lemma put_settlement s e n1 n2 :
  settlements_ok s → fresh_sms n1 → fresh_sms n2 →
  dget (evidence_by_utt s) (se_utt_id e) = None →
  sms_at s (sms_notification_id n1) = None → sms_at s (sms_notification_id n2) = None →
  belongs e n1 ROLE_SENDER → belongs e n2 ROLE_RECEIVER →
  settlements_ok (put_sms n2 (put_sms n1 (put_evidence e s))) ∧
  settlements_le s (put_sms n2 (put_sms n1 (put_evidence e s))).
Proof.
  intros [Hk Hv He] [Hv1 Hs1] [Hv2 Hs2] Hnone H1 H2 (Hid1 & Hev1 & Hutt1 & Hr1) (Hid2 & Hev2 & Hutt2 & Hr2).
  assert (∀ k, sms_at (put_sms n2 (put_sms n1 (put_evidence e s))) k =
    if decide (sms_notification_id n2 = k) then Some n2
    else if decide (sms_notification_id n1 = k) then Some n1 else sms_at s k) as Hat
    by (intros k; by rewrite !sms_at_put).
  assert (∀ k r, sms_at s k = Some r → sms_at (put_sms n2 (put_sms n1 (put_evidence e s))) k = Some r)
    as Hkeep by (intros k r Hr; rewrite Hat; repeat case_decide; congruence).
  split; [split|split].
  - intros k r. rewrite Hat. repeat case_decide; [by intros [= <-]..|apply Hk].
  - intros k r. rewrite Hat.
    repeat case_decide; [intros [= <-]; split; [lia|split; congruence]..|apply Hv].
  - intros utt e0 Hget. cbn in Hget. rewrite dget_dset in Hget. case_decide as Hd.
    + injection Hget as <-. split; [done|]. intros [].
      * exists (sms_notification_id n1). rewrite Hat. case_decide as Hc.
        -- exists n2. repeat split; [done..|congruence|]. right. unfold ids_collide. congruence.
        -- exists n1. rewrite decide_True by done. repeat split; [done..|congruence|by left].
      * exists (sms_notification_id n2), n2. rewrite Hat, decide_True by done.
        repeat split; [done..|congruence|by left].
    + destruct (He utt e0 Hget) as [Hu Hr]. split; [done|]. intros role.
      destruct (Hr role) as (id & r & ? & ? & ?). exists id, r. split; [done|]. split; [by apply Hkeep|done].
  - intros utt e0 Hget. cbn. rewrite dget_dset. case_decide; congruence.
  - intros k r Hr. exists r. split; [by apply Hkeep|done].
Qed.

(** ** What a settlement offers *)
Lemma new_notification_ok e role contact body t n :
  new_notification e role contact body t = Ok n →
  fresh_sms n ∧ belongs e n role ∧ sms_rendered_body n = body ∧
  sms_contact_binding_id n = contact ∧ sms_body_sha256 n = sha256_hex (encode_utf8 body) ∧
  char_len body <= 320.
Proof.
  unfold new_notification. intros Hn. inv_ok Hn. guards.
  match goal with H : utf8_encode _ = Ok _ |- _ => apply utf8_encode_ok in H as [_ ->] end.
  done.
Qed.

Lemma build_notifications_ok offset label e utt t n1 n2 :
  build_notifications offset label e utt t = Ok (n1, n2) →
  fresh_sms n1 ∧ fresh_sms n2 ∧ belongs e n1 ROLE_SENDER ∧ belongs e n2 ROLE_RECEIVER ∧
  rendered offset label (se_utt_id e) utt t = Ok (sms_rendered_body n1, sms_rendered_body n2) ∧
  contact_of utt "payer" = Ok (sms_contact_binding_id n1) ∧
  contact_of utt "beneficiary" = Ok (sms_contact_binding_id n2).
Proof.
  unfold build_notifications. intros Hn. inv_ok Hn.
  match goal with v : string * string |- _ => destruct v as [b1 b2] end. inv_ok Hn. simplify_eq.
  repeat match goal with H : new_notification _ _ _ _ _ = Ok _ |- _ =>
    apply new_notification_ok in H as (? & ? & <- & <- & _) end.
  done.
Qed.

Section protocol.
Context {P : Type} `{!SigningKeyProvider P} `{Ed25519}.
Implicit Types (env : SettlementEnv P) (ex : ExecutionStore).

Lemma build_evidence_ok env signed_utt attempt utt_id provider tx cb t e :
  build_evidence env signed_utt attempt utt_id provider tx cb t = Ok e →
  se_utt_id e = utt_id ∧ se_provider_id e = provider ∧ se_provider_transaction_id e = tx ∧
  se_callback_event_id e = cb ∧
  (∃ hash, get (protected signed_utt) "payload_sha256" = Some hash ∧
     settlement_id "SET" (pdict (evidence_identity utt_id hash provider tx cb)) = Ok (se_evidence_id e)) ∧
  ∃ pay, sign_artifact (st_keys env) SETTLEMENT_EVIDENCE pay (st_key_id env) t = Ok (se_signed_evidence e) ∧
    get pay "evidence_id" = Some (PStr (se_evidence_id e)) ∧
    get pay "utt_id" = Some (PStr utt_id) ∧ get pay "rtt_id" = Some (PStr (rtt_id attempt)) ∧
    get pay "amount_minor" = get (payload signed_utt) "amount_minor" ∧
    get pay "receive_amount_minor" = get (payload signed_utt) "receive_amount_minor".
Proof.
  unfold build_evidence. intros He. inv_ok He.
  repeat match goal with H : item _ _ = Ok _ |- _ => apply item_ok in H end.
  do 4 (split; [done|]). split; [by eexists|]. eexists. split; [done|].
  cbn -[sign_artifact]. by rewrite ?decide_True by done.
Qed.

Lemma settlement_offer_ok env ex utt_id provider tx cb t e n1 n2 :
  settlement_offer env ex utt_id provider tx cb t = Ok (e, (n1, n2)) →
  fresh_sms n1 ∧ fresh_sms n2 ∧ belongs e n1 ROLE_SENDER ∧ belongs e n2 ROLE_RECEIVER ∧
  se_utt_id e = utt_id ∧
  ∃ signed_utt attempt,
    settled_attempt env ex utt_id = Ok (signed_utt, attempt) ∧
    strip tx ≠ EmptyString ∧ strip cb ≠ EmptyString ∧
    build_evidence env signed_utt attempt utt_id provider (strip tx) (strip cb) t = Ok e ∧
    build_notifications (st_offset_minutes env) (st_timezone_label env) e (payload signed_utt) t
    = Ok (n1, n2).
Proof.
  unfold settlement_offer. intros Ho. inv_ok Ho.
  match goal with v : SignatureEnvelope * RttAttemptRecord |- _ => destruct v as [su att] end.
  inv_ok Ho. simplify_eq. guards.
  match goal with H : build_notifications _ _ _ _ _ = Ok _ |- _ =>
    destruct (build_notifications_ok _ _ _ _ _ _ _ H) as (?&?&?&?&_) end.
  match goal with H : build_evidence _ _ _ _ _ _ _ _ = Ok _ |- _ =>
    destruct (build_evidence_ok _ _ _ _ _ _ _ _ _ H) as (?&_) end.
  do 5 (split; [done|]). exists su, att. repeat split; try done.
  - intros He. by rewrite He in *.
  - intros He. by rewrite He in *.
Qed.

Lemma settled_attempt_ok env ex utt_id signed_utt attempt :
  settled_attempt env ex utt_id = Ok (signed_utt, attempt) →
  require_utt (st_contracts env) utt_id = Ok signed_utt ∧
  (∃ v, verify_artifact (st_keys env) signed_utt (Some UTT) false = Ok v ∧ valid v = true) ∧
  ∃ plan rtt, require_plan_for_utt ex utt_id = Ok plan ∧ plan_status plan = PLAN_FINALIZED ∧
    previous_rtt_id plan = Some rtt ∧ require_attempt ex rtt = Ok attempt ∧
    rtt_state attempt = RTT_SUCCEEDED.
Proof.
  unfold settled_attempt. intros Hs. inv_ok Hs. guards.
  destruct (plan_status _) eqn:Hst; try by inv_ok Hs.
  destruct (previous_rtt_id _) as [rtt|] eqn:Hp; [|by inv_ok Hs]. inv_ok Hs. guards. simplify_eq.
  split; [done|]. split; [by eexists|]. by repeat eexists.
Qed.

(** ** The protocol *)
Inductive sms_worker :=
  | SRead (r : SmsNotificationRecord)
  | SClaimed (r : SmsNotificationRecord)
  | SCalled (r : SmsNotificationRecord) (o : res SmsGatewayResult).

Record sms_config := SmsConfig {
  sc_store : SettlementStore;
  sc_workers : list sms_worker;
  (** the notifications handed to the gateway so far *)
  sc_sends : list string;
}.

Inductive sms_step : sms_config → sms_config → Prop :=
  | sms_confirm env ex utt_id provider tx cb at_ clock s x s' ws l :
      confirm_provider_settlement env ex utt_id provider tx cb at_ clock s = (x, s') →
      sms_step (SmsConfig s ws l) (SmsConfig s' ws l)
  | sms_read id r s ws l :
      require_notification s id = Ok r →
      sms_step (SmsConfig s ws l) (SmsConfig s (SRead r :: ws) l)
  | sms_blocked r t s x s' ws ws' l :
      ws ≡ₚ SRead r :: ws' → sms_state r = SMS_DISPATCHING →
      finish r SMS_UNKNOWN "NON_IDEMPOTENT_SMS_RECOVERY_BLOCKED" None t s = (x, s') →
      sms_step (SmsConfig s ws l) (SmsConfig s' ws' l)
  | sms_claim r t s x s' ws ws' l :
      ws ≡ₚ SRead r :: ws' → sms_state r = SMS_PREPARED →
      transition_notification (sms_version r) (claimed r t) s = (x, s') →
      sms_step (SmsConfig s ws l)
        (SmsConfig s' (match x with Ok _ => SClaimed (claimed r t) :: ws' | Err _ => ws' end) l)
  | sms_unresolved r e s ws ws' l :
      ws ≡ₚ SClaimed r :: ws' →
      sms_step (SmsConfig s ws l) (SmsConfig s (SCalled r (Err e) :: ws') l)
  | sms_send r o s ws ws' l :
      ws ≡ₚ SClaimed r :: ws' →
      sms_step (SmsConfig s ws l)
        (SmsConfig s (SCalled r o :: ws') (l ++ [sms_notification_id r]))
  | sms_finish r o t s x s' ws ws' l :
      ws ≡ₚ SCalled r o :: ws' →
      (let '(state, code, reference) := sms_verdict o in finish r state code reference t) s = (x, s') →
      sms_step (SmsConfig s ws l) (SmsConfig s' ws' l)
  | sms_gone w s ws ws' l :
      ws ≡ₚ w :: ws' → sms_step (SmsConfig s ws l) (SmsConfig s ws' l).
End protocol.
Definition sms_idle : sms_config := SmsConfig no_settlements [] [].

(** ** The invariant *)
Definition worker_record (w : sms_worker) : SmsNotificationRecord :=
  match w with SRead r | SClaimed r | SCalled r _ => r end.

(** What a worker holds is a version that was stored; a claimed one is not the
    first. *)
Definition worker_ok s (w : sms_worker) : Prop :=
  sms_ok (worker_record w) ∧
  (∃ r', sms_at s (sms_notification_id (worker_record w)) = Some r' ∧ sms_le (worker_record w) r') ∧
  match w with SRead _ => True | SClaimed r | SCalled r _ => 2 <= sms_version r end.

(** The worker is about to hand [id] to the gateway. *)
Definition about_to_send (id : string) (w : sms_worker) : Prop :=
  match w with SClaimed r => sms_notification_id r = id | _ => False end.
#[global] Instance about_to_send_dec id w : Decision (about_to_send id w).
Proof. destruct w; cbn; apply _. Defined.

Definition sends_of (id : string) (l : list string) : nat := length (filter (λ x, x = id) l).

(** Sends made or about to be made. *)
Definition send_load (id : string) (ws : list sms_worker) (l : list string) : nat :=
  sends_of id l + length (filter (about_to_send id) ws).

Arguments send_load : simpl never.

Record config_ok (c : sms_config) : Prop := {
  co_store : settlements_ok (sc_store c);
  co_workers : Forall (worker_ok (sc_store c)) (sc_workers c);
  co_load : ∀ id, (send_load id (sc_workers c) (sc_sends c) <= 1)%nat;
  co_sent : ∀ id, send_load id (sc_workers c) (sc_sends c) ≠ 0%nat →
    ∃ r, sms_at (sc_store c) id = Some r ∧ 2 <= sms_version r;
}.

Lemma sms_idle_ok : config_ok sms_idle.
Proof.
  split; cbn [sc_store sc_workers sc_sends sms_idle]; [apply no_settlements_ok|apply Forall_nil_2|..];
    intros id; unfold send_load, sends_of; cbn; [lia|done].
Qed.

Lemma worker_ok_le s s' w : settlements_le s s' → worker_ok s w → worker_ok s' w.
Proof.
  intros [_ Hn] (Hok & (r & Hr & Hle) & Hw). split; [done|]. split; [|done].
  destruct (Hn _ _ Hr) as (r' & Hr' & Hle'). exists r'. split; [done|]. by etrans.
Qed.

(** The store advanced and no worker came nearer to a send. *)
Lemma config_ok_le s s' ws ws' l :
  settlements_ok s' → settlements_le s s' → config_ok (SmsConfig s ws l) →
  Forall (worker_ok s') ws' →
  (∀ id, (length (filter (about_to_send id) ws') <= length (filter (about_to_send id) ws))%nat) →
  config_ok (SmsConfig s' ws' l).
Proof.
  intros Hs' Hle [_ Hw Hl Hsent] Hws' Hnear. cbn in *. split; cbn; [done|done|..].
  - intros id. specialize (Hl id). specialize (Hnear id). unfold send_load in *. lia.
  - intros id Hne. specialize (Hnear id).
    destruct (Hsent id) as (r & Hr & Hv); [unfold send_load in *; lia|].
    destruct Hle as [_ Hn]. destruct (Hn _ _ Hr) as (r' & Hr' & (_ & ? & _)).
    exists r'. split; [done|lia].
Qed.

Lemma split_worker s ws ws' w :
  ws ≡ₚ w :: ws' → Forall (worker_ok s) ws → worker_ok s w ∧ Forall (worker_ok s) ws'.
Proof. intros ->. apply Forall_cons. Qed.

Lemma fewer_near id w ws ws' :
  ws ≡ₚ w :: ws' →
  (length (filter (about_to_send id) ws') <= length (filter (about_to_send id) ws))%nat.
Proof. intros ->. rewrite filter_cons. case_decide; cbn; lia. Qed.

Lemma same_near id w w' ws ws' :
  ws ≡ₚ w :: ws' → (about_to_send id w' → about_to_send id w) →
  (length (filter (about_to_send id) (w' :: ws')) <= length (filter (about_to_send id) ws))%nat.
Proof. intros -> Hw. rewrite !filter_cons. repeat case_decide; cbn; try lia. tauto. Qed.

(** A worker's transition: the compare-and-swap either fails or finds exactly
    the version that the worker holds. *)
Lemma worker_transition s w st code ref t x s' :
  settlements_ok s → worker_ok s w → st ≠ SMS_PREPARED →
  transition_notification (sms_version (worker_record w))
    (replace_sms (worker_record w) st code ref t) s = (x, s') →
  settlements_ok s' ∧ settlements_le s s' ∧
  ((s' = s ∧ ∃ e, x = Err e) ∨
   (x = Ok tt ∧ sms_at s (sms_notification_id (worker_record w)) = Some (worker_record w) ∧
    s' = put_sms (replace_sms (worker_record w) st code ref t) s)).
Proof.
  intros Hs (Hok & (r' & Hr' & Hle) & _) Hst Ht.
  apply transition_notification_cases in Ht as [[-> He]|(-> & -> & _ & cur & Hcur & Hv)];
    [split; [done|]; split; [done|by left]|].
  cbn in Hcur. rewrite Hr' in Hcur. injection Hcur as ->.
  destruct Hle as (_ & _ & He). rewrite (He Hv) in Hr'.
  destruct (replace_sms_next _ st code ref t Hok Hst) as [Hok' Hle'].
  destruct (put_next s (worker_record w) _ Hs Hr' Hok' Hle') as [H1 H2].
  split; [done|]. split; [done|]. by right.
Qed.

Lemma finish_cases s w st code ref t x s' :
  settlements_ok s → worker_ok s w → st ≠ SMS_PREPARED →
  finish (worker_record w) st code ref t s = (x, s') →
  settlements_ok s' ∧ settlements_le s s' ∧
  ((s' = s ∧ ∃ e, x = Err e) ∨
   (x = Ok (finished (worker_record w) st code ref t) ∧
    sms_at s (sms_notification_id (worker_record w)) = Some (worker_record w) ∧
    s' = put_sms (finished (worker_record w) st code ref t) s)).
Proof.
  intros Hs Hw Hst. unfold finish.
  destruct (transition_notification (sms_version (worker_record w))
    (finished (worker_record w) st code ref t) s) as [y s1] eqn:Ht.
  destruct (worker_transition s w _ _ _ _ _ _ Hs Hw Hst Ht) as (Hs' & Hle & Hc).
  unfold mbind, M_bind. rewrite Ht.
  destruct Hc as [(-> & e & ->)|(-> & Hr & ->)]; intros [= <- <-]; split_and!; try done; eauto.
Qed.

(** Nothing came in between: the transition succeeds. *)
Lemma transition_current s r st code ref t :
  sms_at s (sms_notification_id r) = Some r →
  transition_notification (sms_version r) (replace_sms r st code ref t) s
  = (Ok tt, put_sms (replace_sms r st code ref t) s).
Proof.
  unfold sms_at, transition_notification, getS, require, raise_if, mbind, M_bind, mret, M_ret.
  cbn. intros ->. by rewrite !Z.eqb_refl.
Qed.

Lemma finish_current s r st code ref t :
  sms_at s (sms_notification_id r) = Some r →
  finish r st code ref t s = (Ok (finished r st code ref t), put_sms (finished r st code ref t) s).
Proof.
  intros Hr. unfold finish, finished, mbind, M_bind. by rewrite transition_current.
Qed.

Lemma verdict_not_prepared o st code ref : sms_verdict o = (st, code, ref) → st ≠ SMS_PREPARED.
Proof. destruct o as [g|]; cbn; [destruct (gw_accepted g)|]; by intros [= <- _ _]. Qed.

(** A worker that finishes, or gives up, leaves the others as they are. *)
Lemma worker_leaves s s' ws ws' w l :
  ws ≡ₚ w :: ws' → settlements_ok s' → settlements_le s s' → config_ok (SmsConfig s ws l) →
  config_ok (SmsConfig s' ws' l).
Proof.
  intros Hp Hs' Hle Hok. pose proof Hok as [_ Hws _ _].
  destruct (split_worker _ _ _ _ Hp Hws) as [_ Hws'].
  apply (config_ok_le s s' ws ws' l); [done..| |].
  - eapply Forall_impl; [exact Hws'|]. intros w'. by apply worker_ok_le.
  - intros id. by eapply fewer_near.
Qed.

(** The claim: the only step that brings a notification nearer to a send. *)
Lemma claim_ok s s' ws ws' l r t x :
  ws ≡ₚ SRead r :: ws' → sms_state r = SMS_PREPARED → config_ok (SmsConfig s ws l) →
  transition_notification (sms_version r) (claimed r t) s = (x, s') →
  config_ok (SmsConfig s' (match x with Ok _ => SClaimed (claimed r t) :: ws' | Err _ => ws' end) l)
  ∧ settlements_le s s'.
Proof.
  intros Hp Hst Hok Ht. pose proof Hok as [Hs Hws Hl Hsent]. cbn in *.
  destruct (split_worker _ _ _ _ Hp Hws) as [Hw Hws'].
  destruct (worker_transition s (SRead r) SMS_DISPATCHING _ _ _ _ _ Hs Hw ltac:(done) Ht)
    as (Hs' & Hle & [(-> & e & ->)|(-> & Hr & ->)]);
    (split; [|done]); [by eapply worker_leaves|]. cbn in Hr.
  destruct Hw as ([Hv1 Hv] & _).
  assert (send_load (sms_notification_id r) ws l = 0%nat) as Hzero.
  { destruct (decide (send_load (sms_notification_id r) ws l = 0%nat)) as [|Hne]; [done|].
    destruct (Hsent _ Hne) as (r0 & Hr0 & Hge). rewrite Hr in Hr0. injection Hr0 as <-.
    apply Hv in Hst. cbn in Hst. lia. }
  assert (∀ id, send_load id (SClaimed (claimed r t) :: ws') l =
    if decide (id = sms_notification_id r) then 1%nat else send_load id ws l) as Hload.
  { assert (∀ id, length (filter (about_to_send id) ws) = length (filter (about_to_send id) ws')) as Hsame
      by (intros id; rewrite Hp, filter_cons; by rewrite decide_False by intros []).
    intros id. unfold send_load in *. rewrite Hsame in Hzero. rewrite Hsame, filter_cons.
    destruct (decide (id = sms_notification_id r)) as [->|Hne].
    - rewrite decide_True by done. cbn. lia.
    - rewrite decide_False; [done|]. cbn. congruence. }
  split; cbn [sc_store sc_workers sc_sends].
  - done.
  - constructor; [|eapply Forall_impl; [exact Hws'|]; intros w; by apply worker_ok_le].
    destruct (replace_sms_next r SMS_DISPATCHING (sms_normalized_code r) (sms_gateway_reference r) t)
      as [Hok' _]; [by split|done|]. split; [done|]. cbn in *. split; [|lia].
    eexists. rewrite sms_at_put, decide_True by done. by split.
  - intros id. rewrite Hload. case_decide; [lia|apply Hl].
  - intros id. rewrite Hload, sms_at_put. cbn. case_decide as Hd.
    + intros _. eexists. rewrite decide_True by done. split; [done|]. cbn in *. lia.
    + intros Hne. rewrite decide_False by done. by apply Hsent.
Qed.

Section steps.
Context {P : Type} `{!SigningKeyProvider P} `{Ed25519}.

Lemma confirm_step (env : SettlementEnv P) ex utt_id provider tx cb at_ clock s x s' :
  settlements_ok s → confirm_provider_settlement env ex utt_id provider tx cb at_ clock s = (x, s') →
  settlements_ok s' ∧ settlements_le s s'.
Proof.
  intros Hs. unfold confirm_provider_settlement, lift, mbind, M_bind.
  destruct (settlement_offer _ _ _ _ _ _ _) as [[e [n1 n2]]|err] eqn:Ho; [|by intros [= <- <-]].
  destruct (settlement_offer_ok _ _ _ _ _ _ _ _ _ _ Ho) as (Hf1 & Hf2 & Hb1 & Hb2 & _).
  destruct (commit_settlement e n1 n2 s) as [y s1] eqn:Hc. intros Hx.
  assert (s' = s1) as ->.
  { destruct y as [[[ev nn] rep]|]; by injection Hx. }
  apply commit_settlement_cases in Hc as [[-> _]|(_ & Hnone & _ & H1 & H2 & ->)]; [done|].
  by apply put_settlement.
Qed.

Lemma sms_step_ok c c' :
  sms_step (P := P) c c' → config_ok c →
  config_ok c' ∧ settlements_le (sc_store c) (sc_store c').
Proof.
  intros Hstep Hok. destruct Hstep as [env ex utt provider tx cb at_ clock s x s' ws l Hr
    |id r s ws l Hr|r t s x s' ws ws' l Hp Hst Hr|r t s x s' ws ws' l Hp Hst Hr
    |r e s ws ws' l Hp|r o s ws ws' l Hp|r o t s x s' ws ws' l Hp Hr|w s ws ws' l Hp];
    pose proof Hok as [Hs Hws Hl Hsent]; cbn [sc_store sc_workers sc_sends] in *;
    try destruct (split_worker _ _ _ _ Hp Hws) as [Hw Hws'].
  - destruct (confirm_step _ _ _ _ _ _ _ _ _ _ _ Hs Hr) as [Hs' Hle]. split; [|done].
    apply (config_ok_le s s' ws ws l); [done..| |done].
    eapply Forall_impl; [exact Hws|]. intros w. by apply worker_ok_le.
  - unfold require_notification in Hr. apply (proj1 (res_require_ok _ _ _ _)) in Hr.
    change (sms_at s id = Some r) in Hr. split; [|done].
    apply (config_ok_le s s ws (SRead r :: ws) l); [done..| |].
    + constructor; [|done]. pose proof (so_key _ Hs _ _ Hr) as Hk. split; [by eapply so_version|].
      split; [|done]. cbn. rewrite Hk. by exists r.
    + intros k. rewrite filter_cons, decide_False by intros []. done.
  - assert (SMS_UNKNOWN ≠ SMS_PREPARED) as Hne by done.
    destruct (finish_cases s (SRead r) _ _ _ _ _ _ Hs Hw Hne Hr) as (Hs' & Hle & _).
    split; [|done]. by eapply worker_leaves.
  - by apply (claim_ok s s' ws ws' l r t x).
  - split; [|done]. apply (config_ok_le s s ws _ l); [done..|by constructor|].
    intros id. by eapply same_near.
  - split; [|done].
    assert (∀ id, send_load id (SCalled r o :: ws') (l ++ [sms_notification_id r]) = send_load id ws l) as Hsame.
    { intros id. unfold send_load, sends_of. rewrite Hp, filter_app, length_app, !filter_cons, filter_nil.
      cbn. repeat case_decide; cbn; try tauto; lia. }
    split; cbn; [done|by constructor|..]; intros id; rewrite Hsame; auto.
  - destruct (sms_verdict o) as [[st code] ref] eqn:Hv.
    destruct (finish_cases s (SCalled r o) _ _ _ _ _ _ Hs Hw (verdict_not_prepared _ _ _ _ Hv) Hr)
      as (Hs' & Hle & _).
    split; [|done]. by eapply worker_leaves.
  - split; [|done]. by eapply worker_leaves.
Qed.

Lemma sms_steps_ok c c' :
  rtc (sms_step (P := P)) c c' → config_ok c →
  config_ok c' ∧ settlements_le (sc_store c) (sc_store c').
Proof.
  induction 1 as [|c1 c2 c3 Hstep _ IH]; [done|]. intros Hok.
  destruct (sms_step_ok _ _ Hstep Hok) as [Hok2 Hle]. destruct (IH Hok2) as [Hok3 Hle'].
  split; [done|]. by etrans.
Qed.

Lemma sms_reachable c : rtc (sms_step (P := P)) sms_idle c → config_ok c.
Proof. intros Hs. by destruct (sms_steps_ok _ _ Hs sms_idle_ok). Qed.
End steps.
