(* ===== verification/NotificationClaims.v ===== *)
(** What settlement notifications guarantee: one settlement per transaction,
    at most one SMS per party, and a delivery that always ends. *)

From Stdlib Require Import Ascii String.
From S2P Require Import Prelude.
From S2P Require Import PyBase.
From S2P Require Import PyDict.
From S2P Require Import Bytes.
From S2P Require Import Sha256.
From S2P Require Import CanonicalJson.
From S2P Require Import CanonicalFacts.
From S2P Require Import Keys.
From S2P Require Import Signatures.
From S2P Require Import ContractModels.
From S2P Require Import Contracts.
From S2P Require Import Routing.
From S2P Require Import ExecutionStore.
From S2P Require Import Execution.
From S2P Require Import ExecutionFacts.
From S2P Require Import ExecutionProtocol.
From S2P Require Import ExecutionClaims.
From S2P Require Import PyText.
From S2P Require Import Notifications.
From S2P Require Import NotificationFacts.

Implicit Types (s : SettlementStore) (r n : SmsNotificationRecord).

(** ** The code's [deliver] as steps of the protocol *)
(** The parts of [deliver]. *)
Lemma deliver_run {W} (ch : SmsChannel W) id local at_ clock s w :
  deliver id ch local at_ clock (s, w) =
  let now := to_utc local (or_now at_ clock) in
  match sms_at s id with
  | None => (Err (Exn LookupError "SMS notification not found"), (s, w))
  | Some r =>
      if final_sms (sms_state r) then (Ok r, (s, w))
      else if decide (sms_state r = SMS_DISPATCHING) then
        let '(x, s') := finish r SMS_UNKNOWN "NON_IDEMPOTENT_SMS_RECOVERY_BLOCKED" None now s in
        (x, (s', w))
      else
        match transition_notification (sms_version r) (claimed r now) s with
        | (Err e, s1) => (Err e, (s1, w))
        | (Ok _, s1) =>
            let '(o, w1) := call_gateway ch (claimed r now) w in
            let '(st, code, ref) := sms_verdict o in
            let '(x, s2) := finish (claimed r now) st code ref now s1 in (x, (s2, w1))
        end
  end.
Proof.
  unfold deliver, require_notification, sms_at, require, lift, getS, on_fst, on_snd, zoom,
    Prelude.outcome, bool_decide, mbind, M_bind, mret, res_ret, M_ret. cbn [fst snd]. cbv zeta.
  destruct (dget (sms_notifications s) id) as [r|]; [|done]. lazy beta iota.
  destruct (final_sms (sms_state r)); [done|].
  change (decide_rel eq (sms_state r) SMS_DISPATCHING) with (decide (sms_state r = SMS_DISPATCHING)).
  destruct (decide (sms_state r = SMS_DISPATCHING)); cbn [fst snd]; [by destruct (finish _ _ _ _ _ s)|].
  destruct (transition_notification _ _ s) as [[[]|e] s1]; [|done]. cbn [fst snd].
  destruct (call_gateway ch _ w) as [o w1]. cbn [fst snd].
  lazy beta iota zeta. destruct (sms_verdict o) as [[st code] ref]. cbn [fst snd].
  by destruct (finish _ _ _ _ _ s1) as [x s2].
Qed.

Section deliver.
Context {P : Type} `{!SigningKeyProvider P} `{Ed25519} {W : Type}.
Implicit Types (ch : SmsChannel W).

(** A channel that also records what it hands to the gateway. *)
Definition logged ch : SmsChannel (W * list string) := {|
  resolve_sms_destination := λ id, on_fst (resolve_sms_destination ch id);
  gateway_send := λ key destination body wl,
    let '(x, w') := gateway_send ch key destination body wl.1 in (x, (w', wl.2 ++ [key]))
|}.

(** The channel either never reached the gateway or handed it the record. *)
Lemma call_logged ch r w l x w' l' :
  call_gateway (logged ch) r (w, l) = (x, (w', l')) →
  (l' = l ∧ ∃ e, x = Err e) ∨ l' = l ++ [sms_notification_id r].
Proof.
  unfold call_gateway, mbind, M_bind. cbn. unfold on_fst, zoom. cbn.
  destruct (resolve_sms_destination ch _ w) as [[d|e] w1]; [|intros [= <- <- <-]; left; eauto].
  cbn. destruct (gateway_send ch _ _ _ w1) as [y w2]. intros [= <- <- <-]. by right.
Qed.

(** Refinement: a [deliver] that nothing interrupts, over any channel, is a
    run of the worker protocol that adds no worker; the notifications that it
    hands to the gateway are the ones the protocol records.  (A crash is the
    protocol's [sms_gone].) *)
Theorem deliver_is_a_run ch id local at_ clock s w l x s' w' l' ws :
  deliver id (logged ch) local at_ clock (s, (w, l)) = (x, (s', (w', l'))) →
  rtc (sms_step (P := P)) (SmsConfig s ws l) (SmsConfig s' ws l').
Proof.
  rewrite deliver_run. cbv zeta. set (now := to_utc local (or_now at_ clock)).
  destruct (sms_at s id) as [r|] eqn:Hr; [|by intros [= _ <- <- <-]].
  destruct (final_sms (sms_state r)) eqn:Hf; [by intros [= _ <- <- <-]|].
  intros Hrun. eapply rtc_l; [apply (sms_read id r)|].
  { unfold require_notification, sms_at in *. by rewrite Hr. }
  destruct (decide (sms_state r = SMS_DISPATCHING)) as [Hd|Hd].
  { destruct (finish r _ _ _ _ s) as [y s1] eqn:Hfin. injection Hrun as <- <- <- <-.
    by eapply rtc_once, sms_blocked. }
  assert (sms_state r = SMS_PREPARED) as Hp by (destruct (sms_state r); done).
  destruct (transition_notification _ _ s) as [y s1] eqn:Ht.
  eapply rtc_l; [eapply (sms_claim r now); [reflexivity|done|exact Ht]|].
  destruct y as [[]|e]; [|by injection Hrun as <- <- <- <-].
  destruct (call_gateway _ _ _) as [o [w1 l1]] eqn:Hcall.
  destruct (sms_verdict o) as [[st code] ref] eqn:Hv.
  destruct (finish _ _ _ _ _ s1) as [z s2] eqn:Hfin. injection Hrun as <- <- <- <-.
  eapply rtc_l; [|eapply rtc_once, (sms_finish (claimed r now) o now); [reflexivity|by rewrite Hv]].
  apply call_logged in Hcall as [(-> & e & ->)| ->]; by constructor.
Qed.

(** Delivery: in every reachable store [deliver] of a stored notification
    returns a final record, which is the stored one.  A notification that was
    prepared gets the verdict of the gateway, or UNKNOWN when the channel
    failed; one that another worker had claimed is not sent again but closed
    as UNKNOWN; one that was final is returned as it is. *)
Theorem deliver_outcome c id ch local at_ clock w r :
  rtc (sms_step (P := P)) sms_idle c → sms_at (sc_store c) id = Some r →
  let now := to_utc local (or_now at_ clock) in
  ∃ r' s' w', deliver id ch local at_ clock (sc_store c, w) = (Ok r', (s', w')) ∧
    sms_at s' id = Some r' ∧ final_sms (sms_state r') = true ∧
    match sms_state r with
    | SMS_PREPARED =>
        ∃ o, call_gateway ch (claimed r now) w = (o, w') ∧
          let '(st, code, ref) := sms_verdict o in r' = finished (claimed r now) st code ref now
    | SMS_DISPATCHING =>
        w' = w ∧ r' = finished r SMS_UNKNOWN "NON_IDEMPOTENT_SMS_RECOVERY_BLOCKED" None now
    | _ => w' = w ∧ s' = sc_store c ∧ r' = r
    end.
Proof.
  intros Hreach Hr now. apply sms_reachable in Hreach as [Hs _ _ _].
  revert Hs Hr. generalize (sc_store c). clear c. intros s Hs Hr.
  pose proof (so_key _ Hs _ _ Hr) as Hk. pose proof (so_version _ Hs _ _ Hr) as Hok.
  setoid_rewrite deliver_run. rewrite Hr. cbv zeta. fold now.
  destruct (sms_state r) eqn:Hstate; cbn [final_sms];
    rewrite ?decide_True, ?decide_False by done;
    try (exists r, s, w; by rewrite Hstate).
  - rewrite <- Hk in Hr.
    assert (transition_notification (sms_version r) (claimed r now) s
      = (Ok tt, put_sms (claimed r now) s)) as -> by (by apply transition_current).
    destruct (call_gateway ch (claimed r now) w) as [o w1] eqn:Hcall.
    destruct (sms_verdict o) as [[st code] ref] eqn:Hv.
    rewrite finish_current by (rewrite sms_at_put; by rewrite decide_True).
    eexists _, _, _. split; [done|]. rewrite sms_at_put, decide_True by done.
    split; [done|]. split; [|exists o; by rewrite Hv].
    destruct o as [g|]; cbn in Hv; [destruct (gw_accepted g)|]; by injection Hv as <- _ _.
  - rewrite <- Hk in Hr. rewrite finish_current by done.
    eexists _, _, _. split; [done|]. by rewrite sms_at_put, decide_True.
Qed.
End deliver.

(** ** At most one SMS *)
Section sends.
Context {P : Type} `{!SigningKeyProvider P} `{Ed25519}.

(** C18 At most once: whatever settlements are confirmed, however the relay's
    workers interleave and wherever they crash, a notification is handed to
    the SMS gateway at most once, and one that was handed over is never
    PREPARED again. *)
Theorem sms_sent_at_most_once c id :
  rtc (sms_step (P := P)) sms_idle c →
  (sends_of id (sc_sends c) <= 1)%nat ∧
  (id ∈ sc_sends c → ∃ r, sms_at (sc_store c) id = Some r ∧ sms_state r ≠ SMS_PREPARED).
Proof.
  intros [Hs _ Hl Hsent]%sms_reachable. specialize (Hl id). unfold send_load in Hl.
  split; [lia|]. intros Hin. destruct (Hsent id) as (r & Hr & Hv).
  { unfold send_load, sends_of. assert (id ∈ filter (λ x, x = id) (sc_sends c)) as Hf
      by (by apply list_elem_of_filter).
    destruct (filter _ (sc_sends c)); [by apply not_elem_of_nil in Hf|]. cbn. lia. }
  exists r. split; [done|]. intros Hp. apply (so_version _ Hs _ _ Hr) in Hp. lia.
Qed.

(** ** One settlement per transaction *)
Implicit Types (env : SettlementEnv P) (ex : ExecutionStore).

(** The offer of a confirmation, at its instant. *)
Definition offer_at env ex utt_id provider tx cb (at_ : option datetime) (clock : instant) :=
  settlement_offer env ex utt_id provider tx cb (to_utc (st_local_time env) (or_now at_ clock)).

(** How a confirmation ends. *)
Lemma confirm_cases env ex utt_id provider tx cb at_ clock s x s' :
  settlements_ok s →
  confirm_provider_settlement env ex utt_id provider tx cb at_ clock s = (x, s') →
  match offer_at env ex utt_id provider tx cb at_ clock with
  | Err err => x = Err err ∧ s' = s
  | Ok (e, (n1, n2)) =>
      match dget (evidence_by_utt s) utt_id with
      | Some e0 => s' = s ∧
          if decide (se_evidence_id e0 = se_evidence_id e)
          then ∃ r1 r2, x = Ok (SettlementResult e0 (r1, r2) true) ∧
                 sms_at s (sms_notification_id n1) = Some r1 ∧
                 sms_at s (sms_notification_id n2) = Some r2
          else x = Err (Exn SettlementConflictError "UTT received conflicting settlement evidence")
      | None =>
          (x = Ok (SettlementResult e (n1, n2) false) ∧
           s' = put_sms n2 (put_sms n1 (put_evidence e s)) ∧
           sms_at s (sms_notification_id n1) = None ∧ sms_at s (sms_notification_id n2) = None) ∨
          (s' = s ∧ ∃ err, x = Err err)
      end
  end.
Proof.
  intros Hs. unfold confirm_provider_settlement, offer_at, lift. cbv zeta. unfold mbind, M_bind.
  destruct (settlement_offer _ _ _ _ _ _ _) as [[e [n1 n2]]|err] eqn:Ho; [|by intros [= <- <-]].
  destruct (settlement_offer_ok _ _ _ _ _ _ _ _ _ _ Ho) as (_ & _ & (Hid1 & _) & (Hid2 & _) & Hutt & _).
  destruct (commit_settlement e n1 n2 s) as [y s1] eqn:Hc.
  apply commit_settlement_cases in Hc. rewrite Hutt in Hc.
  destruct Hc as [[-> Hc]|(-> & Hnone & _ & H1 & H2 & ->)].
  - destruct (dget (evidence_by_utt s) utt_id) as [e0|] eqn:He0.
    + destruct (so_evidence _ Hs _ _ He0) as [_ Hroles].
      destruct (Hroles ROLE_SENDER) as (i1 & r1 & Hi1 & Hr1 & _).
      destruct (Hroles ROLE_RECEIVER) as (i2 & r2 & Hi2 & Hr2 & _).
      destruct Hc as [[Heq Hy]|[Hne ->]]; [|intros [= <- <-]; by rewrite decide_False].
      rewrite decide_True by done. rewrite Heq in Hi1, Hi2.
      rewrite Hid1 in Hi1. injection Hi1 as <-. rewrite Hid2 in Hi2. injection Hi2 as <-.
      rewrite (Hy _ _ Hr1 Hr2). intros [= <- <-]. split; [done|]. by exists r1, r2.
    + destruct Hc as [err ->]. intros [= <- <-]. right. eauto.
  - rewrite Hnone. intros [= <- <-]. by left.
Qed.

(** Settlement is bound to execution: a confirmation succeeds only for a
    transaction whose signed UTT verifies, whose plan is finalized and whose
    last attempt succeeded, with non-blank provider references.  What it
    records first is signed evidence over exactly that transaction, attempt,
    amounts and references, and one unsent SMS of at most 320 characters for
    each party, addressed by the UTT's contact bindings. *)
Theorem settlement_bound c env ex utt_id provider tx cb at_ clock res s' :
  rtc (sms_step (P := P)) sms_idle c →
  confirm_provider_settlement env ex utt_id provider tx cb at_ clock (sc_store c) = (Ok res, s') →
  ∃ signed_utt plan rtt attempt,
    require_utt (st_contracts env) utt_id = Ok signed_utt ∧
    (∃ v, verify_artifact (st_keys env) signed_utt (Some UTT) false = Ok v ∧ valid v = true) ∧
    require_plan_for_utt ex utt_id = Ok plan ∧ plan_status plan = PLAN_FINALIZED ∧
    previous_rtt_id plan = Some rtt ∧ require_attempt ex rtt = Ok attempt ∧
    rtt_state attempt = RTT_SUCCEEDED ∧ strip tx ≠ EmptyString ∧ strip cb ≠ EmptyString ∧
    (sr_replayed res = false →
     let e := sr_evidence res in let '(n1, n2) := sr_notifications res in
     se_provider_transaction_id e = strip tx ∧ se_callback_event_id e = strip cb ∧
     (∃ pay, sign_artifact (st_keys env) SETTLEMENT_EVIDENCE pay (st_key_id env)
               (to_utc (st_local_time env) (or_now at_ clock)) = Ok (se_signed_evidence e) ∧
        get pay "evidence_id" = Some (PStr (se_evidence_id e)) ∧
        get pay "utt_id" = Some (PStr utt_id) ∧ get pay "rtt_id" = Some (PStr (rtt_id attempt)) ∧
        get pay "amount_minor" = get (payload signed_utt) "amount_minor" ∧
        get pay "receive_amount_minor" = get (payload signed_utt) "receive_amount_minor") ∧
     belongs e n1 ROLE_SENDER ∧ belongs e n2 ROLE_RECEIVER ∧ fresh_sms n1 ∧ fresh_sms n2 ∧
     contact_of (payload signed_utt) "payer" = Ok (sms_contact_binding_id n1) ∧
     contact_of (payload signed_utt) "beneficiary" = Ok (sms_contact_binding_id n2) ∧
     char_len (sms_rendered_body n1) <= 320 ∧ char_len (sms_rendered_body n2) <= 320).
Proof.
  intros [Hs _ _ _]%sms_reachable Hc. apply (confirm_cases _ _ _ _ _ _ _ _ _ _ _ Hs) in Hc.
  unfold offer_at in Hc.
  destruct (settlement_offer _ _ _ _ _ _ _) as [[e [n1 n2]]|err] eqn:Ho; [|by destruct Hc].
  destruct (settlement_offer_ok _ _ _ _ _ _ _ _ _ _ Ho)
    as (Hf1 & Hf2 & Hb1 & Hb2 & Hutt & su & att & Hatt & Htx & Hcb & Hev & Hns).
  destruct (settled_attempt_ok _ _ _ _ _ Hatt) as (Hu & Hv & plan & rtt & Hp & Hst & Hprev & Ha & Hok).
  exists su, plan, rtt, att. do 9 (split; [done|]). intros Hrep.
  assert (res = SettlementResult e (n1, n2) false) as ->.
  { destruct (dget (evidence_by_utt (sc_store c)) utt_id) as [e0|].
    - destruct Hc as [_ Hc]. case_decide; [|done]. by destruct Hc as (r1 & r2 & [= ->] & _).
    - by destruct Hc as [([= ->] & _)|(_ & err & [=])]. }
  destruct (build_evidence_ok _ _ _ _ _ _ _ _ _ Hev) as (_ & _ & Ht & Hcid & _ & Hpay).
  destruct (build_notifications_ok _ _ _ _ _ _ _ Hns) as (_&_&_&_&_&Hc1&Hc2).
  cbn [sr_evidence sr_notifications]. split_and!; try done.
  all: unfold build_notifications in Hns; inv_ok Hns;
    match goal with v : string * string |- _ => destruct v as [b1 b2] end; inv_ok Hns; simplify_eq;
    repeat match goal with H : new_notification _ _ _ _ _ = Ok _ |- _ =>
      apply new_notification_ok in H as (_ & _ & <- & _ & _ & ?) end; done.
Qed.

(** C19 Exactly one settlement per transaction: the evidence of a confirmed
    settlement and its two notifications are in the store for good.  Every
    later confirmation for the same transaction leaves the store as it is; it
    either replays that same evidence or fails, and it does replay when its
    provider references are the same. *)
Theorem settlement_exactly_once c env ex utt_id provider tx cb at_ clock res s' c' :
  rtc (sms_step (P := P)) sms_idle c →
  confirm_provider_settlement env ex utt_id provider tx cb at_ clock (sc_store c) = (Ok res, s') →
  rtc (sms_step (P := P)) (SmsConfig s' (sc_workers c) (sc_sends c)) c' →
  let s2 := sc_store c' in
  dget (evidence_by_utt s2) utt_id = Some (sr_evidence res) ∧
  (∀ role, ∃ id r, notification_id (se_evidence_id (sr_evidence res)) role = Ok id ∧
     sms_at s2 id = Some r ∧ sms_utt_id r = utt_id ∧
     (sms_recipient_role r = role ∨ ids_collide (se_evidence_id (sr_evidence res)))) ∧
  ∀ env2 ex2 provider2 tx2 cb2 at2 clock2 x s3,
    confirm_provider_settlement env2 ex2 utt_id provider2 tx2 cb2 at2 clock2 s2 = (x, s3) →
    s3 = s2 ∧
    (∀ res2, x = Ok res2 → sr_evidence res2 = sr_evidence res ∧ sr_replayed res2 = true) ∧
    (is_ok (offer_at env2 ex2 utt_id provider2 tx2 cb2 at2 clock2) = true →
     st_contracts env2 = st_contracts env → provider2 = provider →
     strip tx2 = strip tx → strip cb2 = strip cb → is_ok x = true).
Proof.
  intros Hreach Hc Hsteps s2.
  assert (config_ok (SmsConfig s' (sc_workers c) (sc_sends c))) as Hok'.
  { apply (sms_reachable (P := P)). eapply rtc_r; [exact Hreach|]. destruct c as [s1 ws l].
    by eapply sms_confirm. }
  destruct (sms_steps_ok _ _ Hsteps Hok') as [[Hs2 _ _ _] [Hev _]]. cbn in Hev. fold s2 in Hs2, Hev.
  apply sms_reachable in Hreach as [Hs _ _ _].
  apply (confirm_cases _ _ _ _ _ _ _ _ _ _ _ Hs) in Hc.
  unfold offer_at in Hc.
  destruct (settlement_offer _ _ _ _ _ _ _) as [[e [n1 n2]]|err] eqn:Ho; [|by destruct Hc].
  destruct (settlement_offer_ok _ _ _ _ _ _ _ _ _ _ Ho) as (_&_&_&_& Hutt & su & att & Hatt & _ & _ & Hbe & _).
  destruct (build_evidence_ok _ _ _ _ _ _ _ _ _ Hbe) as (_&_&_&_&(hash & Hh & Hid)&_).
  destruct (settled_attempt_ok _ _ _ _ _ Hatt) as (Hu & _).
  assert (dget (evidence_by_utt s') utt_id = Some (sr_evidence res) ∧
          se_evidence_id (sr_evidence res) = se_evidence_id e) as [Hget Hsame].
  { destruct (dget (evidence_by_utt (sc_store c)) utt_id) as [e0|] eqn:He0.
    - destruct Hc as [-> Hc]. case_decide; [|done]. by destruct Hc as (r1 & r2 & [= ->] & _).
    - destruct Hc as [([= ->] & -> & _)|(_ & err & [=])]. cbn. rewrite <- Hutt.
      by rewrite dget_dset_eq. }
  apply Hev in Hget. split; [done|]. split.
  { destruct (so_evidence _ Hs2 _ _ Hget) as [_ Hroles]. intros role.
    destruct (Hroles role) as (id & r & ? & ? & ? & ? & ?). by exists id, r. }
  intros env2 ex2 provider2 tx2 cb2 at2 clock2 x s3 Hc2.
  apply (confirm_cases _ _ _ _ _ _ _ _ _ _ _ Hs2) in Hc2. rewrite Hget in Hc2. unfold offer_at in *.
  destruct (settlement_offer env2 _ _ _ _ _ _) as [[e2 [m1 m2]]|err] eqn:Ho2; [|by destruct Hc2 as [-> ->]].
  destruct Hc2 as [-> Hc2]. split; [done|]. case_decide as Hd.
  { destruct Hc2 as (r1 & r2 & -> & _). split; [by intros ? [= <-]|done]. }
  subst x. split; [done|]. intros _ Hcs -> Htx Hcb. exfalso. apply Hd.
  destruct (settlement_offer_ok _ _ _ _ _ _ _ _ _ _ Ho2) as (_&_&_&_& _ & su2 & att2 & Hatt2 & _ & _ & Hbe2 & _).
  destruct (build_evidence_ok _ _ _ _ _ _ _ _ _ Hbe2) as (_&_&_&_&(hash2 & Hh2 & Hid2)&_).
  destruct (settled_attempt_ok _ _ _ _ _ Hatt2) as (Hu2 & _).
  rewrite Hcs in Hu2. rewrite Hu in Hu2. injection Hu2 as <-. rewrite Hh in Hh2. injection Hh2 as <-.
  rewrite Htx, Hcb, Hid in Hid2. injection Hid2 as Hid2. congruence.
Qed.
End sends.

(** ** A concrete settlement and its delivery *)
Module DemoSettlement.
Import ToyEd25519 DemoContracts DemoExecution.

Definition settlement_keys : InMemoryEd25519KeyProvider :=
  (generate (encode_utf8 "KS") 0 "KS" "RAILONE" SETTLEMENT_SIGNING 0 (seconds 1000000) None
     demo_keys).2.
Definition settlement_env : SettlementEnv InMemoryEd25519KeyProvider :=
  {| st_keys := settlement_keys; st_contracts := demo_store; st_key_id := "KS";
     st_offset_minutes := 180; st_timezone_label := "EAT"; st_local_time := λ us, us |}.
Definition settled_rtt : string := rtt_id (new_attempt_of worker1).
Definition store3 : ExecutionStore :=
  (record_success settled_rtt 0 (Some (Aware (seconds 300))) 0 store2).2.

Definition no_evidence : SettlementEvidenceRecord :=
  {| se_evidence_id := EmptyString; se_utt_id := EmptyString; se_provider_id := EmptyString;
     se_provider_transaction_id := EmptyString; se_callback_event_id := EmptyString;
     se_signed_evidence := no_envelope; se_settled_at := 0 |}.
Definition no_sms : SmsNotificationRecord :=
  {| sms_notification_id := EmptyString; sms_evidence_id := EmptyString;
     sms_utt_id := EmptyString; sms_recipient_role := ROLE_SENDER;
     sms_contact_binding_id := EmptyString; sms_template_version := EmptyString;
     sms_rendered_body := EmptyString; sms_body_sha256 := EmptyString;
     sms_state := SMS_PREPARED; sms_gateway_reference := None; sms_normalized_code := None;
     sms_version := 1; sms_created_at := 0; sms_updated_at := 0 |}.

(** The evaluated offer: what later evaluations start from. *)
Definition the_offer : SettlementEvidenceRecord * (SmsNotificationRecord * SmsNotificationRecord) :=
  Eval vm_compute in
  from_ok (no_evidence, (no_sms, no_sms))
    (settlement_offer settlement_env store3 demo_utt "MPESA-KE" " TX1 " "EV1" (seconds 310)).
Definition the_evidence : SettlementEvidenceRecord := the_offer.1.
Definition sms1 : SmsNotificationRecord := the_offer.2.1.
Definition sms2 : SmsNotificationRecord := the_offer.2.2.
Definition confirmed_store : SettlementStore :=
  put_sms sms2 (put_sms sms1 (put_evidence the_evidence no_settlements)).

Lemma the_offer_eq :
  settlement_offer settlement_env store3 demo_utt "MPESA-KE" " TX1 " "EV1" (seconds 310)
  = Ok (the_evidence, (sms1, sms2)).
Proof. vm_compute. reflexivity. Qed.

(** Confirming an offer, from its evaluation. *)
Lemma confirm_offer (env : SettlementEnv InMemoryEd25519KeyProvider) ex utt_id provider tx cb t s e n1 n2 :
  settlement_offer env ex utt_id provider tx cb t = Ok (e, (n1, n2)) →
  confirm_provider_settlement env ex utt_id provider tx cb (Some (Aware t)) 0 s =
  ('(ev, ns, rep) ← commit_settlement e n1 n2; mret (SettlementResult ev ns rep)) s.
Proof.
  intros Ho. unfold confirm_provider_settlement. cbv zeta. cbn [or_now default to_utc].
  by rewrite (run_lift_bind _ _ _ _ Ho).
Qed.

Lemma first_confirmation :
  confirm_provider_settlement settlement_env store3 demo_utt "MPESA-KE" " TX1 " "EV1"
    (Some (Aware (seconds 310))) 0 no_settlements
  = (Ok (SettlementResult the_evidence (sms1, sms2) false), confirmed_store).
Proof. rewrite (confirm_offer _ _ _ _ _ _ _ _ _ _ _ the_offer_eq). vm_compute. reflexivity. Qed.

Definition settled_config : sms_config := SmsConfig confirmed_store [] [].
Lemma settled_reachable :
  rtc (sms_step (P := InMemoryEd25519KeyProvider)) sms_idle settled_config.
Proof. apply rtc_once. eapply sms_confirm. exact first_confirmation. Qed.

(** A gateway that counts its calls and accepts. *)
Definition accepting : SmsChannel nat :=
  {| resolve_sms_destination := λ id w, (Ok ("+254" +:+ id), w);
     gateway_send := λ _ _ _ w, (Ok (GatewayResult true "ok" (Some "G1")), S w) |}.
Definition delivered : res SmsNotificationRecord * (SettlementStore * (nat * list string)) :=
  deliver (sms_notification_id sms1) (logged accepting) (λ us, us) None (seconds 320)
    (confirmed_store, (0%nat, [])).
End DemoSettlement.
Import ToyEd25519 DemoContracts DemoExecution DemoSettlement.

Lemma deliver_is_a_run_witness :
  rtc (sms_step (P := InMemoryEd25519KeyProvider)) (SmsConfig confirmed_store [] [])
    (SmsConfig delivered.2.1 [] [sms_notification_id sms1]).
Proof.
  apply (deliver_is_a_run accepting (sms_notification_id sms1) (λ us, us) None (seconds 320)
    confirmed_store 0%nat [] delivered.1 delivered.2.1 1%nat [sms_notification_id sms1] []).
  vm_compute. reflexivity.
Defined.

Lemma deliver_outcome_witness :
  ∃ r' s' w', deliver (sms_notification_id sms1) accepting (λ us, us) None (seconds 320)
      (confirmed_store, 0%nat) = (Ok r', (s', w')) ∧
    sms_at s' (sms_notification_id sms1) = Some r' ∧ final_sms (sms_state r') = true ∧
    ∃ o, call_gateway accepting (claimed sms1 (seconds 320)) 0%nat = (o, w') ∧
      let '(st, code, ref) := sms_verdict o in
      r' = finished (claimed sms1 (seconds 320)) st code ref (seconds 320).
Proof.
  apply (deliver_outcome (P := InMemoryEd25519KeyProvider) settled_config
    (sms_notification_id sms1) accepting (λ us, us) None (seconds 320) 0%nat sms1).
  - exact settled_reachable.
  - vm_compute. reflexivity.
Defined.

Lemma sms_sent_at_most_once_witness :
  (sends_of (sms_notification_id sms1) [sms_notification_id sms1] <= 1)%nat ∧
  (sms_notification_id sms1 ∈ [sms_notification_id sms1] →
   ∃ r, sms_at delivered.2.1 (sms_notification_id sms1) = Some r ∧ sms_state r ≠ SMS_PREPARED).
Proof.
  apply (sms_sent_at_most_once (P := InMemoryEd25519KeyProvider)
    (SmsConfig delivered.2.1 [] [sms_notification_id sms1])).
  etrans; [exact settled_reachable|].
  eapply rtc_l; [apply (sms_read (sms_notification_id sms1) sms1); vm_compute; reflexivity|].
  eapply rtc_l; [eapply (sms_claim sms1 (seconds 320)); [reflexivity|reflexivity|vm_compute; reflexivity]|].
  eapply rtc_l; [eapply (sms_send _ (Ok (GatewayResult true "ok" (Some "G1")))); reflexivity|].
  eapply rtc_once, (sms_finish _ _ (seconds 320)); [reflexivity|vm_compute; reflexivity].
Defined.

Lemma settlement_bound_witness :
  ∃ signed_utt plan rtt attempt,
    require_utt demo_store demo_utt = Ok signed_utt ∧
    (∃ v, verify_artifact settlement_keys signed_utt (Some UTT) false = Ok v ∧ valid v = true) ∧
    require_plan_for_utt store3 demo_utt = Ok plan ∧ plan_status plan = PLAN_FINALIZED ∧
    previous_rtt_id plan = Some rtt ∧ require_attempt store3 rtt = Ok attempt ∧
    rtt_state attempt = RTT_SUCCEEDED.
Proof.
  destruct (settlement_bound sms_idle settlement_env store3 demo_utt "MPESA-KE" " TX1 " "EV1"
    (Some (Aware (seconds 310))) 0 _ _ (rtc_refl _ _) first_confirmation)
    as (su & plan & rtt & att & H1 & H2 & H3 & H4 & H5 & H6 & H7 & _).
  exists su, plan, rtt, att.
  exact (conj H1 (conj H2 (conj H3 (conj H4 (conj H5 (conj H6 H7)))))).
Defined.

Lemma settlement_exactly_once_witness :
  dget (evidence_by_utt confirmed_store) demo_utt = Some the_evidence ∧
  confirm_provider_settlement settlement_env store3 demo_utt "MPESA-KE" " TX1 " "EV1"
    (Some (Aware (seconds 310))) 0 confirmed_store
  = (Ok (SettlementResult the_evidence (sms1, sms2) true), confirmed_store).
Proof.
  destruct (settlement_exactly_once sms_idle settlement_env store3 demo_utt "MPESA-KE" " TX1 "
    "EV1" (Some (Aware (seconds 310))) 0 _ _ settled_config (rtc_refl _ _) first_confirmation
    (rtc_refl _ _)) as (He & _ & _).
  split; [exact He|]. rewrite (confirm_offer _ _ _ _ _ _ _ _ _ _ _ the_offer_eq).
  vm_compute. reflexivity.
Defined.
