(* ===== verification/Callbacks.v ===== *)
(** [railone_callbacks]: the M-PESA callback processor.  A callback is
    authenticated, normalized, matched to its provider submission, recorded
    once in the inbox, applied to the RTT lifecycle and, on success, turned
    into a settlement. *)

From Stdlib Require Import Ascii String.
From S2P Require Import Prelude.
From S2P Require Import PyBase.
From S2P Require Import PyDict.
From S2P Require Import Bytes.
From S2P Require Import Sha256.
From S2P Require Import CanonicalJson.
From S2P Require Import Keys.
From S2P Require Import Signatures.
From S2P Require Import ExecutionStore.
From S2P Require Import Execution.
From S2P Require Import OperationsStore.
From S2P Require Import PyText.
From S2P Require Import PyJson.
From S2P Require Import Notifications.

(** ** [models.py] and [InMemoryCallbackInboxStore] *)
Inductive CallbackState := CB_RECEIVED | CB_APPLIED.
#[global] Instance CallbackState_eq_dec : EqDecision CallbackState.
Proof. solve_decision. Defined.

Record CallbackInboxRecord := {
  cb_provider_id : string;
  cb_provider_event_id : string;
  cb_payload_sha256 : string;
  cb_normalized_payload : mapping;
  cb_signature_valid : bool;
  cb_state : CallbackState;
  cb_received_at : instant;
  cb_applied_at : option instant;
}.

Record CallbackApplicationResult := Application {
  ap_provider_event_id : string;
  ap_rtt_id : string;
  ap_disposition : string;
  ap_duplicate : bool;
}.

Definition CallbackInbox : Type := dict (string * string) CallbackInboxRecord.
Implicit Types (inbox : CallbackInbox).

Definition new_callback (provider event hash : string) (normalized : mapping) (authentic : bool)
    (at_ : instant) : CallbackInboxRecord :=
  {| cb_provider_id := provider; cb_provider_event_id := event; cb_payload_sha256 := hash;
     cb_normalized_payload := normalized; cb_signature_valid := authentic;
     cb_state := CB_RECEIVED; cb_received_at := at_; cb_applied_at := None |}.

Definition ingest (provider event hash : string) (normalized : mapping) (authentic : bool)
    (at_ : instant) : M CallbackInbox (CallbackInboxRecord * bool) :=
  inbox ← getS;
  match dget inbox (provider, event) with
  | Some existing =>
      _ ← raise_if (negb (String.eqb (cb_payload_sha256 existing) hash))
            CallbackPayloadConflictError
            "provider callback identifier was reused with different material";
      mret (existing, true)
  | None =>
      let record := new_callback provider event hash normalized authentic at_ in
      _ ← putS (dset inbox (provider, event) record);
      mret (record, false)
  end.

(** [replace(record, state=APPLIED, applied_at=at)] *)
Definition applied_callback (r : CallbackInboxRecord) (at_ : instant) : CallbackInboxRecord :=
  {| cb_provider_id := cb_provider_id r; cb_provider_event_id := cb_provider_event_id r;
     cb_payload_sha256 := cb_payload_sha256 r;
     cb_normalized_payload := cb_normalized_payload r;
     cb_signature_valid := cb_signature_valid r; cb_state := CB_APPLIED;
     cb_received_at := cb_received_at r; cb_applied_at := Some at_ |}.

Definition mark_applied (provider event : string) (at_ : instant)
    : M CallbackInbox CallbackInboxRecord :=
  inbox ← getS;
  record ← require (dget inbox (provider, event)) LookupError "provider callback not found";
  if bool_decide (cb_state record = CB_APPLIED) then mret record
  else
    _ ← putS (dset inbox (provider, event) (applied_callback record at_));
    mret (applied_callback record at_).

(** ** [MpesaIngressAuthenticator] *)

(** [EnvironmentCallbackSecretProvider]: the value of the environment
    variable, if set. *)
Definition environment_secret (variable : option string) : res bytes :=
  secret ← utf8_encode (default EmptyString variable);
  _ ← raise_if (length secret <? 32)%nat RuntimeError
        "M-PESA ingress HMAC secret must contain at least 32 bytes";
  mret secret.

(** [text.removeprefix(p)] *)
Definition removeprefix (p s : string) : string := default s (eat_text p s).

(** [secret] is what the secret provider returns when it is asked. *)
Definition authenticate (secret : res bytes) (raw_body : bytes) (signature : string) : res bool :=
  let supplied := lower (strip (removeprefix "sha256=" signature)) in
  if negb (char_len supplied =? 64) then mret false
  else
    key ← secret;
    compare_digest (hex (hmac_sha256 key raw_body)) supplied.

(** ** Normalization *)

(** [_text] *)
Definition callback_text (value : mapping) (key : string) (maximum : Z) : res string :=
  match get value key with
  | Some (PStr t) =>
      _ ← raise_if (str_empty t || (maximum <? char_len t)) ValueError
            ("M-PESA " +:+ key +:+ " is invalid");
      mret t
  | _ => raise ValueError ("M-PESA " +:+ key +:+ " is invalid")
  end.

Definition allowed_keys : list string := ["TransactionAmount"; "TransactionReceipt"].

(** [key in allowed]; a key that cannot be hashed is a [TypeError]. *)
Definition allowed_key (key : option pyval) : res (option string) :=
  match key with
  | Some (PStr k) => mret (if bool_decide (k ∈ allowed_keys) then Some k else None)
  | Some (PList _) | Some (PDict _) => raise TypeError "unhashable type"
  | _ => mret None
  end.

Fixpoint read_parameters (items : list pyval) (acc : mapping) : res mapping :=
  match items with
  | [] => mret acc
  | PDict i :: items' =>
      key ← allowed_key (get i "Key");
      match key with
      | None => read_parameters items' acc
      | Some k =>
          match get i "Value" with
          | Some (PStr _ as v) | Some (PInt _ as v) =>
              read_parameters items' (dset acc (KStr k) v)
          | _ => raise ValueError "M-PESA result parameter value is invalid"
          end
      end
  | _ => raise ValueError "M-PESA result parameter must be an object"
  end.

(** [_allowed_parameters]; an absent [ResultParameter] is the tuple [()], which
    is no list either. *)
Definition allowed_parameters (value : option pyval) : res mapping :=
  match value with
  | None | Some PNone => mret []
  | Some (PDict m) =>
      match get m "ResultParameter" with
      | Some (PList items) => read_parameters items []
      | _ => raise ValueError "M-PESA ResultParameter must be an array"
      end
  | Some _ => raise ValueError "M-PESA ResultParameters must be an object"
  end.

Definition caught_by_normalize (k : exn_kind) : bool :=
  subclass k UnicodeDecodeError || subclass k JSONDecodeError || subclass k KeyError
  || subclass k TypeError.

(** What [_normalize] returns. *)
Record NormalizedCallback := Normalized {
  nc_conversation_id : string;
  nc_originator_conversation_id : string;
  nc_transaction_id : option string;
  nc_result_code : Z;
  nc_result_description : string;
  nc_parameters : mapping;
}.
Definition normalized_mapping (n : NormalizedCallback) : mapping :=
  fields [("conversation_id", PStr (nc_conversation_id n));
          ("originator_conversation_id", PStr (nc_originator_conversation_id n));
          ("transaction_id", opt_str (nc_transaction_id n));
          ("result_code", PInt (nc_result_code n));
          ("result_description", PStr (nc_result_description n));
          ("parameters", PDict (nc_parameters n))].

Definition read_transaction (v : option pyval) : res (option string) :=
  match v with
  | None | Some PNone => mret None
  | Some (PStr t) =>
      _ ← raise_if (128 <? char_len t) ValueError "M-PESA TransactionID is invalid";
      mret (Some t)
  | Some _ => raise ValueError "M-PESA TransactionID is invalid"
  end.

(** [depth] is the interpreter's recursion limit. *)
Definition normalize (depth : nat) (raw_body : bytes) : res NormalizedCallback :=
  result ← catch_res caught_by_normalize
    (text ← decode_utf8 raw_body;
     value ← json_loads depth text;
     m ← as_mapping value;
     item m "Result")
    (λ _, raise ValueError "invalid M-PESA callback envelope");
  match result with
  | PDict m =>
      conversation ← callback_text m "ConversationID" 128;
      originator ← callback_text m "OriginatorConversationID" 128;
      transaction ← read_transaction (get m "TransactionID");
      code ← match get m "ResultCode" with
             | Some (PInt n) => mret n
             | _ => raise ValueError "M-PESA ResultCode must be an integer"
             end;
      description ← match default (PStr EmptyString) (get m "ResultDesc") with
                    | PStr t => mret t
                    | _ => raise ValueError "M-PESA ResultDesc must be text"
                    end;
      parameters ← allowed_parameters (get m "ResultParameters");
      mret (Normalized conversation originator transaction code (char_take 256 description)
              parameters)
  | _ => raise ValueError "M-PESA Result must be an object"
  end.

(** [dict(submission.provider_context).get(key)] *)
Definition context_get (context : list (string * string)) (key : string) : option string :=
  dget (foldl (λ d kv, dset d kv.1 kv.2) [] context) key.

(** [_verify_success_evidence] *)
Definition callback_amount (v : option pyval) : res Z :=
  match v with
  | Some (PInt n) => mret n
  | Some (PStr t) =>
      if isdigit t then py_int t
      else raise ValueError "M-PESA success omitted an integer TransactionAmount"
  | _ => raise ValueError "M-PESA success omitted an integer TransactionAmount"
  end.

Definition verify_success_evidence (n : NormalizedCallback) (context : list (string * string))
    : res unit :=
  match nc_transaction_id n with
  | None | Some EmptyString =>
      raise ValueError "successful M-PESA callback omitted TransactionID"
  | Some transaction =>
      match context_get context "amount_minor" with
      | Some expected =>
          _ ← raise_if (negb (isdigit expected)) RuntimeError
                "M-PESA submission is missing its expected amount";
          amount ← callback_amount (get (nc_parameters n) "TransactionAmount");
          expected_minor ← py_int expected;
          _ ← raise_if (negb (amount * 100 =? expected_minor)) PermissionError
                "M-PESA callback amount does not match the dispatched request";
          match get (nc_parameters n) "TransactionReceipt" with
          | None => mret tt
          | Some receipt =>
              raise_if (negb (bool_decide (receipt = PStr transaction))) PermissionError
                "M-PESA callback receipt does not match TransactionID"
          end
      | None => raise RuntimeError "M-PESA submission is missing its expected amount"
      end
  end.

(** ** [MpesaCallbackProcessor] *)
Definition MPESA : string := "MPESA-KE".
Inductive callback_type := RESULT | TIMEOUT.
Definition callback_type_text (t : callback_type) : string :=
  match t with RESULT => "RESULT" | TIMEOUT => "TIMEOUT" end.

(** The stores that a callback may change. *)
Record CallbackStores := Stores {
  cs_inbox : CallbackInbox;
  cs_executions : ExecutionStore;
  cs_settlements : SettlementStore;
}.
Definition on_inbox {A} : M CallbackInbox A → M CallbackStores A :=
  zoom cs_inbox (λ i w, Stores i (cs_executions w) (cs_settlements w)).
Definition on_executions {A} : M ExecutionStore A → M CallbackStores A :=
  zoom cs_executions (λ e w, Stores (cs_inbox w) e (cs_settlements w)).
Definition on_settlements {A} : M SettlementStore A → M CallbackStores A :=
  zoom cs_settlements (λ x w, Stores (cs_inbox w) (cs_executions w) x).

Section processor.
Context {P : Type} `{!SigningKeyProvider P} `{Ed25519}.

Record CallbackEnv := {
  ce_secret : res bytes;
  ce_operations : OperationsStore;
  ce_settlements : option (SettlementEnv P);
  ce_retryable_codes : list Z;
  ce_recursion_limit : nat;
}.
Implicit Types (env : CallbackEnv).

(** A correlated callback: its submission and its normalized content, before
    anything is stored. *)
Definition correlate env (type : callback_type) (raw_body : bytes)
    : res (ProviderSubmissionRecord * NormalizedCallback * bool) :=
  n ← normalize (ce_recursion_limit env) raw_body;
  submission ← require (find_by_external_reference (ce_operations env) MPESA
                          (nc_conversation_id n)) LookupError
                 "M-PESA callback has no matching provider submission";
  let context := sub_context submission in
  _ ← raise_if (negb (bool_decide (context_get context "originator_conversation_id"
                                   = Some (nc_originator_conversation_id n))))
        PermissionError "M-PESA callback correlation mismatch";
  let success := match type with RESULT => nc_result_code n =? 0 | TIMEOUT => false end in
  _ ← (if success then verify_success_evidence n context else mret tt);
  mret (submission, n, success).

Definition event_id (type : callback_type) (n : NormalizedCallback) : string :=
  "MPESA-" +:+ callback_type_text type +:+ "-" +:+ nc_conversation_id n.

(** The branches of [_process] once the callback is in the inbox: what happens
    to the attempt, and the disposition that is reported. *)
Definition apply_timeout (rtt : string) (state : AttemptState) (at_ : instant)
    : M CallbackStores string :=
  _ ← match state with
      | RTT_CREATED =>
          _ ← on_executions (record_failure rtt "MPESA_CALLBACK_TIMEOUT"
                FAIL_RECONCILIATION_REQUIRED 0 (Some (Aware at_)) 0);
          mret tt
      | RTT_RECONCILIATION_REQUIRED => mret tt
      | _ => raise RuntimeError "timeout callback conflicts with finalized RTT"
      end;
  mret "RECONCILIATION_REQUIRED".

Definition apply_success env (submission : ProviderSubmissionRecord) (rtt : string)
    (state : AttemptState) (transaction event : string) (at_ : instant)
    : M CallbackStores string :=
  _ ← match state with
      | RTT_CREATED =>
          _ ← on_executions (record_success rtt 0 (Some (Aware at_)) 0); mret tt
      | RTT_RECONCILIATION_REQUIRED =>
          _ ← on_executions (resolve_reconciliation rtt true 0 None FAIL_TERMINAL
                (Some (Aware at_)) 0);
          mret tt
      | RTT_SUCCEEDED => mret tt
      | _ => raise RuntimeError "success callback conflicts with finalized RTT"
      end;
  _ ← match ce_settlements env with
      | None => mret tt
      | Some settlements =>
          w ← getS;
          _ ← on_settlements (confirm_provider_settlement settlements (cs_executions w)
                (sub_utt_id submission) MPESA transaction event (Some (Aware at_)) 0);
          mret tt
      end;
  mret "CONFIRMED_SUCCESS".

Definition apply_failure env (rtt : string) (state : AttemptState) (code : Z) (at_ : instant)
    : M CallbackStores string :=
  let retryable := bool_decide (code ∈ ce_retryable_codes env) in
  let d := if retryable then FAIL_RETRYABLE else FAIL_TERMINAL in
  let text := "MPESA_RESULT_" +:+ str_int code in
  _ ← match state with
      | RTT_CREATED =>
          _ ← on_executions (record_failure rtt text d 0 (Some (Aware at_)) 0); mret tt
      | RTT_RECONCILIATION_REQUIRED =>
          _ ← on_executions (resolve_reconciliation rtt false 0 (Some text) d
                (Some (Aware at_)) 0);
          mret tt
      | RTT_FAILED => mret tt
      | _ => raise RuntimeError "failure callback conflicts with finalized RTT"
      end;
  mret (if retryable then "CONFIRMED_RETRYABLE_FAILURE" else "CONFIRMED_TERMINAL_FAILURE").

Definition apply_callback env (type : callback_type) (submission : ProviderSubmissionRecord)
    (n : NormalizedCallback) (success : bool) (event : string) (at_ : instant)
    : M CallbackStores string :=
  w ← getS;
  attempt ← lift (require_attempt (cs_executions w) (sub_rtt_id submission));
  match type with
  | TIMEOUT => apply_timeout (rtt_id attempt) (rtt_state attempt) at_
  | RESULT =>
      if success
      then apply_success env submission (rtt_id attempt) (rtt_state attempt)
             (default EmptyString (nc_transaction_id n)) event at_
      else apply_failure env (rtt_id attempt) (rtt_state attempt) (nc_result_code n) at_
  end.

(** A callback that the gateway did not sign leaves a trace in the inbox. *)
Definition reject_callback (raw_body : bytes) (at_ : instant)
    : M CallbackStores CallbackApplicationResult :=
  let hash := sha256_hex raw_body in
  _ ← on_inbox (ingest MPESA ("MPESA-REJECTED-" +:+ str_take 32 (upper hash)) hash [] false at_);
  raise PermissionError "M-PESA callback ingress authentication failed".

(** [_process] *)
Definition process env (type : callback_type) (raw_body : bytes) (ingress_signature : string)
    (at_ : option datetime) (clock : instant) : M CallbackStores CallbackApplicationResult :=
  now ← lift (aware "callback timestamp must be timezone-aware" (or_now at_ clock));
  _ ← raise_if (65536 <? Z.of_nat (length raw_body)) ValueError "M-PESA callback exceeds 64 KiB";
  authentic ← lift (authenticate (ce_secret env) raw_body ingress_signature);
  if negb authentic then reject_callback raw_body now
  else
    '(submission, n, success) ← lift (correlate env type raw_body);
    let event := event_id type n in
    b ← lift (canonical_json_bytes (PDict (normalized_mapping n)));
    '(record, duplicate) ← on_inbox (ingest MPESA event (sha256_hex b) (normalized_mapping n)
                                       true now);
    if bool_decide (cb_state record = CB_APPLIED)
    then mret (Application event (sub_rtt_id submission) "ALREADY_APPLIED" true)
    else
      disposition ← apply_callback env type submission n success event now;
      _ ← on_inbox (mark_applied MPESA event now);
      mret (Application event (sub_rtt_id submission) disposition duplicate).
End processor.
Arguments CallbackEnv : clear implicits.
