(* ===== verification/CallbackFacts.v ===== *)
(** How a callback runs, step by step: the lemmas behind the guarantees. *)

From Stdlib Require Import Ascii String.
From S2P Require Import Prelude.
From S2P Require Import PyBase.
From S2P Require Import PyDict.
From S2P Require Import Bytes.
From S2P Require Import Sha256.
From S2P Require Import CanonicalJson.
From S2P Require Import CanonicalFacts.
From S2P Require Import Keys.
From S2P Require Import Signatures.
From S2P Require Import ContractModels.
From S2P Require Import Contracts.
From S2P Require Import Routing.
From S2P Require Import ExecutionStore.
From S2P Require Import Authority.
From S2P Require Import Execution.
From S2P Require Import ExecutionFacts.
From S2P Require Import ExecutionProtocol.
From S2P Require Import ExecutionClaims.
From S2P Require Import HistoryFacts.
From S2P Require Import OperationsStore.
From S2P Require Import PyText.
From S2P Require Import PyJson.
From S2P Require Import Notifications.
From S2P Require Import NotificationFacts.
From S2P Require Import Callbacks.

Implicit Types (w : CallbackStores).

(** ** The inbox *)
Definition callback_at w (event : string) : option CallbackInboxRecord :=
  dget (cs_inbox w) (MPESA, event).

Definition with_callback w (event : string) (r : CallbackInboxRecord) : CallbackStores :=
  Stores (dset (cs_inbox w) (MPESA, event) r) (cs_executions w) (cs_settlements w).

Lemma callback_at_with w event r event' :
  callback_at (with_callback w event r) event' =
  if decide (event = event') then Some r else callback_at w event'.
Proof.
  unfold callback_at, with_callback. cbn. rewrite dget_dset.
  repeat case_decide; congruence.
Qed.

(** [ingest] of the processor, by what the inbox holds. *)
Lemma ingest_run event hash payload authentic t w :
  on_inbox (ingest MPESA event hash payload authentic t) w =
  match callback_at w event with
  | Some r =>
      if decide (cb_payload_sha256 r = hash) then (Ok (r, true), w)
      else (Err (Exn CallbackPayloadConflictError
              "provider callback identifier was reused with different material"), w)
  | None =>
      let r := new_callback MPESA event hash payload authentic t in
      (Ok (r, false), with_callback w event r)
  end.
Proof.
  unfold on_inbox, zoom, ingest, callback_at, getS, putS, mbind, M_bind, mret, M_ret. cbn.
  destruct (dget (cs_inbox w) (MPESA, event)) as [r|]; [|done]. cbn.
  destruct (String.eqb_spec (cb_payload_sha256 r) hash).
  - rewrite decide_True by done. by destruct w.
  - rewrite decide_False by done. by destruct w.
Qed.

Lemma mark_run event t w r :
  callback_at w event = Some r →
  on_inbox (mark_applied MPESA event t) w =
  if decide (cb_state r = CB_APPLIED) then (Ok r, w)
  else (Ok (applied_callback r t), with_callback w event (applied_callback r t)).
Proof.
  unfold on_inbox, zoom, mark_applied, callback_at, getS, putS, require, bool_decide,
    mbind, M_bind, mret, M_ret. cbn. intros ->.
  change (decide_rel eq (cb_state r) CB_APPLIED) with (decide (cb_state r = CB_APPLIED)).
  destruct (decide (cb_state r = CB_APPLIED)); by destruct w.
Qed.

(** ** Authentication *)
Definition supplied_signature (signature : string) : string :=
  lower (strip (removeprefix "sha256=" signature)).

Lemma authenticate_ok secret raw signature :
  authenticate secret raw signature = Ok true →
  ∃ key, secret = Ok key ∧ supplied_signature signature = hex (hmac_sha256 key raw).
Proof.
  unfold authenticate. fold (supplied_signature signature).
  destruct (char_len (supplied_signature signature) =? 64); cbn [negb]; [|done].
  rewrite res_bind_ok. intros (key & Hk & Hc). exists key. split; [done|].
  apply compare_digest_ok in Hc as (_ & _ & Heq). symmetry in Heq.
  by apply String.eqb_eq in Heq.
Qed.

(** A signature of the right length that is not ASCII is not refused: the
    comparison raises. *)
Lemma non_ascii_signature_raises key raw signature :
  char_len (supplied_signature signature) = 64 → is_ascii (supplied_signature signature) = false →
  ∃ msg, authenticate (Ok key) raw signature = Err (Exn TypeError msg).
Proof.
  unfold authenticate. fold (supplied_signature signature). intros Hlen Ha. rewrite Hlen. eexists.
  cbn [negb Z.eqb Pos.eqb mbind res_bind]. unfold compare_digest. rewrite Ha, andb_false_r. reflexivity.
Qed.

(** The default of an absent [ResultParameter] is refused. *)
Lemma empty_result_parameters :
  allowed_parameters None = Ok [] ∧ ∃ msg, allowed_parameters (Some (PDict [])) = Err (Exn ValueError msg).
Proof. split; [done|]. by eexists. Qed.

Section runs.
Context {P : Type} `{!SigningKeyProvider P} `{Ed25519}.
Implicit Types (env : CallbackEnv P).

(** [process], by its stages. *)
Lemma process_run env type raw signature at_ clock w :
  process env type raw signature at_ clock w =
  match aware "callback timestamp must be timezone-aware" (or_now at_ clock) with
  | Err e => (Err e, w)
  | Ok now =>
      if 65536 <? Z.of_nat (length raw)
      then (Err (Exn ValueError "M-PESA callback exceeds 64 KiB"), w) else
      match authenticate (ce_secret env) raw signature with
      | Err e => (Err e, w)
      | Ok false => reject_callback raw now w
      | Ok true =>
          match correlate env type raw with
          | Err e => (Err e, w)
          | Ok (submission, n, success) =>
              match canonical_json_bytes (PDict (normalized_mapping n)) with
              | Err e => (Err e, w)
              | Ok b =>
                  let event := event_id type n in
                  match on_inbox (ingest MPESA event (sha256_hex b) (normalized_mapping n) true now) w with
                  | (Err e, w1) => (Err e, w1)
                  | (Ok (r, duplicate), w1) =>
                      if decide (cb_state r = CB_APPLIED)
                      then (Ok (Application event (sub_rtt_id submission) "ALREADY_APPLIED" true), w1)
                      else
                        match apply_callback env type submission n success event now w1 with
                        | (Err e, w2) => (Err e, w2)
                        | (Ok disposition, w2) =>
                            match on_inbox (mark_applied MPESA event now) w2 with
                            | (Err e, w3) => (Err e, w3)
                            | (Ok _, w3) =>
                                (Ok (Application event (sub_rtt_id submission) disposition duplicate), w3)
                            end
                        end
                  end
              end
          end
      end
  end.
Proof.
  unfold process, lift, raise_if, bool_decide, mbind, M_bind, mret, M_ret. cbv zeta.
  destruct (aware _ _) as [now|e]; [|done]. lazy beta iota.
  destruct (65536 <? Z.of_nat (length raw)); [done|].
  destruct (authenticate _ _ _) as [[]|e]; cbn [negb]; [|done..]. lazy beta iota.
  destruct (correlate env type raw) as [[[submission n] success]|e]; [|done]. lazy beta iota.
  destruct (canonical_json_bytes _) as [b|e]; [|done]. lazy beta iota.
  destruct (on_inbox _ w) as [[[r duplicate]|e] w1]; [|done]. lazy beta iota.
  change (decide_rel eq (cb_state r) CB_APPLIED) with (decide (cb_state r = CB_APPLIED)).
  destruct (decide (cb_state r = CB_APPLIED)); [done|]. lazy beta iota.
  destruct (apply_callback _ _ _ _ _ _ _ w1) as [[disposition|e] w2]; [|done]. lazy beta iota.
  by destruct (on_inbox _ w2) as [[x|e] w3].
Qed.

(** An operation of the RTT lifecycle that a callback performs. *)
Definition rtt_move (rtt : string) (t : instant) (ex ex' : ExecutionStore) (y : res ExecutionPlan)
    : Prop :=
  (∃ code d, record_failure rtt code d 0 (Some (Aware t)) 0 ex = (y, ex')) ∨
  record_success rtt 0 (Some (Aware t)) 0 ex = (y, ex') ∨
  (∃ ok code d, resolve_reconciliation rtt ok 0 code d (Some (Aware t)) 0 ex = (y, ex')).

(** The effect of a branch on the stores: the inbox is left alone, the
    executions move at most once, and settlements are confirmed against the
    executions that resulted. *)
Definition branch_effect env (submission : ProviderSubmissionRecord) (rtt transaction event : string)
    (t : instant) w w' : Prop :=
  cs_inbox w' = cs_inbox w ∧
  (cs_executions w' = cs_executions w ∨
   ∃ y, rtt_move rtt t (cs_executions w) (cs_executions w') y) ∧
  (cs_settlements w' = cs_settlements w ∨
   ∃ se y, ce_settlements env = Some se ∧
     confirm_provider_settlement se (cs_executions w') (sub_utt_id submission) MPESA transaction
       event (Some (Aware t)) 0 (cs_settlements w) = (y, cs_settlements w')).

(** The effect of a branch that only moves the attempt; the move fails with
    the branch. *)
Definition move_effect {A} (rtt : string) (t : instant) w (x : res A) w' : Prop :=
  cs_inbox w' = cs_inbox w ∧ cs_settlements w' = cs_settlements w ∧
  (cs_executions w' = cs_executions w ∨
   ∃ y, rtt_move rtt t (cs_executions w) (cs_executions w') y ∧ is_ok y = is_ok x).

Lemma move_branch {A} env submission rtt transaction event t w (x : res A) w' :
  move_effect rtt t w x w' → branch_effect env submission rtt transaction event t w w'.
Proof.
  intros (Hi & Hs & [He|(y & Hy & _)]); (split; [done|]); (split; [|by left]); [by left|right; eauto].
Qed.

Lemma move_idle {A} rtt t w (x : res A) : move_effect rtt t w x w.
Proof. split; [done|]. split; [done|by left]. Qed.

(** Runs one operation on the executions inside a branch. *)
Lemma on_executions_run {A} (m : M ExecutionStore A) w y ex :
  m (cs_executions w) = (y, ex) →
  on_executions m w = (y, Stores (cs_inbox w) ex (cs_settlements w)).
Proof. unfold on_executions, zoom. by intros ->. Qed.

Lemma apply_timeout_effect rtt state t w x w' :
  apply_timeout rtt state t w = (x, w') →
  move_effect rtt t w x w' ∧ (is_ok x = true → x = Ok "RECONCILIATION_REQUIRED").
Proof.
  unfold apply_timeout, mbind, M_bind, mret, M_ret.
  destruct state; try (intros [= <- <-]; by split; [apply move_idle|]).
  destruct (record_failure rtt "MPESA_CALLBACK_TIMEOUT" FAIL_RECONCILIATION_REQUIRED 0
    (Some (Aware t)) 0 (cs_executions w)) as [y ex] eqn:Hm.
  rewrite (on_executions_run _ w y ex Hm).
  intros Hx. assert (w' = Stores (cs_inbox w) ex (cs_settlements w)) as ->
    by (destruct y; by injection Hx).
  split; [|destruct y; by injection Hx as <-].
  split; [done|]. split; [done|]. right. exists y. split; [left; eauto|destruct y; by injection Hx as <-].
Qed.

Lemma apply_failure_effect env rtt state code t w x w' :
  apply_failure env rtt state code t w = (x, w') →
  move_effect rtt t w x w' ∧ x ≠ Ok "CONFIRMED_SUCCESS".
Proof.
  unfold apply_failure, mbind, M_bind, mret, M_ret. cbv zeta.
  set (b := bool_decide (code ∈ ce_retryable_codes env)).
  assert (∀ z w1, (match (z : res unit) with Ok _ => (Ok (if b then "CONFIRMED_RETRYABLE_FAILURE"
    else "CONFIRMED_TERMINAL_FAILURE"), w1) | Err e => (Err e, w1) end) = (x, w') →
    w' = w1 ∧ is_ok z = is_ok x ∧ x ≠ Ok "CONFIRMED_SUCCESS") as Hend
    by (intros [] w1 [= <- <-]; by destruct b).
  destruct state;
    try (intros [= <- <-]; by split; [apply move_idle|destruct b]).
  - destruct (record_failure rtt ("MPESA_RESULT_" +:+ str_int code)
      (if b then FAIL_RETRYABLE else FAIL_TERMINAL) 0 (Some (Aware t)) 0 (cs_executions w))
      as [y ex] eqn:Hm.
    rewrite (on_executions_run _ w y ex Hm). intros Hx.
    destruct (Hend (match y with Ok _ => Ok tt | Err e => Err e end)
      (Stores (cs_inbox w) ex (cs_settlements w))) as (-> & Hok & ?); [by destruct y|].
    split; [|done]. split; [done|]. split; [done|]. right. exists y.
    split; [left; eauto|by destruct y].
  - destruct (resolve_reconciliation rtt false 0 (Some ("MPESA_RESULT_" +:+ str_int code))
      (if b then FAIL_RETRYABLE else FAIL_TERMINAL) (Some (Aware t)) 0 (cs_executions w))
      as [y ex] eqn:Hm.
    rewrite (on_executions_run _ w y ex Hm). intros Hx.
    destruct (Hend (match y with Ok _ => Ok tt | Err e => Err e end)
      (Stores (cs_inbox w) ex (cs_settlements w))) as (-> & Hok & ?); [by destruct y|].
    split; [|done]. split; [done|]. split; [done|]. right. exists y.
    split; [right; right; eauto|by destruct y].
Qed.

(** The RTT part of a success, and the settlement after it. *)
Definition record_part rtt state (t : instant) : M CallbackStores unit :=
  match state with
  | RTT_CREATED => _ ← on_executions (record_success rtt 0 (Some (Aware t)) 0); mret tt
  | RTT_RECONCILIATION_REQUIRED =>
      _ ← on_executions (resolve_reconciliation rtt true 0 None FAIL_TERMINAL (Some (Aware t)) 0);
      mret tt
  | RTT_SUCCEEDED => mret tt
  | _ => raise RuntimeError "success callback conflicts with finalized RTT"
  end.
Definition settle_part env (submission : ProviderSubmissionRecord) (transaction event : string)
    (t : instant) : M CallbackStores unit :=
  match ce_settlements env with
  | None => mret tt
  | Some settlements =>
      w ← getS;
      _ ← on_settlements (confirm_provider_settlement settlements (cs_executions w)
            (sub_utt_id submission) MPESA transaction event (Some (Aware t)) 0);
      mret tt
  end.

Lemma apply_success_parts env submission rtt state transaction event t w :
  apply_success env submission rtt state transaction event t w =
  match record_part rtt state t w with
  | (Err e, w1) => (Err e, w1)
  | (Ok _, w1) =>
      match settle_part env submission transaction event t w1 with
      | (Err e, w2) => (Err e, w2)
      | (Ok _, w2) => (Ok "CONFIRMED_SUCCESS", w2)
      end
  end.
Proof. reflexivity. Qed.

Lemma record_part_cases rtt state t w x w' :
  record_part rtt state t w = (x, w') →
  cs_inbox w' = cs_inbox w ∧ cs_settlements w' = cs_settlements w ∧
  ((w' = w ∧ (is_ok x = true → state = RTT_SUCCEEDED)) ∨
   ∃ y, is_ok y = is_ok x ∧
     (state = RTT_CREATED ∧ record_success rtt 0 (Some (Aware t)) 0 (cs_executions w) = (y, cs_executions w') ∨
      state = RTT_RECONCILIATION_REQUIRED ∧
      resolve_reconciliation rtt true 0 None FAIL_TERMINAL (Some (Aware t)) 0 (cs_executions w)
      = (y, cs_executions w'))).
Proof.
  unfold record_part, mbind, M_bind, mret, M_ret.
  destruct state; try (intros [= <- <-]; repeat split; by left).
  - destruct (record_success _ _ _ _ (cs_executions w)) as [y ex] eqn:Hm.
    rewrite (on_executions_run _ w y ex Hm). intros Hx.
    assert (w' = Stores (cs_inbox w) ex (cs_settlements w)) as -> by (destruct y; by injection Hx).
    split; [done|]. split; [done|]. right. exists y. split; [by destruct y; injection Hx as <-|by left].
  - destruct (resolve_reconciliation _ _ _ _ _ _ _ (cs_executions w)) as [y ex] eqn:Hm.
    rewrite (on_executions_run _ w y ex Hm). intros Hx.
    assert (w' = Stores (cs_inbox w) ex (cs_settlements w)) as -> by (destruct y; by injection Hx).
    split; [done|]. split; [done|]. right. exists y. split; [by destruct y; injection Hx as <-|by right].
Qed.

Lemma settle_part_run env submission transaction event t w :
  settle_part env submission transaction event t w =
  match ce_settlements env with
  | None => (Ok tt, w)
  | Some se =>
      let '(y, st) := confirm_provider_settlement se (cs_executions w) (sub_utt_id submission)
                        MPESA transaction event (Some (Aware t)) 0 (cs_settlements w) in
      (match y with Ok _ => Ok tt | Err e => Err e end, Stores (cs_inbox w) (cs_executions w) st)
  end.
Proof.
  unfold settle_part. destruct (ce_settlements env) as [se|]; [|done].
  unfold getS, on_settlements, zoom, mbind, M_bind, mret, M_ret.
  destruct (confirm_provider_settlement _ _ _ _ _ _ _ _ (cs_settlements w)) as [[r|e] st]; done.
Qed.

Lemma apply_success_effect env submission rtt state transaction event t w x w' :
  apply_success env submission rtt state transaction event t w = (x, w') →
  branch_effect env submission rtt transaction event t w w'.
Proof.
  rewrite apply_success_parts.
  destruct (record_part rtt state t w) as [z w1] eqn:Hr.
  apply record_part_cases in Hr as (Hi & Hs & Hr).
  assert (cs_executions w1 = cs_executions w ∨
    ∃ y, rtt_move rtt t (cs_executions w) (cs_executions w1) y) as Hm.
  { destruct Hr as [(-> & _)|(y & _ & [[_ Hy]|[_ Hy]])]; [by left|right|right];
      exists y; unfold rtt_move; eauto 10. }
  destruct z as [[]|e]; [|intros [= _ <-]; split; [done|]; split; [done|by left]].
  rewrite settle_part_run. destruct (ce_settlements env) as [se|] eqn:Hse;
    [|intros [= _ <-]; split; [done|]; split; [done|by left]].
  destruct (confirm_provider_settlement _ _ _ _ _ _ _ _ _) as [y st] eqn:Hc.
  intros Hx. assert (w' = Stores (cs_inbox w1) (cs_executions w1) st) as -> by (destruct y; by injection Hx).
  split; [done|]. split; [done|]. right. exists se, y. split; [done|]. cbn. by rewrite <- Hs.
Qed.

(** Every branch. *)
Lemma apply_callback_effect env type submission n success event t w x w' :
  apply_callback env type submission n success event t w = (x, w') →
  (w' = w ∧ ∃ e, x = Err e) ∨
  ∃ a, require_attempt (cs_executions w) (sub_rtt_id submission) = Ok a ∧
    branch_effect env submission (rtt_id a) (default EmptyString (nc_transaction_id n)) event t w w'.
Proof.
  unfold apply_callback. rewrite run_get_bind. unfold lift, mbind, M_bind.
  destruct (require_attempt _ _) as [a|e]; [|intros [= <- <-]; left; eauto].
  intros Hx. right. exists a. split; [done|]. destruct type; [destruct success|].
  - by eapply apply_success_effect.
  - apply apply_failure_effect in Hx as [? _]. by eapply move_branch.
  - apply apply_timeout_effect in Hx as [? _]. by eapply move_branch.
Qed.
End runs.

(** ** Identifiers of started attempts carry no blanks *)
Section clean.
Context {P : Type} `{!SigningKeyProvider P} `{Ed25519} {V : Type} (xenv : ExecutionEnv P V).

(** An operation of a callback is at most one lifecycle step. *)
Lemma rtt_move_step rtt t ex ex' y :
  exec_wf ex → strip rtt = rtt → rtt_move rtt t ex ex' y →
  ex' = ex ∨ plan_step xenv ex ex' ∧ is_ok y = true.
Proof.
  intros Hwf Hclean Hm.
  assert (∃ x at_ clock, run_report x rtt at_ clock ex = (y, ex')) as (x & at_ & clock & Hx).
  { destruct Hm as [(code & d & Hm)|[Hm|(ok & code & d & Hm)]];
      [exists (ReportFailure code d 0)|exists (ReportSuccess 0)|exists (ReportResolution ok 0 code d)];
      eauto. }
  destruct (report_atomic xenv _ _ _ _ _ _ _ Hwf Hclean Hx) as [[_ ?]|(p & -> & ? & _)]; auto.
Qed.
End clean.

(** ** A success that was applied *)
Lemma success_stored q a rtt cost now p a' v ex ex' :
  next_success q a rtt cost now = (p, a') → commit_transition v p a' ex = (Ok tt, ex') →
  attempts ex' !! rtt_id a = Some a' ∧ rtt_state a' = RTT_SUCCEEDED.
Proof.
  unfold next_success. intros [= <- <-] (_ & _ & ->)%commit_transition_ok.
  unfold put_both. cbn. by rewrite lookup_insert_eq.
Qed.

Lemma record_part_success k a t w w' :
  exec_wf (cs_executions w) →
  require_attempt (cs_executions w) k = Ok a →
  record_part (rtt_id a) (rtt_state a) t w = (Ok tt, w') →
  ∃ a', require_attempt (cs_executions w') k = Ok a' ∧ rtt_state a' = RTT_SUCCEEDED.
Proof.
  intros Hwf Ha Hr. unfold require_attempt in Ha.
  apply (proj1 (res_require_ok _ _ _ _)) in Ha. destruct (ew_attempt _ Hwf _ _ Ha) as [[Hid Hk] _].
  assert (∀ a', attempts (cs_executions w') !! k = Some a' → rtt_state a' = RTT_SUCCEEDED →
    ∃ a', require_attempt (cs_executions w') k = Ok a' ∧ rtt_state a' = RTT_SUCCEEDED) as Hfound.
  { intros a' Ha' Hs. exists a'. split; [|done]. unfold require_attempt. by rewrite Ha'. }
  apply record_part_cases in Hr as (_ & _ & [(-> & Hst)|(y & Hy & Hop)]); [by eapply Hfound, Hst|].
  destruct y as [p|]; [|done]. destruct Hop as [[_ Hop]|[_ Hop]].
  - apply record_success_ok in Hop as (now & q & b & a' & Hb & _ & _ & _ & Hn & Hc).
    destruct (success_stored _ _ _ _ _ _ _ _ _ _ Hn Hc) as [Hin Hs].
    rewrite Hid, Hk, Ha in Hb. injection Hb as <-. rewrite Hid in Hin. by eapply Hfound.
  - apply resolve_success_ok in Hop as (now & q & b & a' & Hb & Hn & Hc).
    destruct (success_stored _ _ _ _ _ _ _ _ _ _ Hn Hc) as [Hin Hs].
    rewrite Hid, Hk, Ha in Hb. injection Hb as <-. rewrite Hid in Hin. by eapply Hfound.
Qed.

(** The evidence that a successful callback carries. *)
Lemma success_evidence_ok n context u :
  verify_success_evidence n context = Ok u →
  ∃ transaction expected amount minor,
    nc_transaction_id n = Some transaction ∧ transaction ≠ EmptyString ∧
    context_get context "amount_minor" = Some expected ∧ py_int expected = Ok minor ∧
    callback_amount (get (nc_parameters n) "TransactionAmount") = Ok amount ∧
    amount * 100 = minor ∧
    (∀ r, get (nc_parameters n) "TransactionReceipt" = Some r → r = PStr transaction).
Proof.
  unfold verify_success_evidence. destruct (nc_transaction_id n) as [[|c t]|]; [done| |done].
  destruct (context_get context "amount_minor") as [e|]; [|done]. intros Hv. inv_ok Hv. guards.
  eexists _, e, _, _. split; [done|]. split; [done|]. split; [done|]. split; [done|].
  split; [done|]. split; [done|]. intros r Hr. rewrite Hr in Hv. inv_ok Hv. guards. done.
Qed.

Lemma correlate_ok `{SigningKeyProvider P} (env : CallbackEnv P) type raw submission n success :
  correlate env type raw = Ok (submission, n, success) →
  normalize (ce_recursion_limit env) raw = Ok n ∧
  find_by_external_reference (ce_operations env) MPESA (nc_conversation_id n) = Some submission ∧
  context_get (sub_context submission) "originator_conversation_id"
  = Some (nc_originator_conversation_id n) ∧
  success = match type with RESULT => nc_result_code n =? 0 | TIMEOUT => false end ∧
  (success = true → verify_success_evidence n (sub_context submission) = Ok tt).
Proof.
  unfold correlate. intros Hc. inv_ok Hc. guards. injection Hc as <- <- Hsuccess.
  rewrite <- Hsuccess in *. repeat (split; [done|]). intros ->.
  by match goal with Hv : _ = Ok ?u |- _ = Ok tt => destruct u; exact Hv end.
Qed.
