(* ===== verification/CallbackClaims.v ===== *)
(** What the callback processor guarantees: only authenticated callbacks act,
    each acts once, a success settles exactly the dispatched payment, and an
    interrupted one is completed by its redelivery. *)

From Stdlib Require Import Ascii String.
From S2P Require Import Prelude.
From S2P Require Import PyBase.
From S2P Require Import PyDict.
From S2P Require Import Bytes.
From S2P Require Import Sha256.
From S2P Require Import CanonicalJson.
From S2P Require Import CanonicalFacts.
From S2P Require Import Keys.
From S2P Require Import Signatures.
From S2P Require Import ContractModels.
From S2P Require Import Contracts.
From S2P Require Import Routing.
From S2P Require Import ExecutionStore.
From S2P Require Import Execution.
From S2P Require Import ExecutionFacts.
From S2P Require Import ExecutionProtocol.
From S2P Require Import ExecutionClaims.
From S2P Require Import OperationsStore.
From S2P Require Import PyText.
From S2P Require Import PyJson.
From S2P Require Import Notifications.
From S2P Require Import NotificationFacts.
From S2P Require Import NotificationClaims.
From S2P Require Import Callbacks.
From S2P Require Import CallbackFacts.

Implicit Types (w : CallbackStores).

Section claims.
Context {P : Type} `{!SigningKeyProvider P} `{Ed25519}.
Implicit Types (env : CallbackEnv P).

(** The inbox after a callback: hashes stay, applied records stay, and a new
    record appears at most under one event. *)
Definition inbox_le w w' : Prop :=
  ∀ event r, callback_at w event = Some r →
  ∃ r', callback_at w' event = Some r' ∧ cb_payload_sha256 r' = cb_payload_sha256 r ∧
    (cb_state r = CB_APPLIED → r' = r).
#[local] Instance inbox_le_po : PreOrder inbox_le.
Proof.
  split; [intros w event r Hr; by exists r|].
  intros w1 w2 w3 H12 H23 event r Hr. destruct (H12 event r Hr) as (r2 & Hr2 & Hh2 & Ha2).
  destruct (H23 event r2 Hr2) as (r3 & Hr3 & Hh3 & Ha3). exists r3.
  split; [done|]. split; [congruence|]. intros Ha. specialize (Ha2 Ha) as ->. by apply Ha3.
Qed.

Lemma inbox_le_same w w' : cs_inbox w' = cs_inbox w → inbox_le w w'.
Proof. intros Hi event r Hr. exists r. unfold callback_at in *. by rewrite Hi. Qed.

Lemma ingest_le event hash payload authentic t w x w' :
  on_inbox (ingest MPESA event hash payload authentic t) w = (x, w') →
  inbox_le w w' ∧ cs_executions w' = cs_executions w ∧ cs_settlements w' = cs_settlements w ∧
  (∀ r dup, x = Ok (r, dup) → callback_at w' event = Some r ∧ cb_payload_sha256 r = hash).
Proof.
  rewrite ingest_run. destruct (callback_at w event) as [r|] eqn:Hr.
  - case_decide; intros [= <- <-]; (split; [by apply inbox_le_same|]); (split; [done|]);
      (split; [done|]); [by intros ?? [= <- <-]|done].
  - cbv zeta. intros [= <- <-]. split; [|split; [done|split; [done|]]].
    + intros event' r' Hr'. exists r'. rewrite callback_at_with. by rewrite decide_False by congruence.
    + intros ?? [= <- <-]. rewrite callback_at_with. by rewrite decide_True.
Qed.

Lemma mark_le event t w r x w' :
  callback_at w event = Some r →
  on_inbox (mark_applied MPESA event t) w = (x, w') →
  inbox_le w w' ∧ is_ok x = true ∧ cs_executions w' = cs_executions w ∧
  cs_settlements w' = cs_settlements w ∧
  ∃ r', callback_at w' event = Some r' ∧ cb_state r' = CB_APPLIED ∧
    cb_payload_sha256 r' = cb_payload_sha256 r.
Proof.
  intros Hr. rewrite (mark_run _ _ _ _ Hr). case_decide as Ha; intros [= <- <-].
  { split; [done|]. repeat split; try done. by exists r. }
  split; [|repeat split; try done].
  - intros event' r' Hr'. rewrite callback_at_with. case_decide as Hd; [|by exists r'].
    subst. rewrite Hr in Hr'. injection Hr' as <-. by eexists.
  - eexists. rewrite callback_at_with, decide_True by done. done.
Qed.

(** How a run of [process] ends. *)
Inductive process_end env (type : callback_type) (raw : bytes) (t : instant) w
    : res CallbackApplicationResult → CallbackStores → Prop :=
  | end_refused e : process_end env type raw t w (Err e) w
  | end_already submission n success b r :
      correlate env type raw = Ok (submission, n, success) →
      canonical_json_bytes (PDict (normalized_mapping n)) = Ok b →
      callback_at w (event_id type n) = Some r → cb_state r = CB_APPLIED →
      cb_payload_sha256 r = sha256_hex b →
      process_end env type raw t w
        (Ok (Application (event_id type n) (sub_rtt_id submission) "ALREADY_APPLIED" true)) w
  | end_applied submission n success b r dup y w1 w2 x w3 :
      correlate env type raw = Ok (submission, n, success) →
      canonical_json_bytes (PDict (normalized_mapping n)) = Ok b →
      on_inbox (ingest MPESA (event_id type n) (sha256_hex b) (normalized_mapping n) true t) w
      = (Ok (r, dup), w1) →
      cb_state r = CB_RECEIVED →
      apply_callback env type submission n success (event_id type n) t w1 = (y, w2) →
      match y with
      | Err e => x = Err e ∧ w3 = w2
      | Ok disposition =>
          x = Ok (Application (event_id type n) (sub_rtt_id submission) disposition dup) ∧
          ∃ z, on_inbox (mark_applied MPESA (event_id type n) t) w2 = (Ok z, w3)
      end →
      process_end env type raw t w x w3.

Lemma process_ends env type raw signature at_ clock w x w' :
  process env type raw signature at_ clock w = (x, w') →
  (authenticate (ce_secret env) raw signature ≠ Ok true ∧ w' = w ∧ ∃ e, x = Err e) ∨
  (authenticate (ce_secret env) raw signature = Ok false ∧ ∃ t, reject_callback raw t w = (x, w')) ∨
  (authenticate (ce_secret env) raw signature = Ok true ∧ ∃ t, process_end env type raw t w x w').
Proof.
  rewrite process_run.
  destruct (authenticate (ce_secret env) raw signature) as [[]|e].
  2: { destruct (aware _ _) as [now|e]; [|intros [= <- <-]; left; eauto].
       destruct (65536 <? _); [intros [= <- <-]; left; eauto|]. intros Hr. right; left. eauto. }
  2: { destruct (aware _ _) as [now|e']; [|intros [= <- <-]; left; eauto].
       destruct (65536 <? _); intros [= <- <-]; left; eauto. }
  intros Hrun. right; right. split; [done|].
  destruct (aware _ _) as [now|e]; [|injection Hrun as <- <-; exists 0; constructor].
  destruct (65536 <? _); [injection Hrun as <- <-; exists 0; constructor|].
  exists now.
  destruct (correlate env type raw) as [[[submission n] success]|e] eqn:Hc;
    [|injection Hrun as <- <-; constructor].
  destruct (canonical_json_bytes _) as [b|e] eqn:Hb; [|injection Hrun as <- <-; constructor].
  cbv zeta in Hrun.
  destruct (on_inbox (ingest _ _ _ _ _ _) w) as [[[r dup]|e] w1] eqn:Hi.
  2: { injection Hrun as <- <-.
       assert (w1 = w) as ->; [|constructor].
       rewrite ingest_run in Hi. repeat case_match; by simplify_eq. }
  destruct (decide (cb_state r = CB_APPLIED)) as [Ha|Ha].
  { injection Hrun as <- <-. rewrite ingest_run in Hi.
    destruct (callback_at w (event_id type n)) as [r0|] eqn:Hr; [|by injection Hi as <- _ _].
    case_decide; [|done]. injection Hi as <- _ <-. by eapply end_already. }
  destruct (apply_callback _ _ _ _ _ _ _ w1) as [y w2] eqn:Hy.
  assert (cb_state r = CB_RECEIVED) as Hrec by (destruct (cb_state r); done).
  destruct y as [disposition|e]; [|injection Hrun as <- <-; by eapply end_applied].
  destruct (on_inbox (mark_applied _ _ _) w2) as [z w3] eqn:Hm.
  apply ingest_le in Hi as Hle. destruct Hle as (_ & _ & _ & Hat). destruct (Hat _ _ eq_refl) as [Hat' _].
  assert (callback_at w2 (event_id type n) = Some r) as Hr2.
  { destruct (apply_callback_effect _ _ _ _ _ _ _ _ _ _ Hy) as [[-> _]|(a & _ & Hin & _)]; [done|].
    unfold callback_at in *. by rewrite Hin. }
  destruct (mark_le _ _ _ _ _ _ Hr2 Hm) as (_ & Hz & _). destruct z as [z|]; [|done].
  injection Hrun as <- <-. eapply end_applied; [done..|]. cbn. eauto.
Qed.

(** The inbox of an applied callback, before and after the marking. *)
Lemma applied_inbox env type submission n success event hash payload t w r dup y w1 w2 :
  on_inbox (ingest MPESA event hash payload true t) w = (Ok (r, dup), w1) →
  apply_callback env type submission n success event t w1 = (y, w2) →
  inbox_le w w2 ∧ callback_at w2 event = Some r ∧ cb_payload_sha256 r = hash.
Proof.
  intros Hi Hy. apply ingest_le in Hi as (Hle & _ & _ & Hat). destruct (Hat _ _ eq_refl) as [Hr Hh].
  assert (cs_inbox w2 = cs_inbox w1) as Hin
    by (destruct (apply_callback_effect _ _ _ _ _ _ _ _ _ _ Hy) as [[-> _]|(a & _ & Hin & _)]; done).
  split; [|split; [unfold callback_at in *; by rewrite Hin|done]].
  etrans; [exact Hle|]. by apply inbox_le_same.
Qed.

Lemma reject_effect raw t w x w' :
  reject_callback raw t w = (x, w') →
  inbox_le w w' ∧ (∃ e, x = Err e) ∧ cs_executions w' = cs_executions w ∧
  cs_settlements w' = cs_settlements w ∧
  ∀ event r, callback_at w' event = Some r → callback_at w event = Some r ∨
    event = "MPESA-REJECTED-" +:+ str_take 32 (upper (sha256_hex raw)) ∧
    cb_signature_valid r = false ∧ cb_normalized_payload r = [] ∧ cb_state r = CB_RECEIVED.
Proof.
  unfold reject_callback. cbv zeta. unfold mbind, M_bind.
  destruct (on_inbox _ w) as [y w1] eqn:Hi. pose proof Hi as Hrun.
  apply ingest_le in Hi as (Hle & Hx & Hs & _). intros Hend.
  assert (w' = w1 ∧ ∃ e, x = Err e) as [-> He] by (destruct y; injection Hend as <- <-; eauto).
  do 4 (split; [done|]). intros event r Hr. rewrite ingest_run in Hrun.
  destruct (callback_at w _) as [r0|]; [by case_decide; injection Hrun as _ <-; left|].
  injection Hrun as _ <-. rewrite callback_at_with in Hr. case_decide; [right|by left].
  by injection Hr as <-.
Qed.

Lemma process_le env type raw signature at_ clock w x w' :
  process env type raw signature at_ clock w = (x, w') → inbox_le w w'.
Proof.
  intros [(_ & -> & _)|[(_ & t & Hr)|(_ & t & Hend)]]%process_ends; [done| |].
  { by apply reject_effect in Hr as [? _]. }
  destruct Hend as [e| |submission n success b r dup y w1 w2 x w3 _ _ Hi _ Hy Hx]; [done..|].
  destruct (applied_inbox _ _ _ _ _ _ _ _ _ _ _ _ _ _ _ Hi Hy) as (Hle & Hr & _).
  destruct y as [d|e]; [destruct Hx as (_ & z & Hm)|by destruct Hx as [_ ->]].
  etrans; [exact Hle|]. by eapply mark_le.
Qed.

(** A callback that returned is applied. *)
Lemma process_applied env type raw signature at_ clock w r w' :
  process env type raw signature at_ clock w = (Ok r, w') →
  ∃ submission n success b rec,
    correlate env type raw = Ok (submission, n, success) ∧
    canonical_json_bytes (PDict (normalized_mapping n)) = Ok b ∧
    ap_provider_event_id r = event_id type n ∧ ap_rtt_id r = sub_rtt_id submission ∧
    callback_at w' (event_id type n) = Some rec ∧ cb_state rec = CB_APPLIED ∧
    cb_payload_sha256 rec = sha256_hex b.
Proof.
  intros [(_ & _ & e & [=])|[(_ & t & Hr)|(_ & t & Hend)]]%process_ends.
  { by apply reject_effect in Hr as (_ & [e [=]] & _). }
  inversion Hend as [|submission n success b rec Hc Hb Hr Ha Hh
    |submission n success b rec dup y w1 w2 x w3 Hc Hb Hi _ Hy Hx]; subst.
  { by exists submission, n, success, b, rec. }
  destruct (applied_inbox _ _ _ _ _ _ _ _ _ _ _ _ _ _ _ Hi Hy) as (_ & Hr & Hh).
  destruct y as [d|e]; [|by destruct Hx]. destruct Hx as ([= ->] & z & Hm).
  destruct (mark_le _ _ _ _ _ _ Hr Hm) as (_ & _ & _ & _ & rec' & Hr' & Ha & Hh').
  exists submission, n, success, b, rec'. by rewrite Hh'.
Qed.

Lemma process_within env type raw signature at_ clock w r w' :
  process env type raw signature at_ clock w = (Ok r, w') → (65536 <? Z.of_nat (length raw)) = false.
Proof. rewrite process_run. destruct (aware _ _); [|done]. by destruct (65536 <? _). Qed.

Lemma process_within_err env type raw signature at_ clock w e w' :
  process env type raw signature at_ clock w = (Err e, w') → cs_executions w' ≠ cs_executions w →
  (65536 <? Z.of_nat (length raw)) = false.
Proof.
  rewrite process_run. destruct (aware _ _); [|by intros [= _ <-]].
  destruct (65536 <? _); [by intros [= _ <-]|done].
Qed.

(** What happens between callbacks: other callbacks, by any processor, and any
    change of the executions and settlements by other components. *)
Inductive callback_step : CallbackStores → CallbackStores → Prop :=
  | step_callback env type raw signature at_ clock w x w' :
      process env type raw signature at_ clock w = (x, w') → callback_step w w'
  | step_elsewhere w w' : cs_inbox w' = cs_inbox w → callback_step w w'.

Lemma callback_steps_le w w' : rtc callback_step w w' → inbox_le w w'.
Proof.
  induction 1 as [|w1 w2 w3 Hstep _ IH]; [done|]. etrans; [|exact IH].
  destruct Hstep; [by eapply process_le|by apply inbox_le_same].
Qed.

(** C12 Authentication: a callback returns, moves an attempt, settles or adds a
    record marked as signed only when its signature is the HMAC-SHA256 of its
    raw body under the ingress key.  Otherwise it fails, and all it leaves is
    an unsigned, never applied record under the hash of its body. *)
Theorem callback_authentic env type raw signature at_ clock w x w' :
  process env type raw signature at_ clock w = (x, w') →
  (∃ key, ce_secret env = Ok key ∧ supplied_signature signature = hex (hmac_sha256 key raw)) ∨
  (∃ e, x = Err e) ∧ cs_executions w' = cs_executions w ∧
  cs_settlements w' = cs_settlements w ∧
  ∀ event r, callback_at w' event = Some r → callback_at w event = Some r ∨
    event = "MPESA-REJECTED-" +:+ str_take 32 (upper (sha256_hex raw)) ∧
    cb_signature_valid r = false ∧ cb_normalized_payload r = [] ∧ cb_state r = CB_RECEIVED.
Proof.
  intros [(_ & -> & He)|[(_ & t & Hr)|(Hauth & _)]]%process_ends.
  - right. split; [done|]. repeat split; auto.
  - right. by apply reject_effect in Hr as [_ ?].
  - left. by apply authenticate_ok in Hauth.
Qed.

(** C10 Applied once: when a callback has returned, its event is applied for
    good, whatever other callbacks and components do.  From then on no
    callback for that event moves an attempt or settles anything, whatever it
    carries, and it returns only as already applied; and the same body with a
    valid signature does return so, changing nothing. *)
Theorem callback_applied_once env type raw signature at_ clock w r w1 w2 :
  process env type raw signature at_ clock w = (Ok r, w1) →
  rtc callback_step w1 w2 →
  let event := ap_provider_event_id r in
  (∃ rec, callback_at w2 event = Some rec ∧ cb_state rec = CB_APPLIED) ∧
  ∀ env' type' raw' signature' at' clock' x w3,
    process env' type' raw' signature' at' clock' w2 = (x, w3) →
    (∀ submission n success, correlate env' type' raw' = Ok (submission, n, success) →
       event_id type' n = event →
       cs_executions w3 = cs_executions w2 ∧ cs_settlements w3 = cs_settlements w2 ∧
       ∀ r', x = Ok r' → r' = Application event (sub_rtt_id submission) "ALREADY_APPLIED" true) ∧
    (type' = type → raw' = raw → authenticate (ce_secret env') raw signature' = Ok true →
     correlate env' type raw = correlate env type raw → (∀ us, at' ≠ Some (Naive us)) →
     x = Ok (Application event (ap_rtt_id r) "ALREADY_APPLIED" true) ∧ w3 = w2).
Proof.
  intros Hrun Hsteps event. pose proof (process_within _ _ _ _ _ _ _ _ _ Hrun) as Hlen.
  apply process_applied in Hrun as (sub & n & succ & b & rec & Hc & Hb & Hev & Hrtt & Hrec & Ha & Hh).
  apply callback_steps_le in Hsteps. destruct (Hsteps _ _ Hrec) as (rec2 & Hrec2 & _ & Hsame).
  specialize (Hsame Ha) as ->. unfold event. rewrite Hev, Hrtt. split; [eauto|].
  intros env' type' raw' signature' at' clock' x w3 Hrun'. split.
  - intros sub' n' succ' Hc' Hev'.
    apply process_ends in Hrun' as [(_ & -> & e & ->)|[(_ & t & Hr)|(_ & t & Hend)]]; [done| |].
    { by apply reject_effect in Hr as (_ & [e ->] & ? & ? & _). }
    inversion Hend as [|sub2 n2 succ2 b2 r2 Hc2
      |sub2 n2 succ2 b2 r2 dup y v1 v2 z v3 Hc2 _ Hi Hnew _ _]; subst; [done| |];
      rewrite Hc2 in Hc'; injection Hc' as -> -> ->.
    + rewrite Hev'. split; [done|]. split; [done|]. by intros r' [= <-].
    + rewrite ingest_run, Hev', Hrec2 in Hi. case_decide; [|done]. injection Hi as <- _ _. congruence.
  - intros -> -> Hauth Hcor Hnow. rewrite process_run in Hrun'.
    assert (∃ t, aware "callback timestamp must be timezone-aware" (or_now at' clock') = Ok t) as [t Ht].
    { destruct at' as [[us|us]|]; [by eexists|by edestruct Hnow|by eexists]. }
    rewrite Ht, Hlen, Hauth, Hcor, Hc, Hb in Hrun'. cbv zeta in Hrun'.
    rewrite ingest_run, Hrec2, decide_True in Hrun' by done.
    rewrite decide_True in Hrun' by done. by injection Hrun' as <- <-.
Qed.

(** ** What a callback does to attempts and settlements *)
Context {V : Type} (xenv : ExecutionEnv P V).

(** The settlement of a success, against the executions that resulted. *)
Definition settled_by env submission n event t w w' (y : res SettlementNotificationResult) : Prop :=
  ∃ se, ce_settlements env = Some se ∧
    confirm_provider_settlement se (cs_executions w') (sub_utt_id submission) MPESA
      (default EmptyString (nc_transaction_id n)) event (Some (Aware t)) 0 (cs_settlements w)
    = (y, cs_settlements w').

Definition rtt_succeeded (submission : ProviderSubmissionRecord) w : Prop :=
  ∃ a, require_attempt (cs_executions w) (sub_rtt_id submission) = Ok a ∧
    rtt_state a = RTT_SUCCEEDED.

Lemma apply_effects env type submission n success event t w y w' :
  rtc (plan_step xenv) no_executions (cs_executions w) →
  apply_callback env type submission n success event t w = (y, w') →
  (cs_executions w' = cs_executions w ∨ plan_step xenv (cs_executions w) (cs_executions w')) ∧
  (cs_settlements w' = cs_settlements w ∨
   type = RESULT ∧ success = true ∧ rtt_succeeded submission w' ∧
   ∃ z, settled_by env submission n event t w w' z ∧ (is_ok y = true → is_ok z = true)) ∧
  (y = Ok "CONFIRMED_SUCCESS" → type = RESULT ∧ success = true ∧ rtt_succeeded submission w' ∧
   (ce_settlements env = None ∨ ∃ z, settled_by env submission n event t w w' (Ok z))) ∧
  (is_ok y = false → cs_executions w' ≠ cs_executions w →
   type = RESULT ∧ success = true ∧ rtt_succeeded submission w').
Proof.
  intros Hwf%reachable_wf. unfold apply_callback. rewrite run_get_bind.
  unfold lift, mbind, M_bind.
  destruct (require_attempt _ _) as [a|e] eqn:Ha; [|intros [= <- <-]; by repeat split; auto].
  assert (strip (rtt_id a) = rtt_id a) as Hs.
  { unfold require_attempt in Ha. apply (proj1 (res_require_ok _ _ _ _)) in Ha.
    by destruct (ew_attempt _ Hwf _ _ Ha) as [[-> ?] _]. }
  assert (∀ x : res string, move_effect (rtt_id a) t w x w' →
    (cs_executions w' = cs_executions w ∨ plan_step xenv (cs_executions w) (cs_executions w')) ∧
    cs_settlements w' = cs_settlements w ∧
    (is_ok x = false → cs_executions w' = cs_executions w)) as Hmove.
  { intros x (_ & Hst & [He|(z & Hz & Hok)]); [by repeat split; auto|].
    apply (rtt_move_step xenv) in Hz as [He|[Hp Hz]]; [by repeat split; auto| |done..].
    repeat split; auto. congruence. }
  destruct type; [destruct success|].
  - rewrite apply_success_parts. destruct (record_part _ _ t w) as [z w1] eqn:Hr.
    pose proof Hr as Hcases. apply record_part_cases in Hcases as (_ & Hst & Hcases).
    assert (cs_executions w1 = cs_executions w ∨
      plan_step xenv (cs_executions w) (cs_executions w1) ∧ is_ok z = true) as Hex.
    { destruct Hcases as [[-> _]|(v & Hv & Hop)]; [by left|].
      assert (rtt_move (rtt_id a) t (cs_executions w) (cs_executions w1) v) as Hmv
        by (unfold rtt_move; destruct Hop as [[_ Hop]|[_ Hop]]; eauto 10).
      apply (rtt_move_step xenv) in Hmv as [He|[Hp Hok]]; [by left|right|done..].
      by rewrite <- Hv. }
    destruct z as [[]|e].
    2: { intros [= <- <-]. destruct Hex as [He|[_ [=]]]. by repeat split; auto. }
    assert (rtt_succeeded submission w1) as Hsucc
      by (by eapply (record_part_success _ _ _ w)).
    rewrite settle_part_run. unfold settled_by. destruct (ce_settlements env) as [se|] eqn:Hse.
    2: { intros [= <- <-]. destruct Hex as [He|[Hp _]]; by repeat split; auto. }
    destruct (confirm_provider_settlement _ _ _ _ _ _ _ _ _) as [v st] eqn:Hc. rewrite Hst in Hc.
    intros Hx. assert (w' = Stores (cs_inbox w1) (cs_executions w1) st) as -> by (destruct v; by injection Hx).
    cbn [cs_executions cs_settlements]. split; [tauto|]. split.
    { right. do 3 (split; [done|]). exists v. split; [by exists se|by destruct v; injection Hx as <-]. }
    split; [|done]. intros ->. repeat split; auto. right. destruct v as [v|]; [|by injection Hx].
    by exists v, se.
  - intros Hx. apply apply_failure_effect in Hx as [Hx Hne]. apply Hmove in Hx as (? & ? & Herr).
    split; [done|]. split; [by left|]. split; [done|]. intros Hy Hd. by destruct Hd; apply Herr.
  - intros Hx. apply apply_timeout_effect in Hx as [Hx Hd]. apply Hmove in Hx as (? & ? & Herr).
    split; [done|]. split; [by left|]. split; [intros ->; by specialize (Hd eq_refl)|].
    intros Hy Hd'. by destruct Hd'; apply Herr.
Qed.

(** The effects of a whole callback are those of its branch. *)
Lemma process_effects env type raw signature at_ clock w x w' :
  process env type raw signature at_ clock w = (x, w') →
  (∃ r, x = Ok r ∧ ap_disposition r ≠ "CONFIRMED_SUCCESS") ∧ cs_executions w' = cs_executions w ∧
    cs_settlements w' = cs_settlements w ∨
  (∃ e, x = Err e) ∧ cs_executions w' = cs_executions w ∧ cs_settlements w' = cs_settlements w ∨
  ∃ submission n success b r dup y t w1 w2,
    correlate env type raw = Ok (submission, n, success) ∧
    canonical_json_bytes (PDict (normalized_mapping n)) = Ok b ∧
    on_inbox (ingest MPESA (event_id type n) (sha256_hex b) (normalized_mapping n) true t) w
    = (Ok (r, dup), w1) ∧ cb_state r = CB_RECEIVED ∧
    cs_executions w1 = cs_executions w ∧ cs_settlements w1 = cs_settlements w ∧
    apply_callback env type submission n success (event_id type n) t w1 = (y, w2) ∧
    cs_executions w' = cs_executions w2 ∧ cs_settlements w' = cs_settlements w2 ∧
    match y with
    | Err e => x = Err e ∧ w' = w2
    | Ok d => x = Ok (Application (event_id type n) (sub_rtt_id submission) d dup)
    end.
Proof.
  intros [(_ & -> & e)|[(_ & t & Hr)|(_ & t & Hend)]]%process_ends; [by right; left| |].
  { apply reject_effect in Hr as (_ & ? & ? & ? & _). by right; left. }
  destruct Hend as [e|sub n succ b r|sub n succ b r dup y w1 w2 x w3 Hc Hb Hi Hrec Hy Hx].
  - right; left. eauto.
  - left. split; [|done]. by eexists.
  - right; right. exists sub, n, succ, b, r, dup, y, t, w1, w2.
    pose proof Hi as Hle. apply ingest_le in Hle as (_ & ? & ? & _). do 7 (split; [done|]).
    destruct y as [d|e]; [|destruct Hx as [-> ->]; done].
    destruct Hx as (-> & z & Hm). destruct (applied_inbox _ _ _ _ _ _ _ _ _ _ _ _ _ _ _ Hi Hy) as (_ & Hr & _).
    by destruct (mark_le _ _ _ _ _ _ Hr Hm) as (_ & _ & -> & -> & _).
Qed.

(** C9 Finality: in every reachable execution store a callback, whether it
    returns or fails, takes at most one step of the RTT lifecycle.  It settles
    or reports CONFIRMED_SUCCESS only as a RESULT callback with code 0 whose
    conversation and originator are those of a provider submission, that names
    a transaction, and whose amount is, in minor units, the amount that was
    dispatched; the attempt of that submission has then succeeded, and with a
    settlement service the settlement is confirmed against it. *)
Theorem callback_effects env type raw signature at_ clock w x w' :
  rtc (plan_step xenv) no_executions (cs_executions w) →
  process env type raw signature at_ clock w = (x, w') →
  (cs_executions w' = cs_executions w ∨ plan_step xenv (cs_executions w) (cs_executions w')) ∧
  (cs_settlements w' ≠ cs_settlements w ∨
   (∃ r, x = Ok r ∧ ap_disposition r = "CONFIRMED_SUCCESS") →
   type = RESULT ∧ ∃ submission n transaction expected amount,
     normalize (ce_recursion_limit env) raw = Ok n ∧ nc_result_code n = 0 ∧
     find_by_external_reference (ce_operations env) MPESA (nc_conversation_id n) = Some submission ∧
     context_get (sub_context submission) "originator_conversation_id"
     = Some (nc_originator_conversation_id n) ∧
     nc_transaction_id n = Some transaction ∧ transaction ≠ EmptyString ∧
     callback_amount (get (nc_parameters n) "TransactionAmount") = Ok amount ∧
     context_get (sub_context submission) "amount_minor" = Some expected ∧
     py_int expected = Ok (amount * 100) ∧
     rtt_succeeded submission w' ∧
     (ce_settlements env = None ∨ ∃ se t y, ce_settlements env = Some se ∧
        confirm_provider_settlement se (cs_executions w') (sub_utt_id submission) MPESA transaction
          ("MPESA-RESULT-" +:+ nc_conversation_id n) (Some (Aware t)) 0 (cs_settlements w)
        = (y, cs_settlements w') ∧ (is_ok x = true → is_ok y = true))).
Proof.
  intros Hreach Hrun. apply process_effects in Hrun
    as [((r & -> & Hne) & He & Hs)|[((e & ->) & He & Hs)|(sub & n & succ & b & r & dup & y & t & w1 & w2
        & Hc & _ & _ & _ & Hex & Hst & Hy & He & Hs & Hx)]].
  1-2: split; [by left|]; by intros [?|(r' & [= ?] & ?)]; simplify_eq.
  rewrite <- Hex in Hreach. destruct (apply_effects _ _ _ _ _ _ _ _ _ _ Hreach Hy) as (Hstep & Hset & Hconf & _).
  rewrite He, <- Hex. split; [done|]. intros Hsome.
  assert (type = RESULT ∧ succ = true ∧ rtt_succeeded sub w2 ∧
    (ce_settlements env = None ∨ ∃ z, settled_by env sub n (event_id type n) t w1 w2 z ∧
       (is_ok x = true → is_ok z = true))) as (-> & -> & Hsucc & Hset').
  { destruct Hset as [Hsame|(? & ? & ? & z & Hz & Hok)].
    - destruct Hsome as [Hsome|(r' & -> & Hd)]; [by rewrite Hs, Hsame, Hst in Hsome|].
      destruct y as [d|]; [|by destruct Hx]. injection Hx as ->. cbn in Hd. subst d.
      destruct (Hconf eq_refl) as (? & ? & ? & [?|[z Hz]]); repeat split; eauto.
    - repeat split; try done. right. exists z. split; [done|]. intros Hxok. apply Hok.
      destruct y; [done|]. by destruct Hx as [-> _]. }
  apply correlate_ok in Hc as (Hn & Hf & Ho & Hcode & Hev).
  destruct (success_evidence_ok _ _ _ (Hev eq_refl)) as (tx & expd & amount & minor & Htx & Hne & Hexp & Hint & Ham & Hmul & _).
  split; [done|]. exists sub, n, tx, expd, amount. subst minor. symmetry in Hcode. apply Z.eqb_eq in Hcode.
  do 9 (split; [done|]). split.
  { destruct Hsucc as (a & ? & ?). exists a. unfold rtt_succeeded. by rewrite He. }
  destruct Hset' as [?|(z & (se & Hse & Hz) & Hok)]; [by left|right]. exists se, t, z.
  rewrite Htx, Hst, <- Hs in Hz. split; [done|]. split; [exact Hz|done].
Qed.

(** A success whose attempt has succeeded only has to be settled. *)
Lemma apply_succeeded env submission n event t w :
  rtt_succeeded submission w →
  apply_callback env RESULT submission n true event t w =
  match settle_part env submission (default EmptyString (nc_transaction_id n)) event t w with
  | (Err e, w2) => (Err e, w2)
  | (Ok _, w2) => (Ok "CONFIRMED_SUCCESS", w2)
  end.
Proof.
  intros (a & Ha & Hs). unfold apply_callback. rewrite run_get_bind. unfold lift, mbind, M_bind.
  rewrite Ha. rewrite apply_success_parts, Hs. done.
Qed.

(** C11 Redelivery: a callback that failed after it moved an attempt was a
    success whose attempt has succeeded and whose settlement failed.  Its
    event is still pending, so when the gateway delivers it again and the
    settlement goes through, or none is configured, the callback completes
    without touching the attempt again. *)
Theorem callback_redelivery env type raw signature at_ clock w e w1 :
  rtc (plan_step xenv) no_executions (cs_executions w) →
  process env type raw signature at_ clock w = (Err e, w1) →
  cs_executions w1 ≠ cs_executions w →
  ∃ submission n, correlate env RESULT raw = Ok (submission, n, true) ∧ type = RESULT ∧
  rtt_succeeded submission w1 ∧
  let event := "MPESA-RESULT-" +:+ nc_conversation_id n in
  ∀ env2 signature2 clock2,
    authenticate (ce_secret env2) raw signature2 = Ok true →
    correlate env2 RESULT raw = correlate env RESULT raw →
    (∀ se, ce_settlements env2 = Some se → ∃ z st,
       confirm_provider_settlement se (cs_executions w1) (sub_utt_id submission) MPESA
         (default EmptyString (nc_transaction_id n)) event (Some (Aware clock2)) 0
         (cs_settlements w1) = (Ok z, st)) →
    ∃ w2 rec, process env2 RESULT raw signature2 None clock2 w1
      = (Ok (Application event (sub_rtt_id submission) "CONFIRMED_SUCCESS" true), w2) ∧
    cs_executions w2 = cs_executions w1 ∧
    callback_at w2 event = Some rec ∧ cb_state rec = CB_APPLIED.
Proof.
  intros Hreach Hrun Hne. pose proof (process_within_err _ _ _ _ _ _ _ _ _ Hrun Hne) as Hlen.
  apply process_effects in Hrun
    as [((r & [=] & _) & _)|[(_ & He & _)|(sub & n & succ & b & r & dup & y & t & v1 & v2
        & Hc & Hb & Hi & Hrec & Hex & Hst & Hy & He & Hs & Hx)]]; [done|].
  rewrite <- Hex in Hreach. destruct (apply_effects _ _ _ _ _ _ _ _ _ _ Hreach Hy) as (_ & _ & _ & Hfail).
  destruct y as [d|e']; [done|]. destruct Hx as [[= <-] ->].
  destruct (Hfail eq_refl) as (-> & -> & Hsucc); [congruence|].
  exists sub, n. do 3 (split; [done|]). intros event env2 signature2 clock2 Hauth Hcor Hset.
  destruct (applied_inbox _ _ _ _ _ _ _ _ _ _ _ _ _ _ _ Hi Hy) as (_ & Hr & Hh).
  rewrite process_run. cbn [or_now default aware]. rewrite Hlen, Hauth, Hcor, Hc, Hb. cbv zeta. unfold mret, res_ret. cbv iota beta.
  change (event_id RESULT n) with event in *. rewrite ingest_run, Hr, decide_True by done.
  rewrite decide_False by congruence. rewrite apply_succeeded by done.
  rewrite settle_part_run.
  assert (∃ w2, (match ce_settlements env2 with
    | None => (Ok tt, v2)
    | Some se => let '(y, st) := confirm_provider_settlement se (cs_executions v2) (sub_utt_id sub)
        MPESA (default EmptyString (nc_transaction_id n)) event (Some (Aware clock2)) 0
        (cs_settlements v2) in
      (match y with Ok _ => Ok tt | Err e0 => Err e0 end, Stores (cs_inbox v2) (cs_executions v2) st)
    end) = (Ok tt : res unit, w2) ∧ cs_executions w2 = cs_executions v2 ∧ callback_at w2 event = Some r)
    as (w2 & Hw2 & Hex2 & Hr2).
  { destruct (ce_settlements env2) as [se|]; [|by exists v2].
    destruct (Hset se eq_refl) as (z & st & ->). by eexists. }
  rewrite Hw2. rewrite (mark_run _ _ _ _ Hr2), decide_False by congruence.
  eexists _, _. split; [done|]. split; [done|]. rewrite callback_at_with, decide_True by done. done.
Qed.
End claims.

(** ** A concrete callback *)
Module DemoCallback.
Import ToyEd25519 DemoContracts DemoExecution DemoSettlement.

Definition dispatched_submission : ProviderSubmissionRecord :=
  {| sub_submission_id := "SUB1"; sub_idempotency_key := "SUB1"; sub_request_sha256 := "00";
     sub_utt_id := demo_utt; sub_rtt_id := settled_rtt; sub_provider_id := MPESA;
     sub_state := SUB_ACCEPTED; sub_dispatch_attempts := 1; sub_normalized_code := None;
     sub_external_reference := Some "AG1"; sub_disposition := None;
     sub_context := [("amount_minor", "10000"); ("originator_conversation_id", "OC1")];
     sub_version := 3; sub_created_at := seconds 270; sub_updated_at := seconds 275 |}.
Definition ingress_key : bytes := replicate 32 Byte.x6b.

Definition success_body : bytes := Eval vm_compute in
  encode_utf8 (json_dumps (PDict (fields
    [("Result", PDict (fields
       [("ConversationID", PStr "AG1"); ("OriginatorConversationID", PStr "OC1");
        ("TransactionID", PStr "TX1"); ("ResultCode", PInt 0); ("ResultDesc", PStr "ok");
        ("ResultParameters", PDict (fields
           [("ResultParameter", PList
              [PDict (fields [("Key", PStr "TransactionAmount"); ("Value", PInt 100)]);
               PDict (fields [("Key", PStr "Charge"); ("Value", PInt 7)])])]))]))]))).
Definition normalized_success : NormalizedCallback := {|
  nc_conversation_id := "AG1"; nc_originator_conversation_id := "OC1";
  nc_transaction_id := Some "TX1"; nc_result_code := 0; nc_result_description := "ok";
  nc_parameters := fields [("TransactionAmount", PInt 100)] |}.

Definition callback_env (settlements : option (SettlementEnv InMemoryEd25519KeyProvider))
    : CallbackEnv InMemoryEd25519KeyProvider :=
  {| ce_secret := Ok ingress_key;
     ce_operations := Operations [(settled_rtt, dispatched_submission)] [] [];
     ce_settlements := settlements; ce_retryable_codes := [17]; ce_recursion_limit := 1000 |}.
(** A settlement service whose signing key does not exist. *)
Definition broken_settlements : SettlementEnv InMemoryEd25519KeyProvider :=
  {| st_keys := settlement_keys; st_contracts := demo_store; st_key_id := "none";
     st_offset_minutes := 180; st_timezone_label := "EAT"; st_local_time := λ us, us |}.
Definition ingress_signature : string := Eval vm_compute in
  "sha256=" +:+ hex (hmac_sha256 ingress_key success_body).
Definition success_bytes : bytes := Eval vm_compute in
  from_ok [] (canonical_json_bytes (PDict (normalized_mapping normalized_success))).
Definition success_hash : string := Eval vm_compute in sha256_hex success_bytes.
Definition before_callback : CallbackStores := Stores [] store2 no_settlements.
Definition received : CallbackInboxRecord :=
  new_callback MPESA "MPESA-RESULT-AG1" success_hash (normalized_mapping normalized_success) true
    (seconds 300).

Lemma signature_eq : authenticate (Ok ingress_key) success_body ingress_signature = Ok true.
Proof. vm_compute. reflexivity. Qed.
Lemma correlate_eq settlements :
  correlate (callback_env settlements) RESULT success_body
  = Ok (dispatched_submission, normalized_success, true).
Proof. vm_compute. reflexivity. Qed.
Lemma bytes_eq :
  canonical_json_bytes (PDict (normalized_mapping normalized_success)) = Ok success_bytes.
Proof. vm_compute. reflexivity. Qed.
Lemma hash_eq : sha256_hex success_bytes = success_hash.
Proof. vm_compute. reflexivity. Qed.
Lemma body_short : (65536 <? Z.of_nat (length success_body)) = false.
Proof. vm_compute. reflexivity. Qed.
Lemma recorded_eq :
  is_ok (record_success settled_rtt 0 (Some (Aware (seconds 300))) 0 store2).1 = true.
Proof. vm_compute. reflexivity. Qed.

Definition pending_callback : CallbackStores :=
  Stores [((MPESA, "MPESA-RESULT-AG1"), received)] store3 no_settlements.

(** The run up to the settlement. *)
Lemma recorded_part w :
  cs_executions w = store2 →
  record_part settled_rtt RTT_CREATED (seconds 300) w
  = (Ok tt, Stores (cs_inbox w) store3 (cs_settlements w)).
Proof.
  intros Hw. unfold record_part, mbind, M_bind.
  destruct (record_success settled_rtt 0 (Some (Aware (seconds 300))) 0 store2) as [y ex] eqn:Hy.
  rewrite (on_executions_run _ w y ex) by (by rewrite Hw).
  pose proof recorded_eq as Hok. unfold store3. rewrite Hy in *. by destruct y.
Qed.

Definition created_attempt : RttAttemptRecord := new_attempt_of worker1.
Lemma attempt_eq :
  require_attempt store2 settled_rtt = Ok created_attempt ∧ rtt_id created_attempt = settled_rtt ∧
  rtt_state created_attempt = RTT_CREATED.
Proof. vm_compute. repeat split. Qed.

Lemma demo_run settlements :
  process (callback_env settlements) RESULT success_body ingress_signature
    (Some (Aware (seconds 300))) 0 before_callback =
  match settle_part (callback_env settlements) dispatched_submission "TX1" "MPESA-RESULT-AG1"
          (seconds 300) pending_callback with
  | (Err e, w2) => (Err e, w2)
  | (Ok _, w2) =>
      (Ok (Application "MPESA-RESULT-AG1" settled_rtt "CONFIRMED_SUCCESS" false),
       with_callback w2 "MPESA-RESULT-AG1" (applied_callback received (seconds 300)))
  end.
Proof.
  rewrite process_run.
  change (aware _ _) with (Ok (seconds 300) : res instant). cbv iota beta. rewrite body_short.
  change (ce_secret (callback_env settlements)) with (Ok ingress_key).
  rewrite signature_eq, correlate_eq, bytes_eq, hash_eq. cbv zeta.
  change (event_id RESULT normalized_success) with "MPESA-RESULT-AG1".
  rewrite ingest_run. change (callback_at before_callback "MPESA-RESULT-AG1") with (@None CallbackInboxRecord).
  cbv zeta iota beta. rewrite decide_False by done.
  unfold apply_callback. rewrite run_get_bind. unfold lift, mbind, M_bind.
  destruct attempt_eq as (Ha & Hid & Hst).
  change (cs_executions (with_callback _ _ _)) with store2.
  change (sub_rtt_id dispatched_submission) with settled_rtt. rewrite Ha.
  rewrite apply_success_parts, Hid, Hst, recorded_part by done. cbv iota beta.
  change (Stores _ store3 _) with pending_callback.
  change (default EmptyString (nc_transaction_id normalized_success)) with "TX1".
  rewrite settle_part_run. destruct (ce_settlements (callback_env settlements)) as [se|].
  2: { rewrite (mark_run _ _ _ received) by done. by rewrite decide_False by done. }
  destruct (confirm_provider_settlement _ _ _ _ _ _ _ _ _) as [[z|e] st]; [|done].
  rewrite (mark_run _ _ _ received) by done. by rewrite decide_False by done.
Qed.

(** The settlement of the callback, evaluated; its failing counterpart. *)
Definition callback_offer
    : SettlementEvidenceRecord * (SmsNotificationRecord * SmsNotificationRecord) :=
  Eval vm_compute in
  from_ok (no_evidence, (no_sms, no_sms))
    (settlement_offer settlement_env store3 demo_utt MPESA "TX1" "MPESA-RESULT-AG1" (seconds 300)).
Lemma callback_offer_eq :
  settlement_offer settlement_env store3 demo_utt MPESA "TX1" "MPESA-RESULT-AG1" (seconds 300)
  = Ok (callback_offer.1, (callback_offer.2.1, callback_offer.2.2)).
Proof. vm_compute. reflexivity. Qed.
Lemma broken_offer_eq :
  is_ok (settlement_offer broken_settlements store3 demo_utt MPESA "TX1" "MPESA-RESULT-AG1"
           (seconds 300)) = false.
Proof. vm_compute. reflexivity. Qed.

Definition settled : SettlementNotificationResult :=
  SettlementResult callback_offer.1 (callback_offer.2.1, callback_offer.2.2) false.
Definition settled_store : SettlementStore :=
  put_sms callback_offer.2.2 (put_sms callback_offer.2.1
    (put_evidence callback_offer.1 no_settlements)).
Lemma settled_eq :
  confirm_provider_settlement settlement_env store3 demo_utt MPESA "TX1" "MPESA-RESULT-AG1"
    (Some (Aware (seconds 300))) 0 no_settlements = (Ok settled, settled_store).
Proof. rewrite (confirm_offer _ _ _ _ _ _ _ _ _ _ _ callback_offer_eq). vm_compute. reflexivity. Qed.

Definition after_callback : CallbackStores :=
  Stores [((MPESA, "MPESA-RESULT-AG1"), applied_callback received (seconds 300))] store3 settled_store.
Definition confirmed : CallbackApplicationResult :=
  Application "MPESA-RESULT-AG1" settled_rtt "CONFIRMED_SUCCESS" false.
Lemma settled_run :
  process (callback_env (Some settlement_env)) RESULT success_body ingress_signature
    (Some (Aware (seconds 300))) 0 before_callback = (Ok confirmed, after_callback).
Proof.
  rewrite demo_run, settle_part_run.
  cbn [callback_env ce_settlements sub_utt_id dispatched_submission pending_callback cs_executions
    cs_settlements cs_inbox].
  by rewrite settled_eq.
Qed.

Lemma broken_run :
  ∃ e, process (callback_env (Some broken_settlements)) RESULT success_body ingress_signature
    (Some (Aware (seconds 300))) 0 before_callback = (Err e, pending_callback).
Proof.
  rewrite demo_run, settle_part_run.
  cbn [callback_env ce_settlements sub_utt_id dispatched_submission pending_callback cs_executions
    cs_settlements cs_inbox].
  unfold confirm_provider_settlement. cbn [or_now default to_utc]. unfold lift.
  unfold mbind at 1. unfold M_bind at 1. pose proof broken_offer_eq as Hoff.
  cbn [id]. destruct (settlement_offer _ _ _ _ _ _ _) as [v|e]; [done|]. by exists e.
Qed.

Lemma store2_reachable : rtc (plan_step demo_env) no_executions (cs_executions before_callback).
Proof. exact store2_steps. Qed.
Lemma store3_moved : cs_executions pending_callback ≠ cs_executions before_callback.
Proof.
  change (store3 ≠ store2). intros Hsame. destruct attempt_eq as (Ha & _ & Hst).
  assert (is_ok (a ← require_attempt store3 settled_rtt;
    raise_if (bool_decide (rtt_state a = RTT_CREATED)) ValueError "created") = true) as Hok
    by (vm_compute; reflexivity).
  rewrite Hsame, Ha in Hok. cbn [mbind res_bind] in Hok. by rewrite Hst in Hok.
Qed.
End DemoCallback.
Import ToyEd25519 DemoContracts DemoExecution DemoSettlement DemoCallback.

Lemma callback_authentic_witness :
  ∃ key, ce_secret (callback_env (Some settlement_env)) = Ok key ∧
    supplied_signature ingress_signature = hex (hmac_sha256 key success_body).
Proof.
  destruct (callback_authentic _ _ _ _ _ _ _ _ _ settled_run) as [Hk|[[e He] _]].
  - exact Hk.
  - discriminate He.
Defined.

Lemma callback_applied_once_witness :
  ∃ rec, callback_at after_callback "MPESA-RESULT-AG1" = Some rec ∧ cb_state rec = CB_APPLIED.
Proof.
  destruct (callback_applied_once _ _ _ _ _ _ _ _ _ _ settled_run (rtc_refl _ _)) as [Hrec _].
  exact Hrec.
Defined.

Lemma callback_effects_witness :
  ∃ submission, find_by_external_reference (ce_operations (callback_env (Some settlement_env))) MPESA
    "AG1" = Some submission ∧ rtt_succeeded submission after_callback.
Proof.
  destruct (callback_effects demo_env _ _ _ _ _ _ _ _ _ store2_reachable settled_run) as [_ Hsettled].
  destruct (Hsettled (or_intror (ex_intro _ confirmed (conj eq_refl eq_refl))))
    as (_ & sub & n & tx & expected & amount & Hn & _ & Hsub & _ & _ & _ & _ & _ & _ & Hok & _).
  destruct (correlate_ok _ _ _ _ _ _ (correlate_eq (Some settlement_env))) as [Hn2 _].
  rewrite Hn2 in Hn. injection Hn as <-. exists sub. exact (conj Hsub Hok).
Defined.

Lemma callback_redelivery_witness :
  ∃ e, process (callback_env (Some broken_settlements)) RESULT success_body ingress_signature
    (Some (Aware (seconds 300))) 0 before_callback = (Err e, pending_callback) ∧
  ∃ w2, process (callback_env (Some settlement_env)) RESULT success_body ingress_signature None
    (seconds 300) pending_callback
  = (Ok (Application "MPESA-RESULT-AG1" settled_rtt "CONFIRMED_SUCCESS" true), w2) ∧
  cs_executions w2 = store3.
Proof.
  destruct broken_run as [e He]. exists e. split; [exact He|].
  destruct (callback_redelivery demo_env _ _ _ _ _ _ _ _ _ store2_reachable He) as (sub & n & Hc & _ & _ & Hre).
  - exact store3_moved.
  - rewrite correlate_eq in Hc. injection Hc as <- <-.
    destruct (Hre (callback_env (Some settlement_env)) ingress_signature (seconds 300) signature_eq)
      as (w2 & rec & Hrun & Hex & _).
    + rewrite !correlate_eq. reflexivity.
    + intros se Hse. injection Hse as <-. exists settled, settled_store. exact settled_eq.
    + exists w2. exact (conj Hrun Hex).
Defined.
