(* ===== verification/PyJsonBytes.v ===== *)
(** [json.loads] on bytes reads back the UTF-8 text of [json.dumps]: the text
    of a dictionary of Python strings is recognised as UTF-8 and decoded. *)

From Stdlib Require Import Ascii String Strings.Byte.
From S2P Require Import Prelude.
From S2P Require Import PyBase.
From S2P Require Import Bytes.
From S2P Require Import CanonicalJson.
From S2P Require Import CanonicalFacts.
From S2P Require Import PyText.
From S2P Require Import PyJson.
From S2P Require Import PyJsonFacts.


(** The bytes of a Python string: UTF-8 that may hold lone surrogates. *)
Definition passes (s : string) : Prop := utf8_passes (encode_utf8 s) = true.

Lemma encode_utf8_cons c s : encode_utf8 (String c s) = byte_of_ascii c :: encode_utf8 s.
Proof. done. Qed.
Lemma bz_of_ascii c : bz (byte_of_ascii c) = code c.
Proof. by destruct c as [[] [] [] [] [] [] [] []]. Qed.

(** The encoding of one character, and texts as sequences of them. *)
Record utf8_chunk (a : Byte.byte) (t : bytes) : Prop := {
  chunk_passes : ∀ l, utf8_passes (a :: t ++ l) = utf8_passes l;
  chunk_bytes : t = [] ∨ 128 <= bz a ∧ Forall (λ b, 128 <= bz b) t;
}.

Lemma chunk_first a l :
  utf8_passes (a :: l) = true → ∃ t r, l = t ++ r ∧ utf8_chunk a t ∧ utf8_passes r = true.
Proof.
  cbn [utf8_passes].
  destruct (bz a <? 128) eqn:Ha.
  { intros Hl. exists [], l. split; [done|]. split; [|done]. split; [|by left].
    intros r. cbn. by rewrite Ha. }
  apply Z.ltb_ge in Ha as Ha'.
  assert (∀ b, continuation b = true → 128 <= bz b) as Hcont
    by (intros b Hb; unfold continuation in Hb; lia).
  destruct (_ && _) eqn:H2; [|destruct ((224 <=? bz a) && _) eqn:H3;
    [|destruct ((240 <=? bz a) && _) eqn:H4; [|done]]].
  - destruct l as [|b l]; [done|]. intros [Hb Hr]%andb_true_iff.
    exists [b], l. split; [done|]. split; [|done]. split; [|right; split; [done|auto]].
    intros r. cbn. by rewrite Ha, H2, Hb.
  - destruct l as [|b [|c l]]; [done..|]. intros [[[Hb Hc]%andb_true_iff He]%andb_true_iff Hr]%andb_true_iff.
    exists [b; c], l. split; [done|]. split; [|done]. split; [|right; split; [done|auto]].
    intros r. cbn. by rewrite Ha, H2, H3, Hb, Hc, He.
  - destruct l as [|b [|c [|d l]]]; [done..|].
    intros [[[[[Hb Hc]%andb_true_iff Hd]%andb_true_iff He]%andb_true_iff Hf]%andb_true_iff Hr]%andb_true_iff.
    exists [b; c; d], l. split; [done|]. split; [|done]. split; [|right; split; [done|auto]].
    intros r. cbn. by rewrite Ha, H2, H3, H4, Hb, Hc, Hd, He, Hf.
Qed.

Lemma passes_ind (Q : bytes → Prop) :
  Q [] → (∀ a t r, utf8_chunk a t → Q r → Q (a :: t ++ r)) →
  ∀ l, utf8_passes l = true → Q l.
Proof.
  intros Hnil Hcons l. remember (length l) as n eqn:Hn. revert l Hn.
  induction n as [n IH] using lt_wf_ind. intros [|a l] Hn Hl; [done|].
  destruct (chunk_first a l Hl) as (t & r & -> & Hc & Hr). apply Hcons; [done|].
  eapply IH; [|reflexivity|done]. subst n. cbn. rewrite length_app. lia.
Qed.

Lemma utf8_passes_app l l' : utf8_passes l = true → utf8_passes (l ++ l') = utf8_passes l'.
Proof.
  revert l. apply passes_ind; [done|]. intros a t r Hc IH.
  cbn [app]. by rewrite <- app_assoc, (chunk_passes _ _ Hc).
Qed.

Lemma passes_app s t : passes s → passes t → passes (s +:+ t).
Proof. unfold passes. intros Hs Ht. by rewrite encode_utf8_app, utf8_passes_app. Qed.

Lemma passes_ascii s : str_forall (λ c, code c <? 128) s = true → passes s.
Proof.
  unfold passes. induction s as [|c s IH]; [done|]. cbn [str_forall]. rewrite andb_true_iff.
  intros [Hc Hs]. rewrite encode_utf8_cons. cbn [utf8_passes]. rewrite bz_of_ascii, Hc. auto.
Qed.

(** Escaping rewrites ASCII characters only. *)
Lemma escape_char_bytes c :
  if code c <? 128 then str_forall (λ d, code d <? 128) (escape_char c) = true
  else escape_char c = String c EmptyString.
Proof. by destruct c as [[] [] [] [] [] [] [] []]. Qed.

Lemma escape_app s t : escape (s +:+ t) = escape s +:+ escape t.
Proof.
  induction s as [|c s IH]; [done|]. rewrite str_app_cons. cbn [escape].
  by rewrite IH, str_app_assoc.
Qed.

Lemma escape_high s : Forall (λ b, 128 <= bz b) (encode_utf8 s) → escape s = s.
Proof.
  induction s as [|c s IH]; [done|]. rewrite encode_utf8_cons, Forall_cons, bz_of_ascii.
  intros [Hc Hs]. cbn [escape]. pose proof (escape_char_bytes c) as He.
  destruct (Z.ltb_spec (code c) 128); [lia|]. rewrite He, IH by done. done.
Qed.

Lemma string_of_bytes_encode l : encode_utf8 (string_of_list_byte l) = l.
Proof. apply list_byte_of_string_of_list_byte. Qed.

Lemma passes_escape s : passes s → passes (escape s).
Proof.
  unfold passes. rewrite <- (string_of_list_byte_of_string s).
  fold (encode_utf8 s). rewrite string_of_bytes_encode.
  generalize (encode_utf8 s). clear s. apply passes_ind; [done|]. intros a t r Hc IH.
  assert (string_of_list_byte (a :: t ++ r)
    = string_of_list_byte (a :: t) +:+ string_of_list_byte r) as ->.
  { apply encode_utf8_inj. by rewrite encode_utf8_app, !string_of_bytes_encode. }
  rewrite escape_app. apply passes_app; [|exact IH].
  destruct (chunk_bytes _ _ Hc) as [->|[Ha Ht]].
  - pose proof (escape_char_bytes (ascii_of_byte a)) as He. cbn.
    destruct (code (ascii_of_byte a) <? 128) eqn:Hlt.
    + apply passes_app; [by apply passes_ascii|done].
    + rewrite He. change (passes (string_of_list_byte [a])). unfold passes.
      rewrite string_of_bytes_encode. exact (chunk_passes _ _ Hc []).
  - rewrite escape_high by (rewrite string_of_bytes_encode; by constructor).
    unfold passes. rewrite string_of_bytes_encode. rewrite <- (app_nil_r t).
    by rewrite (chunk_passes _ _ Hc).
Qed.

Lemma passes_quote s : passes s → passes (quote s).
Proof.
  intros Hs. unfold quote. apply (passes_app (String dquote EmptyString)); [done|].
  apply passes_app; [by apply passes_escape|done].
Qed.

Lemma passes_str_int z : passes (str_int z).
Proof.
  apply passes_ascii. pose proof (str_int_num z) as Hn. induction (str_int z) as [|c s IH]; [done|].
  cbn [str_forall] in *. rewrite andb_true_iff in *. destruct Hn as [Hc Hs]. split; [|auto].
  unfold is_num, is_digit in Hc. destruct (Ascii.eqb_spec c "-"); [by subst|]. lia.
Qed.

Lemma passes_concat sep l : passes sep → Forall passes l → passes (String.concat sep l).
Proof.
  intros Hsep. induction 1 as [|x l Hx Hl IH]; [done|]. destruct l as [|y l]; [exact Hx|].
  cbn [String.concat]. repeat (apply passes_app; [done|]). exact IH.
Qed.

Lemma passes_list l : Forall (λ v, passes (json_dumps v)) l → passes (json_dumps (PList l)).
Proof.
  intros Hl. cbn [json_dumps]. apply (passes_app "["); [done|].
  apply passes_app; [|done]. apply passes_concat; [done|].
  by rewrite Forall_map.
Qed.

Lemma passes_dict l :
  Forall (λ kv, passes (key_text kv.1) ∧ passes (json_dumps kv.2)) l → passes (json_dumps (PDict l)).
Proof.
  intros Hl. rewrite dumps_dict. apply (passes_app "{"); [done|].
  apply passes_app; [|done]. apply passes_concat; [done|]. rewrite Forall_map.
  apply Forall_by_key. eapply Forall_impl; [exact Hl|]. intros [k v] [Hk Hv]. unfold entry. cbn in *.
  repeat (apply passes_app; [done || by apply passes_quote|]). done.
Qed.

(** The text of a dictionary is recognised as UTF-8 and read back. *)
Lemma loads_dumps_bytes depth l :
  l ≠ [] → readable (PDict l) → (nesting (PDict l) <= depth)%nat → passes (json_dumps (PDict l)) →
  json_loads_bytes depth (encode_utf8 (json_dumps (PDict l))) = Ok (canon (PDict l)).
Proof.
  intros Hne Hr Hd Hp.
  assert (∃ t, json_dumps (PDict l) = String "{" (String dquote t)) as [t Ht].
  { rewrite dumps_dict. assert (by_key l ≠ []) as Hb.
    { intros Hn. assert (by_key l ≡ₚ l) as Hperm by apply sort_on_perm.
      rewrite Hn in Hperm. by apply Permutation_nil in Hperm. }
    destruct (by_key l) as [|[k v] m]; [done|]. unfold entry, quote. cbn [map].
    destruct (map _ m); eexists; cbn [String.concat fst]; rewrite ?str_app_cons; reflexivity. }
  assert (decode_with (detect_encoding (encode_utf8 (json_dumps (PDict l))))
    (encode_utf8 (json_dumps (PDict l))) = Some (json_dumps (PDict l))) as Hdec.
  { assert (detect_encoding (encode_utf8 (json_dumps (PDict l))) = UTF_8) as ->.
    { rewrite Ht, !encode_utf8_cons. generalize (encode_utf8 t). intros [|x [|y r]]; done. }
    cbn [decode_with]. rewrite Hp. f_equal. apply string_of_list_byte_of_string. }
  unfold json_loads_bytes. rewrite Hdec. cbn [require mbind res_bind]. by apply loads_dumps.
Qed.
