(* ===== verification/AccessTokens.v ===== *)
(** [railone_api/auth.py]: short-lived Ed25519 access tokens for the API
    boundary.  The token service is polymorphic in its [SigningKeyProvider];
    the interpreter's recursion limit (for [json.loads]) and the fresh UUID of
    an issued token are arguments.  As everywhere, [upper] and [strip] are
    modelled on ASCII. *)

From Stdlib Require Import Ascii String.
From S2P Require Import Prelude.
From S2P Require Import PyBase.
From S2P Require Import PyDict.
From S2P Require Import Bytes.
From S2P Require Import CanonicalJson.
From S2P Require Import Keys.
From S2P Require Import Signatures.
From S2P Require Import OperationsStore.
From S2P Require Import PyText.
From S2P Require Import PyJson.
From S2P Require Import History.

(** ** [_json], and [token.split(".")] *)
Definition token_json (value : pyval) : res bytes := utf8_encode (json_dumps value).

Fixpoint split_on (sep : ascii) (s : string) : list string :=
  match s with
  | EmptyString => [EmptyString]
  | String c s' =>
      if Ascii.eqb c sep then EmptyString :: split_on sep s'
      else match split_on sep s' with
           | part :: parts => String c part :: parts
           | [] => [String c EmptyString]
           end
  end.

Definition token_instant (at_ : option datetime) (clock : instant) : res instant :=
  aware "access-token timestamp must be timezone-aware" (or_now at_ clock).

(** ** Principals and scopes *)
Inductive PrincipalType := PT_HUMAN | PT_MERCHANT_SERVICE | PT_PARTNER_SERVICE | PT_OPERATOR.
#[global] Instance PrincipalType_eq_dec : EqDecision PrincipalType.
Proof. solve_decision. Defined.
Definition all_principal_types : list PrincipalType :=
  [PT_HUMAN; PT_MERCHANT_SERVICE; PT_PARTNER_SERVICE; PT_OPERATOR].
Definition PrincipalType_value (t : PrincipalType) : string :=
  match t with
  | PT_HUMAN => "HUMAN"
  | PT_MERCHANT_SERVICE => "MERCHANT_SERVICE"
  | PT_PARTNER_SERVICE => "PARTNER_SERVICE"
  | PT_OPERATOR => "OPERATOR"
  end.

(** [PrincipalType(value)] *)
Definition PrincipalType_of (v : pyval) : res PrincipalType :=
  require (head (filter (λ t, v = PStr (PrincipalType_value t)) all_principal_types)) ValueError
    "not a valid PrincipalType".

(** [ActorScopes]: its fields are texts, or still values of any type when they
    come out of a token. *)
Record ActorScopes (A : Type) := Scopes {
  sc_continuity_uid : option A;
  sc_merchant_ids : list A;
  sc_branch_ids : list A;
  sc_partner_ids : list A;
  sc_permissions : list A;
}.
Arguments Scopes {A}.
Arguments sc_continuity_uid {A}.
Arguments sc_merchant_ids {A}.
Arguments sc_branch_ids {A}.
Arguments sc_partner_ids {A}.
Arguments sc_permissions {A}.

Definition dynamic_scopes (s : ActorScopes string) : ActorScopes pyval :=
  Scopes (PStr <$> sc_continuity_uid s) (PStr <$> sc_merchant_ids s) (PStr <$> sc_branch_ids s)
    (PStr <$> sc_partner_ids s) (PStr <$> sc_permissions s).

Definition text_or_type_error (name : string) (v : pyval) : res string :=
  match v with PStr s => mret s | _ => raise TypeError (name +:+ " must contain strings") end.

(** [tuple(sorted({f(value) for value in values if value.strip()}))] with its
    checks, which [_normalized_ids] and [_normalized_permissions] share;
    [noun] and [long] are the words in which their messages differ. *)
Definition normalized_texts (f : string → string) (name noun long : string) (values : list pyval)
    : res (list string) :=
  texts ← mapR (text_or_type_error name) values;
  let result := py_sorted str_le (remove_dups (f <$> filter (λ t, blank t = false) texts)) in
  _ ← raise_if (negb (length result =? length values)%nat) ValueError
        (name +:+ " must contain unique non-empty " +:+ noun);
  _ ← raise_if (existsb (λ t, 128 <? char_len t) result) ValueError
        (name +:+ long +:+ " cannot exceed 128 characters");
  mret result.

Definition normalized_ids (name : string) : list pyval → res (list string) :=
  normalized_texts (λ t, upper (strip t)) name "identifiers" " identifiers".
Definition normalized_permissions : list pyval → res (list string) :=
  normalized_texts strip "permissions" "values" EmptyString.

(** [re.fullmatch(r"CUID-[A-Z2-7]{32}", uid)] *)
Definition b32_digit (c : ascii) : bool :=
  is_upper c || ((50 <=? code c) && (code c <=? 55)).
Definition is_continuity_uid (uid : string) : bool :=
  match eat_text "CUID-" uid with
  | Some t => (String.length t =? 32)%nat && str_forall b32_digit t
  | None => false
  end.

Definition normalized_uid (v : option pyval) : res (option string) :=
  match v with
  | None => mret None
  | Some (PStr t) =>
      let uid := upper (strip t) in
      _ ← raise_if (negb (is_continuity_uid uid)) ValueError
            "continuity_uid must be a RailOne ContUID";
      mret (Some uid)
  | Some _ => raise TypeError "continuity_uid must be a string"
  end.

Definition total_scopes {A} (s : ActorScopes A) : nat :=
  length (sc_merchant_ids s) + length (sc_branch_ids s) + length (sc_partner_ids s)
  + length (sc_permissions s) + (if is_some_b (sc_continuity_uid s) then 1 else 0).

(** [ActorScopes.normalized] *)
Definition normalized_scopes (s : ActorScopes pyval) : res (ActorScopes string) :=
  uid ← normalized_uid (sc_continuity_uid s);
  merchants ← normalized_ids "merchant_ids" (sc_merchant_ids s);
  branches ← normalized_ids "branch_ids" (sc_branch_ids s);
  partners ← normalized_ids "partner_ids" (sc_partner_ids s);
  permissions ← normalized_permissions (sc_permissions s);
  let n := Scopes uid merchants branches partners permissions in
  _ ← raise_if (200 <? total_scopes n)%nat ValueError
        "access token exceeds the actor-scope limit";
  mret n.

Definition transaction_context (s : ActorScopes string) (principal_id : string)
    (access_reason : option string) : res TransactionReadContext :=
  n ← normalized_scopes (dynamic_scopes s);
  mret {| rc_principal_id := principal_id; rc_continuity_uid := sc_continuity_uid n;
          rc_merchant_ids := sc_merchant_ids n; rc_branch_ids := sc_branch_ids n;
          rc_partner_ids := sc_partner_ids n; rc_permissions := sc_permissions n;
          rc_access_reason := access_reason |}.

(** [_validate_principal_scope] *)
Definition validate_principal_scope (t : PrincipalType) (s : ActorScopes string) : res unit :=
  _ ← raise_if (bool_decide (READ_ANY_PERMISSION ∈ sc_permissions s)
                && negb (bool_decide (t = PT_OPERATOR))) ValueError
        "privileged transaction permission requires OPERATOR principal type";
  _ ← raise_if (bool_decide (t = PT_MERCHANT_SERVICE) && bool_decide (sc_merchant_ids s = []))
        ValueError "merchant service requires at least one merchant scope";
  raise_if (bool_decide (t = PT_PARTNER_SERVICE) && bool_decide (sc_partner_ids s = []))
    ValueError "partner service requires at least one partner scope".

Record AuthenticatedPrincipal := {
  ap_principal_id : string;
  ap_principal_type : PrincipalType;
  ap_token_id : string;
  ap_issuer : string;
  ap_audience : string;
  ap_scopes : ActorScopes string;
  ap_issued_at : instant;
  ap_expires_at : instant;
}.

(** ** [InMemoryTokenRevocationStore] *)
Definition RevocationStore : Type := dict string (instant * string).
Implicit Types (revoked : RevocationStore).

Definition is_revoked revoked (token_id : string) : bool := dmem revoked token_id.

Definition store_revoke (token_id : string) (expires_at : instant) (reason : string)
    : M RevocationStore unit :=
  _ ← raise_if (blank reason) ValueError "token revocation reason is required";
  revoked ← getS;
  let material := (expires_at, upper (strip reason)) in
  _ ← raise_if (match dget revoked token_id with
                | Some prior => negb (bool_decide (prior = material))
                | None => false
                end) RuntimeError "token revocation conflict";
  putS (dset revoked token_id material).

(** ** [AccessTokenService] *)
Section service.
Context {P : Type} `{!SigningKeyProvider P} `{Ed25519}.

Record AccessTokenService := {
  ts_keys : P;
  ts_issuer : string;
  ts_audience : string;
  ts_max_ttl : Z;
  ts_skew : Z;
  ts_recursion_limit : nat;
}.
Implicit Types (svc : AccessTokenService).

(** [__init__] *)
Definition new_token_service (keys : P) (issuer audience : string) (max_ttl skew : Z)
    (depth : nat) : res AccessTokenService :=
  _ ← raise_if (blank issuer || blank audience) ValueError "token issuer and audience are required";
  _ ← raise_if (negb ((60 <=? max_ttl) && (max_ttl <=? 3600))) ValueError
        "maximum token TTL must be between 60 and 3600 seconds";
  mret {| ts_keys := keys; ts_issuer := strip issuer; ts_audience := strip audience;
          ts_max_ttl := max_ttl; ts_skew := skew; ts_recursion_limit := depth |}.

Definition token_header (key : string) : mapping :=
  fields [("alg", PStr "EdDSA"); ("kid", PStr key); ("typ", PStr "JWT")].

Definition scope_claim (s : ActorScopes string) : mapping :=
  fields [("continuity_uid", opt_str (sc_continuity_uid s));
          ("merchant_ids", PList (PStr <$> sc_merchant_ids s));
          ("branch_ids", PList (PStr <$> sc_branch_ids s));
          ("partner_ids", PList (PStr <$> sc_partner_ids s));
          ("permissions", PList (PStr <$> sc_permissions s))].

Definition token_claims svc (principal : string) (t : PrincipalType) (jti : string)
    (now expires : instant) (s : ActorScopes string) : mapping :=
  fields [("iss", PStr (ts_issuer svc)); ("aud", PStr (ts_audience svc));
          ("sub", PStr (strip principal)); ("jti", PStr jti);
          ("principal_type", PStr (PrincipalType_value t));
          ("iat", PInt (epoch now)); ("nbf", PInt (epoch now)); ("exp", PInt (epoch expires));
          ("scope", PDict (scope_claim s))].

(** The text that is signed. *)
Definition token_input (header claims : mapping) : res string :=
  h ← token_json (PDict header);
  c ← token_json (PDict claims);
  mret (b64url_encode h +:+ "." +:+ b64url_encode c).

(** [token_id or f"AT-{uuid4().hex.upper()}"] *)
Definition token_identifier (token_id : option string) (uuid_hex : string) : string :=
  match token_id with
  | Some (String c t) => String c t
  | _ => "AT-" +:+ upper uuid_hex
  end.

Definition issue svc (principal_id : string) (t : PrincipalType) (scopes : ActorScopes string)
    (key : string) (ttl : Z) (token_id : option string) (at_ : option datetime) (clock : instant)
    (uuid_hex : string) : res string :=
  now ← token_instant at_ clock;
  _ ← raise_if (blank principal_id) ValueError "principal_id is required";
  _ ← raise_if (negb ((60 <=? ttl) && (ttl <=? ts_max_ttl svc))) ValueError
        "token TTL exceeds policy";
  record ← require (get_key_record (ts_keys svc) key) KeyError
             ("unknown access-token signing key: " +:+ key);
  _ ← raise_if (negb (bool_decide (purpose record = ACCESS_TOKEN_SIGNING))) PermissionError
        "key is not authorized for access-token signing";
  _ ← raise_if (negb (permits_signing_at record now)) PermissionError
        "access-token signing key is not active";
  n ← normalized_scopes (dynamic_scopes scopes);
  _ ← validate_principal_scope t n;
  let jti := token_identifier token_id uuid_hex in
  expires ← plus_seconds now ttl;
  _ ← raise_if (not_after record <? expires) ValueError
        "access token cannot outlive its signing key";
  input ← token_input (token_header key) (token_claims svc principal_id t jti now expires n);
  sig ← provider_sign (ts_keys svc) key (encode_utf8 input);
  mret (input +:+ "." +:+ b64url_encode sig).

(** *** [verify], stage by stage *)
Definition token_error {A} (code : string) : res A := raise AccessTokenError code.
Definition refuse_if (c : bool) (code : string) : res unit := raise_if c AccessTokenError code.

(** The parts of the token, decoded; any exception is a malformed token. *)
Definition parse_token svc (token : string) : res (mapping * mapping * string * string) :=
  '(header, claims, input, sig) ← catch_res (λ _, true)
    ('(h, c, sig) ← match split_on "." token with
                    | [h; c; sig] => mret (h, c, sig)
                    | _ => raise ValueError "wrong number of parts"
                    end;
     hb ← b64url_decode h; header ← json_loads_bytes (ts_recursion_limit svc) hb;
     cb ← b64url_decode c; claims ← json_loads_bytes (ts_recursion_limit svc) cb;
     mret (header, claims, h +:+ "." +:+ c, sig))
    (λ _, token_error "TOKEN_MALFORMED");
  match header, claims with
  | PDict header, PDict claims => mret (header, claims, input, sig)
  | _, _ => token_error "TOKEN_MALFORMED"
  end.

(** [set(header) == {"alg", "kid", "typ"}] *)
Definition has_exactly (m : mapping) (keys : list string) : bool :=
  forallb (λ kv, bool_decide (kv.1 ∈ KStr <$> keys)) m
  && forallb (λ k, is_some_b (get m k)) keys.

Definition check_header svc (header : mapping) : res KeyRecord :=
  _ ← refuse_if (negb (has_exactly header ["alg"; "kid"; "typ"])) "TOKEN_HEADER_INVALID";
  _ ← refuse_if (negb (eq_str (get header "alg") "EdDSA" && eq_str (get header "typ") "JWT"))
        "TOKEN_ALGORITHM_REJECTED";
  record ← match get header "kid" with
           | Some (PStr key) =>
               require (get_key_record (ts_keys svc) key) AccessTokenError "TOKEN_KEY_NOT_FOUND"
           | _ => token_error "TOKEN_KEY_NOT_FOUND"
           end;
  _ ← refuse_if (negb (bool_decide (purpose record = ACCESS_TOKEN_SIGNING)))
        "TOKEN_KEY_PURPOSE_MISMATCH";
  _ ← refuse_if (bool_decide (key_status record = KEY_REVOKED)) "TOKEN_KEY_REVOKED";
  mret record.

Definition check_token_signature (record : KeyRecord) (input sig : string) : res unit :=
  catch_res (λ k, subclass k InvalidSignature || subclass k ValueError)
    (b ← b64url_decode sig; check_signature (public_key record) b (encode_utf8 input))
    (λ _, token_error "TOKEN_SIGNATURE_INVALID").

(** [_epoch_claim] *)
Definition epoch_claim (claims : mapping) (name : string) : res instant :=
  v ← item claims name;
  match v with
  | PInt n => fromtimestamp n
  | _ => raise ValueError (name +:+ " must be an integer epoch timestamp")
  end.

(** [raw_scope.get(name, ())], which must be an array. *)
Definition scope_list (scope : mapping) (name : string) : res (list pyval) :=
  match get scope name with
  | None => mret []
  | Some (PList l) | Some (PTuple l) => mret l
  | Some _ => raise ValueError (name +:+ " must be an array")
  end.

Definition claimed_scopes (scope : mapping) : res (ActorScopes pyval) :=
  merchants ← scope_list scope "merchant_ids";
  branches ← scope_list scope "branch_ids";
  partners ← scope_list scope "partner_ids";
  permissions ← scope_list scope "permissions";
  mret (Scopes (match get scope "continuity_uid" with Some PNone => None | v => v end)
          merchants branches partners permissions).

Record TokenClaims := {
  tc_issued_at : instant;
  tc_not_before : instant;
  tc_expires_at : instant;
  tc_principal_id : string;
  tc_token_id : string;
  tc_principal_type : PrincipalType;
  tc_scopes : ActorScopes string;
}.

Definition caught_claims (k : exn_kind) : bool :=
  subclass k KeyError || subclass k TypeError || subclass k ValueError
  || subclass k OverflowError.

Definition read_claims (claims : mapping) : res TokenClaims :=
  catch_res caught_claims
    (issued_at ← epoch_claim claims "iat";
     not_before ← epoch_claim claims "nbf";
     expires_at ← epoch_claim claims "exp";
     sub ← item claims "sub";
     jti ← item claims "jti";
     '(principal, token_id) ← match sub, jti with
                              | PStr s, PStr j => mret (s, j)
                              | _, _ => raise ValueError "sub and jti must be strings"
                              end;
     ty ← item claims "principal_type";
     t ← PrincipalType_of ty;
     raw ← item claims "scope";
     scope ← match raw with
             | PDict m => mret m
             | _ => raise ValueError "scope must be an object"
             end;
     dynamic ← claimed_scopes scope;
     scopes ← normalized_scopes dynamic;
     _ ← validate_principal_scope t scopes;
     mret {| tc_issued_at := issued_at; tc_not_before := not_before; tc_expires_at := expires_at;
             tc_principal_id := principal; tc_token_id := token_id; tc_principal_type := t;
             tc_scopes := scopes |})
    (λ _, token_error "TOKEN_CLAIMS_INVALID").

(** [a or b] whose operands may raise. *)
Definition or_else (a b : res bool) : res bool :=
  mbind (λ x : bool, if x then mret true else b) a.

(** The window checks; arithmetic that leaves the years 1 to 9999 raises. *)
Definition check_lifetime svc (record : KeyRecord) (c : TokenClaims) (now : instant) : res unit :=
  early ← or_else (t ← plus_seconds (tc_issued_at c) (- ts_skew svc); mret (now <? t))
                  (t ← plus_seconds (tc_not_before c) (- ts_skew svc); mret (now <? t));
  _ ← refuse_if early "TOKEN_NOT_YET_VALID";
  until ← plus_seconds (tc_expires_at c) (ts_skew svc);
  _ ← refuse_if (until <=? now) "TOKEN_EXPIRED";
  _ ← refuse_if ((tc_expires_at c <=? tc_issued_at c)
                 || (seconds (ts_max_ttl svc) <? tc_expires_at c - tc_issued_at c))
        "TOKEN_LIFETIME_INVALID";
  refuse_if (negb ((not_before record <=? tc_issued_at c)
                   && (tc_issued_at c <? not_after record))
             || (not_after record <? tc_expires_at c)) "TOKEN_OUTSIDE_KEY_LIFETIME".

Definition verify svc revoked (token : string) (at_ : option datetime) (clock : instant)
    : res AuthenticatedPrincipal :=
  now ← token_instant at_ clock;
  _ ← refuse_if (blank token) "BEARER_TOKEN_REQUIRED";
  _ ← refuse_if (16384 <? char_len token) "TOKEN_TOO_LARGE";
  '(header, claims, input, sig) ← parse_token svc token;
  record ← check_header svc header;
  _ ← check_token_signature record input sig;
  _ ← refuse_if (negb (eq_str (get claims "iss") (ts_issuer svc)
                       && eq_str (get claims "aud") (ts_audience svc)))
        "TOKEN_ISSUER_OR_AUDIENCE_INVALID";
  c ← read_claims claims;
  _ ← check_lifetime svc record c now;
  _ ← refuse_if (blank (tc_principal_id c) || blank (tc_token_id c)) "TOKEN_CLAIMS_INVALID";
  _ ← refuse_if (is_revoked revoked (tc_token_id c)) "TOKEN_REVOKED";
  mret {| ap_principal_id := tc_principal_id c; ap_principal_type := tc_principal_type c;
          ap_token_id := tc_token_id c; ap_issuer := ts_issuer svc;
          ap_audience := ts_audience svc; ap_scopes := tc_scopes c;
          ap_issued_at := tc_issued_at c; ap_expires_at := tc_expires_at c |}.

(** [AccessTokenService.revoke] *)
Definition revoke_token svc (token reason : string) (at_ : option datetime) (clock : instant)
    : M RevocationStore unit :=
  now ← lift (token_instant at_ clock);
  revoked ← getS;
  principal ← lift (verify svc revoked token (Some (Aware now)) clock);
  store_revoke (ap_token_id principal) (ap_expires_at principal) reason.
End service.
Arguments AccessTokenService : clear implicits.
