(* ===== verification/TokenFacts.v ===== *)
(** Lemmas about access tokens: the text of a token splits into its parts,
    normalised scopes are stable, and what a verified token was checked for. *)

From Stdlib Require Import Ascii String Strings.Byte.
From S2P Require Import Prelude.
From S2P Require Import PyBase.
From S2P Require Import PyDict.
From S2P Require Import Bytes.
From S2P Require Import CanonicalJson.
From S2P Require Import CanonicalFacts.
From S2P Require Import Keys.
From S2P Require Import Signatures.
From S2P Require Import OperationsStore.
From S2P Require Import OutboxFacts.
From S2P Require Import PyText.
From S2P Require Import PyJson.
From S2P Require Import PyJsonFacts.
From S2P Require Import PyJsonBytes.
From S2P Require Import History.
From S2P Require Import HistoryFacts.
From S2P Require Import HistoryInvariant.
From S2P Require Import AccessTokens.

(** ** Splitting a token *)
Definition dotless (s : string) : Prop := str_forall (λ c, negb (Ascii.eqb c ".")) s = true.

Lemma split_on_last s : dotless s → split_on "." s = [s].
Proof.
  unfold dotless. induction s as [|c s IH]; [done|]. cbn [str_forall split_on].
  intros [Hc%negb_true_iff Hs]%andb_true_iff. by rewrite Hc, IH.
Qed.

Lemma split_on_app s t : dotless s → split_on "." (s +:+ "." +:+ t) = s :: split_on "." t.
Proof.
  unfold dotless. induction s as [|c s IH]; [done|]. cbn [str_forall].
  intros [Hc%negb_true_iff Hs]%andb_true_iff. rewrite str_app_cons. cbn [split_on].
  by rewrite Hc, IH.
Qed.

Lemma b64_char_dotless_check :
  forallb (λ n, negb (Ascii.eqb (b64_char (Z.of_nat n)) ".")) (seq 0 64) = true.
Proof. vm_compute. reflexivity. Qed.

Lemma b64_char_dotless v : 0 <= v < 64 → Ascii.eqb (b64_char v) "." = false.
Proof.
  intros Hv. pose proof b64_char_dotless_check as Hall. rewrite forallb_forall in Hall.
  specialize (Hall (Z.to_nat v)). rewrite Z2Nat.id in Hall by lia.
  specialize (Hall ltac:(apply in_seq; lia)). by apply negb_true_iff.
Qed.

Lemma b64url_dotless b : dotless (b64url_encode b).
Proof.
  unfold b64url_encode, dotless. rewrite rstrip_pad_encode.
  induction b as [|x|x y|x y z l IH] using bytes_ind3; [done|..]; bz_ranges;
    cbn [b64_text str_forall]; rewrite ?IH;
    rewrite !b64_char_dotless by div_lia; done.
Qed.

Lemma token_parts h c s :
  split_on "." (b64url_encode h +:+ "." +:+ b64url_encode c +:+ "." +:+ b64url_encode s)
  = [b64url_encode h; b64url_encode c; b64url_encode s].
Proof.
  rewrite !split_on_app by apply b64url_dotless. by rewrite split_on_last by apply b64url_dotless.
Qed.

(** ** Scopes *)
Lemma text_values name l : mapR (text_or_type_error name) (PStr <$> l) = Ok l.
Proof. induction l as [|x l IH]; [done|]. cbn [fmap list_fmap mapR]. cbn. by rewrite IH. Qed.

Lemma text_values_inv name values texts :
  mapR (text_or_type_error name) values = Ok texts → values = PStr <$> texts.
Proof.
  revert texts. induction values as [|v values IH]; intros texts Hm; cbn [mapR] in Hm; inv_ok Hm;
    [done|]. match goal with Hx : mapR _ _ = Ok _ |- _ => apply IH in Hx as -> end.
  match goal with Hx : text_or_type_error _ _ = Ok _ |- _ =>
    unfold text_or_type_error in Hx; destruct v; try done; by injection Hx as -> end.
Qed.

Lemma remove_dups_full `{EqDecision A} (l : list A) :
  (length (remove_dups l) <= length l)%nat ∧
  (length (remove_dups l) = length l → remove_dups l = l).
Proof.
  induction l as [|x l [IH1 IH2]]; [done|]. cbn [remove_dups].
  destruct (decide_rel (∈) x l); cbn [length]; (split; [lia|]); intros Hlen; [lia|].
  f_equal. apply IH2. lia.
Qed.

Lemma filter_full {A} (P : A → Prop) `{∀ x, Decision (P x)} (l : list A) :
  length (filter P l) = length l → filter P l = l.
Proof.
  induction l as [|x l IH]; [done|]. rewrite filter_cons. pose proof (length_filter P l).
  case_decide; cbn [length]; intros Hlen; [|lia]. f_equal. apply IH. lia.
Qed.

(** A normalisation that drops nothing keeps every text. *)
Lemma normalized_texts_all (f : string → string) texts :
  length (py_sorted str_le (remove_dups (f <$> filter (λ t, blank t = false) texts)))
  = length (PStr <$> texts) →
  py_sorted str_le (remove_dups (f <$> filter (λ t, blank t = false) texts)) ≡ₚ f <$> texts.
Proof.
  rewrite py_sorted_perm, length_fmap. intros Hlen.
  pose proof (remove_dups_full (f <$> filter (λ t, blank t = false) texts)) as [Hle Heq].
  pose proof (length_filter (λ t, blank t = false) texts). rewrite length_fmap in Hle, Heq.
  rewrite Heq by lia. by rewrite filter_full by lia.
Qed.

(** The result of a normalisation is sorted, without repetition or blanks, and
    each element is in the normal form [f]. *)
Record normal_texts (f : string → string) (l : list string) : Prop := {
  nt_sorted : StronglySorted str_le l;
  nt_nodup : NoDup l;
  nt_each : ∀ t, t ∈ l → f t = t ∧ blank t = false ∧ char_len t <= 128;
}.

Section normal.
Context (f : string → string) (Hidemp : ∀ t, f (f t) = f t)
  (Hblank : ∀ t, blank t = false → blank (f t) = false).

Lemma existsb_long l : existsb (λ t, 128 <? char_len t) l = false ↔ ∀ t, t ∈ l → char_len t <= 128.
Proof.
  induction l as [|x l IH]; cbn [existsb]; [split; [intros _ t Ht; by apply elem_of_nil in Ht|done]|].
  rewrite orb_false_iff, IH. split.
  - intros [Hx Hl] t [->|Ht]%elem_of_cons; [lia|auto].
  - intros Hl. split; [specialize (Hl x ltac:(left)); lia|]. intros t Ht. apply Hl. by right.
Qed.

Lemma normalized_texts_ok name noun long values l :
  normalized_texts f name noun long values = Ok l →
  normal_texts f l ∧ ∃ texts, values = PStr <$> texts ∧ l ≡ₚ f <$> texts.
Proof.
  intros Hn. unfold normalized_texts in Hn. inv_ok Hn. guards.
  match goal with Hx : mapR _ _ = Ok _ |- _ => apply text_values_inv in Hx end.
  match goal with Hx : existsb _ _ = false |- _ => rewrite existsb_long in Hx; rename Hx into Hlong end.
  match goal with Hx : (length _ =? _)%nat = true |- _ => apply Nat.eqb_eq in Hx; rename Hx into Hlen
  | Hx : length _ = _ |- _ => rename Hx into Hlen end.
  split; [|subst values; eexists; split; [done|by apply normalized_texts_all]]. split.
  - apply py_sorted_sorted; apply _.
  - rewrite py_sorted_perm. apply NoDup_remove_dups.
  - intros t Ht. pose proof (Hlong t Ht). rewrite py_sorted_perm, elem_of_remove_dups in Ht.
    apply list_elem_of_fmap in Ht as (u & -> & [Hu _]%list_elem_of_filter). auto.
Qed.

Lemma normalized_texts_normal name noun long l :
  normal_texts f l → normalized_texts f name noun long (PStr <$> l) = Ok l.
Proof.
  intros [Hs Hnd He]. unfold normalized_texts. rewrite text_values. cbn [mbind res_bind].
  assert (filter (λ t, blank t = false) l = l) as ->.
  { clear -He. induction l as [|x l IH]; [done|]. rewrite filter_cons_True by (apply He; left).
    rewrite IH; [done|]. intros t Ht. apply He. by right. }
  assert (f <$> l = l) as ->.
  { clear -He. induction l as [|x l IH]; [done|]. cbn. rewrite (proj1 (He x ltac:(left))).
    f_equal. apply IH. intros t Ht. apply He. by right. }
  assert (remove_dups l = l) as ->.
  { clear -Hnd. induction Hnd as [|x l Hx _ IH]; [done|]. cbn [remove_dups].
    destruct (decide_rel (∈) x l); [done|by rewrite IH]. }
  rewrite py_sorted_id by done. rewrite length_fmap, Nat.eqb_refl. cbn.
  assert (existsb (λ t, 128 <? char_len t) l = false) as ->; [|done].
  apply existsb_long. intros t Ht. by apply He.
Qed.
End normal.

Lemma blank_strip t : blank (strip t) = blank t.
Proof. unfold blank. by rewrite strip_idemp. Qed.
Lemma blank_upper t : blank (upper t) = blank t.
Proof. unfold blank. rewrite strip_upper. by destruct (strip t). Qed.
Lemma upper_strip_idemp t : upper (strip (upper (strip t))) = upper (strip t).
Proof. by rewrite strip_upper, strip_idemp, upper_idemp. Qed.

Record normal_scopes (s : ActorScopes string) : Prop := {
  ns_uid : ∀ u, sc_continuity_uid s = Some u → is_continuity_uid u = true ∧ upper (strip u) = u;
  ns_merchants : normal_texts (λ t, upper (strip t)) (sc_merchant_ids s);
  ns_branches : normal_texts (λ t, upper (strip t)) (sc_branch_ids s);
  ns_partners : normal_texts (λ t, upper (strip t)) (sc_partner_ids s);
  ns_permissions : normal_texts strip (sc_permissions s);
  ns_total : (total_scopes s <= 200)%nat;
}.

Lemma normalized_scopes_ok v s : normalized_scopes v = Ok s → normal_scopes s.
Proof.
  intros Hn. unfold normalized_scopes in Hn. inv_ok Hn. guards.
  repeat match goal with
  | Hx : normalized_ids _ _ = Ok _ |- _ =>
      apply normalized_texts_ok in Hx as [Hx _];
        [|apply upper_strip_idemp|intros t; by rewrite blank_upper, blank_strip]
  | Hx : normalized_permissions _ = Ok _ |- _ =>
      apply normalized_texts_ok in Hx as [Hx _]; [|apply strip_idemp|intros t; by rewrite blank_strip]
  end.
  split; cbn; try done; [|match goal with Hx : (200 <? _)%nat = false |- _ => by apply Nat.ltb_ge in Hx end].
  intros u ->. match goal with Hx : normalized_uid _ = Ok _ |- _ => unfold normalized_uid in Hx;
    destruct (sc_continuity_uid v) as [[]|]; inv_ok Hx; guards end.
  all: simplify_eq. split; [done|apply upper_strip_idemp].
Qed.

Lemma normalized_scopes_normal s : normal_scopes s → normalized_scopes (dynamic_scopes s) = Ok s.
Proof.
  intros [Hu Hm Hb Hp Hperm Ht]. unfold normalized_scopes, normalized_ids, normalized_permissions.
  destruct s as [uid ms bs ps perms]. cbn [dynamic_scopes sc_continuity_uid sc_merchant_ids
    sc_branch_ids sc_partner_ids sc_permissions] in *.
  assert (normalized_uid (PStr <$> uid) = Ok uid) as ->.
  { destruct uid as [u|]; [|done]. destruct (Hu u eq_refl) as [Hc Hn]. cbn. by rewrite Hn, Hc. }
  rewrite !normalized_texts_normal by done. cbn [mbind res_bind].
  assert ((200 <? total_scopes (Scopes uid ms bs ps perms))%nat = false) as -> by (apply Nat.ltb_ge; lia).
  done.
Qed.

(** ** Reading a dictionary back *)
Lemma get_canon l m k :
  NoDup (fst <$> l) → canon (PDict l) = PDict m → get m k = canon <$> get l k.
Proof.
  intros Hnd. rewrite canon_dict. intros [= Hm]. rewrite <- Hm.
  assert (by_key l ≡ₚ l) as Hp by apply sort_on_perm.
  assert (NoDup (fst <$> map (λ kv, (kv.1, canon kv.2)) (by_key l))) as Hnd'.
  { assert (fst <$> map (λ kv : pykey * pyval, (kv.1, canon kv.2)) (by_key l) = fst <$> by_key l) as ->
      by (generalize (by_key l); intros j; induction j as [|x j IH]; [done|]; cbn; by f_equal).
    by rewrite Hp. }
  destruct (get l k) as [v|] eqn:Hv; cbn.
  - apply elem_get; [done|]. apply get_elem in Hv. rewrite <- Hp in Hv.
    by apply (list_elem_of_fmap_2 (λ kv : pykey * pyval, (kv.1, canon kv.2))) in Hv.
  - apply eq_None_not_Some. intros [w Hw%get_elem].
    apply list_elem_of_fmap in Hw as ([k0 v] & [= <- ->] & Hin). rewrite Hp in Hin.
    apply (elem_get _ _ _ Hnd) in Hin. congruence.
Qed.

Lemma canon_texts l : canon (PList (PStr <$> l)) = PList (PStr <$> l).
Proof. cbn [canon]. f_equal. induction l as [|x l IH]; [done|]. cbn. by f_equal. Qed.

(** ** What the stages of [verify] check *)
Section verify.
Context {P : Type} `{!SigningKeyProvider P} `{Ed25519}.
Implicit Types (svc : AccessTokenService P) (revoked : RevocationStore).

Lemma catch_res_ok {A} c (m : res A) h a :
  (∀ e b, h e ≠ Ok b) → catch_res c m h = Ok a ↔ m = Ok a.
Proof.
  intros Hh. unfold catch_res. destruct m as [b|e]; [done|].
  destruct (c (exn_class e)); [|done]. split; [by intros ?%Hh|done].
Qed.

Lemma parse_token_ok svc token header claims input sig :
  parse_token svc token = Ok (header, claims, input, sig) →
  ∃ h c hb cb, split_on "." token = [h; c; sig] ∧ input = h +:+ "." +:+ c ∧
    b64url_decode h = Ok hb ∧ json_loads_bytes (ts_recursion_limit svc) hb = Ok (PDict header) ∧
    b64url_decode c = Ok cb ∧ json_loads_bytes (ts_recursion_limit svc) cb = Ok (PDict claims).
Proof.
  unfold parse_token. rewrite res_bind_ok. intros ([[[hv cv] i] s] & Hp & Hend).
  rewrite catch_res_ok in Hp by done.
  destruct (split_on "." token) as [|h [|c [|s' [|]]]]; try done.
  inv_ok Hp. simplify_eq. repeat case_match; try done. inv_ok Hend. simplify_eq.
  eauto 12.
Qed.

Lemma check_header_ok svc header record :
  check_header svc header = Ok record →
  ∃ key, get header "kid" = Some (PStr key) ∧ get header "alg" = Some (PStr "EdDSA") ∧
    get_key_record (ts_keys svc) key = Some record ∧ purpose record = ACCESS_TOKEN_SIGNING ∧
    key_status record ≠ KEY_REVOKED.
Proof.
  intros Hc. unfold check_header, refuse_if, token_error in Hc.
  destruct (get header "kid") as [[| | | |key| | | | |]|]; inv_ok Hc; guards.
  exists key. repeat match goal with Hx : _ && _ = true |- _ => apply andb_true_iff in Hx as [? ?] end.
  split; [done|]. split; [by apply eq_str_true|]. simplify_eq. done.
Qed.

Lemma token_signature_ok record input sig u :
  check_token_signature record input sig = Ok u ↔
  ∃ b, b64url_decode sig = Ok b ∧ length (public_key record) = 32%nat ∧
    ed_verify (public_key record) b (encode_utf8 input) = true.
Proof.
  unfold check_token_signature. rewrite catch_res_ok by done. rewrite res_bind_ok.
  split; intros (b & Hb & Hs); exists b; (split; [done|]); destruct u; by apply check_signature_ok.
Qed.

Lemma principal_scope_ok t (s : ActorScopes string) u :
  validate_principal_scope t s = Ok u ↔
  (READ_ANY_PERMISSION ∈ sc_permissions s → t = PT_OPERATOR) ∧
  (t = PT_MERCHANT_SERVICE → sc_merchant_ids s ≠ []) ∧
  (t = PT_PARTNER_SERVICE → sc_partner_ids s ≠ []).
Proof.
  unfold validate_principal_scope. rewrite !res_bind_ok. setoid_rewrite res_bind_ok.
  setoid_rewrite res_raise_if_ok. split.
  - intros ([] & H1 & [] & H2 & H3). split_and!.
    + intros Hr. rewrite bool_decide_true in H1 by done. by apply negb_false_iff, bool_decide_eq_true in H1.
    + intros -> Hn. by rewrite Hn in H2.
    + intros -> Hn. by rewrite Hn in H3.
  - intros (H1 & H2 & H3). exists tt. split.
    { case_bool_decide as Hr; [|done]. by rewrite (H1 Hr). }
    exists tt. split; (case_bool_decide; [|done]); case_bool_decide; naive_solver.
Qed.

Lemma PrincipalType_of_value t : PrincipalType_of (PStr (PrincipalType_value t)) = Ok t.
Proof. by destruct t. Qed.
Lemma PrincipalType_of_ok v t : PrincipalType_of v = Ok t → v = PStr (PrincipalType_value t).
Proof.
  unfold PrincipalType_of. intros Ht. inv_ok Ht.
  apply head_Some_elem_of, list_elem_of_filter in Ht. tauto.
Qed.

Lemma epoch_claim_ok claims name t :
  epoch_claim claims name = Ok t ↔
  ∃ n, get claims name = Some (PInt n) ∧ fromtimestamp n = Ok t.
Proof.
  unfold epoch_claim. rewrite res_bind_ok. setoid_rewrite item_ok. split.
  - intros (v & Hg & Ht). destruct v; try by inv_ok Ht. eauto.
  - intros (n & Hg & Ht). eauto.
Qed.

Lemma read_claims_ok claims c :
  read_claims claims = Ok c →
  (∃ n, get claims "iat" = Some (PInt n) ∧ fromtimestamp n = Ok (tc_issued_at c)) ∧
  (∃ n, get claims "nbf" = Some (PInt n) ∧ fromtimestamp n = Ok (tc_not_before c)) ∧
  (∃ n, get claims "exp" = Some (PInt n) ∧ fromtimestamp n = Ok (tc_expires_at c)) ∧
  get claims "sub" = Some (PStr (tc_principal_id c)) ∧
  get claims "jti" = Some (PStr (tc_token_id c)) ∧
  get claims "principal_type" = Some (PStr (PrincipalType_value (tc_principal_type c))) ∧
  (∃ scope dynamic, get claims "scope" = Some (PDict scope) ∧ claimed_scopes scope = Ok dynamic ∧
     normalized_scopes dynamic = Ok (tc_scopes c)) ∧
  validate_principal_scope (tc_principal_type c) (tc_scopes c) = Ok tt.
Proof.
  unfold read_claims. rewrite catch_res_ok by done. intros Hr. inv_ok Hr.
  repeat match goal with Hx : epoch_claim _ _ = Ok _ |- _ => apply epoch_claim_ok in Hx end.
  match goal with v : string * string |- _ => destruct v as [principal token_id] end.
  inv_ok Hr.
  repeat match goal with
  | Hx : match ?a with _ => _ end = Ok _ |- _ => destruct a; try done; inv_ok Hx; simplify_eq
  | Hx : item _ _ = Ok _ |- _ => apply item_ok in Hx
  | Hx : PrincipalType_of _ = Ok _ |- _ => apply PrincipalType_of_ok in Hx
  | u : unit |- _ => destruct u
  end.
  simplify_eq. cbn. split_and!; eauto 10.
Qed.

Lemma lifetime_ok svc record c now u :
  check_lifetime svc record c now = Ok u →
  tc_issued_at c - seconds (ts_skew svc) <= now < tc_expires_at c + seconds (ts_skew svc) ∧
  tc_not_before c - seconds (ts_skew svc) <= now ∧
  not_before record <= tc_issued_at c < tc_expires_at c ∧ tc_expires_at c <= not_after record ∧
  tc_expires_at c - tc_issued_at c <= seconds (ts_max_ttl svc).
Proof.
  unfold check_lifetime, refuse_if, or_else. intros Hc. inv_ok Hc.
  repeat match goal with
  | Hx : plus_seconds _ _ = Ok _ |- _ => apply plus_seconds_ok in Hx as [-> _]
  | Hx : (if ?b then _ else _) = Ok _ |- _ => destruct b eqn:?; inv_ok Hx
  end; subst; try done.
  all: repeat match goal with
  | Hx : plus_seconds _ _ = Ok _ |- _ => apply plus_seconds_ok in Hx as [-> _]
  end; subst.
  all: rewrite ?negb_false_iff, ?orb_false_iff, ?andb_true_iff in *; unfold seconds in *; lia.
Qed.

(** ** The scopes that a token claims *)

(** [out] are the texts of the array [name] of the scope object, in the normal
    form [f]; no array is an empty one. *)
Definition claim_list (scope : mapping) (name : string) (f : string → string)
    (out : list string) : Prop :=
  ∃ texts, out ≡ₚ f <$> texts ∧
    (get scope name = Some (PList (PStr <$> texts)) ∨
     get scope name = Some (PTuple (PStr <$> texts)) ∨ get scope name = None ∧ texts = []).

Record scopes_claimed (scope : mapping) (s : ActorScopes string) : Prop := {
  sl_uid : match sc_continuity_uid s with
           | Some u => ∃ t, get scope "continuity_uid" = Some (PStr t) ∧ u = upper (strip t)
           | None => get scope "continuity_uid" = None ∨ get scope "continuity_uid" = Some PNone
           end;
  sl_merchants : claim_list scope "merchant_ids" (λ t, upper (strip t)) (sc_merchant_ids s);
  sl_branches : claim_list scope "branch_ids" (λ t, upper (strip t)) (sc_branch_ids s);
  sl_partners : claim_list scope "partner_ids" (λ t, upper (strip t)) (sc_partner_ids s);
  sl_permissions : claim_list scope "permissions" strip (sc_permissions s);
}.

Lemma scope_list_claim scope name f values out :
  scope_list scope name = Ok values →
  (∃ texts, values = PStr <$> texts ∧ out ≡ₚ f <$> texts) → claim_list scope name f out.
Proof.
  intros Hl (texts & -> & Hout). exists texts. split; [done|]. unfold scope_list in Hl.
  destruct (get scope name) as [[]|]; inv_ok Hl; simplify_eq; auto.
  right; right. split; [done|]. by destruct texts.
Qed.

Lemma claimed_scopes_ok scope dynamic s :
  claimed_scopes scope = Ok dynamic → normalized_scopes dynamic = Ok s → scopes_claimed scope s.
Proof.
  intros Hc Hn. unfold claimed_scopes in Hc. inv_ok Hc. subst. unfold normalized_scopes in Hn.
  cbn [sc_continuity_uid sc_merchant_ids sc_branch_ids sc_partner_ids sc_permissions] in Hn.
  inv_ok Hn. guards. subst.
  repeat match goal with
  | Hx : normalized_ids _ _ = Ok _ |- _ =>
      apply normalized_texts_ok in Hx as [_ Hx];
        [|apply upper_strip_idemp|intros t; by rewrite blank_upper, blank_strip]
  | Hx : normalized_permissions _ = Ok _ |- _ =>
      apply normalized_texts_ok in Hx as [_ Hx]; [|apply strip_idemp|intros t; by rewrite blank_strip]
  end.
  split; cbn; try (by eapply scope_list_claim).
  match goal with Hx : normalized_uid _ = Ok _ |- _ => unfold normalized_uid in Hx;
    destruct (get scope "continuity_uid") as [[]|]; inv_ok Hx; guards; simplify_eq end; eauto.
Qed.

(** A token that verifies, by what was checked. *)
Lemma verify_ok svc revoked token at_ clock p :
  verify svc revoked token at_ clock = Ok p →
  ∃ now header claims input sig record c,
    token_instant at_ clock = Ok now ∧ char_len token <= 16384 ∧
    parse_token svc token = Ok (header, claims, input, sig) ∧
    check_header svc header = Ok record ∧ check_token_signature record input sig = Ok tt ∧
    get claims "iss" = Some (PStr (ts_issuer svc)) ∧
    get claims "aud" = Some (PStr (ts_audience svc)) ∧
    read_claims claims = Ok c ∧ check_lifetime svc record c now = Ok tt ∧
    blank (tc_principal_id c) = false ∧ blank (tc_token_id c) = false ∧
    is_revoked revoked (tc_token_id c) = false ∧
    p = {| ap_principal_id := tc_principal_id c; ap_principal_type := tc_principal_type c;
           ap_token_id := tc_token_id c; ap_issuer := ts_issuer svc;
           ap_audience := ts_audience svc; ap_scopes := tc_scopes c;
           ap_issued_at := tc_issued_at c; ap_expires_at := tc_expires_at c |}.
Proof.
  unfold verify, refuse_if. intros Hv. inv_ok Hv. guards.
  repeat match goal with v : _ * _ |- _ => destruct v end. inv_ok Hv. guards.
  repeat match goal with u : unit |- _ => destruct u end.
  repeat match goal with
  | Hx : _ || _ = false |- _ => apply orb_false_iff in Hx as [? ?]
  | Hx : eq_str _ _ = true |- _ => apply eq_str_true in Hx
  end.
  eexists _, _, _, _, _, _, _. split_and!; done.
Qed.

(** ** Issuing *)
Lemma token_input_ok header claims input :
  token_input header claims = Ok input →
  input = b64url_encode (encode_utf8 (json_dumps (PDict header))) +:+ "." +:+
          b64url_encode (encode_utf8 (json_dumps (PDict claims))).
Proof.
  unfold token_input, token_json. intros Hi. inv_ok Hi.
  repeat match goal with Hx : utf8_encode _ = Ok _ |- _ => apply utf8_encode_ok in Hx as [_ ->] end.
  done.
Qed.

Lemma issue_ok svc pid t scopes key ttl token_id at_ clock uuid token :
  issue svc pid t scopes key ttl token_id at_ clock uuid = Ok token →
  ∃ now record n input sig,
    token_instant at_ clock = Ok now ∧ blank pid = false ∧ 60 <= ttl <= ts_max_ttl svc ∧
    get_key_record (ts_keys svc) key = Some record ∧ purpose record = ACCESS_TOKEN_SIGNING ∧
    permits_signing_at record now = true ∧
    normalized_scopes (dynamic_scopes scopes) = Ok n ∧ validate_principal_scope t n = Ok tt ∧
    seconds (-62135596800) <= now + seconds ttl < seconds 253402300800 ∧
    now + seconds ttl <= not_after record ∧
    token_input (token_header key) (token_claims svc pid t (token_identifier token_id uuid) now
      (now + seconds ttl) n) = Ok input ∧
    provider_sign (ts_keys svc) key (encode_utf8 input) = Ok sig ∧
    token = input +:+ "." +:+ b64url_encode sig.
Proof.
  unfold issue. intros Hi. inv_ok Hi. guards.
  repeat match goal with
  | Hx : plus_seconds _ _ = Ok _ |- _ => apply plus_seconds_ok in Hx as [-> ?]
  | u : unit |- _ => destruct u
  end.
  eexists _, _, _, _, _. split_and!; done || lia.
Qed.

(** The texts of a scope. *)
Definition scope_texts (n : ActorScopes string) : list string :=
  option_list (sc_continuity_uid n) ++ sc_merchant_ids n ++ sc_branch_ids n ++ sc_partner_ids n
  ++ sc_permissions n.

Lemma passes_texts l : Forall passes l → passes (json_dumps (PList (PStr <$> l))).
Proof.
  intros Hl. apply passes_list. apply Forall_fmap. eapply Forall_impl; [exact Hl|].
  intros s. apply passes_quote.
Qed.

Lemma header_round depth key :
  (1 <= depth)%nat → passes key →
  json_loads_bytes depth (encode_utf8 (json_dumps (PDict (token_header key))))
  = Ok (PDict (token_header key)).
Proof.
  intros Hd Hk. rewrite loads_dumps_bytes; [done|done|by repeat split|cbn; lia|].
  apply passes_dict. repeat constructor; cbn [fst snd key_text json_dumps]; try done; by apply passes_quote.
Qed.

Lemma texts_readable l : readable (PList (PStr <$> l)).
Proof.
  split_and!; cbn [storable printable_ints well_keyed];
    (induction l as [|x l IH]; [done|]); cbn [fmap list_fmap forallb]; exact IH.
Qed.

Lemma texts_nesting l : nesting (PList (PStr <$> l)) = 1%nat.
Proof. cbn [nesting]. f_equal. induction l as [|x l IH]; [done|]. cbn in *. lia. Qed.

Lemma readable_fields l :
  bool_decide (NoDup (fst <$> fields l)) = true → Forall (λ p, readable p.2) l →
  readable (PDict (fields l)).
Proof.
  intros Hnd Hl. split_and!; cbn [storable printable_ints well_keyed]; rewrite ?Hnd; clear Hnd;
    (induction Hl as [|[k v] l (Hs & Hp & Hk) _ IH]; [done|]);
    unfold fields in *; cbn [fmap list_fmap forallb fst snd] in *;
    rewrite ?Hs, ?Hp, ?Hk; exact IH.
Qed.

Lemma nesting_fields d l :
  Forall (λ p, nesting p.2 <= d)%nat l → (nesting (PDict (fields l)) <= S d)%nat.
Proof.
  intros Hl. cbn [nesting]. apply le_n_S. unfold fields.
  induction Hl as [|[k v] l Hv _ IH]; cbn [fmap list_fmap foldr fst snd] in *; lia.
Qed.

Lemma scope_readable n : readable (PDict (scope_claim n)).
Proof.
  apply readable_fields; [done|]. repeat constructor; try apply texts_readable.
  all: by destruct (sc_continuity_uid n).
Qed.

Lemma scope_passes n : Forall passes (scope_texts n) → passes (json_dumps (PDict (scope_claim n))).
Proof.
  unfold scope_texts. rewrite !Forall_app. intros (Hu & Hm & Hb & Hp & Hr).
  apply passes_dict. unfold scope_claim, fields.
  repeat constructor; cbn [fst snd key_text]; try done; try (by apply passes_texts).
  destruct (sc_continuity_uid n) as [u|]; [|done]. cbn in Hu |- *. apply passes_quote. by inversion Hu.
Qed.

Lemma small_printable z : seconds (-62135596800) <= seconds z <= seconds 253402300800 → int_printable z = true.
Proof.
  intros Hz. apply int_printable_spec. assert (Z.abs z < 10 ^ 12) by (unfold seconds in Hz; lia).
  eapply Z.lt_le_trans; [done|]. apply Z.pow_le_mono_r; lia.
Qed.

Section round.
Context svc (pid jti : string) (t : PrincipalType) (now expires : instant) (n : ActorScopes string).
Let claims := token_claims svc pid t jti now expires n.

Lemma claims_round depth :
  (3 <= depth)%nat → int_printable (epoch now) = true → int_printable (epoch expires) = true →
  Forall passes (ts_issuer svc :: ts_audience svc :: strip pid :: jti :: scope_texts n) →
  ∃ m, canon (PDict claims) = PDict m ∧
    json_loads_bytes depth (encode_utf8 (json_dumps (PDict claims))) = Ok (PDict m).
Proof.
  intros Hd Hnow Hexp Hp. rewrite !Forall_cons in Hp. destruct Hp as (Hiss & Haud & Hpid & Hjti & Hn).
  rewrite loads_dumps_bytes; [rewrite canon_dict; eauto|done|..].
  - apply readable_fields; [done|]. repeat constructor; try done; apply scope_readable.
  - etrans; [|exact Hd]. apply (nesting_fields 2).
    assert (nesting (PDict (scope_claim n)) <= 2)%nat.
    { apply (nesting_fields 1). rewrite !Forall_cons. cbn [snd]. rewrite !texts_nesting.
      split_and!; try lia; [|done]. destruct (sc_continuity_uid n); cbn; lia. }
    rewrite !Forall_cons. cbn [snd]. split_and!; try (cbn [nesting]; lia); done.
  - apply passes_dict. unfold claims, token_claims, fields.
    repeat constructor; cbn [fst snd key_text json_dumps]; try done; try (by apply passes_quote);
      try (by apply passes_str_int); try (by apply scope_passes).
    all: destruct t; done.
Qed.

Lemma claimed_scopes_round m :
  canon (PDict (scope_claim n)) = PDict m → claimed_scopes m = Ok (dynamic_scopes n).
Proof.
  intros Hm. assert (∀ k, get m k = canon <$> get (scope_claim n) k) as Hg
    by (intros k; eapply get_canon; [|exact Hm]; by apply (bool_decide_unpack _)).
  assert (∀ k l, get (scope_claim n) k = Some (PList (PStr <$> l)) →
    scope_list m k = Ok (PStr <$> l)) as Hlist.
  { intros k l Hk. unfold scope_list. rewrite Hg, Hk. cbn [fmap option_fmap option_map].
    by rewrite canon_texts. }
  unfold claimed_scopes.
  rewrite (Hlist "merchant_ids" (sc_merchant_ids n)), (Hlist "branch_ids" (sc_branch_ids n)),
    (Hlist "partner_ids" (sc_partner_ids n)), (Hlist "permissions" (sc_permissions n)), Hg by done.
  change (get (scope_claim n) "continuity_uid") with (Some (opt_str (sc_continuity_uid n))).
  cbn [mbind res_bind]. unfold dynamic_scopes. by destruct (sc_continuity_uid n).
Qed.

Lemma epoch_claim_round m k u :
  (∀ k, get m k = canon <$> get claims k) → get claims k = Some (PInt (epoch u)) →
  0 <= u < seconds 253402300800 → epoch_claim m k = Ok (seconds (epoch u)).
Proof.
  intros Hg Hk Hu. apply epoch_claim_ok. exists (epoch u). rewrite Hg, Hk. split; [done|].
  apply fromtimestamp_ok. split; [done|]. pose proof (epoch_le u (proj1 Hu)).
  pose proof (epoch_mono 0 u ltac:(lia) (proj1 Hu)). change (epoch 0) with 0 in *.
  unfold seconds in *. lia.
Qed.

Lemma read_claims_round m :
  canon (PDict claims) = PDict m → 0 <= now → now <= expires → expires < seconds 253402300800 →
  normal_scopes n → validate_principal_scope t n = Ok tt →
  read_claims m = Ok {| tc_issued_at := seconds (epoch now); tc_not_before := seconds (epoch now);
    tc_expires_at := seconds (epoch expires); tc_principal_id := strip pid; tc_token_id := jti;
    tc_principal_type := t; tc_scopes := n |}.
Proof.
  intros Hm Hnow Hle Hexp Hn Hv.
  assert (∀ k, get m k = canon <$> get claims k) as Hg
    by (intros k; eapply get_canon; [|exact Hm]; by apply (bool_decide_unpack _)).
  assert (∀ k v, get claims k = Some v → item m k = Ok (canon v)) as Hi
    by (intros k v Hk; apply item_ok; by rewrite Hg, Hk).
  unfold read_claims. apply catch_res_ok; [done|].
  rewrite (epoch_claim_round m "iat" now), (epoch_claim_round m "nbf" now),
    (epoch_claim_round m "exp" expires) by (done || lia).
  rewrite (Hi "sub" (PStr (strip pid))), (Hi "jti" (PStr jti)),
    (Hi "principal_type" (PStr (PrincipalType_value t))), (Hi "scope" (PDict (scope_claim n))) by done.
  cbn [mbind res_bind]. rewrite canon_dict. cbn [canon mbind res_bind mret res_ret].
  rewrite PrincipalType_of_value. cbn [mbind res_bind].
  rewrite claimed_scopes_round by apply canon_dict. cbn [mbind res_bind].
  rewrite normalized_scopes_normal by done. cbn [mbind res_bind]. by rewrite Hv.
Qed.
End round.
End verify.
