(* ===== verification/ApiGuard.v ===== *)
(** [railone_api/guard.py] and [railone_api/facade.py]: the guard that every
    API request passes (token, rate limit, operation, signed audit), and the
    facade that composes it with the transaction history and the provider
    outcomes.  The guarded operation acts on a world [W] of its own. *)

From Stdlib Require Import Ascii String.
From S2P Require Import Prelude.
From S2P Require Import PyBase.
From S2P Require Import PyDict.
From S2P Require Import Bytes.
From S2P Require Import Sha256.
From S2P Require Import CanonicalJson.
From S2P Require Import Keys.
From S2P Require Import Signatures.
From S2P Require Import Authority.
From S2P Require Import OperationsStore.
From S2P Require Import Operations.
From S2P Require Import Projection.
From S2P Require Import PyText.
From S2P Require Import History.
From S2P Require Import AccessTokens.

(** ** Requests, decisions and audits *)
Inductive ApiAuditOutcome := AUDIT_ALLOWED | AUDIT_DENIED | AUDIT_RATE_LIMITED | AUDIT_ERROR.
Definition ApiAuditOutcome_value (o : ApiAuditOutcome) : string :=
  match o with
  | AUDIT_ALLOWED => "ALLOWED" | AUDIT_DENIED => "DENIED"
  | AUDIT_RATE_LIMITED => "RATE_LIMITED" | AUDIT_ERROR => "ERROR"
  end.

Record ApiRequest := Request {
  rq_request_id : string;
  rq_method : string;
  rq_route_template : string;
  rq_access_reason : option string;
}.

Record RateLimitDecision := Decision {
  rl_allowed : bool;
  rl_limit : Z;
  rl_remaining : Z;
  rl_reset_at : instant;
}.

Record ApiRequestAudit := {
  au_audit_id : string;
  au_request_id : string;
  au_principal_id : string;
  au_token_id : option string;
  au_method : string;
  au_route_template : string;
  au_outcome : ApiAuditOutcome;
  au_status_code : Z;
  au_reason_code : string;
  au_occurred_at : instant;
  au_signed_audit : SignatureEnvelope;
}.

(** ** [InMemoryRateLimitStore] *)
Definition RateStore : Type := dict string (instant * Z * Z).

(** [_rate_policy] *)
Definition rate_policy (limit window : Z) : res unit :=
  _ ← raise_if (negb ((1 <=? limit) && (limit <=? 10000))) ValueError
        "rate limit must be between 1 and 10000";
  raise_if (negb ((1 <=? window) && (window <=? 3600))) ValueError
    "rate-limit window must be between 1 and 3600 seconds".

(** The window that a request at [at_] falls in, and its number there. *)
Definition next_window (current : option (instant * Z * Z)) (at_ : instant) : res (instant * Z) :=
  match current with
  | None => mret (at_, 1)
  | Some (started, count, length) =>
      until ← plus_seconds started length;
      mret (if until <=? at_ then (at_, 1) else (started, count + 1))
  end.

Definition consume (scope_key : string) (limit window : Z) (at_ : instant)
    : M RateStore RateLimitDecision :=
  _ ← lift (rate_policy limit window);
  windows ← getS;
  '(started, count) ← lift (next_window (dget windows scope_key) at_);
  _ ← putS (dset windows scope_key (started, count, window));
  reset_at ← lift (plus_seconds started window);
  mret (Decision (count <=? limit) limit (Z.max 0 (limit - count)) reset_at).

(** ** [InMemoryApiAuditStore] *)
Definition AuditStore : Type := dict string ApiRequestAudit.

Definition append (a : ApiRequestAudit) : M AuditStore unit :=
  audits ← getS;
  _ ← raise_if (dmem audits (au_audit_id a)) RuntimeError "API audit identifier collision";
  putS (dset audits (au_audit_id a) a).

(** ** [AuthenticatedRequestGuard] *)

(** [_instant] and [_validate_request] *)
Definition request_instant (at_ : option datetime) (clock : instant) : res instant :=
  aware "API request timestamp must be timezone-aware" (or_now at_ clock).

Definition http_methods : list string := ["GET"; "POST"; "PUT"; "PATCH"; "DELETE"].
Fixpoint has_char (c : ascii) (s : string) : bool :=
  match s with EmptyString => false | String d s' => Ascii.eqb d c || has_char c s' end.

Definition validate_request (r : ApiRequest) : res unit :=
  _ ← raise_if (blank (rq_request_id r) || (128 <? char_len (rq_request_id r))) ValueError
        "request_id must contain 1 to 128 characters";
  _ ← raise_if (negb (bool_decide (upper (rq_method r) ∈ http_methods))) ValueError
        "unsupported HTTP method";
  raise_if (negb (startswith (rq_route_template r) "/")
            || (256 <? char_len (rq_route_template r))
            || has_char "?" (rq_route_template r)) ValueError
    "route_template must be a normalized route without query data".

(** The stores around an API request. *)
Record ApiState (W : Type) := Api {
  as_revoked : RevocationStore;
  as_rates : RateStore;
  as_audits : AuditStore;
  as_world : W;
}.
Arguments Api {W}.
Arguments as_revoked {W}.
Arguments as_rates {W}.
Arguments as_audits {W}.
Arguments as_world {W}.

Definition on_rates {W A} : M RateStore A → M (ApiState W) A :=
  zoom as_rates (λ r s, Api (as_revoked s) r (as_audits s) (as_world s)).
Definition on_audits {W A} : M AuditStore A → M (ApiState W) A :=
  zoom as_audits (λ a s, Api (as_revoked s) (as_rates s) a (as_world s)).
Definition on_world {W A} : M W A → M (ApiState W) A :=
  zoom as_world (λ w s, Api (as_revoked s) (as_rates s) (as_audits s) w).

Section guard.
Context {P : Type} `{!SigningKeyProvider P} `{Ed25519}.

Record RequestGuard := {
  gd_tokens : AccessTokenService P;
  gd_audit_keys : P;
  gd_audit_key_id : string;
  gd_limit : Z;
  gd_window : Z;
}.
Implicit Types (g : RequestGuard) (r : ApiRequest).

(** [__init__] *)
Definition new_guard (tokens : AccessTokenService P) (keys : P) (key_id : string)
    (limit window : Z) : res RequestGuard :=
  _ ← rate_policy limit window;
  mret {| gd_tokens := tokens; gd_audit_keys := keys; gd_audit_key_id := key_id;
          gd_limit := limit; gd_window := window |}.

(** The material of an audit and its record: [_audit]. *)
Definition audit_core r (principal : option AuthenticatedPrincipal) (o : ApiAuditOutcome)
    (status : Z) (reason : string) (at_ : instant) : list (string * pyval) :=
  [("request_id", PStr (rq_request_id r));
   ("principal_id", PStr (default "UNAUTHENTICATED" (ap_principal_id <$> principal)));
   ("token_id", opt_str (ap_token_id <$> principal)); ("method", PStr (upper (rq_method r)));
   ("route_template", PStr (rq_route_template r)); ("outcome", PStr (ApiAuditOutcome_value o));
   ("status_code", PInt status); ("reason_code", PStr reason); ("occurred_at", PInt (epoch at_))].

Definition new_audit g r (principal : option AuthenticatedPrincipal) (o : ApiAuditOutcome)
    (status : Z) (reason : string) (at_ : instant) : res ApiRequestAudit :=
  let core := audit_core r principal o status reason at_ in
  id ← content_id "APIAUD" (pdict core);
  signed ← sign_artifact (gd_audit_keys g) API_REQUEST_AUDIT
             (fields (("audit_id", PStr id) :: core)) (gd_audit_key_id g) at_;
  mret {| au_audit_id := id; au_request_id := rq_request_id r;
          au_principal_id := default "UNAUTHENTICATED" (ap_principal_id <$> principal);
          au_token_id := ap_token_id <$> principal; au_method := upper (rq_method r);
          au_route_template := rq_route_template r; au_outcome := o; au_status_code := status;
          au_reason_code := reason; au_occurred_at := at_; au_signed_audit := signed |}.

Definition api_audit {W} g r (principal : option AuthenticatedPrincipal) (o : ApiAuditOutcome)
    (status : Z) (reason : string) (at_ : instant) : M (ApiState W) unit :=
  a ← lift (new_audit g r principal o status reason at_);
  on_audits (append a).

(** [raise] in an [except] block. *)
Definition reraise {S A} (e : exn) : M S A := λ s, (Err e, s).

(** The outcome and status of an operation that raised. *)
Definition failure_status (k : exn_kind) : ApiAuditOutcome * Z :=
  if subclass k PermissionError then (AUDIT_DENIED, 403)
  else if subclass k LookupError then (AUDIT_DENIED, 404)
  else (AUDIT_ERROR, 500).

Definition exn_reason (k : exn_kind) : string := upper (exn_name k).

Definition scope_key_of (principal : AuthenticatedPrincipal) r : string :=
  ap_principal_id principal +:+ ":" +:+ rq_route_template r.

Context {W A : Type}.

(** From an authenticated principal on. *)
Definition run_authenticated g r (operation : AuthenticatedPrincipal → M W A)
    (principal : AuthenticatedPrincipal) (now : instant)
    : M (ApiState W) (A * RateLimitDecision) :=
  decision ← on_rates (consume (scope_key_of principal r) (gd_limit g) (gd_window g) now);
  if negb (rl_allowed decision) then
    _ ← api_audit g r (Some principal) AUDIT_RATE_LIMITED 429 "API_RATE_LIMIT_EXCEEDED" now;
    raise ApiRateLimitExceededError "API_RATE_LIMIT_EXCEEDED"
  else
    result ← outcome (on_world (operation principal));
    match result with
    | Err e =>
        let '(o, status) := failure_status (exn_class e) in
        _ ← api_audit g r (Some principal) o status (exn_reason (exn_class e)) now;
        reraise e
    | Ok a =>
        _ ← api_audit g r (Some principal) AUDIT_ALLOWED 200 "REQUEST_ALLOWED" now;
        mret (a, decision)
    end.

Definition execute g (bearer_token : string) r (operation : AuthenticatedPrincipal → M W A)
    (at_ : option datetime) (clock : instant) : M (ApiState W) (A * RateLimitDecision) :=
  now ← lift (request_instant at_ clock);
  _ ← lift (validate_request r);
  s ← getS;
  match verify (gd_tokens g) (as_revoked s) bearer_token (Some (Aware now)) clock with
  | Err e =>
      if subclass (exn_class e) AccessTokenError then
        _ ← api_audit g r None AUDIT_DENIED 401 (exn_msg e) now;
        reraise e
      else reraise e
  | Ok principal => run_authenticated g r operation principal now
  end.
End guard.
Arguments RequestGuard : clear implicits.

(** ** [RailOneApiFacade] *)
Section facade.
Context {P : Type} `{!SigningKeyProvider P} `{Ed25519}.
Implicit Types (g : RequestGuard P).

Definition me g (bearer_token request_id : string) (at_ : option datetime) (clock : instant)
    : M (ApiState HistoryStore) (AuthenticatedPrincipal * RateLimitDecision) :=
  execute g bearer_token (Request request_id "GET" "/v1/auth/me" None) (λ principal, mret principal)
    at_ clock.

(** [uuid_hex] is the identifier that the history service draws for its own
    access audit. *)
Definition read_transaction (principal : AuthenticatedPrincipal) (utt_id : string)
    (reason : option string) (at_ : option datetime) (clock : instant) (uuid_hex : string)
    : M HistoryStore TransactionHistoryEntry :=
  access ← lift (transaction_context (ap_scopes principal) (ap_principal_id principal) reason);
  get_by_utt utt_id access at_ clock uuid_hex.

Definition get_transaction g (bearer_token request_id utt_id : string) (reason : option string)
    (at_ : option datetime) (clock : instant) (uuid_hex : string)
    : M (ApiState HistoryStore) (TransactionHistoryEntry * RateLimitDecision) :=
  execute g bearer_token (Request request_id "GET" "/v1/transactions/{utt_id}" reason)
    (λ principal, read_transaction principal utt_id reason at_ clock uuid_hex) at_ clock.

Definition list_transactions g (bearer_token request_id : string) (kind : SubjectKind)
    (subject_id : string) (limit : Z) (cursor reason : option string) (at_ : option datetime)
    (clock : instant) (uuid_hex : string)
    : M (ApiState HistoryStore) (TransactionHistoryPage * RateLimitDecision) :=
  execute g bearer_token (Request request_id "GET" "/v1/transactions" reason)
    (λ principal,
       access ← lift (transaction_context (ap_scopes principal) (ap_principal_id principal) reason);
       list_by_subject kind subject_id access limit cursor at_ clock uuid_hex) at_ clock.

(** [outcomes] is the projection store that the facade reads. *)
Definition get_provider_outcome g (outcomes : ProjectionStore)
    (bearer_token request_id submission_id : string) (reason : option string)
    (at_ : option datetime) (clock : instant) (uuid_hex : string)
    : M (ApiState HistoryStore) (ProviderOutcomeProjection * RateLimitDecision) :=
  execute g bearer_token
    (Request request_id "GET" "/v1/provider-submissions/{submission_id}" reason)
    (λ principal,
       projection ← require (get_projection outcomes submission_id) LookupError
                      ("provider outcome not found: " +:+ submission_id);
       _ ← read_transaction principal (po_utt_id projection) reason at_ clock uuid_hex;
       mret projection) at_ clock.
End facade.
