(* ===== verification/ApiFacts.v ===== *)
(** Lemmas about the API guard: the windows of the rate limiter, and the ways
    in which a guarded request ends. *)

From Stdlib Require Import Ascii String.
From S2P Require Import Prelude.
From S2P Require Import PyBase.
From S2P Require Import PyDict.
From S2P Require Import Bytes.
From S2P Require Import CanonicalJson.
From S2P Require Import Keys.
From S2P Require Import Signatures.
From S2P Require Import OperationsStore.
From S2P Require Import OutboxFacts.
From S2P Require Import PyText.
From S2P Require Import History.
From S2P Require Import AccessTokens.
From S2P Require Import TokenFacts.
From S2P Require Import ApiGuard.

(** ** The rate limiter *)
Section rates.
Context (limit window : Z).

(** A sequence of requests for scope keys; a request that raises does not stop
    the next one. *)
Definition consume_all : list (string * instant) → M RateStore (list (res RateLimitDecision)) :=
  mapM_ (λ c, outcome (consume c.1 limit window c.2)).

(** Admitted for [key] within one window length from [t0]. *)
Definition admitted (key : string) (t0 : instant) (x : (string * instant) * res RateLimitDecision)
    : bool :=
  String.eqb x.1.1 key
  && match x.2 with Ok d => rl_allowed d | Err _ => false end
  && ((t0 <=? x.1.2) && (x.1.2 <? t0 + seconds window)).

Definition admissions key t0 (calls : list (string * instant)) ds : Z :=
  Z.of_nat (length (filter (λ x, admitted key t0 x = true) (zip calls ds))).

(** The earliest instant of a [datetime]. *)
Definition year_one : instant := seconds (-62135596800).

(** The state of the window of [key] against the admissions since [t0]; [last]
    bounds the instants seen. *)
Definition window_ok key t0 (rates : RateStore) (count last : Z) : Prop :=
  match dget rates key with
  | None => count = 0
  | Some (s, c, w) =>
      w = window ∧ year_one <= s <= last ∧ 1 <= c ∧ (s + seconds window <= t0 → count = 0) ∧
      (s <= t0 → count <= Z.min c limit) ∧
      (s < t0 + seconds window → count <= limit + Z.min c limit) ∧ count <= 2 * limit
  end.

Lemma window_ok_later key t0 rates count last last' :
  last <= last' → window_ok key t0 rates count last → window_ok key t0 rates count last'.
Proof.
  unfold window_ok. destruct (dget rates key) as [[[s c] w]|]; [|done]. intros ?.
  intros (? & ? & ?). split; [done|]. split; [lia|done].
Qed.

(** How [consume] ends. *)
Lemma consume_cases k t rates x rates' :
  consume k limit window t rates = (x, rates') →
  (rates' = rates ∧ ∃ e, x = Err e) ∨
  ∃ s c, next_window (dget rates k) t = Ok (s, c) ∧ rates' = dset rates k (s, c, window) ∧
    1 <= limit <= 10000 ∧ 1 <= window <= 3600 ∧
    (x = Ok (Decision (c <=? limit) limit (Z.max 0 (limit - c)) (s + seconds window)) ∨
     ∃ e, x = Err e).
Proof.
  unfold consume, rate_policy, lift, mbind, M_bind, res_bind, raise_if, getS, putS, mret, M_ret.
  destruct (negb ((1 <=? limit) && _)) eqn:Hl; [intros [= <- <-]; left; eauto|]. cbn.
  destruct (negb ((1 <=? window) && _)) eqn:Hw; [intros [= <- <-]; left; eauto|]. cbn.
  destruct (next_window (dget rates k) t) as [[s c]|e]; [|intros [= <- <-]; left; eauto].
  destruct (plus_seconds s window) as [until|e] eqn:Hp; intros [= <- <-]; right; exists s, c;
    (split; [done|]); (split; [done|]); (split; [lia|]); (split; [lia|]); [left|right; eauto].
  apply plus_seconds_ok in Hp as [-> _]. done.
Qed.

Lemma window_step key t0 k t rates x rates' count last :
  consume k limit window t rates = (x, rates') → year_one <= t → last <= t →
  window_ok key t0 rates count last →
  window_ok key t0 rates' (count + (if admitted key t0 ((k, t), x) then 1 else 0)) t.
Proof.
  intros Hc Hyear Ht Hok. apply consume_cases in Hc as [[-> [e ->]]|(s & c & Hn & -> & Hl & Hw & Hx)].
  { unfold admitted. cbn. rewrite andb_false_r, Z.add_0_r. by eapply window_ok_later. }
  unfold window_ok in *. rewrite dget_dset. unfold admitted. cbn [fst snd].
  destruct (String.eqb_spec k key) as [->|Hne]; cbn [andb].
  2: { rewrite decide_False by done. rewrite Z.add_0_r.
       destruct (dget rates key) as [[[s0 c0] w0]|]; [|done]. destruct_and!.
       split_and!; done || lia. }
  rewrite decide_True by done. set (W := seconds window) in *.
  assert (0 < W) as HW by (unfold W, seconds; lia).
  set (taken := match x with Ok d => rl_allowed d | Err _ => false end).
  assert (taken = true → c <= limit) as Hadmit
    by (unfold taken; destruct Hx as [->|[e ->]]; [cbn; lia|done]).
  assert (∃ n : Z, (if taken && ((t0 <=? t) && (t <? t0 + W)) then 1 else 0) = n ∧ 0 <= n <= 1 ∧
    (n = 1 → c <= limit ∧ t0 <= t < t0 + W)) as (n & -> & Hn01 & Hn1)
    by (exists (if taken && ((t0 <=? t) && (t <? t0 + W)) then 1 else 0); split; [done|];
        destruct taken, (Z.leb_spec t0 t), (Z.ltb_spec t (t0 + W)); cbn; split; try lia;
        intros; try lia; split; auto; lia).
  clear Hx Hadmit.
  assert (match dget rates key with
    | None => s = t ∧ c = 1
    | Some (s0, c0, w0) => if s0 + seconds w0 <=? t then s = t ∧ c = 1 else s = s0 ∧ c = c0 + 1
    end) as Hnext.
  { unfold next_window in Hn. destruct (dget rates key) as [[[s0 c0] w0]|]; [|by injection Hn as <- <-].
    inv_ok Hn. match goal with Hp : plus_seconds _ _ = Ok _ |- _ => apply plus_seconds_ok in Hp as [-> _] end.
    destruct (_ <=? t); by simplify_eq. }
  clear Hn. destruct (dget rates key) as [[[s0 c0] w0]|].
  - destruct Hok as (-> & Hs0 & Hc0 & H1 & H2 & H3 & H4). fold W in Hnext. clearbody taken W.
    destruct (Z.leb_spec (s0 + W) t); destruct Hnext as [-> ->]; split_and!; lia.
  - destruct Hnext as [-> ->]. clearbody taken W. split_and!; lia.
Qed.

Lemma consume_all_cons k t calls rates ds rates' :
  consume_all ((k, t) :: calls) rates = (Ok ds, rates') →
  ∃ x ds' rates1, consume k limit window t rates = (x, rates1) ∧
    consume_all calls rates1 = (Ok ds', rates') ∧ ds = x :: ds'.
Proof.
  unfold consume_all. cbn [mapM_]. rewrite run_bind_ok. intros (x & rates1 & Hx & Hrest).
  unfold outcome in Hx. cbn [fst snd] in Hx. destruct (consume k limit window t rates) as [y r1].
  injection Hx as <- <-. inv_ok Hrest. eauto 10.
Qed.

Lemma admissions_cons key t0 c calls x ds :
  admissions key t0 (c :: calls) (x :: ds)
  = (if admitted key t0 (c, x) then 1 else 0) + admissions key t0 calls ds.
Proof.
  unfold admissions. cbn [zip zip_with]. destruct (admitted key t0 (c, x)) eqn:Ha.
  - rewrite filter_cons_True by done. cbn [length]. lia.
  - rewrite filter_cons_False by congruence. lia.
Qed.

(** [upto] bounds every instant of the calls. *)
Lemma window_steps key t0 upto calls rates ds rates' count last :
  window_ok key t0 rates count last → year_one <= last <= upto →
  Forall (λ c, last <= c.2 <= upto) calls →
  StronglySorted (λ c d : string * instant, c.2 <= d.2) calls →
  consume_all calls rates = (Ok ds, rates') →
  window_ok key t0 rates' (count + admissions key t0 calls ds) upto.
Proof.
  revert rates ds count last. induction calls as [|[k t] calls IH];
    intros rates ds count last Hok [Hyear Hlast] Hle Hs Hrun.
  { injection Hrun as <- <-. rewrite Z.add_0_r. by eapply window_ok_later. }
  apply consume_all_cons in Hrun as (x & ds' & rates1 & Hx & Hrun & ->).
  apply Forall_cons in Hle as [[Ht Hup] Hle]. apply StronglySorted_inv in Hs as [Hs Hall].
  apply (window_step key t0 _ _ _ _ _ _ _ Hx ltac:(cbn in *; lia) Ht) in Hok. cbn [snd] in *.
  rewrite admissions_cons, Z.add_assoc. eapply (IH _ _ _ t); try done; [lia|].
  eapply Forall_impl; [exact (proj2 (Forall_and _ _) (conj Hle Hall))|].
  cbn. intros c [Hc1 Hc2]. lia.
Qed.

(** A request at least a window later than every earlier one opens a window. *)
Lemma consume_fresh key t0 t rates count last :
  window_ok key t0 rates count last → last + seconds window <= t →
  rate_policy limit window = Ok tt → t + seconds window < seconds 253402300800 →
  year_one <= last →
  consume key limit window t rates
  = (Ok (Decision true limit (limit - 1) (t + seconds window)), dset rates key (t, 1, window)).
Proof.
  intros Hok Ht Hpol Hmax Hyear. unfold consume. rewrite (run_lift_bind _ _ tt) by done.
  rewrite run_get_bind.
  unfold rate_policy, mbind, res_bind, raise_if in Hpol.
  destruct (negb ((1 <=? limit) && _)) eqn:Hl; [done|]. cbn in Hpol.
  destruct (negb ((1 <=? window) && _)) eqn:Hw; [done|]. clear Hpol.
  assert (0 < seconds window) as HW by (unfold seconds; lia).
  assert (next_window (dget rates key) t = Ok (t, 1)) as Hn.
  { unfold window_ok in Hok. destruct (dget rates key) as [[[s c] w]|]; [|done].
    destruct Hok as (-> & [Hs1 Hs2] & _). unfold next_window.
    rewrite (proj2 (plus_seconds_ok s window (s + seconds window)))
      by (unfold year_one in *; split; [done|lia]). cbn [mbind res_bind].
    destruct (Z.leb_spec (s + seconds window) t); [done|lia]. }
  assert (plus_seconds t window = Ok (t + seconds window)) as Hp
    by (apply plus_seconds_ok; unfold year_one in *; split; [done|lia]).
  rewrite (run_lift_bind _ _ (t, 1)) by done. erewrite run_bind_eq by done.
  rewrite (run_lift_bind _ _ (t + seconds window)) by done. unfold mret, M_ret. repeat f_equal; lia.
Qed.
End rates.

(** ** The guard *)
Section guard.
Context {P : Type} `{!SigningKeyProvider P} `{Ed25519} {W A : Type}.
Implicit Types (g : RequestGuard P) (r : ApiRequest) (s : ApiState W).

(** One audit was appended, with this content. *)
Definition audited g r (principal : option AuthenticatedPrincipal) (o : ApiAuditOutcome)
    (status : Z) (reason : string) (now : instant) s s' : Prop :=
  ∃ a, new_audit g r principal o status reason now = Ok a ∧
    dget (as_audits s) (au_audit_id a) = None ∧
    as_audits s' = dset (as_audits s) (au_audit_id a) a.

Definition same_but_audits s s' : Prop :=
  as_revoked s' = as_revoked s ∧ as_rates s' = as_rates s ∧ as_world s' = as_world s.

Lemma api_append_cases (a : ApiRequestAudit) (audits : AuditStore) x audits' :
  append a audits = (x, audits') →
  (x = Ok tt ∧ dget audits (au_audit_id a) = None ∧ audits' = dset audits (au_audit_id a) a) ∨
  (x = Err (Exn RuntimeError "API audit identifier collision") ∧
   is_Some (dget audits (au_audit_id a)) ∧ audits' = audits).
Proof.
  unfold append, dmem. intros Hr. run_paths; guards; subst; auto.
Qed.

(** How the audit of an outcome ends the request: the audit is appended and the
    request ends as [intended], or the audit cannot be made (its material, its
    key or its identifier is refused) and that error ends the request. *)
Definition audit_end {B} g r principal o status reason now s (intended x : res B) s' : Prop :=
  (x = intended ∧ audited g r principal o status reason now s s') ∨
  (∃ e, new_audit g r principal o status reason now = Err e ∧ x = Err e ∧
     as_audits s' = as_audits s) ∨
  (∃ a, new_audit g r principal o status reason now = Ok a ∧
     is_Some (dget (as_audits s) (au_audit_id a)) ∧
     x = Err (Exn RuntimeError "API audit identifier collision") ∧
     as_audits s' = as_audits s).

Lemma audit_end_audits {B} g r principal o status reason now s (y x : res B) s' :
  audit_end g r principal o status reason now s y x s' →
  audited g r principal o status reason now s s' ∨ (∃ e, x = Err e) ∧ as_audits s' = as_audits s.
Proof.
  intros [[_ ?]|[(e & _ & -> & ?)|(a & _ & _ & -> & ?)]]; [by left|right|right]; eauto.
Qed.

Lemma audit_end_ok {B} g r principal o status reason now s (y : res B) v s' :
  audit_end g r principal o status reason now s y (Ok v) s' →
  y = Ok v ∧ audited g r principal o status reason now s s'.
Proof. by intros [[-> ?]|[(e & _ & [=] & _)|(a & _ & _ & [=] & _)]]. Qed.

Lemma audit_then_cases {B} y (k : unit → M (ApiState W) B) g r principal o status reason now s
    (x : res B) s' :
  (∀ s1, k tt s1 = (y, s1)) → (api_audit g r principal o status reason now ≫= k) s = (x, s') →
  same_but_audits s s' ∧ audit_end g r principal o status reason now s y x s'.
Proof.
  intros Hk. unfold mbind at 1, M_bind, api_audit, on_audits, zoom, lift, mbind, M_bind.
  destruct (new_audit _ _ _ _ _ _ _) as [a|e] eqn:Ha.
  2: { intros [= <- <-]. split; [done|]. right; left. by exists e. }
  destruct (append a (as_audits s)) as [u audits'] eqn:Hap.
  apply api_append_cases in Hap as [(-> & Hn & ->)|(-> & Hin & ->)]; rewrite ?Hk; intros [= <- <-];
    (split; [done|]).
  - left. split; [done|]. by exists a.
  - right; right. exists a. split_and!; try done.
Qed.

(** The audit that the outcome of the operation calls for. *)
Definition result_audit (y : res A) : ApiAuditOutcome * Z * string :=
  match y with
  | Ok _ => (AUDIT_ALLOWED, 200, "REQUEST_ALLOWED")
  | Err e => (failure_status (exn_class e), exn_reason (exn_class e))
  end.

(** The ends of a request of an authenticated principal. *)
Inductive authenticated_end g r (operation : AuthenticatedPrincipal → M W A) p now s
    (x : res (A * RateLimitDecision)) s' : Prop :=
  | end_unlimited e :
      consume (scope_key_of p r) (gd_limit g) (gd_window g) now (as_rates s) = (Err e, as_rates s') →
      as_audits s' = as_audits s → as_world s' = as_world s → x = Err e →
      authenticated_end g r operation p now s x s'
  | end_limited d :
      consume (scope_key_of p r) (gd_limit g) (gd_window g) now (as_rates s) = (Ok d, as_rates s') →
      rl_allowed d = false → as_world s' = as_world s →
      audit_end g r (Some p) AUDIT_RATE_LIMITED 429 "API_RATE_LIMIT_EXCEEDED" now s
        (Err (Exn ApiRateLimitExceededError "API_RATE_LIMIT_EXCEEDED")) x s' →
      authenticated_end g r operation p now s x s'
  | end_ran d y :
      consume (scope_key_of p r) (gd_limit g) (gd_window g) now (as_rates s) = (Ok d, as_rates s') →
      rl_allowed d = true → operation p (as_world s) = (y, as_world s') →
      audit_end g r (Some p) (result_audit y).1.1 (result_audit y).1.2 (result_audit y).2 now s
        match y with Ok a => Ok (a, d) | Err e => Err e end x s' →
      authenticated_end g r operation p now s x s'.

Lemma run_authenticated_ends g r operation p now s x s' :
  run_authenticated g r operation p now s = (x, s') →
  as_revoked s' = as_revoked s ∧ authenticated_end g r operation p now s x s'.
Proof.
  unfold run_authenticated. unfold mbind at 1, M_bind, on_rates, zoom.
  destruct (consume _ _ _ _ (as_rates s)) as [[d|e] rates] eqn:Hc.
  2: { intros [= <- <-]. split; [done|]. by eapply end_unlimited. }
  set (s1 := Api _ _ _ _). destruct (rl_allowed d) eqn:Hd; cbn [negb].
  - unfold mbind at 1, M_bind, outcome, on_world, zoom.
    destruct (operation p (as_world s1)) as [y w] eqn:Hop. set (s2 := Api _ _ _ _).
    intros Hrun. assert (same_but_audits s2 s' ∧
      audit_end g r (Some p) (result_audit y).1.1 (result_audit y).1.2 (result_audit y).2 now s2
        match y with Ok a => Ok (a, d) | Err e => Err e end x s') as [(Hr & Hrt & Hw) Hend].
    { destruct y as [a|e]; [by eapply (audit_then_cases (Ok (a, d))) in Hrun|].
      cbn [result_audit]. destruct (failure_status (exn_class e)).
      by eapply (audit_then_cases (Err e)) in Hrun. }
    split; [done|]. apply (end_ran _ _ _ _ _ _ _ _ d y); by rewrite ?Hrt, ?Hw.
  - intros Hrun. eapply (audit_then_cases (Err (Exn ApiRateLimitExceededError _)))
      in Hrun as [(Hr & Hrt & Hw) Hend]; [|done].
    split; [done|]. apply (end_limited _ _ _ _ _ _ _ _ d); by rewrite ?Hrt.
Qed.

(** The error, if any, of the request itself. *)
Definition request_checked r at_ clock : res instant :=
  now ← request_instant at_ clock;
  _ ← validate_request r;
  mret now.

(** The ends of a request. *)
Lemma execute_ends g token r (operation : AuthenticatedPrincipal → M W A) at_ clock s x s' :
  execute g token r operation at_ clock s = (x, s') →
  (∃ e, request_checked r at_ clock = Err e ∧ x = Err e ∧ s' = s) ∨
  ∃ now, request_checked r at_ clock = Ok now ∧ request_instant at_ clock = Ok now ∧
    as_revoked s' = as_revoked s ∧
    ((∃ e, verify (gd_tokens g) (as_revoked s) token (Some (Aware now)) clock = Err e ∧
        as_rates s' = as_rates s ∧ as_world s' = as_world s ∧
        if subclass (exn_class e) AccessTokenError
        then audit_end g r None AUDIT_DENIED 401 (exn_msg e) now s (Err e) x s'
        else x = Err e ∧ as_audits s' = as_audits s) ∨
     (∃ p, verify (gd_tokens g) (as_revoked s) token (Some (Aware now)) clock = Ok p ∧
        authenticated_end g r operation p now s x s')).
Proof.
  unfold execute, request_checked. unfold mbind at 1, M_bind, lift.
  destruct (request_instant at_ clock) as [now|e] eqn:Hnow; [|intros [= <- <-]; left; eauto].
  unfold mbind at 1, M_bind, lift. cbn [mbind res_bind].
  destruct (validate_request r) as [[]|e] eqn:Hv; [|intros [= <- <-]; left; eauto].
  unfold mbind at 1, M_bind, getS. intros Hrun. right. exists now. split; [done|]. split; [done|].
  destruct (verify _ _ _ _ _) as [p|e] eqn:Hver.
  - apply run_authenticated_ends in Hrun as [Hr Hend]. split; [done|]. right. eauto.
  - destruct (subclass _ _) eqn:Hsub.
    + eapply (audit_then_cases (Err e)) in Hrun as [(Hr & Hrt & Hw) Hend]; [|done].
      split; [done|]. left. exists e. by rewrite Hsub.
    + injection Hrun as <- <-. split; [done|]. left. exists e. by rewrite Hsub.
Qed.

(** A request that was answered. *)
Lemma execute_ok g token r (operation : AuthenticatedPrincipal → M W A) at_ clock s a d s' :
  execute g token r operation at_ clock s = (Ok (a, d), s') →
  ∃ now p, request_instant at_ clock = Ok now ∧
    verify (gd_tokens g) (as_revoked s) token (Some (Aware now)) clock = Ok p ∧
    rl_allowed d = true ∧ operation p (as_world s) = (Ok a, as_world s') ∧
    audited g r (Some p) AUDIT_ALLOWED 200 "REQUEST_ALLOWED" now s s'.
Proof.
  intros [(? & _ & [=] & _)|(now & _ & Hnow & _ & [(e & _ & _ & _ & He)|(p & Hv & Hend)])]%execute_ends.
  { destruct (subclass _ _); [by apply audit_end_ok in He as [[=] _]|by destruct He]. }
  exists now, p. split; [done|]. split; [done|].
  destruct Hend as [e _ _ _ [=]|d' _ _ _ [[=] _]%audit_end_ok|d' y _ Hd Hop [Hy Ha]%audit_end_ok].
  destruct y as [b|]; [|done]. by injection Hy as -> ->.
Qed.
End guard.
