(* ===== verification/ApiClaims.v ===== *)
(** What the API boundary guarantees: the tokens that verify, the requests that
    are admitted, what runs and what is audited, and who reads a transaction. *)

From Stdlib Require Import Ascii String.
From S2P Require Import Prelude.
From S2P Require Import PyBase.
From S2P Require Import PyDict.
From S2P Require Import Bytes.
From S2P Require Import Sha256.
From S2P Require Import CanonicalJson.
From S2P Require Import CanonicalFacts.
From S2P Require Import Keys.
From S2P Require Import Signatures.
From S2P Require Import Authority.
From S2P Require Import Contracts.
From S2P Require Import OperationsStore.
From S2P Require Import OutboxFacts.
From S2P Require Import PyText.
From S2P Require Import PyJson.
From S2P Require Import PyJsonFacts.
From S2P Require Import PyJsonBytes.
From S2P Require Import History.
From S2P Require Import HistoryFacts.
From S2P Require Import HistoryInvariant.
From S2P Require Import HistoryClaims.
From S2P Require Import AccessTokens.
From S2P Require Import TokenFacts.
From S2P Require Import ApiGuard.
From S2P Require Import ApiFacts.

(** ** A token that was issued *)
Lemma lstrip_dot s t : ∃ s', lstrip (s +:+ String "." t) = s' +:+ String "." t.
Proof.
  induction s as [|c s IH]; [by exists EmptyString|]. rewrite str_app_cons. cbn [lstrip].
  destruct (is_space c); [done|]. exists (String c s). by rewrite str_app_cons.
Qed.

Lemma rstrip_dot s t : rstrip (s +:+ String "." t) ≠ EmptyString.
Proof.
  induction s as [|c s IH].
  - change (EmptyString +:+ String "." t) with (String "." t). cbn [rstrip]. by destruct (rstrip t).
  - rewrite str_app_cons. cbn [rstrip]. by destruct (rstrip (s +:+ String "." t)).
Qed.

Lemma dotted_not_blank s t : blank (s +:+ "." +:+ t) = false.
Proof.
  change ("." +:+ t) with (String "." t). unfold blank, strip.
  destruct (lstrip_dot s t) as [s' ->]. pose proof (rstrip_dot s' t). by destruct (rstrip _).
Qed.

Lemma epoch_plus t n : 0 <= t → 0 <= n → epoch (t + seconds n) = epoch t + n.
Proof.
  intros. unfold epoch, seconds. rewrite !Z.quot_div_nonneg by lia. by rewrite Z.div_add by lia.
Qed.

Section issued.
Context {P : Type} `{!SigningKeyProvider P} `{Ed25519} `{!SigningKeyProviderSpec P}.
Implicit Types (svc : AccessTokenService P).

Lemma parse_issued svc header claims input sig m :
  token_input header claims = Ok input →
  json_loads_bytes (ts_recursion_limit svc) (encode_utf8 (json_dumps (PDict header)))
  = Ok (PDict header) →
  json_loads_bytes (ts_recursion_limit svc) (encode_utf8 (json_dumps (PDict claims)))
  = Ok (PDict m) →
  parse_token svc (input +:+ "." +:+ b64url_encode sig) = Ok (header, m, input, b64url_encode sig).
Proof.
  intros ->%token_input_ok Hh Hc. unfold parse_token.
  rewrite !str_app_assoc, token_parts. unfold catch_res. cbn [mbind res_bind mret res_ret].
  rewrite !b64url_roundtrip. cbn [mbind res_bind]. by rewrite Hh, Hc.
Qed.

Lemma header_issued svc key record :
  get_key_record (ts_keys svc) key = Some record → purpose record = ACCESS_TOKEN_SIGNING →
  key_status record ≠ KEY_REVOKED → check_header svc (token_header key) = Ok record.
Proof.
  intros Hr Hp Hs. unfold check_header.
  change (has_exactly (token_header key) ["alg"; "kid"; "typ"]) with true.
  change (get (token_header key) "kid") with (Some (PStr key)).
  change (eq_str (get (token_header key) "alg") "EdDSA") with true.
  change (eq_str (get (token_header key) "typ") "JWT") with true.
  cbn [negb andb refuse_if raise_if mbind res_bind mret res_ret]. rewrite Hr.
  cbn [require mbind res_bind mret res_ret]. by rewrite (bool_decide_true _ Hp), (bool_decide_false _ Hs).
Qed.

Lemma lifetime_issued svc record c now :
  tc_not_before c = tc_issued_at c → 0 <= tc_issued_at c - seconds (ts_skew svc) + seconds 3600 →
  0 <= ts_skew svc <= 3600 → tc_expires_at c + seconds (ts_skew svc) < seconds 253402300800 →
  tc_issued_at c - seconds (ts_skew svc) <= now < tc_expires_at c + seconds (ts_skew svc) →
  not_before record <= tc_issued_at c < tc_expires_at c → tc_expires_at c <= not_after record →
  tc_expires_at c - tc_issued_at c <= seconds (ts_max_ttl svc) →
  check_lifetime svc record c now = Ok tt.
Proof.
  intros Hnb Hlow Hskew Hmax Hnow Hkey Hafter Httl. unfold check_lifetime, or_else. rewrite Hnb.
  assert (seconds (- ts_skew svc) = - seconds (ts_skew svc)) as Hneg by (unfold seconds; lia).
  rewrite (proj2 (plus_seconds_ok (tc_issued_at c) (- ts_skew svc) _))
    by (split; [done|rewrite Hneg; unfold seconds in *; lia]).
  rewrite (proj2 (plus_seconds_ok (tc_expires_at c) (ts_skew svc) _))
    by (split; [done|unfold seconds in *; lia]).
  rewrite Hneg. cbn [mbind res_bind mret res_ret].
  unfold refuse_if. rewrite (proj2 (Z.ltb_ge now _)) by lia.
  cbn [mbind res_bind mret res_ret raise_if].
  rewrite (proj2 (Z.leb_gt _ now)) by lia. cbn [mbind res_bind mret res_ret raise_if].
  rewrite (proj2 (Z.leb_gt (tc_expires_at c) (tc_issued_at c))) by lia.
  rewrite (proj2 (Z.ltb_ge (seconds (ts_max_ttl svc)) _)) by lia.
  cbn [orb mbind res_bind mret res_ret raise_if].
  rewrite (proj2 (Z.leb_le (not_before record) _)), (proj2 (Z.ltb_lt (tc_issued_at c) _)),
    (proj2 (Z.ltb_ge (not_after record) (tc_expires_at c))) by lia. done.
Qed.

(** C24 A token that [issue] returned verifies under the same service for as
    long as it lives, the clock skew on either side included: within the
    16,384 characters, with a token identifier that is neither blank nor
    revoked, and with a key whose window opens on or before the second of the
    issue.  The principal has the stripped identifier, the given type and the
    normalised scopes, and its times are those of the issue, to the second. *)
Theorem issued_token_verifies svc revoked pid t scopes key ttl token_id at_ clock uuid token
    now record n at2 clock2 now2 :
  let jti := token_identifier token_id uuid in
  provider_ok (ts_keys svc) →
  issue svc pid t scopes key ttl token_id at_ clock uuid = Ok token →
  token_instant at_ clock = Ok now → token_instant at2 clock2 = Ok now2 →
  normalized_scopes (dynamic_scopes scopes) = Ok n →
  get_key_record (ts_keys svc) key = Some record →
  not_before record <= seconds (epoch now) → 0 <= now →
  0 <= ts_skew svc <= 3600 →
  now + seconds ttl + seconds (ts_skew svc) < seconds 253402300800 →
  seconds (epoch now) - seconds (ts_skew svc) <= now2
    < seconds (epoch now + ttl) + seconds (ts_skew svc) →
  char_len token <= 16384 → blank jti = false → is_revoked revoked jti = false →
  (3 <= ts_recursion_limit svc)%nat →
  Forall passes (key :: ts_issuer svc :: ts_audience svc :: strip pid :: jti :: scope_texts n) →
  verify svc revoked token at2 clock2 = Ok {|
    ap_principal_id := strip pid; ap_principal_type := t; ap_token_id := jti;
    ap_issuer := ts_issuer svc; ap_audience := ts_audience svc; ap_scopes := n;
    ap_issued_at := seconds (epoch now); ap_expires_at := seconds (epoch now + ttl) |}.
Proof.
  intros jti Hok Hissue Hnow Hnow2 Hn Hrec Hnb H0 Hskew Hmax Hwin Hlen Hjti Hrev Hdepth Hp.
  apply issue_ok in Hissue as (now' & record' & n' & input & sig & Hnow' & Hpid & Httl & Hrec' &
    Hpur & Hperm & Hn' & Hscope & Hyear & Hafter & Hin & Hsig & ->).
  rewrite Hnow in Hnow'. injection Hnow' as <-. rewrite Hn in Hn'. injection Hn' as <-.
  rewrite Hrec in Hrec'. injection Hrec' as <-.
  apply Forall_cons in Hp as [Hkey Hp].
  pose proof (epoch_plus now ttl H0 ltac:(lia)) as Hexp.
  pose proof (epoch_le now H0) as Hle. pose proof (epoch_mono 0 now ltac:(lia) H0) as H0'.
  change (epoch 0) with 0 in H0'.
  destruct (claims_round svc pid jti t now (now + seconds ttl) n (ts_recursion_limit svc))
    as (m & Hcanon & Hloads); [done|apply small_printable; unfold seconds in *; lia..|done|].
  pose proof (read_claims_round svc pid jti t now (now + seconds ttl) n m Hcanon H0
    ltac:(unfold seconds in *; lia) ltac:(unfold seconds in *; lia)
    (normalized_scopes_ok _ _ Hn) Hscope) as Hread.
  assert (∀ k, get m k = canon <$> get (token_claims svc pid t jti now (now + seconds ttl) n) k) as Hg
    by (intros k; eapply get_canon; [|exact Hcanon]; by apply (bool_decide_unpack _)).
  destruct (provider_record (ts_keys svc) key record Hok Hrec) as [_ Hpk].
  apply andb_true_iff in Hperm as [Hact%bool_decide_eq_true _].
  assert (check_header svc (token_header key) = Ok record) as Hhead
    by (apply header_issued; [done|done|by rewrite Hact]).
  assert (check_token_signature record input (b64url_encode sig) = Ok tt) as Hcheck.
  { apply token_signature_ok. exists sig. split; [apply b64url_roundtrip|].
    split; [done|]. by eapply provider_signs. }
  unfold verify. rewrite Hnow2. cbn [mbind res_bind]. unfold refuse_if.
  rewrite dotted_not_blank. cbn [raise_if mbind res_bind mret res_ret].
  rewrite (proj2 (Z.ltb_ge 16384 _) Hlen). cbn [raise_if mbind res_bind mret res_ret].
  rewrite (parse_issued svc (token_header key) _ input sig m Hin) by
    (done || (apply header_round; [lia|done])).
  cbn [mbind res_bind]. rewrite Hhead. cbn [mbind res_bind]. rewrite Hcheck. cbn [mbind res_bind].
  rewrite (proj2 (eq_str_true (get m "iss") (ts_issuer svc))) by (by rewrite Hg).
  rewrite (proj2 (eq_str_true (get m "aud") (ts_audience svc))) by (by rewrite Hg).
  cbn [andb negb raise_if mbind res_bind mret res_ret]. rewrite Hread. cbn [mbind res_bind].
  rewrite lifetime_issued; cbn [tc_issued_at tc_not_before tc_expires_at tc_principal_id tc_token_id];
    rewrite ?Hexp; try done; try (unfold seconds in *; lia).
  cbn [mbind res_bind]. rewrite blank_strip, Hpid, Hjti.
  cbn [orb raise_if mbind res_bind mret res_ret]. by rewrite Hrev.
Qed.
End issued.

Section claims.
Context {P : Type} `{!SigningKeyProvider P} `{Ed25519}.
Implicit Types (svc : AccessTokenService P) (g : RequestGuard P) (r : ApiRequest).

(** The scopes of a verified principal. *)
Lemma verified_scopes svc revoked token at_ clock p :
  verify svc revoked token at_ clock = Ok p →
  normal_scopes (ap_scopes p) ∧
  (READ_ANY_PERMISSION ∈ sc_permissions (ap_scopes p) → ap_principal_type p = PT_OPERATOR) ∧
  (ap_principal_type p = PT_MERCHANT_SERVICE → sc_merchant_ids (ap_scopes p) ≠ []) ∧
  (ap_principal_type p = PT_PARTNER_SERVICE → sc_partner_ids (ap_scopes p) ≠ []).
Proof.
  intros (now & header & claims & input & sig & record & c & _ & _ & _ & _ & _ & _ & _ & Hc & _ &
    _ & _ & _ & ->)%verify_ok. cbn.
  apply read_claims_ok in Hc as (_ & _ & _ & _ & _ & _ & (scope & dynamic & _ & _ & Hn) & Hs).
  split; [by eapply normalized_scopes_ok|]. by eapply principal_scope_ok.
Qed.

(** C15 A token that verifies is a bearer's proof: its two first parts are
    signed by a key of the service that may sign access tokens and is not
    revoked; the signed claims are addressed to this service, and the principal
    has from them its identifier, its token, its type, its issue and expiry times
    (the claimed seconds) and its scopes (each field the array of its own name, in
    normal form).  The token lives inside the key's window and no longer than the
    policy allows; the clock is past its issue and its not-before time and before
    its expiry, all with the skew; its identifier is not revoked; and its scopes
    are normalised and within what the type of the principal may hold. *)
Theorem verified_token svc revoked token at_ clock p :
  verify svc revoked token at_ clock = Ok p →
  ∃ now h c sig cb claims key record b iat nbf exp scope,
    token_instant at_ clock = Ok now ∧ char_len token <= 16384 ∧
    split_on "." token = [h; c; sig] ∧
    get_key_record (ts_keys svc) key = Some record ∧ purpose record = ACCESS_TOKEN_SIGNING ∧
    key_status record ≠ KEY_REVOKED ∧ b64url_decode sig = Ok b ∧
    ed_verify (public_key record) b (encode_utf8 (h +:+ "." +:+ c)) = true ∧
    b64url_decode c = Ok cb ∧ json_loads_bytes (ts_recursion_limit svc) cb = Ok (PDict claims) ∧
    get claims "iss" = Some (PStr (ts_issuer svc)) ∧
    get claims "aud" = Some (PStr (ts_audience svc)) ∧
    get claims "sub" = Some (PStr (ap_principal_id p)) ∧
    get claims "jti" = Some (PStr (ap_token_id p)) ∧
    get claims "principal_type" = Some (PStr (PrincipalType_value (ap_principal_type p))) ∧
    ap_issuer p = ts_issuer svc ∧ ap_audience p = ts_audience svc ∧
    get claims "iat" = Some (PInt iat) ∧ ap_issued_at p = seconds iat ∧
    get claims "nbf" = Some (PInt nbf) ∧ seconds nbf - seconds (ts_skew svc) <= now ∧
    get claims "exp" = Some (PInt exp) ∧ ap_expires_at p = seconds exp ∧
    get claims "scope" = Some (PDict scope) ∧ scopes_claimed scope (ap_scopes p) ∧
    blank (ap_principal_id p) = false ∧ blank (ap_token_id p) = false ∧
    is_revoked revoked (ap_token_id p) = false ∧
    ap_issued_at p - seconds (ts_skew svc) <= now < ap_expires_at p + seconds (ts_skew svc) ∧
    not_before record <= ap_issued_at p < ap_expires_at p ∧ ap_expires_at p <= not_after record ∧
    ap_expires_at p - ap_issued_at p <= seconds (ts_max_ttl svc) ∧
    normal_scopes (ap_scopes p) ∧
    (READ_ANY_PERMISSION ∈ sc_permissions (ap_scopes p) → ap_principal_type p = PT_OPERATOR) ∧
    (ap_principal_type p = PT_MERCHANT_SERVICE → sc_merchant_ids (ap_scopes p) ≠ []) ∧
    (ap_principal_type p = PT_PARTNER_SERVICE → sc_partner_ids (ap_scopes p) ≠ []).
Proof.
  intros Hv. pose proof (verified_scopes _ _ _ _ _ _ Hv) as Hscopes.
  apply verify_ok in Hv as (now & header & claims & input & sig & record & tc & Hnow & Hlen &
    Hparse & Hhead & Hsig & Hiss & Haud & Hc & Hlife & Hpid & Hjti & Hrev & ->).
  apply parse_token_ok in Hparse as (h & c & hb & cb & Hsplit & -> & _ & _ & Hcb & Hclaims).
  apply check_header_ok in Hhead as (key & _ & _ & Hrec & Hpur & Hstat).
  apply token_signature_ok in Hsig as (b & Hb & _ & Hed).
  apply read_claims_ok in Hc as ((iat & Hiat & [His _]%fromtimestamp_ok) &
    (nbf & Hnbf & [Hnb _]%fromtimestamp_ok) & (exp & Hexp & [Hex _]%fromtimestamp_ok) &
    Hsub & Hjti' & Hty & (scope & dynamic & Hscope & Hdyn & Hnorm) & _).
  pose proof (claimed_scopes_ok _ _ _ Hdyn Hnorm) as Hclaimed.
  apply lifetime_ok in Hlife as (? & ? & ? & ? & ?). destruct Hscopes as (? & ? & ? & ?).
  rewrite Hnb in *. cbn in *.
  exists now, h, c, sig, cb, claims, key, record, b, iat, nbf, exp, scope. split_and!; done || lia.
Qed.

(** A revoked token never verifies again: once [revoke] returned, every
    token with that identifier is refused under every revocation store that still
    has the revocations of that moment; a revocation forgets none. *)
Theorem revoked_token_refused svc token reason at_ clock revoked revoked' token' at' clock' :
  revoke_token svc token reason at_ clock revoked = (Ok tt, revoked') →
  (∀ id, is_revoked revoked id = true → is_revoked revoked' id = true) ∧
  ∃ p, verify svc revoked token at_ clock = Ok p ∧
  ∀ later p', (∀ id, is_revoked revoked' id = true → is_revoked later id = true) →
    verify svc later token' at' clock' = Ok p' → ap_token_id p' ≠ ap_token_id p.
Proof.
  intros Hr. unfold revoke_token in Hr. inv_ok Hr.
  match goal with Hx : token_instant at_ clock = Ok ?v |- _ => rename Hx into Hnow, v into now end.
  match goal with Hx : verify _ _ _ _ _ = Ok ?v |- _ => rename Hx into Hv, v into p end.
  assert (∀ id, is_revoked revoked' id
    = is_revoked revoked id || bool_decide (ap_token_id p = id)) as Hall.
  { intros id. unfold store_revoke in Hr. inv_ok Hr. unfold is_revoked, dmem. rewrite dget_dset.
    case_bool_decide; case_decide; try done; by rewrite ?orb_true_r, ?orb_false_r. }
  split; [intros id Hid; by rewrite Hall, Hid|]. exists p. split.
  { rewrite <- Hv. unfold verify. by rewrite Hnow. }
  intros later p' Hlater Hp' Heq.
  destruct (verify_ok _ _ _ _ _ _ Hp') as (? & ? & ? & ? & ? & ? & c & _ & _ & _ & _ & _ & _ & _ &
    _ & _ & _ & _ & Hrev & ->). cbn in Heq.
  rewrite Hlater in Hrev; [done|]. rewrite Hall, Heq. by rewrite bool_decide_true, orb_true_r.
Qed.

(** C14 The guard mediates.  A malformed request changes nothing.  A token that
    does not verify runs nothing and draws nothing from the rate limit, and is
    audited as DENIED 401 with the reason.  A verified principal whose request the
    limiter refuses runs nothing and is audited as RATE_LIMITED 429.  Otherwise,
    and only then, the operation runs, once and for that principal, and its result
    is audited: ALLOWED 200, or for an exception DENIED 403 or 404 or ERROR 500
    with its name.  The caller gets the refusal or the result exactly if that one
    audit was appended; an audit that cannot be made (its material, its key or its
    identifier is refused: [audit_end]) is the error of the request instead.  An
    exception of the verifier other than [AccessTokenError], or of the limiter,
    is raised unaudited.  No request changes the revocations. *)
Theorem guard_mediates {W A} g token r (operation : AuthenticatedPrincipal → M W A) at_ clock s x s' :
  execute g token r operation at_ clock s = (x, s') →
  as_revoked s' = as_revoked s ∧
  ((∃ e, request_checked r at_ clock = Err e ∧ x = Err e ∧ s' = s) ∨
   (∃ now e, request_checked r at_ clock = Ok now ∧
      verify (gd_tokens g) (as_revoked s) token (Some (Aware now)) clock = Err e ∧
      as_rates s' = as_rates s ∧ as_world s' = as_world s ∧
      if subclass (exn_class e) AccessTokenError
      then audit_end g r None AUDIT_DENIED 401 (exn_msg e) now s (Err e) x s'
      else x = Err e ∧ as_audits s' = as_audits s) ∨
   (∃ now p, request_checked r at_ clock = Ok now ∧
      verify (gd_tokens g) (as_revoked s) token (Some (Aware now)) clock = Ok p ∧
      ((∃ e, consume (scope_key_of p r) (gd_limit g) (gd_window g) now (as_rates s)
             = (Err e, as_rates s') ∧
          as_world s' = as_world s ∧ x = Err e ∧ as_audits s' = as_audits s) ∨
       (∃ d, consume (scope_key_of p r) (gd_limit g) (gd_window g) now (as_rates s)
             = (Ok d, as_rates s') ∧
          if rl_allowed d
          then ∃ y, operation p (as_world s) = (y, as_world s') ∧
                 audit_end g r (Some p) (result_audit y).1.1 (result_audit y).1.2
                   (result_audit y).2 now s
                   match y with Ok a => Ok (a, d) | Err e => Err e end x s'
          else as_world s' = as_world s ∧
               audit_end g r (Some p) AUDIT_RATE_LIMITED 429 "API_RATE_LIMIT_EXCEEDED" now s
                 (Err (Exn ApiRateLimitExceededError "API_RATE_LIMIT_EXCEEDED")) x s')))).
Proof.
  intros [(e & He & -> & ->)|(now & Hnow & _ & Hr & [(e & Hv & Hrt & Hw & Ha)|(p & Hv & Hend)])]%execute_ends.
  - split; [done|]. left. eauto.
  - split; [done|]. right; left. by exists now, e.
  - split; [done|]. right; right. exists now, p. split; [done|]. split; [done|].
    destruct Hend as [e Hc Ha Hw ->|d Hc Hd Hw Ha|d y Hc Hd Hop Ha].
    + left. by exists e.
    + right. exists d. by rewrite Hd.
    + right. exists d. rewrite Hd. eauto.
Qed.

(** *** The audit trail *)
Definition audit_material (a : ApiRequestAudit) : list (string * pyval) :=
  [("request_id", PStr (au_request_id a)); ("principal_id", PStr (au_principal_id a));
   ("token_id", opt_str (au_token_id a)); ("method", PStr (au_method a));
   ("route_template", PStr (au_route_template a));
   ("outcome", PStr (ApiAuditOutcome_value (au_outcome a)));
   ("status_code", PInt (au_status_code a)); ("reason_code", PStr (au_reason_code a));
   ("occurred_at", PInt (epoch (au_occurred_at a)))].

Context `{!SigningKeyProviderSpec P}.

(** The same key in a later state of the key store. *)
Definition same_key (k k' : KeyRecord) : Prop :=
  key_id k' = key_id k ∧ owner_id k' = owner_id k ∧ purpose k' = purpose k ∧
  public_key k' = public_key k.

(** When [verify_artifact] can check a signature of the instant [t] under the
    record [k]: the key is not revoked and the whole second of [t], which is what
    the header records, lies inside the window. *)
Definition checkable (k : KeyRecord) (t : instant) : Prop :=
  key_id k ≠ EmptyString ∧ key_status k ≠ KEY_REVOKED ∧
  not_before k <= seconds (epoch t) < not_after k ∧
  -62135596800 <= epoch t <= 253402300799.

(** An audit that can be trusted: its identifier is the digest of its fields, its
    envelope carries those fields, and it was signed with the audit key of one of
    the service's [guards], active and inside its window at the time (its record
    is [k]), so that every key store that knows the key verifies it. *)
Record audit_trusted (guards : RequestGuard P → Prop) (a : ApiRequestAudit) : Prop := {
  at_digest : content_id "APIAUD" (pdict (audit_material a)) = Ok (au_audit_id a);
  at_payload : payload (au_signed_audit a)
    = freeze_mapping (fields (("audit_id", PStr (au_audit_id a)) :: audit_material a));
  at_signed : ∃ g k, guards g ∧
    get_key_record (gd_audit_keys g) (gd_audit_key_id g) = Some k ∧ key_status k = KEY_ACTIVE ∧ purpose k = API_AUDIT_SIGNING ∧
    not_before k <= au_occurred_at a < not_after k ∧
    ∀ (keys : P) k', provider_ok keys → get_key_record keys (gd_audit_key_id g) = Some k' →
      same_key k k' → checkable k' (au_occurred_at a) →
      verify_artifact keys (au_signed_audit a) (Some API_REQUEST_AUDIT) false
      = Ok (Verification true "VALID" (Some (gd_audit_key_id g)) (Some API_REQUEST_AUDIT));
}.

Lemma new_audit_trusted (guards : RequestGuard P → Prop) g r principal o status reason now a :
  guards g → provider_ok (gd_audit_keys g) →
  new_audit g r principal o status reason now = Ok a → audit_trusted guards a.
Proof.
  intros Hg Hok Ha. unfold new_audit in Ha. inv_ok Ha.
  match goal with Hx : content_id _ _ = Ok _ |- _ => rename Hx into Hcid end.
  match goal with Hx : sign_artifact _ _ _ _ _ = Ok _ |- _ => rename Hx into Hs end.
  apply sign_artifact_ok in Hs as (k & b & input & sig & Hk & Hpur & Hperm & Hb & Hi & Hsig & ->).
  apply andb_true_iff in Hperm as [Hact%bool_decide_eq_true Hwin].
  apply andb_true_iff in Hwin as [Hlo%Z.leb_le Hhi%Z.ltb_lt].
  destruct (provider_record _ _ _ Hok Hk) as [Hkid Hlen].
  split; [exact Hcid|done|]. exists g, k. split_and!; try done.
  intros keys k' Hok' Hk' (Hid & Hown & Hpur' & Hpub) (Hne & Hrev & Hin & Hrange).
  cbn [au_signed_audit au_occurred_at] in *.
  assert (gd_audit_key_id g = key_id k') as Hgd by congruence. rewrite Hgd in Hk' |- *.
  eapply (verify_signed _ _ k' API_REQUEST_AUDIT now b sig input); try done.
  - unfold header. by rewrite Hid, Hown.
  - by rewrite Hpur'.
  - eapply canonical_same; [done|]. symmetry. apply freeze_mapping_same.
  - apply b64url_roundtrip.
  - eapply (signing_input_same (header k API_REQUEST_AUDIT now (sha256_hex b)) _ _), Hi; symmetry;
      apply freeze_mapping_same.
  - rewrite Hpub. apply check_signature_ok. split; [done|]. exact (provider_signs _ _ _ _ _ Hok Hk Hsig).
Qed.

(** One request on the stores, by any of the service's guards (its keys change
    over time, and the guard with them), whatever its token, its operation and its clock; and what the other owners
    of the stores do, which leaves the audits alone. *)
Inductive api_step {W} (guards : RequestGuard P → Prop) : ApiState W → ApiState W → Prop :=
  | step_request {A} g token r (operation : AuthenticatedPrincipal → M W A) at_ clock s x s' :
      guards g →
      execute g token r operation at_ clock s = (x, s') → api_step guards s s'
  | step_other s s' : as_audits s' = as_audits s → api_step guards s s'.

Lemma execute_audits {W A} g token r (operation : AuthenticatedPrincipal → M W A) at_ clock s x s' :
  execute g token r operation at_ clock s = (x, s') →
  as_audits s' = as_audits s ∨
  ∃ principal o status reason now, audited g r principal o status reason now s s'.
Proof.
  intros [(e & _ & _ & ->)|(now & _ & _ & _ & [(e & _ & _ & _ & Ha)|(p & _ & Hend)])]%execute_ends.
  - by left.
  - destruct (subclass _ _); [|left; by destruct Ha].
    apply audit_end_audits in Ha as [Ha|[_ Ha]]; eauto 10.
  - destruct Hend as [e _ Ha _ _|d _ _ _ Ha|d y _ _ _ Ha]; [by left|..];
      apply audit_end_audits in Ha as [Ha|[_ Ha]]; eauto 10.
Qed.

(** C25 The audit trail only grows, and every audit in it can be trusted: it is
    filed under its identifier, which is the digest of its fields; its envelope
    carries those fields; and they were signed with the audit key of one of the
    service's guards, which was then active, of the purpose API_AUDIT_SIGNING and
    inside its window.  [verify_artifact] accepts
    the envelope under every key store that holds that key (same owner, purpose
    and public key, whatever its rotation or retirement since), provided that the
    key has a name and is not revoked, that its window holds the whole second of
    the audit, and that this second is a date of the years 1 to 9999.  The header
    records whole seconds: an audit of the very second in which its key's window
    opened, unless at its start, does not verify.  The key provider is trusted to file records under their names and to sign with the key
    of the record ([provider_ok]). *)
Theorem audit_trail_signed {W} (guards : RequestGuard P → Prop) (s s' : ApiState W) :
  (∀ g, guards g → provider_ok (gd_audit_keys g)) →
  (∀ id a, dget (as_audits s) id = Some a → au_audit_id a = id ∧ audit_trusted guards a) →
  rtc (api_step guards) s s' →
  (∀ id a, dget (as_audits s') id = Some a → au_audit_id a = id ∧ audit_trusted guards a) ∧
  (∀ id a, dget (as_audits s) id = Some a → dget (as_audits s') id = Some a).
Proof.
  intros Hkeys Hs Hrtc. induction Hrtc as [s|s s1 s' Hstep _ IH]; [done|].
  assert ((∀ id a, dget (as_audits s1) id = Some a → au_audit_id a = id ∧ audit_trusted guards a) ∧
    (∀ id a, dget (as_audits s) id = Some a → dget (as_audits s1) id = Some a)) as [Hs1 Hkeep].
  { destruct Hstep as [A g token r operation at_ clock s x s1 Hg Hrun|s s1 Hsame]; [|by rewrite Hsame].
    apply execute_audits in Hrun as [->|(principal & o & status & reason & now & a & Ha & Hn & ->)];
      [done|]. split.
    - intros id a'. rewrite dget_dset. case_decide as Hd; [intros [= <-]|by apply Hs].
      split; [done|]. eapply new_audit_trusted; eauto.
    - intros id a' Ha'. rewrite dget_dset. rewrite decide_False; [done|]. congruence. }
  destruct (IH Hs1) as [Hend Hmore]. split; [done|]. auto.
Qed.
End claims.

(** *** The facade *)

(** The link is to a subject that the token names. *)
Definition names_subject (s : ActorScopes string) (l : TransactionSubjectLink) : Prop :=
  match ln_kind l with
  | SUBJ_CONTINUITY_UID => upper (ln_subject_id l) = default EmptyString (sc_continuity_uid s)
  | SUBJ_MERCHANT_ID => upper (ln_subject_id l) ∈ sc_merchant_ids s
  | SUBJ_BRANCH_ID => upper (ln_subject_id l) ∈ sc_branch_ids s
  | SUBJ_PARTNER_ID => upper (ln_subject_id l) ∈ sc_partner_ids s
  end.

Lemma normal_upper l :
  normal_texts (λ t, upper (strip t)) l → upper <$> l = l.
Proof.
  intros [_ _ He]. induction l as [|t l IH]; [done|]. cbn. f_equal.
  - destruct (He t ltac:(left)) as (Ht & _ & _). rewrite <- Ht. apply upper_idemp.
  - apply IH. intros u Hu. apply He. by right.
Qed.

Lemma can_access_names p reason access :
  normal_scopes (ap_scopes p) →
  transaction_context (ap_scopes p) (ap_principal_id p) reason = Ok access →
  rc_access_reason access = reason ∧ rc_principal_id access = ap_principal_id p ∧
  privileged access = bool_decide (READ_ANY_PERMISSION ∈ sc_permissions (ap_scopes p)) ∧
  ∀ l, can_access (ln_kind l) (ln_subject_id l) access = true → privileged access = false →
    names_subject (ap_scopes p) l.
Proof.
  intros Hn Hc. unfold transaction_context in Hc. rewrite normalized_scopes_normal in Hc by done.
  injection Hc as <-. split; [done|]. split; [done|]. split; [done|].
  unfold can_access, names_subject. intros l Hc Hp. rewrite Hp in Hc. cbn [orb] in Hc. clear Hp.
  destruct Hn as [Hu Hm Hb Hpt _ _]. destruct (ln_kind l); cbn in Hc.
  - apply String.eqb_eq in Hc as <-. destruct (sc_continuity_uid _) as [u|]; [|done].
    destruct (Hu u eq_refl) as [_ Hup]. cbn. rewrite <- Hup. apply upper_idemp.
  - apply bool_decide_eq_true in Hc. by rewrite normal_upper in Hc.
  - apply bool_decide_eq_true in Hc. by rewrite normal_upper in Hc.
  - apply bool_decide_eq_true in Hc. by rewrite normal_upper in Hc.
Qed.

Lemma audit_ok access kind id allowed now fallback uuid (s : HistoryStore) s' u :
  negb allowed = false → audit access kind id allowed now fallback uuid s = (Ok u, s') →
  ∃ a, s' = HistoryInvariant.audited s a ∧
    History.au_principal_id a = strip (rc_principal_id access) ∧
    History.au_target_id a = id ∧ History.au_outcome a = ALLOWED.
Proof.
  intros ->%negb_false_iff Ha. unfold audit in Ha. inv_ok Ha.
  match goal with Hq : require_text _ _ = Ok _ |- _ => apply require_text_ok in Hq as [-> _] end.
  match type of Ha with append_audit ?a s = _ =>
    destruct (append_audit_cases a s) as [[_ Hr]|[_ Hr]]; rewrite Hr in Ha; inv_ok Ha;
    by exists a end.
Qed.

(** What [get_by_utt] delivers. *)
Lemma get_by_utt_ok utt_id access at_ clock uuid (s : HistoryStore) e s' :
  get_by_utt utt_id access at_ clock uuid s = (Ok e, s') →
  transactions s !! strip utt_id = Some (en_transaction e) ∧
  (privileged access = true ∧ no_reason access = false ∨
   privileged access = false ∧ ∃ ls l, links_by_utt s !! strip utt_id = Some ls ∧ l ∈ ls ∧
     can_access (ln_kind l) (ln_subject_id l) access = true) ∧
  ∃ a, s' = HistoryInvariant.audited s a ∧
    History.au_principal_id a = strip (rc_principal_id access) ∧
    History.au_target_id a = strip utt_id ∧ History.au_outcome a = ALLOWED.
Proof.
  intros Hrun. split; [by eapply get_ok|]. unfold get_by_utt in Hrun. cbv zeta in Hrun. inv_ok Hrun.
  match goal with Hq : require_text _ _ = Ok _ |- _ => apply require_text_ok in Hq as [-> _] end.
  match goal with Hq : links_for_utt s _ = Ok ?ls |- _ =>
    unfold links_for_utt in Hq; inv_ok Hq; rename ls into links, Hq into Hlinks end.
  match goal with Hq : require_privileged_reason _ _ _ _ _ = _ |- _ =>
    unfold require_privileged_reason in Hq;
    destruct (privileged access && no_reason access) eqn:Hreason; inv_ok Hq end.
  split; [|by eapply audit_ok].
  destruct (privileged access) eqn:Hpriv; [by left|]. right. split; [done|].
  match goal with Hq : negb (negb (bool_decide (?m = [])) || false) = false |- _ =>
    destruct (bool_decide_reflect (m = [])) as [|Hm]; [done|]; clear Hq end.
  exists links. unfold matched_roles in Hm. clear -Hlinks Hm.
  destruct (links ≫= _) as [|role roles] eqn:Hb; [done|]. clear Hm.
  assert (role ∈ links ≫= λ l, if can_access (ln_kind l) (ln_subject_id l) access then ln_roles l
    else []) as Hin by (rewrite Hb; left).
  apply list_elem_of_bind in Hin as (l & Hr & Hl). exists l. split; [done|]. split; [done|].
  by destruct (can_access _ _ _); [|apply elem_of_nil in Hr].
Qed.

(** C13 Who reads a transaction: when the facade answers [get_transaction],
    the bearer's token verified, the answer is the stored projection of the
    UTT asked for, and either the bearer is an operator with the privileged
    permission who gave a reason, or the UTT is linked to a subject that the
    token names; the history's own audit of that principal and the API audit
    of the request were both appended. *)
Theorem transaction_disclosed `{SigningKeyProvider P} `{Ed25519} (g : RequestGuard P) token
    request_id utt_id reason at_ clock uuid s e d s' :
  get_transaction g token request_id utt_id reason at_ clock uuid s = (Ok (e, d), s') →
  ∃ now p, request_instant at_ clock = Ok now ∧
    verify (gd_tokens g) (as_revoked s) token (Some (Aware now)) clock = Ok p ∧
    transactions (as_world s) !! strip utt_id = Some (en_transaction e) ∧
    (ap_principal_type p = PT_OPERATOR ∧ READ_ANY_PERMISSION ∈ sc_permissions (ap_scopes p) ∧
       (∃ text, reason = Some text ∧ blank text = false) ∨
     ∃ ls l, links_by_utt (as_world s) !! strip utt_id = Some ls ∧ l ∈ ls ∧
       names_subject (ap_scopes p) l) ∧
    (∃ a, as_world s' = HistoryInvariant.audited (as_world s) a ∧
       History.au_principal_id a = strip (ap_principal_id p) ∧
       History.au_target_id a = strip utt_id ∧ History.au_outcome a = ALLOWED) ∧
    audited g (Request request_id "GET" "/v1/transactions/{utt_id}" reason) (Some p)
      AUDIT_ALLOWED 200 "REQUEST_ALLOWED" now s s'.
Proof.
  intros (now & p & Hnow & Hv & _ & Hop & Ha)%execute_ok. exists now, p.
  unfold read_transaction in Hop. inv_ok Hop.
  match goal with Hq : transaction_context _ _ _ = Ok ?a |- _ => rename Hq into Hc, a into access end.
  destruct (verified_scopes _ _ _ _ _ _ Hv) as (Hn & Hoper & _).
  destruct (can_access_names p reason access Hn Hc) as (Hr & Hid & Hpr & Hnames).
  apply get_by_utt_ok in Hop as (Ht & Hwho & Haud). split; [done|]. split; [done|]. split; [done|].
  split; [|split; [|exact Ha]].
  - destruct Hwho as [[Hpriv Hreason]|(Hpriv & ls & l & Hls & Hl & Hcan)].
    + left.
      rewrite Hpr in Hpriv. apply bool_decide_eq_true in Hpriv. split; [auto|]. split; [done|].
      unfold no_reason in Hreason. rewrite Hr in Hreason. destruct reason as [text|]; eauto; done.
    + right. exists ls, l. split; [done|]. split; [done|].
      by apply Hnames.
  - rewrite Hid in Haud. exact Haud.
Qed.

(** C26 The rate limiter: calls that come in the order of their instants, on
    any keys and from an empty store, admit at most twice the limit for a key
    within any span of one window; and a call that comes a whole window after
    all of them is admitted as the first of a new window. *)
Theorem rate_limit_bound limit window key t0 calls ds rates upto t :
  StronglySorted (λ c d : string * instant, c.2 <= d.2) calls →
  Forall (λ c, year_one <= c.2 <= upto) calls → year_one <= upto →
  rate_policy limit window = Ok tt →
  consume_all limit window calls [] = (Ok ds, rates) →
  admissions window key t0 calls ds <= 2 * limit ∧
  (upto + seconds window <= t → t + seconds window < seconds 253402300800 →
   consume key limit window t rates
   = (Ok (Decision true limit (limit - 1) (t + seconds window)), dset rates key (t, 1, window))).
Proof.
  intros Hs Hle Hyear Hpol Hrun.
  assert (window_ok limit window key t0 rates (0 + admissions window key t0 calls ds) upto) as Hok.
  { eapply (window_steps limit window key t0 upto calls [] ds rates 0 year_one); [done|lia|done..]. }
  rewrite Z.add_0_l in Hok. split.
  - unfold window_ok in Hok. destruct (dget rates key) as [[[s c] w]|]; [tauto|].
    rewrite Hok. apply res_bind_ok in Hpol as ([] & Hl%res_raise_if_ok & _). lia.
  - intros Ht Hmax. by eapply consume_fresh.
Qed.

(** ** Demonstration data: an operator's token and two guarded requests *)
Module DemoApi.
Import ToyEd25519 DemoContracts DemoHistory.

Definition with_key (kid : string) (purp : KeyPurpose) (keys : InMemoryEd25519KeyProvider)
    : InMemoryEd25519KeyProvider :=
  (generate (encode_utf8 kid) 0 kid "RAILONE" purp 0 (seconds 1000000) None keys).2.
Definition api_keys : InMemoryEd25519KeyProvider :=
  with_key "KA" API_AUDIT_SIGNING (with_key "KT" ACCESS_TOKEN_SIGNING no_keys).

Definition tokens : AccessTokenService InMemoryEd25519KeyProvider :=
  {| ts_keys := api_keys; ts_issuer := "railone"; ts_audience := "railone-api"; ts_max_ttl := 900;
     ts_skew := 30; ts_recursion_limit := 1000 |}.
Definition operator_scopes : ActorScopes string := Scopes None [] [] [] [READ_ANY_PERMISSION].
Definition demo_token : string := Eval vm_compute in
  from_ok EmptyString (issue tokens " op-1 " PT_OPERATOR operator_scopes "KT" 600 (Some "AT-1")
    (Some (Aware (seconds 500))) 0 EmptyString).
Definition operator : AuthenticatedPrincipal :=
  {| ap_principal_id := "op-1"; ap_principal_type := PT_OPERATOR; ap_token_id := "AT-1";
     ap_issuer := "railone"; ap_audience := "railone-api"; ap_scopes := operator_scopes;
     ap_issued_at := seconds 500; ap_expires_at := seconds 1100 |}.

Definition demo_guard : RequestGuard InMemoryEd25519KeyProvider :=
  {| gd_tokens := tokens; gd_audit_keys := api_keys; gd_audit_key_id := "KA"; gd_limit := 2;
     gd_window := 60 |}.
Definition api_idle : ApiState HistoryStore := Api [] [] [] indexed1.
Definition api_read : res (TransactionHistoryEntry * RateLimitDecision) * ApiState HistoryStore :=
  get_transaction demo_guard demo_token "req-1" utt1 (Some "case 7") (Some (Aware (seconds 510))) 0
    "h1" api_idle.
End DemoApi.
Import ToyEd25519 DemoContracts DemoHistory DemoApi.

Lemma issued_eq :
  issue tokens " op-1 " PT_OPERATOR operator_scopes "KT" 600 (Some "AT-1")
    (Some (Aware (seconds 500))) 0 EmptyString = Ok demo_token.
Proof. vm_compute. reflexivity. Qed.
Lemma verified_eq : verify tokens [] demo_token (Some (Aware (seconds 510))) 0 = Ok operator.
Proof. vm_compute. reflexivity. Qed.
Lemma read_ok : is_ok api_read.1 = true.
Proof. vm_compute. reflexivity. Qed.

Lemma with_key_wf kid purp keys : keys_wf keys → keys_wf (with_key kid purp keys).
Proof.
  intros Hwf. unfold with_key. destruct (generate _ _ _ _ _ _ _ _ keys) as [[r|x] st] eqn:Hg.
  - simpl. by eapply generate_wf.
  - simpl. assert (st = keys) as ->; [|done]. symmetry.
    unfold generate in Hg. err_keeps Hg.
Qed.
Lemma api_keys_wf : keys_wf api_keys.
Proof. apply with_key_wf, with_key_wf, no_keys_wf. Qed.
Lemma api_keys_ok : provider_ok (ts_keys tokens).
Proof. exact api_keys_wf. Qed.

Definition token_key : KeyRecord := Eval vm_compute in
  default {| key_id := EmptyString; owner_id := EmptyString; purpose := QUOTE_SIGNING;
             public_key := []; key_status := KEY_ACTIVE; not_before := 0; not_after := 0;
             key_created_at := 0; rotation_parent_id := None; revoked_at := None;
             revocation_reason := None |} (get_key_record api_keys "KT").

Lemma issued_token_verifies_witness :
  verify tokens [] demo_token (Some (Aware (seconds 1129))) 0 = Ok operator.
Proof.
  apply (issued_token_verifies tokens [] " op-1 " PT_OPERATOR operator_scopes "KT" 600 (Some "AT-1")
    (Some (Aware (seconds 500))) 0 EmptyString demo_token (seconds 500) token_key operator_scopes
    (Some (Aware (seconds 1129))) 0 (seconds 1129) api_keys_ok issued_eq);
    try (vm_compute; first [reflexivity|discriminate|split; congruence]).
  - cbn. lia.
  - repeat (apply Forall_cons; split; [vm_compute; reflexivity|]). apply Forall_nil. done.
Defined.

Lemma verified_token_witness :
  verify tokens [] demo_token (Some (Aware (seconds 510))) 0 = Ok operator ∧
  ∃ key record, get_key_record api_keys key = Some record ∧
    purpose record = ACCESS_TOKEN_SIGNING ∧ not_before record <= ap_issued_at operator.
Proof.
  destruct (verified_token tokens [] demo_token (Some (Aware (seconds 510))) 0 operator verified_eq)
    as (now & h & c & sig & cb & claims & key & record & b & iat & nbf & exp & scope & Hall).
  destruct_and! Hall.
  split; [exact verified_eq|]. by exists key, record.
Defined.

Definition revocation : res unit * RevocationStore := Eval vm_compute in
  revoke_token tokens demo_token "stolen" (Some (Aware (seconds 510))) 0 [].
Lemma revocation_eq :
  revoke_token tokens demo_token "stolen" (Some (Aware (seconds 510))) 0 [] = (Ok tt, revocation.2).
Proof. vm_compute. reflexivity. Qed.

Lemma revoked_token_refused_witness :
  ∃ revoked', revoke_token tokens demo_token "stolen" (Some (Aware (seconds 510))) 0 []
    = (Ok tt, revoked') ∧
  ∀ p', verify tokens revoked' demo_token (Some (Aware (seconds 520))) 0 = Ok p' →
    ap_token_id p' ≠ "AT-1".
Proof.
  exists revocation.2. split; [exact revocation_eq|].
  destruct (revoked_token_refused tokens demo_token "stolen" (Some (Aware (seconds 510))) 0 []
    revocation.2 demo_token (Some (Aware (seconds 520))) 0 revocation_eq) as (_ & p & Hp & Hno).
  pose proof verified_eq as Hv. rewrite Hp in Hv. injection Hv as ->.
  intros p' Hp'. exact (Hno revocation.2 p' (λ _ Hid, Hid) Hp').
Defined.

Definition demo_calls : list (string * instant) :=
  [("a", seconds 0); ("b", seconds 2); ("a", seconds 59); ("a", seconds 60); ("a", seconds 60)].
Definition demo_decisions : res (list (res RateLimitDecision)) * RateStore := Eval vm_compute in
  consume_all 2 60 demo_calls [].

Lemma rate_limit_bound_witness :
  admissions 60 "a" (seconds 59) demo_calls (from_ok [] demo_decisions.1) = 3 ∧
  admissions 60 "a" (seconds 59) demo_calls (from_ok [] demo_decisions.1) <= 4.
Proof.
  split; [vm_compute; reflexivity|].
  apply (rate_limit_bound 2 60 "a" (seconds 59) demo_calls (from_ok [] demo_decisions.1)
    demo_decisions.2 (seconds 61) 0).
  - repeat constructor; vm_compute; discriminate.
  - repeat constructor; vm_compute; discriminate.
  - vm_compute. discriminate.
  - reflexivity.
  - vm_compute. reflexivity.
Defined.

Definition no_entry : TransactionHistoryEntry * RateLimitDecision :=
  (Entry no_projection [], Decision false 0 0 0).
Definition read_request : ApiRequest :=
  Request "req-1" "GET" "/v1/transactions/{utt_id}" (Some "case 7").
Definition read_operation (principal : AuthenticatedPrincipal) : M HistoryStore TransactionHistoryEntry :=
  read_transaction principal utt1 (Some "case 7") (Some (Aware (seconds 510))) 0 "h1".
Lemma api_read_eq :
  get_transaction demo_guard demo_token "req-1" utt1 (Some "case 7") (Some (Aware (seconds 510))) 0
    "h1" api_idle = (Ok ((from_ok no_entry api_read.1).1, (from_ok no_entry api_read.1).2), api_read.2).
Proof.
  change (api_read = (Ok ((from_ok no_entry api_read.1).1, (from_ok no_entry api_read.1).2), api_read.2)).
  rewrite <- surjective_pairing. apply from_ok_run. exact read_ok.
Qed.

Lemma api_execute_eq :
  execute demo_guard demo_token read_request read_operation (Some (Aware (seconds 510))) 0 api_idle
  = (Ok ((from_ok no_entry api_read.1).1, (from_ok no_entry api_read.1).2), api_read.2).
Proof. exact api_read_eq. Qed.

Lemma transaction_disclosed_witness :
  ∃ p, verify tokens [] demo_token (Some (Aware (seconds 510))) 0 = Ok p ∧
    transactions indexed1 !! strip utt1 = Some (en_transaction (from_ok no_entry api_read.1).1) ∧
    as_audits api_read.2 ≠ [].
Proof.
  destruct (transaction_disclosed demo_guard demo_token "req-1" utt1 (Some "case 7")
    (Some (Aware (seconds 510))) 0 "h1" api_idle _ _ _ api_read_eq)
    as (now & p & Hnow & Hv & Ht & _ & _ & a & _ & _ & Ha).
  injection Hnow as <-. exists p. split; [exact Hv|]. split; [exact Ht|].
  rewrite Ha. discriminate.
Defined.

(** A text that is no token at all. *)
Definition refused_error : exn := Exn AccessTokenError "TOKEN_MALFORMED".
Definition api_refused : res (TransactionHistoryEntry * RateLimitDecision) * ApiState HistoryStore :=
  execute demo_guard "no token" read_request read_operation (Some (Aware (seconds 510))) 0 api_idle.
Lemma refused_eq :
  verify tokens [] "no token" (Some (Aware (seconds 510))) 0 = Err refused_error.
Proof. vm_compute. reflexivity. Qed.

Lemma guard_mediates_witness :
  as_world api_refused.2 = indexed1 ∧
  audit_end demo_guard read_request None AUDIT_DENIED 401 "TOKEN_MALFORMED" (seconds 510) api_idle
    (Err refused_error) api_refused.1 api_refused.2.
Proof.
  destruct (guard_mediates demo_guard "no token" read_request read_operation
    (Some (Aware (seconds 510))) 0 api_idle api_refused.1 api_refused.2 (surjective_pairing _))
    as [_ [(e & He & _)|[(now & e & Hnow & He & _ & Hw & Ha)|(now & p & Hnow & Hp & _)]]].
  - vm_compute in He. discriminate He.
  - assert (now = seconds 510) as -> by (vm_compute in Hnow; injection Hnow as <-; reflexivity).
    assert (Err e = Err refused_error) as [= ->] by (rewrite <- He; exact refused_eq).
    split; [exact Hw|exact Ha].
  - exfalso. assert (now = seconds 510) as -> by (vm_compute in Hnow; injection Hnow as <-; reflexivity).
    assert (Ok p = Err refused_error) as [=] by (rewrite <- Hp; exact refused_eq).
Defined.

Lemma audit_trail_signed_witness :
  length (as_audits api_read.2) = 1%nat ∧
  ∀ id a, dget (as_audits api_read.2) id = Some a → au_audit_id a = id ∧
    audit_trusted (λ g, g = demo_guard) a.
Proof.
  split; [vm_compute; reflexivity|].
  apply (audit_trail_signed (λ g, g = demo_guard) api_idle api_read.2).
  - intros g ->. exact api_keys_wf.
  - discriminate.
  - apply rtc_once. exact (step_request (λ g, g = demo_guard) demo_guard demo_token read_request read_operation
      (Some (Aware (seconds 510))) 0 api_idle _ _ eq_refl api_execute_eq).
Defined.

(** ** What modelling showed *)

(** A client that repeats a request within the second, under its request
    identifier: the operation runs again (the history audits a second read),
    but the audit of the repetition has the identifier of the first, so the
    answer is lost in a [RuntimeError] and the repetition stays unaudited. *)
Definition repeated : res (TransactionHistoryEntry * RateLimitDecision) * ApiState HistoryStore :=
  get_transaction demo_guard demo_token "req-1" utt1 (Some "case 7")
    (Some (Aware (seconds 510 + 400000))) 0 "h2" api_read.2.
Lemma repeated_request_collides :
  repeated.1 = Err (Exn RuntimeError "API audit identifier collision") ∧
  length (as_audits repeated.2) = 1%nat ∧ length (audits (as_world repeated.2)) = 2%nat.
Proof. vm_compute. repeat split. Qed.

(** [issue] accepts a token identifier of blanks, which [verify] refuses. *)
Definition blank_issued : res string :=
  issue tokens "op-1" PT_OPERATOR operator_scopes "KT" 600 (Some " ") (Some (Aware (seconds 500))) 0
    EmptyString.
Lemma blank_identifier_refused :
  is_ok blank_issued = true ∧
  verify tokens [] (from_ok EmptyString blank_issued) (Some (Aware (seconds 510))) 0
  = Err (Exn AccessTokenError "TOKEN_CLAIMS_INVALID").
Proof. split; vm_compute; reflexivity. Qed.

(** A key whose window opens inside a second: a token issued in that second
    has an issue time, floored to the second, before the window. *)
Definition late_tokens : AccessTokenService InMemoryEd25519KeyProvider :=
  {| ts_keys := DemoSigner.store_with (encode_utf8 "KL") "KL" ACCESS_TOKEN_SIGNING (seconds 500 + 200000)
                  (seconds 100000);
     ts_issuer := "railone"; ts_audience := "railone-api"; ts_max_ttl := 900; ts_skew := 30;
     ts_recursion_limit := 1000 |}.
Definition late_issued : res string :=
  issue late_tokens "op-1" PT_OPERATOR operator_scopes "KL" 600 (Some "AT-2")
    (Some (Aware (seconds 500 + 300000))) 0 EmptyString.
Lemma fresh_token_refused :
  is_ok late_issued = true ∧
  verify late_tokens [] (from_ok EmptyString late_issued) (Some (Aware (seconds 500 + 400000))) 0
  = Err (Exn AccessTokenError "TOKEN_OUTSIDE_KEY_LIFETIME").
Proof. split; vm_compute; reflexivity. Qed.
