(* ===== verification/Institutions.v ===== *)
(** [railone_institutions]: signed capability manifests ([models.py],
    [manifest.py]), the registry of version-pinned adapters ([registry.py]) and
    the bridge that makes an adapter of the registry a provider of the
    submission coordinator ([spi.py]).  Letters and digits are those of ASCII;
    the timestamps of stored records are aware. *)

From Stdlib Require Import Ascii String.
From S2P Require Import Prelude.
From S2P Require Import PyBase.
From S2P Require Import PyDict.
From S2P Require Import Bytes.
From S2P Require Import CanonicalJson.
From S2P Require Import CanonicalFacts.
From S2P Require Import Keys.
From S2P Require Import Signatures.
From S2P Require Import OperationsStore.
From S2P Require Import Operations.
From S2P Require Import Identity.
From S2P Require Import PyText.

(** ** Enumerations *)
Inductive AdapterEnvironment := ENV_SANDBOX | ENV_PILOT | ENV_PRODUCTION.
Inductive TransportKind := HTTPS | MESSAGE_QUEUE | SFTP | ISO_GATEWAY.
Inductive MessageStandard := STD_JSON | ISO20022 | PROPRIETARY.
Inductive InstitutionAuthProfile :=
  | SIMULATION | MTLS | OAUTH2_MTLS | OAUTH2_CLIENT_CREDENTIALS | FAPI2_MTLS | DPOP | HMAC.
Inductive InstitutionOperation := OP_SUBMIT | OP_STATUS_QUERY | OP_RECONCILE | OP_CALLBACK.
Inductive InstitutionOutcome :=
  | ACCEPTED_FOR_PROCESSING | REJECTED_RETRYABLE | REJECTED_TERMINAL | OUTCOME_UNKNOWN | PENDING
  | CONFIRMED_SUCCESS | CONFIRMED_FAILURE | RECONCILIATION_REQUIRED.
Inductive FinalityLevel := FIN_NONE | PROCESSING | DEBIT_CONFIRMED | CREDIT_CONFIRMED | SETTLED.
Inductive AdapterCertificationStatus := DRAFT | CONFORMANCE | CERTIFIED | SUSPENDED.

#[global] Instance AdapterEnvironment_eq_dec : EqDecision AdapterEnvironment.
Proof. solve_decision. Defined.
#[global] Instance TransportKind_eq_dec : EqDecision TransportKind.
Proof. solve_decision. Defined.
#[global] Instance MessageStandard_eq_dec : EqDecision MessageStandard.
Proof. solve_decision. Defined.
#[global] Instance InstitutionAuthProfile_eq_dec : EqDecision InstitutionAuthProfile.
Proof. solve_decision. Defined.
#[global] Instance InstitutionOperation_eq_dec : EqDecision InstitutionOperation.
Proof. solve_decision. Defined.
#[global] Instance FinalityLevel_eq_dec : EqDecision FinalityLevel.
Proof. solve_decision. Defined.
#[global] Instance AdapterCertificationStatus_eq_dec : EqDecision AdapterCertificationStatus.
Proof. solve_decision. Defined.

Definition AdapterEnvironment_value (e : AdapterEnvironment) : string :=
  match e with
  | ENV_SANDBOX => "SANDBOX" | ENV_PILOT => "PILOT" | ENV_PRODUCTION => "PRODUCTION"
  end.
Definition TransportKind_value (t : TransportKind) : string :=
  match t with
  | HTTPS => "HTTPS" | MESSAGE_QUEUE => "MESSAGE_QUEUE" | SFTP => "SFTP"
  | ISO_GATEWAY => "ISO_GATEWAY"
  end.
Definition MessageStandard_value (m : MessageStandard) : string :=
  match m with STD_JSON => "JSON" | ISO20022 => "ISO20022" | PROPRIETARY => "PROPRIETARY" end.
Definition InstitutionAuthProfile_value (p : InstitutionAuthProfile) : string :=
  match p with
  | SIMULATION => "SIMULATION" | MTLS => "MTLS" | OAUTH2_MTLS => "OAUTH2_MTLS"
  | OAUTH2_CLIENT_CREDENTIALS => "OAUTH2_CLIENT_CREDENTIALS" | FAPI2_MTLS => "FAPI2_MTLS"
  | DPOP => "DPOP" | HMAC => "HMAC"
  end.
Definition InstitutionOperation_value (o : InstitutionOperation) : string :=
  match o with
  | OP_SUBMIT => "SUBMIT" | OP_STATUS_QUERY => "STATUS_QUERY" | OP_RECONCILE => "RECONCILE"
  | OP_CALLBACK => "CALLBACK"
  end.
Definition FinalityLevel_name (f : FinalityLevel) : string :=
  match f with
  | FIN_NONE => "NONE" | PROCESSING => "PROCESSING" | DEBIT_CONFIRMED => "DEBIT_CONFIRMED"
  | CREDIT_CONFIRMED => "CREDIT_CONFIRMED" | SETTLED => "SETTLED"
  end.
Definition FinalityLevel_value (f : FinalityLevel) : Z :=
  match f with
  | FIN_NONE => 0 | PROCESSING => 1 | DEBIT_CONFIRMED => 2 | CREDIT_CONFIRMED => 3 | SETTLED => 4
  end.
Definition AdapterCertificationStatus_value (s : AdapterCertificationStatus) : string :=
  match s with
  | DRAFT => "DRAFT" | CONFORMANCE => "CONFORMANCE" | CERTIFIED => "CERTIFIED"
  | SUSPENDED => "SUSPENDED"
  end.

(** ** Identifiers, versions and codes *)
Definition is_alpha (c : ascii) : bool := is_upper c || is_upper (upper_char c).
Definition is_alnum (c : ascii) : bool := is_alpha c || is_digit c.
Definition one_of (cs : list ascii) (c : ascii) : bool := existsb (Ascii.eqb c) cs.

(** [[A-Za-z0-9][A-Za-z0-9._:-]{1,127}] *)
Definition identifier_pattern (s : string) : bool :=
  match s with
  | String c t =>
      is_alnum c && str_forall (λ d, is_alnum d || one_of ["."; "_"; ":"; "-"]%char d) t
      && (1 <=? len t) && (len t <=? 127)
  | EmptyString => false
  end.

(** The longest prefix of digits, and the rest. *)
Fixpoint digits (s : string) : string * string :=
  match s with
  | String c t =>
      if is_digit c then let '(d, r) := digits t in (String c d, r) else (EmptyString, s)
  | EmptyString => (EmptyString, EmptyString)
  end.

(** [n.n.n(?:[-+][0-9A-Za-z.-]+)?] whose numbers satisfy [ok]. *)
Definition version_suffix (s : string) : bool :=
  match s with
  | EmptyString => true
  | String c t =>
      one_of ["-"; "+"]%char c && negb (str_empty t)
      && str_forall (λ d, is_alnum d || one_of ["."; "-"]%char d) t
  end.
Definition version_pattern (ok : string → bool) (s : string) : bool :=
  let '(major, r1) := digits s in
  match r1 with
  | String "." t1 =>
      let '(minor, r2) := digits t1 in
      match r2 with
      | String "." t2 =>
          let '(patch, r3) := digits t2 in ok major && ok minor && ok patch && version_suffix r3
      | _ => false
      end
  | _ => false
  end.

(** A number without leading zeros, as the semantic-version pattern has it. *)
Definition semver_number (d : string) : bool :=
  match d with
  | String "0" t => str_empty t
  | String _ _ => true
  | EmptyString => false
  end.
Definition semver_pattern : string → bool := version_pattern semver_number.

(** [_BINDING_REF]: an identifier, [@], a version; the identifier holds no [@]. *)
Definition binding_ref_pattern (s : string) : bool :=
  match split_once "@" s with
  | Some (id, version) =>
      identifier_pattern id && version_pattern (λ d, negb (str_empty d)) version
  | None => false
  end.

(** [_identifier] *)
Definition identifier (name value : string) : res string :=
  _ ← raise_if (negb (identifier_pattern value)) ValueError
        (name +:+ " is not a valid stable identifier");
  mret value.

(** [_codes] *)
Definition codes (name : string) (width : option Z) (values : list string) : res (list string) :=
  let normalized := py_sorted str_le (remove_dups (upper <$> values)) in
  _ ← raise_if (bool_decide (normalized = [])) ValueError (name +:+ " cannot be empty");
  _ ← raise_if (match width with
                | Some w => existsb (λ v, negb (char_len v =? w)
                                          || negb (negb (str_empty v) && str_forall is_alpha v))
                              normalized
                | None => false
                end) ValueError
        (name +:+ " must contain " +:+ str_int (default 0 width) +:+ "-letter codes");
  mret normalized.

(** ** [AdapterDescriptor] *)
Record AdapterDescriptor := {
  de_adapter_id : string;
  de_adapter_version : string;
  de_provider_id : string;
  de_network_id : string;
  de_environment : AdapterEnvironment;
  de_transport : TransportKind;
  de_message_standard : MessageStandard;
  de_auth_profile : InstitutionAuthProfile;
  de_certification_status : AdapterCertificationStatus;
  de_priority : Z;
}.
#[global] Instance AdapterDescriptor_eq_dec : EqDecision AdapterDescriptor.
Proof. solve_decision. Defined.

Definition AdapterDescriptor_post_init (d : AdapterDescriptor) : res AdapterDescriptor :=
  _ ← identifier "adapter_id" (de_adapter_id d);
  _ ← identifier "provider_id" (de_provider_id d);
  _ ← identifier "network_id" (de_network_id d);
  _ ← raise_if (negb (semver_pattern (de_adapter_version d))) ValueError
        "adapter_version must be semantic version syntax";
  _ ← raise_if (de_priority d <? 0) ValueError "priority cannot be negative";
  _ ← raise_if (negb (bool_decide (de_environment d = ENV_SANDBOX))
                && bool_decide (de_auth_profile d = SIMULATION)) ValueError
        "simulation authentication is sandbox-only";
  mret d.

Definition binding_ref (d : AdapterDescriptor) : string :=
  de_adapter_id d +:+ "@" +:+ de_adapter_version d.

Definition descriptor_payload (d : AdapterDescriptor) : mapping :=
  fields [("adapter_id", PStr (de_adapter_id d)); ("adapter_version", PStr (de_adapter_version d));
          ("provider_id", PStr (de_provider_id d)); ("network_id", PStr (de_network_id d));
          ("environment", PStr (AdapterEnvironment_value (de_environment d)));
          ("transport", PStr (TransportKind_value (de_transport d)));
          ("message_standard", PStr (MessageStandard_value (de_message_standard d)));
          ("auth_profile", PStr (InstitutionAuthProfile_value (de_auth_profile d)));
          ("certification_status",
             PStr (AdapterCertificationStatus_value (de_certification_status d)));
          ("priority", PInt (de_priority d))].

(** ** [datetime.isoformat()] of an aware instant in UTC *)
Fixpoint zeros (n : nat) : string :=
  match n with O => EmptyString | S m => String "0" (zeros m) end.
Definition zero_pad (width : nat) (n : Z) : string :=
  let d := str_int n in zeros (width - String.length d) +:+ d.

(** Year, month and day of a day number (day 0 is 1970-01-01) in the proleptic
    Gregorian calendar. *)
Definition civil_date (days : Z) : Z * Z * Z :=
  let z := days + 719468 in
  let era := z / 146097 in
  let doe := z mod 146097 in
  let yoe := (doe - doe / 1460 + doe / 36524 - doe / 146096) / 365 in
  let doy := doe - (365 * yoe + yoe / 4 - yoe / 100) in
  let mp := (5 * doy + 2) / 153 in
  let month := if mp <? 10 then mp + 3 else mp - 9 in
  (yoe + era * 400 + (if month <=? 2 then 1 else 0), month, doy - (153 * mp + 2) / 5 + 1).

Definition isoformat (t : instant) : string :=
  let second := t / 1000000 in
  let micro := t mod 1000000 in
  let '(y, m, d) := civil_date (second / 86400) in
  let s := second mod 86400 in
  zero_pad 4 y +:+ "-" +:+ zero_pad 2 m +:+ "-" +:+ zero_pad 2 d +:+ "T"
  +:+ zero_pad 2 (s / 3600) +:+ ":" +:+ zero_pad 2 (s / 60 mod 60) +:+ ":" +:+ zero_pad 2 (s mod 60)
  +:+ (if micro =? 0 then EmptyString else "." +:+ zero_pad 6 micro) +:+ "+00:00".

Example isoformat_leap_day : isoformat (seconds 1709210096) = "2024-02-29T12:34:56+00:00".
Proof. vm_compute. reflexivity. Qed.
Example isoformat_micros : isoformat (seconds 253402300799 + 42) = "9999-12-31T23:59:59.000042+00:00".
Proof. vm_compute. reflexivity. Qed.
Example isoformat_year_one : isoformat (seconds (-62135596800)) = "0001-01-01T00:00:00+00:00".
Proof. vm_compute. reflexivity. Qed.

(** ** [InstitutionCapabilityManifest] *)
Record InstitutionCapabilityManifest := {
  ma_manifest_id : string;
  ma_manifest_version : Z;
  ma_descriptor : AdapterDescriptor;
  ma_source_institution_ids : list string;
  ma_destination_institution_ids : list string;
  ma_source_countries : list string;
  ma_destination_countries : list string;
  ma_rails : list string;
  ma_currencies_from : list string;
  ma_currencies_to : list string;
  ma_operations : list InstitutionOperation;
  ma_supports_idempotency : bool;
  ma_supports_callbacks : bool;
  ma_supports_active_status : bool;
  ma_supports_reconciliation : bool;
  ma_asserted_finality : FinalityLevel;
  ma_min_amount_minor : Z;
  ma_max_amount_minor : Z;
  ma_request_timeout_seconds : Z;
  ma_issued_at : instant;
  ma_expires_at : instant;
}.
Implicit Types (m : InstitutionCapabilityManifest).

(** [tuple(sorted(set(operations), key=lambda item: item.value))] *)
Definition sorted_operations (l : list InstitutionOperation) : list InstitutionOperation :=
  sort_on InstitutionOperation_value str_le (remove_dups l).
Definition has_operation (l : list InstitutionOperation) (o : InstitutionOperation) : bool :=
  bool_decide (o ∈ l).

(** [__post_init__] *)
Definition Manifest_post_init m : res InstitutionCapabilityManifest :=
  _ ← identifier "manifest_id" (ma_manifest_id m);
  _ ← raise_if (ma_manifest_version m <? 1) ValueError "manifest_version must be positive";
  sources ← codes "source_institution_ids" None (ma_source_institution_ids m);
  destinations ← codes "destination_institution_ids" None (ma_destination_institution_ids m);
  source_countries ← codes "source_countries" (Some 2) (ma_source_countries m);
  destination_countries ← codes "destination_countries" (Some 2) (ma_destination_countries m);
  rails ← codes "rails" None (ma_rails m);
  from ← codes "currencies_from" (Some 3) (ma_currencies_from m);
  to ← codes "currencies_to" (Some 3) (ma_currencies_to m);
  let ops := sorted_operations (ma_operations m) in
  _ ← raise_if (negb (has_operation ops OP_SUBMIT)) ValueError
        "adapter capabilities must include SUBMIT";
  _ ← raise_if ((ma_min_amount_minor m <? 1) || (ma_max_amount_minor m <? ma_min_amount_minor m))
        ValueError "invalid amount range";
  _ ← raise_if (negb ((1 <=? ma_request_timeout_seconds m) && (ma_request_timeout_seconds m <=? 300)))
        ValueError "request timeout must be between 1 and 300 seconds";
  _ ← raise_if (ma_expires_at m <=? ma_issued_at m) ValueError
        "expires_at must be after issued_at";
  _ ← raise_if (negb (Bool.eqb (ma_supports_callbacks m) (has_operation ops OP_CALLBACK))) ValueError
        "callback flag must agree with operations";
  _ ← raise_if (negb (Bool.eqb (ma_supports_active_status m) (has_operation ops OP_STATUS_QUERY)))
        ValueError "status flag must agree with operations";
  _ ← raise_if (negb (Bool.eqb (ma_supports_reconciliation m) (has_operation ops OP_RECONCILE)))
        ValueError "reconciliation flag must agree with operations";
  _ ← raise_if (bool_decide (ma_asserted_finality m = SETTLED)
                && negb (ma_supports_callbacks m || ma_supports_active_status m
                         || ma_supports_reconciliation m)) ValueError
        "settlement finality requires an evidence retrieval operation";
  mret {| ma_manifest_id := ma_manifest_id m; ma_manifest_version := ma_manifest_version m;
          ma_descriptor := ma_descriptor m; ma_source_institution_ids := sources;
          ma_destination_institution_ids := destinations; ma_source_countries := source_countries;
          ma_destination_countries := destination_countries; ma_rails := rails;
          ma_currencies_from := from; ma_currencies_to := to; ma_operations := ops;
          ma_supports_idempotency := ma_supports_idempotency m;
          ma_supports_callbacks := ma_supports_callbacks m;
          ma_supports_active_status := ma_supports_active_status m;
          ma_supports_reconciliation := ma_supports_reconciliation m;
          ma_asserted_finality := ma_asserted_finality m;
          ma_min_amount_minor := ma_min_amount_minor m; ma_max_amount_minor := ma_max_amount_minor m;
          ma_request_timeout_seconds := ma_request_timeout_seconds m;
          ma_issued_at := ma_issued_at m; ma_expires_at := ma_expires_at m |}.

(** [is_active_at] of an aware instant. *)
Definition active_at m (t : instant) : bool :=
  (ma_issued_at m <=? t) && (t <? ma_expires_at m)
  && negb (bool_decide (de_certification_status (ma_descriptor m) = SUSPENDED)).
Definition is_active_at m (at_ : datetime) : res bool :=
  t ← aware "instant must be timezone-aware" at_;
  mret (active_at m t).

Definition texts (l : list string) : pyval := PList (PStr <$> l).
Definition manifest_payload m : mapping :=
  fields [("manifest_id", PStr (ma_manifest_id m)); ("manifest_version", PInt (ma_manifest_version m));
          ("descriptor", PDict (descriptor_payload (ma_descriptor m)));
          ("source_institution_ids", texts (ma_source_institution_ids m));
          ("destination_institution_ids", texts (ma_destination_institution_ids m));
          ("source_countries", texts (ma_source_countries m));
          ("destination_countries", texts (ma_destination_countries m));
          ("rails", texts (ma_rails m)); ("currencies_from", texts (ma_currencies_from m));
          ("currencies_to", texts (ma_currencies_to m));
          ("operations", texts (InstitutionOperation_value <$> ma_operations m));
          ("supports_idempotency", PBool (ma_supports_idempotency m));
          ("supports_callbacks", PBool (ma_supports_callbacks m));
          ("supports_active_status", PBool (ma_supports_active_status m));
          ("supports_reconciliation", PBool (ma_supports_reconciliation m));
          ("asserted_finality", PStr (FinalityLevel_name (ma_asserted_finality m)));
          ("min_amount_minor", PInt (ma_min_amount_minor m));
          ("max_amount_minor", PInt (ma_max_amount_minor m));
          ("request_timeout_seconds", PInt (ma_request_timeout_seconds m));
          ("issued_at", PStr (isoformat (ma_issued_at m)));
          ("expires_at", PStr (isoformat (ma_expires_at m)))].

(** Python's [==] on values without floats and tuples: dictionaries are equal
    up to the order of their entries, and [True == 1]. *)
Fixpoint untyped (v : pyval) : pyval :=
  match v with
  | PBool b => PInt (Z.b2z b)
  | PList l => PList (map untyped l)
  | PTuple l => PTuple (map untyped l)
  | PDict l => PDict (map (λ kv, (kv.1, untyped kv.2)) l)
  | _ => v
  end.
Definition py_eq (v w : pyval) : bool := bool_decide (canon (untyped v) = canon (untyped w)).

(** ** [CapabilityManifestSigner] *)
Record SignedCapabilityManifest := SignedManifest {
  sm_manifest : InstitutionCapabilityManifest;
  sm_signature : SignatureEnvelope;
}.

Section signer.
Context {P : Type} `{!SigningKeyProvider P} `{Ed25519}.

Definition sign_manifest (keys : P) (key : string) m (issued_at : instant)
    : res SignedCapabilityManifest :=
  envelope ← sign_artifact keys INSTITUTION_CAPABILITY_MANIFEST (manifest_payload m) key issued_at;
  mret (SignedManifest m envelope).

Definition verify_manifest (keys : P) (signed : SignedCapabilityManifest) : res unit :=
  let m := sm_manifest signed in
  check ← verify_artifact keys (sm_signature signed) (Some INSTITUTION_CAPABILITY_MANIFEST) false;
  _ ← raise_if (negb (valid check)) PermissionError
        ("capability manifest signature rejected: " +:+ reason check);
  _ ← raise_if (negb (py_eq (PDict (thaw_mapping (payload (sm_signature signed))))
                        (PDict (manifest_payload m)))) PermissionError
        "capability manifest object does not match signed payload";
  iat ← int_item (protected (sm_signature signed)) "iat";
  signed_at ← fromtimestamp iat;
  raise_if (negb ((ma_issued_at m <=? signed_at) && (signed_at <? ma_expires_at m)))
    PermissionError "capability manifest signature is outside its validity window".
End signer.

(** ** Instructions and results of an adapter *)

(** [InstitutionExecutionInstruction] has the fields of the provider request
    that it is made from. *)
Definition InstitutionExecutionInstruction : Type := ProviderExecutionRequest.

Definition bounded_text (name value : string) : res unit :=
  raise_if (blank value || (512 <? char_len value)) ValueError
    (name +:+ " must be a non-empty bounded string").
Definition positive (name : string) (value : Z) : res unit :=
  raise_if (value <? 1) ValueError (name +:+ " must be a positive integer").
Definition currency_code (name value : string) : res unit :=
  raise_if (negb ((len value =? 3) && str_forall is_upper value)) ValueError
    (name +:+ " must be an uppercase ISO-style currency code").

(** [from_provider_request], with [__post_init__] *)
Definition from_provider_request (q : ProviderExecutionRequest) : res InstitutionExecutionInstruction :=
  _ ← bounded_text "idempotency_key" (pr_idempotency_key q);
  _ ← bounded_text "utt_id" (pr_utt_id q);
  _ ← bounded_text "rtt_id" (pr_rtt_id q);
  _ ← bounded_text "provider_id" (pr_provider_id q);
  _ ← bounded_text "adapter_binding_ref" (pr_adapter_binding_ref q);
  _ ← bounded_text "rail" (pr_rail q);
  _ ← bounded_text "source_institution_id" (pr_source_institution_id q);
  _ ← bounded_text "destination_institution_id" (pr_destination_institution_id q);
  _ ← bounded_text "payer_account_reference" (pr_payer_account_reference q);
  _ ← bounded_text "beneficiary_account_reference" (pr_beneficiary_account_reference q);
  _ ← raise_if (negb (sha256_pattern (pr_request_sha256 q))) ValueError
        "request_sha256 must be a lowercase SHA-256 digest";
  _ ← raise_if (negb (is_some_b (split_once "@" (pr_adapter_binding_ref q)))) ValueError
        "adapter_binding_ref must pin adapter_id@version";
  _ ← raise_if (pr_attempt_number q <? 1) ValueError "attempt_number must be positive";
  _ ← positive "amount_minor" (pr_amount_minor q);
  _ ← positive "receive_amount_minor" (pr_receive_amount_minor q);
  _ ← currency_code "currency_from" (pr_currency_from q);
  _ ← currency_code "currency_to" (pr_currency_to q);
  mret q.

Record InstitutionSubmissionResult := {
  is_outcome : InstitutionOutcome;
  is_code : string;
  is_external_reference : option string;
  is_finality : FinalityLevel;
}.

(** [__post_init__]: acceptance is never settlement. *)
Definition InstitutionSubmissionResult_post_init (r : InstitutionSubmissionResult)
    : res InstitutionSubmissionResult :=
  _ ← raise_if (match is_outcome r with
                | ACCEPTED_FOR_PROCESSING =>
                    FinalityLevel_value PROCESSING <? FinalityLevel_value (is_finality r)
                | _ => false
                end) ValueError
        "provider acceptance cannot assert credit or settlement finality";
  _ ← raise_if (match is_outcome r with
                | CONFIRMED_SUCCESS =>
                    FinalityLevel_value (is_finality r) <? FinalityLevel_value CREDIT_CONFIRMED
                | _ => false
                end) ValueError
        "confirmed success requires credit-confirmed or settled finality";
  mret r.

(** ** [InstitutionAdapter] *)
Class InstitutionAdapter (W A : Type) := {
  ia_descriptor : A → AdapterDescriptor;
  ia_capabilities : A → InstitutionCapabilityManifest;
  ia_validate_instruction : A → InstitutionExecutionInstruction → M W unit;
  ia_submit : A → InstitutionExecutionInstruction → M W InstitutionSubmissionResult;
}.
Arguments ia_descriptor W {A _}.
Arguments ia_capabilities W {A _}.

(** ** [InstitutionAdapterBridge] *)

(** The normalisation of an adapter's result. *)
Definition bridge_result (ref : string) (r : InstitutionSubmissionResult) : ProviderSubmissionResult :=
  let '(outcome, disposition) := match is_outcome r with
    | ACCEPTED_FOR_PROCESSING => (OUT_ACCEPTED, None)
    | REJECTED_RETRYABLE => (OUT_REJECTED, Some REJ_RETRYABLE)
    | REJECTED_TERMINAL => (OUT_REJECTED, Some REJ_TERMINAL)
    | _ => (OUT_UNKNOWN, None)
    end in
  {| out_outcome := outcome; out_code := is_code r;
     out_external_reference := is_external_reference r; out_disposition := disposition;
     out_context := [(PStr "adapter_binding_ref", PStr ref)] |}.

Section bridge.
Context {W A : Type} `{!InstitutionAdapter W A}.

Definition bridge_submit (a : A) (request : ProviderExecutionRequest) : M W ProviderSubmissionResult :=
  let ref := binding_ref (ia_descriptor W a) in
  _ ← raise_if (negb (String.eqb (pr_adapter_binding_ref request) ref)) ValueError
        "RTT adapter binding does not match dispatched adapter version";
  instruction ← lift (from_provider_request request);
  _ ← ia_validate_instruction a instruction;
  result ← ia_submit a instruction;
  mret (bridge_result ref result).

Definition bridge (a : A) : ProviderAdapter W := {|
  ad_provider_id := de_provider_id (ia_descriptor W a);
  ad_supports_idempotency := ma_supports_idempotency (ia_capabilities W a);
  ad_submit := bridge_submit a |}.
End bridge.

(** ** [InstitutionAdapterRegistry] *)
Record AdapterEligibilityQuery := {
  eq_source_institution_id : string;
  eq_destination_institution_id : string;
  eq_source_country : string;
  eq_destination_country : string;
  eq_rail : string;
  eq_currency_from : string;
  eq_currency_to : string;
  eq_amount_minor : Z;
}.

Section registry.
Context {P : Type} `{!SigningKeyProvider P} `{Ed25519}.
Context {W A : Type} `{!InstitutionAdapter W A}.

Definition AdapterRegistry : Type := dict string (A * SignedCapabilityManifest).
Implicit Types (entries : AdapterRegistry).

Definition register (keys : P) (a : A) (signed : SignedCapabilityManifest)
    : M AdapterRegistry unit :=
  _ ← lift (verify_manifest keys signed);
  let m := sm_manifest signed in
  _ ← raise_if (negb (bool_decide (ia_descriptor W a = ma_descriptor m))) ValueError
        "adapter descriptor does not match signed manifest";
  _ ← raise_if (negb (py_eq (PDict (manifest_payload (ia_capabilities W a)))
                        (PDict (manifest_payload m)))) ValueError
        "adapter capabilities do not match signed manifest";
  let ref := binding_ref (ia_descriptor W a) in
  entries ← getS;
  _ ← raise_if (match dget entries ref with
                | Some (_, old) => negb (String.eqb (signature (sm_signature old))
                                           (signature (sm_signature signed)))
                | None => false
                end) ValueError
        "binding reference already registered with different signed capabilities";
  putS (dset entries ref (a, signed)).

(** [(at or datetime.now(timezone.utc)).astimezone(timezone.utc)]; a naive
    instant is local time. *)
Definition registry_instant (local_time : Z → instant) (at_ : option datetime) (clock : instant)
    : instant :=
  match or_now at_ clock with Aware t => t | Naive us => local_time us end.

Definition is_draft m : bool := bool_decide (de_certification_status (ma_descriptor m) = DRAFT).

Definition resolve (local_time : Z → instant) entries (ref : string) (at_ : option datetime)
    (clock : instant) : res A :=
  let t := registry_instant local_time at_ clock in
  '(a, signed) ← require (dget entries ref) KeyError
                   ("institution adapter binding not found: " +:+ ref);
  _ ← raise_if (negb (active_at (sm_manifest signed) t)) PermissionError
        "institution adapter manifest is inactive or expired";
  _ ← raise_if (is_draft (sm_manifest signed)) PermissionError
        "draft institution adapter cannot execute";
  mret a.

Definition provider_bridge (local_time : Z → instant) entries (ref : string)
    (at_ : option datetime) (clock : instant) : res (ProviderAdapter W) :=
  a ← resolve local_time entries ref at_ clock;
  mret (bridge a).

Definition serves m (q : AdapterEligibilityQuery) : bool :=
  bool_decide (upper (eq_source_institution_id q) ∈ ma_source_institution_ids m)
  && bool_decide (upper (eq_destination_institution_id q) ∈ ma_destination_institution_ids m)
  && bool_decide (upper (eq_source_country q) ∈ ma_source_countries m)
  && bool_decide (upper (eq_destination_country q) ∈ ma_destination_countries m)
  && bool_decide (upper (eq_rail q) ∈ ma_rails m)
  && bool_decide (upper (eq_currency_from q) ∈ ma_currencies_from m)
  && bool_decide (upper (eq_currency_to q) ∈ ma_currencies_to m)
  && ((ma_min_amount_minor m <=? eq_amount_minor q)
      && (eq_amount_minor q <=? ma_max_amount_minor m)).

(** [(item.descriptor.priority, item.descriptor.binding_ref)] *)
Definition adapter_key (a : A) : Z * string :=
  (de_priority (ia_descriptor W a), binding_ref (ia_descriptor W a)).

Definition eligible_adapters (local_time : Z → instant) entries (q : AdapterEligibilityQuery)
    (at_ : option datetime) (clock : instant) : list A :=
  let t := registry_instant local_time at_ clock in
  sort_on adapter_key (lex_le Z.le)
    (fst <$> filter (λ e : A * SignedCapabilityManifest,
       active_at (sm_manifest e.2) t && negb (is_draft (sm_manifest e.2))
       && serves (sm_manifest e.2) q = true) (dvalues entries)).
End registry.
