(* ===== verification/InstitutionClaims.v ===== *)
(** What the adapter registry and the bridge guarantee: a binding reference
    names one adapter under one verified manifest, eligibility is exactly what
    the manifests say, and a bridged submission runs the pinned version only. *)

From Stdlib Require Import Ascii String.
From S2P Require Import Prelude.
From S2P Require Import PyBase.
From S2P Require Import PyDict.
From S2P Require Import Bytes.
From S2P Require Import CanonicalJson.
From S2P Require Import CanonicalFacts.
From S2P Require Import Keys.
From S2P Require Import Signatures.
From S2P Require Import Contracts.
From S2P Require Import OperationsStore.
From S2P Require Import Operations.
From S2P Require Import PyText.
From S2P Require Import Institutions.

Section claims.
Context {P : Type} `{!SigningKeyProvider P} `{Ed25519}.
Context {W A : Type} `{!InstitutionAdapter W A}.
Implicit Types (keys : P) (entries : AdapterRegistry (A := A)) (s : SignedCapabilityManifest).

(** What [verify_manifest] checked. *)
Lemma verify_manifest_ok keys s u :
  verify_manifest keys s = Ok u →
  ∃ check n t, verify_artifact keys (sm_signature s) (Some INSTITUTION_CAPABILITY_MANIFEST) false
    = Ok check ∧ valid check = true ∧
    py_eq (PDict (thaw_mapping (payload (sm_signature s)))) (PDict (manifest_payload (sm_manifest s)))
    = true ∧
    int_item (protected (sm_signature s)) "iat" = Ok n ∧ fromtimestamp n = Ok t ∧
    ma_issued_at (sm_manifest s) <= t < ma_expires_at (sm_manifest s).
Proof.
  intros Hv. unfold verify_manifest in Hv. inv_ok Hv. guards. eexists _, _, _. split_and!; done.
Qed.

Lemma register_ok keys a s entries entries' :
  register (W := W) keys a s entries = (Ok tt, entries') →
  verify_manifest keys s = Ok tt ∧ ia_descriptor W a = ma_descriptor (sm_manifest s) ∧
  py_eq (PDict (manifest_payload (ia_capabilities W a))) (PDict (manifest_payload (sm_manifest s)))
  = true ∧
  (∀ b old, dget entries (binding_ref (ia_descriptor W a)) = Some (b, old) →
     signature (sm_signature old) = signature (sm_signature s)) ∧
  entries' = dset entries (binding_ref (ia_descriptor W a)) (a, s).
Proof.
  intros Hr. unfold register in Hr. inv_ok Hr. guards. destruct_all unit.
  split_and!; try done. intros b old Hold. rewrite Hold in *. by guards.
Qed.

(** Registrations, in any order and whether they succeed or not. *)
Inductive registration keys : AdapterRegistry (A := A) → AdapterRegistry (A := A) → Prop :=
  | Registration a s entries x entries' :
      register (W := W) keys a s entries = (x, entries') → registration keys entries entries'.

Lemma registration_cases keys entries entries' :
  registration keys entries entries' →
  entries' = entries ∨ ∃ a s, register (W := W) keys a s entries = (Ok tt, entries').
Proof.
  intros [a s ? x ? Hr]. destruct x as [[]|e]; [right; eauto|left].
  unfold register in Hr. symmetry. err_keeps Hr.
Qed.

Definition registry_wf keys entries : Prop :=
  dict_wf entries ∧ ∀ ref a s, dget entries ref = Some (a, s) →
    verify_manifest keys s = Ok tt ∧ ia_descriptor W a = ma_descriptor (sm_manifest s) ∧
    binding_ref (ia_descriptor W a) = ref.

Lemma registration_wf keys entries entries' :
  registration keys entries entries' → registry_wf keys entries → registry_wf keys entries'.
Proof.
  intros [->|(a & s & Hr)]%registration_cases [Hnd Hwf]; [done|].
  apply register_ok in Hr as (Hv & Hd & _ & _ & ->). split; [by apply dict_wf_dset|].
  intros ref b t. rewrite dget_dset. case_decide as Heq; [intros [= <- <-]; by subst|apply Hwf].
Qed.

Lemma registrations_wf keys entries entries' :
  rtc (registration keys) entries entries' → registry_wf keys entries → registry_wf keys entries'.
Proof. induction 1; eauto using registration_wf. Qed.

Lemma no_entries_wf keys : registry_wf keys [].
Proof. split; [constructor|done]. Qed.

(** C17 The registry pins versions: in every reachable registry, the adapter
    filed under a binding reference has that reference, its descriptor is the
    one of its manifest, and the manifest is the payload of a valid signature
    issued within the manifest's own window; and no later registration files
    other signed capabilities under the reference. *)
Theorem registry_pins keys entries entries' ref a s :
  rtc (registration keys) [] entries → rtc (registration keys) entries entries' →
  dget entries ref = Some (a, s) →
  binding_ref (ia_descriptor W a) = ref ∧ ia_descriptor W a = ma_descriptor (sm_manifest s) ∧
  (∃ check n t,
     verify_artifact keys (sm_signature s) (Some INSTITUTION_CAPABILITY_MANIFEST) false = Ok check ∧
     valid check = true ∧
     py_eq (PDict (thaw_mapping (payload (sm_signature s)))) (PDict (manifest_payload (sm_manifest s)))
     = true ∧
     int_item (protected (sm_signature s)) "iat" = Ok n ∧ fromtimestamp n = Ok t ∧
     ma_issued_at (sm_manifest s) <= t < ma_expires_at (sm_manifest s)) ∧
  ∃ a' s', dget entries' ref = Some (a', s') ∧ binding_ref (ia_descriptor W a') = ref ∧
    signature (sm_signature s') = signature (sm_signature s).
Proof.
  intros Hstart Hmore Hget. pose proof (registrations_wf _ _ _ Hstart (no_entries_wf keys)) as Hwf.
  destruct (proj2 Hwf _ _ _ Hget) as (Hv & Hd & Href). split; [done|]. split; [done|].
  split; [by eapply verify_manifest_ok|]. clear Hstart Hv Hd.
  revert a s Hget Href. induction Hmore as [entries|entries entries1 entries' Hstep _ IH];
    intros a s Hget Href; [by exists a, s|].
  pose proof (registration_wf _ _ _ Hstep Hwf) as Hwf1.
  assert (∃ a1 s1, dget entries1 ref = Some (a1, s1) ∧
    signature (sm_signature s1) = signature (sm_signature s)) as (a1 & s1 & Hget1 & Hsig).
  { apply registration_cases in Hstep as [->|(b & t & Hr)]; [eauto|].
    apply register_ok in Hr as (_ & _ & _ & Hold & ->). rewrite dget_dset.
    case_decide as Heq; [|eauto]. exists b, t. split; [done|]. symmetry.
    apply (Hold a s). by rewrite Heq. }
  destruct (IH Hwf1 a1 s1 Hget1 (proj2 (proj2 (proj2 Hwf1 _ _ _ Hget1)))) as (a' & s' & Ha & Hr & Hs).
  exists a', s'. split; [done|]. split; [done|]. congruence.
Qed.

Lemma resolve_adapter_ok local_time entries ref at_ clock a :
  resolve local_time entries ref at_ clock = Ok a ↔
  ∃ s, dget entries ref = Some (a, s) ∧
    active_at (sm_manifest s) (registry_instant local_time at_ clock) = true ∧
    is_draft (sm_manifest s) = false.
Proof.
  unfold resolve. split.
  - intros Hr. inv_ok Hr. match goal with v : A * _ |- _ => destruct v as [b s] end. inv_ok Hr. guards.
    eauto.
  - intros (s & -> & Hact & Hd). cbn. by rewrite Hact, Hd.
Qed.

(** Eligibility is what the manifests say: the eligible adapters are
    exactly those whose own binding reference resolves to them at that time
    and whose manifest serves the query, each once, in the order of priority
    and then of binding reference. *)
Theorem eligible_correct keys entries local_time q at_ clock :
  rtc (registration keys) [] entries →
  let l := eligible_adapters (W := W) local_time entries q at_ clock in
  (∀ a, a ∈ l ↔ ∃ s, dget entries (binding_ref (ia_descriptor W a)) = Some (a, s) ∧
     resolve local_time entries (binding_ref (ia_descriptor W a)) at_ clock = Ok a ∧
     serves (sm_manifest s) q = true) ∧
  StronglySorted (on_key (adapter_key (W := W)) (lex_le Z.le)) l ∧
  NoDup ((λ a, binding_ref (ia_descriptor W a)) <$> l).
Proof.
  intros Hstart l. destruct (registrations_wf _ _ _ Hstart (no_entries_wf keys)) as [Hnd Hwf].
  unfold l, eligible_adapters. clear l Hstart.
  set (ok := λ e : A * SignedCapabilityManifest, _). set (found := filter _ _).
  assert (∀ a s, (a, s) ∈ dvalues entries ↔
    dget entries (binding_ref (ia_descriptor W a)) = Some (a, s)) as Hin.
  { intros a s. rewrite elem_of_dvalues by done. split; [|eauto].
    intros [ref He]. destruct (Hwf _ _ _ He) as (_ & _ & ->). done. }
  split; [|split].
  - intros a. rewrite elem_of_sort_on, list_elem_of_fmap. split.
    + intros ([b s] & -> & [Hok Hb%Hin]%list_elem_of_filter). unfold ok in Hok. cbn [fst snd] in *.
      guards. exists s. split; [done|]. split; [|done]. apply resolve_adapter_ok. eauto.
    + intros (s & Hg & Hr & Hserves). exists (a, s). split; [done|].
      apply list_elem_of_filter. split; [|by apply Hin]. apply resolve_adapter_ok in Hr as (s' & Hg' & Hact & Hd).
      rewrite Hg in Hg'. injection Hg' as <-. unfold ok. cbn [snd]. by rewrite Hact, Hd, Hserves.
  - unshelve eapply sort_on_sorted; apply _.
  - rewrite sort_on_perm. unfold found, dvalues. clear found Hin.
    assert (∀ e, e ∈ entries → binding_ref (ia_descriptor W e.2.1) = e.1) as Hkeys.
    { intros [ref [a s]] He%elem_dget; [|done]. exact (proj2 (proj2 (Hwf _ _ _ He))). }
    clear Hwf. unfold dict_wf in Hnd. induction entries as [|[ref [a s]] d IH]; [constructor|].
    cbn [fmap list_fmap fst snd] in *. apply NoDup_cons in Hnd as [Hnew Hnd].
    specialize (IH Hnd (λ e He, Hkeys e (list_elem_of_further _ _ _ He))).
    rewrite filter_cons. case_decide as Hok; [|exact IH]. cbn [fmap list_fmap fst].
    apply NoDup_cons. split; [|exact IH]. pose proof (Hkeys (ref, (a, s)) (list_elem_of_here _ _)) as Href. cbn in Href.
    rewrite Href.
    intros Hin. apply Hnew. apply list_elem_of_fmap in Hin as (b & Hb & Hin).
    apply list_elem_of_fmap in Hin as ([b' s'] & -> & [_ Hin]%list_elem_of_filter).
    apply list_elem_of_fmap in Hin as ([ref' e] & [= <-] & Hin).
    apply list_elem_of_fmap. exists (ref', (b', s')). split; [|done].
    cbn [fst snd] in Hb |- *. rewrite Hb. apply (Hkeys (ref', (b', s'))). by right.
Qed.

(** The bridge runs the pinned version only: it calls the adapter exactly
    when the request names the adapter's own binding reference and is a valid
    instruction, it reports acceptance and rejection only when the adapter
    said so and anything else as unknown, it records the reference in the
    provider context, and the coordinator accepts every result it reports. *)
Theorem bridge_pins_version (a : A) (q : ProviderExecutionRequest) (w : W) x w' :
  ad_submit (bridge a) q w = (x, w') →
  (pr_adapter_binding_ref q ≠ binding_ref (ia_descriptor W a) → is_ok x = false ∧ w' = w) ∧
  ∀ r, x = Ok r →
    ∃ w1 result, from_provider_request q = Ok q ∧
      ia_validate_instruction a q w = (Ok tt, w1) ∧ ia_submit a q w1 = (Ok result, w') ∧
      pr_adapter_binding_ref q = binding_ref (ia_descriptor W a) ∧
      out_context r = [(PStr "adapter_binding_ref", PStr (binding_ref (ia_descriptor W a)))] ∧
      out_code r = is_code result ∧ out_external_reference r = is_external_reference result ∧
      (out_outcome r = OUT_ACCEPTED ↔ is_outcome result = ACCEPTED_FOR_PROCESSING) ∧
      (out_outcome r = OUT_REJECTED ↔
         is_outcome result = REJECTED_RETRYABLE ∨ is_outcome result = REJECTED_TERMINAL) ∧
      (out_disposition r = Some REJ_RETRYABLE ↔ is_outcome result = REJECTED_RETRYABLE) ∧
      (out_disposition r = Some REJ_TERMINAL ↔ is_outcome result = REJECTED_TERMINAL) ∧
      is_ok (outcome_state r) = true.
Proof.
  cbn [bridge ad_submit]. intros Hrun. split.
  - intros Hne%String.eqb_neq. unfold bridge_submit in Hrun. rewrite Hne in Hrun.
    injection Hrun as <- <-. done.
  - intros r ->. unfold bridge_submit in Hrun. inv_ok Hrun. guards. destruct_all unit.
    match goal with Hq : from_provider_request q = Ok ?i |- _ =>
      assert (i = q) as -> by (unfold from_provider_request in Hq; by inv_ok Hq); rename Hq into Hfrom end.
    match goal with Hv : ia_validate_instruction _ _ _ = (_, ?w1), Hs : ia_submit _ _ _ = (Ok ?res, _) |- _ =>
      exists w1, res; destruct res as [outcome code reference finality] end.
    split; [done|]. split; [done|]. split; [done|]. split; [done|]. split; [by destruct outcome|].
    split; [by destruct outcome|]. split; [by destruct outcome|].
    split_and!; destruct outcome; cbn; naive_solver.
Qed.
End claims.

(** ** Demonstration data: two banks' adapters, one of them a draft *)
Module DemoInstitutions.
Import ToyEd25519 DemoContracts.

Definition bank_descriptor (id : string) (status : AdapterCertificationStatus) (priority : Z)
    : AdapterDescriptor :=
  {| de_adapter_id := id; de_adapter_version := "1.2.0"; de_provider_id := "BANK-KE";
     de_network_id := "PESALINK"; de_environment := ENV_SANDBOX; de_transport := HTTPS;
     de_message_standard := ISO20022; de_auth_profile := MTLS; de_certification_status := status;
     de_priority := priority |}.
Definition bank_manifest (id : string) (status : AdapterCertificationStatus) (priority : Z)
    : InstitutionCapabilityManifest :=
  {| ma_manifest_id := "MAN-" +:+ id; ma_manifest_version := 1;
     ma_descriptor := bank_descriptor id status priority;
     ma_source_institution_ids := ["BANK-A"]; ma_destination_institution_ids := ["BANK-B"];
     ma_source_countries := ["KE"]; ma_destination_countries := ["KE"]; ma_rails := ["PESALINK"];
     ma_currencies_from := ["KES"]; ma_currencies_to := ["KES"];
     ma_operations := [OP_CALLBACK; OP_SUBMIT]; ma_supports_idempotency := true;
     ma_supports_callbacks := true; ma_supports_active_status := false;
     ma_supports_reconciliation := false; ma_asserted_finality := SETTLED;
     ma_min_amount_minor := 1; ma_max_amount_minor := 100000; ma_request_timeout_seconds := 30;
     ma_issued_at := seconds 50; ma_expires_at := seconds 5000 |}.

(** An adapter is its manifest; it accepts every instruction and counts them. *)
#[export] Instance manifest_adapter : InstitutionAdapter nat InstitutionCapabilityManifest := {
  ia_descriptor := ma_descriptor;
  ia_capabilities := λ m, m;
  ia_validate_instruction _ _ := mret tt;
  ia_submit _ _ := λ n, (Ok {| is_outcome := ACCEPTED_FOR_PROCESSING; is_code := "OK";
                               is_external_reference := Some "X1"; is_finality := PROCESSING |}, S n);
}.

Definition bank1 : InstitutionCapabilityManifest := bank_manifest "BANK1" CERTIFIED 20.
Definition bank2 : InstitutionCapabilityManifest := bank_manifest "BANK2" CONFORMANCE 10.
Definition draft : InstitutionCapabilityManifest := bank_manifest "BANK3" DRAFT 5.
Definition signed_bank (m : InstitutionCapabilityManifest) : SignedCapabilityManifest :=
  from_ok (SignedManifest m no_envelope) (sign_manifest demo_keys "KX" m (seconds 100)).
Definition signed1 : SignedCapabilityManifest := Eval vm_compute in signed_bank bank1.
Definition signed2 : SignedCapabilityManifest := Eval vm_compute in signed_bank bank2.
Definition signed3 : SignedCapabilityManifest := Eval vm_compute in signed_bank draft.

Definition registry1 : AdapterRegistry := [("BANK1@1.2.0", (bank1, signed1))].
Definition registry3 : AdapterRegistry :=
  [("BANK1@1.2.0", (bank1, signed1)); ("BANK2@1.2.0", (bank2, signed2));
   ("BANK3@1.2.0", (draft, signed3))].
Definition bank_query : AdapterEligibilityQuery :=
  {| eq_source_institution_id := "bank-a"; eq_destination_institution_id := "BANK-B";
     eq_source_country := "KE"; eq_destination_country := "KE"; eq_rail := "PESALINK";
     eq_currency_from := "KES"; eq_currency_to := "KES"; eq_amount_minor := 700 |}.
Definition bank_request : ProviderExecutionRequest :=
  {| pr_idempotency_key := "K1"; pr_request_sha256 := String.concat EmptyString (replicate 64 "a");
     pr_utt_id := "UTT-1"; pr_rtt_id := "RTT-1"; pr_attempt_number := 1; pr_provider_id := "BANK-KE";
     pr_adapter_binding_ref := "BANK1@1.2.0"; pr_rail := "PESALINK"; pr_amount_minor := 700;
     pr_currency_from := "KES"; pr_receive_amount_minor := 700; pr_currency_to := "KES";
     pr_source_institution_id := "BANK-A"; pr_destination_institution_id := "BANK-B";
     pr_payer_account_reference := "ACC-1"; pr_beneficiary_account_reference := "ACC-2" |}.
End DemoInstitutions.
Import ToyEd25519 DemoContracts DemoInstitutions.

Lemma registered_one : registration demo_keys [] registry1.
Proof. apply (Registration demo_keys bank1 signed1 [] (Ok tt) registry1). vm_compute. reflexivity. Qed.
Lemma registered_three : rtc (registration demo_keys) registry1 registry3.
Proof.
  eapply rtc_l; [|eapply rtc_once].
  - apply (Registration demo_keys bank2 signed2 registry1 (Ok tt)
      [("BANK1@1.2.0", (bank1, signed1)); ("BANK2@1.2.0", (bank2, signed2))]).
    vm_compute. reflexivity.
  - apply (Registration demo_keys draft signed3 _ (Ok tt) registry3). vm_compute. reflexivity.
Qed.
Lemma registered_all : rtc (registration demo_keys) [] registry3.
Proof. exact (rtc_l _ _ _ _ registered_one registered_three). Qed.

Lemma registry_pins_witness :
  ∃ a' s', dget registry3 "BANK1@1.2.0" = Some (a', s') ∧
    signature (sm_signature s') = signature (sm_signature signed1).
Proof.
  destruct (registry_pins demo_keys registry1 registry3 "BANK1@1.2.0" bank1 signed1
    (rtc_once _ _ registered_one) registered_three eq_refl) as (_ & _ & _ & a' & s' & Ha & _ & Hs).
  by exists a', s'.
Defined.

(** The draft is not eligible; the lower priority number goes first. *)
Lemma eligible_correct_witness :
  eligible_adapters (λ us, us) registry3 bank_query None (seconds 200) = [bank2; bank1] ∧
  resolve (λ us, us) registry3 "BANK2@1.2.0" None (seconds 200) = Ok bank2.
Proof.
  assert (eligible_adapters (λ us, us) registry3 bank_query None (seconds 200) = [bank2; bank1]) as Hl
    by (vm_compute; reflexivity).
  split; [exact Hl|].
  destruct (eligible_correct demo_keys registry3 (λ us, us) bank_query None (seconds 200)
    registered_all) as [Hin _].
  rewrite Hl in Hin. destruct (proj1 (Hin bank2) (list_elem_of_here _ _)) as (s & _ & Hr & _).
  exact Hr.
Defined.

Definition bridged : ProviderSubmissionResult := Eval vm_compute in
  from_ok (unknown_result EmptyString) (ad_submit (bridge bank1) bank_request 0%nat).1.
Lemma bridged_eq : ad_submit (bridge bank1) bank_request 0%nat = (Ok bridged, 1%nat).
Proof. vm_compute. reflexivity. Qed.

Lemma bridge_pins_version_witness :
  ad_submit (bridge bank1) bank_request 0%nat = (Ok bridged, 1%nat) ∧
  out_outcome bridged = OUT_ACCEPTED ∧ is_ok (outcome_state bridged) = true.
Proof.
  split; [exact bridged_eq|].
  destruct (proj2 (bridge_pins_version bank1 bank_request 0%nat (Ok bridged) 1%nat bridged_eq)
    bridged eq_refl) as (w1 & result & _ & _ & Hs & _ & _ & _ & _ & Hacc & _ & _ & _ & Hst).
  split; [|exact Hst]. apply Hacc. injection Hs as <-. reflexivity.
Defined.
