(* ===== verification/Certification.v ===== *)
(** [railone_certification/models.py] and [evaluator.py]: canonical traces of a
    partner's sandbox runs, the reports made of them, and the fail-closed
    evaluation of a trace against the expectations of its scenario.  The
    timestamps of stored records are aware. *)

From Stdlib Require Import Ascii String.
From S2P Require Import Prelude.
From S2P Require Import PyBase.
From S2P Require Import PyDict.
From S2P Require Import Bytes.
From S2P Require Import CanonicalJson.
From S2P Require Import Keys.
From S2P Require Import Signatures.
From S2P Require Import Authority.
From S2P Require Import Identity.
From S2P Require Import PyText.
From S2P Require Import Institutions.

(** ** Enumerations *)
Inductive CertificationScenario :=
  | P2P_SETTLED | MERCHANT_SUPPLIER_SETTLED | CROSS_BORDER_SETTLED | DUPLICATE_SUBMISSION
  | UNKNOWN_THEN_RECONCILED | TAMPERED_CALLBACK_REJECTED | DUPLICATE_CALLBACK_EXACTLY_ONCE
  | SETTLEMENT_AMOUNT_MISMATCH_REJECTED | HISTORY_ACCESS_CONTROL | SMS_FINALITY_GATE
  | ADAPTER_VERSION_PIN.
#[global] Instance CertificationScenario_eq_dec : EqDecision CertificationScenario.
Proof. solve_decision. Defined.
Definition all_scenarios : list CertificationScenario :=
  [P2P_SETTLED; MERCHANT_SUPPLIER_SETTLED; CROSS_BORDER_SETTLED; DUPLICATE_SUBMISSION;
   UNKNOWN_THEN_RECONCILED; TAMPERED_CALLBACK_REJECTED; DUPLICATE_CALLBACK_EXACTLY_ONCE;
   SETTLEMENT_AMOUNT_MISMATCH_REJECTED; HISTORY_ACCESS_CONTROL; SMS_FINALITY_GATE;
   ADAPTER_VERSION_PIN].
Definition CertificationScenario_value (s : CertificationScenario) : string :=
  match s with
  | P2P_SETTLED => "P2P_SETTLED"
  | MERCHANT_SUPPLIER_SETTLED => "MERCHANT_SUPPLIER_SETTLED"
  | CROSS_BORDER_SETTLED => "CROSS_BORDER_SETTLED"
  | DUPLICATE_SUBMISSION => "DUPLICATE_SUBMISSION"
  | UNKNOWN_THEN_RECONCILED => "UNKNOWN_THEN_RECONCILED"
  | TAMPERED_CALLBACK_REJECTED => "TAMPERED_CALLBACK_REJECTED"
  | DUPLICATE_CALLBACK_EXACTLY_ONCE => "DUPLICATE_CALLBACK_EXACTLY_ONCE"
  | SETTLEMENT_AMOUNT_MISMATCH_REJECTED => "SETTLEMENT_AMOUNT_MISMATCH_REJECTED"
  | HISTORY_ACCESS_CONTROL => "HISTORY_ACCESS_CONTROL"
  | SMS_FINALITY_GATE => "SMS_FINALITY_GATE"
  | ADAPTER_VERSION_PIN => "ADAPTER_VERSION_PIN"
  end.

Inductive TraceEventType :=
  | INTENT_ACCEPTED | UTT_CREATED | FX_QUOTE_BOUND | HISTORY_INDEXED | PLAN_CREATED | RTT_CREATED
  | ADAPTER_BINDING_VERIFIED | ADAPTER_BINDING_MISMATCH_REJECTED | PROVIDER_DISPATCHED
  | PROVIDER_ACCEPTED | IDEMPOTENT_REPLAY_RETURNED | TE_OUTCOME_UNKNOWN
  | TE_RECONCILIATION_REQUIRED | CALLBACK_ACCEPTED | CALLBACK_REJECTED
  | EXTERNAL_EVIDENCE_VERIFIED | EXTERNAL_EVIDENCE_REJECTED | RTT_SUCCEEDED | RTT_FAILED
  | PLAN_FINALIZED | SMS_BLOCKED_BEFORE_FINALITY | SMS_PREPARED | SMS_SENT
  | HISTORY_READ_ALLOWED | HISTORY_READ_DENIED.
#[global] Instance TraceEventType_eq_dec : EqDecision TraceEventType.
Proof. solve_decision. Defined.
Definition TraceEventType_value (t : TraceEventType) : string :=
  match t with
  | INTENT_ACCEPTED => "INTENT_ACCEPTED" | UTT_CREATED => "UTT_CREATED"
  | FX_QUOTE_BOUND => "FX_QUOTE_BOUND" | HISTORY_INDEXED => "HISTORY_INDEXED"
  | PLAN_CREATED => "PLAN_CREATED" | RTT_CREATED => "RTT_CREATED"
  | ADAPTER_BINDING_VERIFIED => "ADAPTER_BINDING_VERIFIED"
  | ADAPTER_BINDING_MISMATCH_REJECTED => "ADAPTER_BINDING_MISMATCH_REJECTED"
  | PROVIDER_DISPATCHED => "PROVIDER_DISPATCHED" | PROVIDER_ACCEPTED => "PROVIDER_ACCEPTED"
  | IDEMPOTENT_REPLAY_RETURNED => "IDEMPOTENT_REPLAY_RETURNED"
  | TE_OUTCOME_UNKNOWN => "OUTCOME_UNKNOWN"
  | TE_RECONCILIATION_REQUIRED => "RECONCILIATION_REQUIRED"
  | CALLBACK_ACCEPTED => "CALLBACK_ACCEPTED" | CALLBACK_REJECTED => "CALLBACK_REJECTED"
  | EXTERNAL_EVIDENCE_VERIFIED => "EXTERNAL_EVIDENCE_VERIFIED"
  | EXTERNAL_EVIDENCE_REJECTED => "EXTERNAL_EVIDENCE_REJECTED"
  | RTT_SUCCEEDED => "RTT_SUCCEEDED" | RTT_FAILED => "RTT_FAILED"
  | PLAN_FINALIZED => "PLAN_FINALIZED"
  | SMS_BLOCKED_BEFORE_FINALITY => "SMS_BLOCKED_BEFORE_FINALITY"
  | SMS_PREPARED => "SMS_PREPARED" | SMS_SENT => "SMS_SENT"
  | HISTORY_READ_ALLOWED => "HISTORY_READ_ALLOWED" | HISTORY_READ_DENIED => "HISTORY_READ_DENIED"
  end.

Inductive CaseStatus := CASE_PASSED | CASE_FAILED | CASE_ERROR.
#[global] Instance CaseStatus_eq_dec : EqDecision CaseStatus.
Proof. solve_decision. Defined.
Definition CaseStatus_value (s : CaseStatus) : string :=
  match s with CASE_PASSED => "PASSED" | CASE_FAILED => "FAILED" | CASE_ERROR => "ERROR" end.
Inductive CertificationStatus := CERT_PASSED | CERT_FAILED.
#[global] Instance CertificationStatus_eq_dec : EqDecision CertificationStatus.
Proof. solve_decision. Defined.
Definition CertificationStatus_value (s : CertificationStatus) : string :=
  match s with CERT_PASSED => "PASSED" | CERT_FAILED => "FAILED" end.
Inductive EvidenceClassification := SYNTHETIC_SELF_TEST | PARTNER_SANDBOX.
#[global] Instance EvidenceClassification_eq_dec : EqDecision EvidenceClassification.
Proof. solve_decision. Defined.
Definition EvidenceClassification_value (c : EvidenceClassification) : string :=
  match c with
  | SYNTHETIC_SELF_TEST => "SYNTHETIC_SELF_TEST" | PARTNER_SANDBOX => "PARTNER_SANDBOX"
  end.

Definition safe_metadata_keys : list string :=
  ["actor_scope"; "channel"; "corridor"; "currency_from"; "currency_to"; "finality"; "outcome";
   "provider_code"; "recipient_role"; "replayed"; "route_id"; "transport"; "verification"].

(** ** [CertificationTraceEvent] *)
Record CertificationTraceEvent := {
  ev_event_id : string;
  ev_scenario : CertificationScenario;
  ev_event_type : TraceEventType;
  ev_occurred_at : instant;
  ev_sequence : Z;
  ev_adapter_binding_ref : string;
  ev_utt_id : option string;
  ev_rtt_id : option string;
  ev_evidence_sha256 : option string;
  ev_metadata : list (string * string);
}.
#[global] Instance CertificationTraceEvent_eq_dec : EqDecision CertificationTraceEvent.
Proof. solve_decision. Defined.
Implicit Types (e : CertificationTraceEvent).

(** [_event_material] *)
Definition event_material e : list (string * pyval) :=
  [("scenario", PStr (CertificationScenario_value (ev_scenario e)));
   ("event_type", PStr (TraceEventType_value (ev_event_type e)));
   ("occurred_at", PInt (epoch (ev_occurred_at e))); ("sequence", PInt (ev_sequence e));
   ("utt_id", opt_str (ev_utt_id e)); ("rtt_id", opt_str (ev_rtt_id e));
   ("adapter_binding_ref", PStr (ev_adapter_binding_ref e));
   ("evidence_sha256", opt_str (ev_evidence_sha256 e));
   ("metadata", pdict (prod_map id PStr <$> ev_metadata e))].
Definition event_content_id e : res string := content_id "CERT-EVT" (pdict (event_material e)).
Definition event_payload e : pyval :=
  pdict (("event_id", PStr (ev_event_id e)) :: event_material e).

Definition with_metadata e (id : string) (metadata : list (string * string))
    : CertificationTraceEvent :=
  {| ev_event_id := id; ev_scenario := ev_scenario e; ev_event_type := ev_event_type e;
     ev_occurred_at := ev_occurred_at e; ev_sequence := ev_sequence e;
     ev_adapter_binding_ref := ev_adapter_binding_ref e; ev_utt_id := ev_utt_id e;
     ev_rtt_id := ev_rtt_id e; ev_evidence_sha256 := ev_evidence_sha256 e;
     ev_metadata := metadata |}.

(** [__post_init__] *)
Definition event_post_init e : res CertificationTraceEvent :=
  _ ← raise_if (ev_sequence e <? 1) ValueError "certification event sequence must be positive";
  _ ← raise_if (negb (binding_ref_pattern (ev_adapter_binding_ref e))) ValueError
        "certification event requires adapter_id@semantic-version";
  _ ← raise_if (match ev_evidence_sha256 e with
                | Some h => negb (sha256_pattern h)
                | None => false
                end) ValueError "evidence_sha256 must be a lowercase SHA-256 digest";
  let normalized := sort_on fst str_le (ev_metadata e) in
  _ ← raise_if (negb (bool_decide (NoDup normalized.*1))) ValueError
        "certification event metadata keys must be unique";
  _ ← raise_if (existsb (λ kv, negb (bool_decide (kv.1 ∈ safe_metadata_keys))) normalized) ValueError
        "certification event metadata contains a non-canonical key";
  _ ← raise_if (existsb (λ kv, str_empty kv.2 || (128 <? char_len kv.2)) normalized) ValueError
        "certification event metadata values must be non-empty and bounded";
  let event := with_metadata e (ev_event_id e) normalized in
  expected ← event_content_id event;
  _ ← raise_if (negb (String.eqb (ev_event_id e) expected)) ValueError
        "certification event content identifier mismatch";
  mret event.

(** [create]: the identifier of [e] is ignored. *)
Definition event_create e : res CertificationTraceEvent :=
  let normalized := sort_on fst str_le (ev_metadata e) in
  id ← event_content_id (with_metadata e EmptyString normalized);
  event_post_init (with_metadata e id normalized).

(** ** [CertificationTrace] *)
Record CertificationTrace := {
  tr_trace_id : string;
  tr_run_id : string;
  tr_scenario : CertificationScenario;
  tr_adapter_binding_ref : string;
  tr_started_at : instant;
  tr_completed_at : instant;
  tr_events : list CertificationTraceEvent;
}.
#[global] Instance CertificationTrace_eq_dec : EqDecision CertificationTrace.
Proof. solve_decision. Defined.
Implicit Types (t : CertificationTrace).

Definition trace_material t : list (string * pyval) :=
  [("run_id", PStr (tr_run_id t)); ("scenario", PStr (CertificationScenario_value (tr_scenario t)));
   ("adapter_binding_ref", PStr (tr_adapter_binding_ref t));
   ("started_at", PInt (epoch (tr_started_at t))); ("completed_at", PInt (epoch (tr_completed_at t)));
   ("events", PList (event_payload <$> tr_events t))].
Definition trace_content_id t : res string := content_id "CERT-TRACE" (pdict (trace_material t)).

(** [__post_init__] *)
Definition trace_post_init t : res CertificationTrace :=
  _ ← raise_if (tr_completed_at t <? tr_started_at t) ValueError
        "certification trace cannot complete before it starts";
  _ ← raise_if (bool_decide (tr_events t = [])) ValueError "certification trace cannot be empty";
  _ ← raise_if (negb (bool_decide (ev_sequence <$> tr_events t
                                   = Z.of_nat <$> seq 1 (length (tr_events t))))) ValueError
        "certification event sequence must be contiguous and ordered";
  _ ← raise_if (existsb (λ e, negb (bool_decide (ev_scenario e = tr_scenario t))) (tr_events t))
        ValueError "certification trace contains another scenario";
  _ ← raise_if (existsb (λ e, negb (String.eqb (ev_adapter_binding_ref e) (tr_adapter_binding_ref t)))
                  (tr_events t)) ValueError "certification trace changed adapter binding";
  expected ← trace_content_id t;
  _ ← raise_if (negb (String.eqb (tr_trace_id t) expected)) ValueError
        "certification trace content identifier mismatch";
  mret t.

Definition trace_create t : res CertificationTrace :=
  id ← trace_content_id t;
  trace_post_init {| tr_trace_id := id; tr_run_id := tr_run_id t; tr_scenario := tr_scenario t;
                     tr_adapter_binding_ref := tr_adapter_binding_ref t;
                     tr_started_at := tr_started_at t; tr_completed_at := tr_completed_at t;
                     tr_events := tr_events t |}.

(** ** [CertificationCaseResult] *)
Record CertificationCaseResult := {
  cr_scenario : CertificationScenario;
  cr_status : CaseStatus;
  cr_trace_id : option string;
  cr_failures : list string;
  cr_duration_ms : Z;
  cr_event_count : Z;
}.
#[global] Instance CertificationCaseResult_eq_dec : EqDecision CertificationCaseResult.
Proof. solve_decision. Defined.

Definition passed (c : CertificationCaseResult) : bool := bool_decide (cr_status c = CASE_PASSED).

Definition case_post_init (c : CertificationCaseResult) : res CertificationCaseResult :=
  _ ← raise_if ((cr_duration_ms c <? 0) || (cr_event_count c <? 0)) ValueError
        "certification case metrics cannot be negative";
  _ ← raise_if (passed c && negb (bool_decide (cr_failures c = []))) ValueError
        "passed certification case cannot contain failures";
  _ ← raise_if (negb (passed c) && bool_decide (cr_failures c = [])) ValueError
        "failed certification case requires a reason";
  mret c.

Definition case_payload (c : CertificationCaseResult) : pyval :=
  pdict [("scenario", PStr (CertificationScenario_value (cr_scenario c)));
         ("status", PStr (CaseStatus_value (cr_status c))); ("trace_id", opt_str (cr_trace_id c));
         ("failures", texts (cr_failures c)); ("duration_ms", PInt (cr_duration_ms c));
         ("event_count", PInt (cr_event_count c))].

(** ** [CertificationReport] *)
Record CertificationReport := {
  re_report_id : string;
  re_run_id : string;
  re_suite_id : string;
  re_suite_version : string;
  re_adapter_binding_ref : string;
  re_manifest_payload_sha256 : string;
  re_evidence_classification : EvidenceClassification;
  re_status : CertificationStatus;
  re_cases : list CertificationCaseResult;
  re_started_at : instant;
  re_completed_at : instant;
}.
#[global] Instance CertificationReport_eq_dec : EqDecision CertificationReport.
Proof. solve_decision. Defined.

Definition report_material (r : CertificationReport) : list (string * pyval) :=
  [("run_id", PStr (re_run_id r)); ("suite_id", PStr (re_suite_id r));
   ("suite_version", PStr (re_suite_version r));
   ("adapter_binding_ref", PStr (re_adapter_binding_ref r));
   ("manifest_payload_sha256", PStr (re_manifest_payload_sha256 r));
   ("evidence_classification",
      PStr (EvidenceClassification_value (re_evidence_classification r)));
   ("status", PStr (CertificationStatus_value (re_status r)));
   ("cases", PList (case_payload <$> re_cases r)); ("started_at", PInt (epoch (re_started_at r)));
   ("completed_at", PInt (epoch (re_completed_at r)))].
Definition report_content_id (r : CertificationReport) : res string :=
  content_id "CERT-REPORT" (pdict (report_material r)).
Definition report_payload (r : CertificationReport) : mapping :=
  fields (("report_id", PStr (re_report_id r)) :: report_material r).

(** The status that the cases call for. *)
Definition status_of (cases : list CertificationCaseResult) : CertificationStatus :=
  if forallb passed cases then CERT_PASSED else CERT_FAILED.

Definition report_post_init (r : CertificationReport) : res CertificationReport :=
  _ ← raise_if (re_completed_at r <? re_started_at r) ValueError
        "certification report cannot complete before it starts";
  _ ← raise_if (negb (binding_ref_pattern (re_adapter_binding_ref r))) ValueError
        "certification report requires adapter_id@semantic-version";
  _ ← raise_if (negb (sha256_pattern (re_manifest_payload_sha256 r))) ValueError
        "manifest_payload_sha256 must be a lowercase SHA-256 digest";
  _ ← raise_if (bool_decide (re_cases r = [])
                || negb (bool_decide (NoDup (cr_scenario <$> re_cases r)))) ValueError
        "certification report requires unique case results";
  _ ← raise_if (negb (bool_decide (re_status r = status_of (re_cases r)))) ValueError
        "certification report status disagrees with case results";
  expected ← report_content_id r;
  _ ← raise_if (negb (String.eqb (re_report_id r) expected)) ValueError
        "certification report content identifier mismatch";
  mret r.

(** ** [_EXPECTATIONS] *)
Record Expectation := Expect {
  ex_exact : list (TraceEventType * Z);
  ex_minimum : list (TraceEventType * Z);
  ex_forbidden : list TraceEventType;
  ex_ordered : list (TraceEventType * TraceEventType);
  ex_required_scopes : list string;
}.

Definition HAPPY_ORDER : list (TraceEventType * TraceEventType) :=
  [(UTT_CREATED, RTT_CREATED); (RTT_CREATED, PROVIDER_DISPATCHED);
   (PROVIDER_DISPATCHED, PROVIDER_ACCEPTED); (PROVIDER_ACCEPTED, EXTERNAL_EVIDENCE_VERIFIED);
   (EXTERNAL_EVIDENCE_VERIFIED, RTT_SUCCEEDED); (RTT_SUCCEEDED, PLAN_FINALIZED);
   (PLAN_FINALIZED, SMS_PREPARED)].
Definition HAPPY_EXACT : list (TraceEventType * Z) :=
  [(UTT_CREATED, 1); (RTT_CREATED, 1); (ADAPTER_BINDING_VERIFIED, 1); (PROVIDER_DISPATCHED, 1);
   (PROVIDER_ACCEPTED, 1); (EXTERNAL_EVIDENCE_VERIFIED, 1); (RTT_SUCCEEDED, 1);
   (PLAN_FINALIZED, 1); (SMS_PREPARED, 2)].

Definition EXPECTATIONS (s : CertificationScenario) : Expectation :=
  match s with
  | P2P_SETTLED =>
      Expect HAPPY_EXACT [(HISTORY_READ_ALLOWED, 2)] [] HAPPY_ORDER ["SENDER"; "RECEIVER"]
  | MERCHANT_SUPPLIER_SETTLED =>
      Expect HAPPY_EXACT [(HISTORY_READ_ALLOWED, 2)] [] HAPPY_ORDER ["MERCHANT"; "BRANCH"]
  | CROSS_BORDER_SETTLED =>
      Expect (HAPPY_EXACT ++ [(FX_QUOTE_BOUND, 1)]) [(HISTORY_READ_ALLOWED, 2)] []
        (HAPPY_ORDER ++ [(UTT_CREATED, FX_QUOTE_BOUND)]) ["SENDER"; "RECEIVER"]
  | DUPLICATE_SUBMISSION =>
      Expect [(UTT_CREATED, 1); (RTT_CREATED, 1); (PROVIDER_DISPATCHED, 1); (PROVIDER_ACCEPTED, 1);
              (IDEMPOTENT_REPLAY_RETURNED, 1)] [] []
        [(PROVIDER_DISPATCHED, IDEMPOTENT_REPLAY_RETURNED)] []
  | UNKNOWN_THEN_RECONCILED =>
      Expect [(UTT_CREATED, 1); (RTT_CREATED, 1); (PROVIDER_DISPATCHED, 1); (TE_OUTCOME_UNKNOWN, 1);
              (TE_RECONCILIATION_REQUIRED, 1); (EXTERNAL_EVIDENCE_VERIFIED, 1); (RTT_SUCCEEDED, 1);
              (PLAN_FINALIZED, 1)] [] []
        [(PROVIDER_DISPATCHED, TE_OUTCOME_UNKNOWN); (TE_OUTCOME_UNKNOWN, TE_RECONCILIATION_REQUIRED);
         (TE_RECONCILIATION_REQUIRED, EXTERNAL_EVIDENCE_VERIFIED);
         (EXTERNAL_EVIDENCE_VERIFIED, RTT_SUCCEEDED)] []
  | TAMPERED_CALLBACK_REJECTED =>
      Expect [(CALLBACK_REJECTED, 1)] []
        [EXTERNAL_EVIDENCE_VERIFIED; RTT_SUCCEEDED; PLAN_FINALIZED; SMS_PREPARED] [] []
  | DUPLICATE_CALLBACK_EXACTLY_ONCE =>
      Expect [(CALLBACK_ACCEPTED, 2); (EXTERNAL_EVIDENCE_VERIFIED, 1); (RTT_SUCCEEDED, 1);
              (PLAN_FINALIZED, 1); (SMS_PREPARED, 2)] [] []
        [(CALLBACK_ACCEPTED, EXTERNAL_EVIDENCE_VERIFIED)] []
  | SETTLEMENT_AMOUNT_MISMATCH_REJECTED =>
      Expect [(EXTERNAL_EVIDENCE_REJECTED, 1)] [] [RTT_SUCCEEDED; PLAN_FINALIZED; SMS_PREPARED] [] []
  | HISTORY_ACCESS_CONTROL =>
      Expect [(HISTORY_READ_DENIED, 1)] [(HISTORY_READ_ALLOWED, 2)] [] []
        ["SENDER"; "RECEIVER"; "UNRELATED"]
  | SMS_FINALITY_GATE =>
      Expect [(SMS_BLOCKED_BEFORE_FINALITY, 1); (EXTERNAL_EVIDENCE_VERIFIED, 1); (RTT_SUCCEEDED, 1);
              (PLAN_FINALIZED, 1); (SMS_PREPARED, 2)] [] []
        [(SMS_BLOCKED_BEFORE_FINALITY, EXTERNAL_EVIDENCE_VERIFIED); (PLAN_FINALIZED, SMS_PREPARED)] []
  | ADAPTER_VERSION_PIN =>
      Expect [(UTT_CREATED, 1); (RTT_CREATED, 1); (ADAPTER_BINDING_VERIFIED, 1);
              (ADAPTER_BINDING_MISMATCH_REJECTED, 1); (PROVIDER_DISPATCHED, 1)] [] []
        [(RTT_CREATED, ADAPTER_BINDING_VERIFIED); (ADAPTER_BINDING_VERIFIED, PROVIDER_DISPATCHED)] []
  end.

(** ** [CertificationTraceEvaluator] *)

(** [Counter(event.event_type for event in trace.events)[kind]] *)
Definition count t (kind : TraceEventType) : Z :=
  Z.of_nat (length (filter (λ e, ev_event_type e = kind) (tr_events t))).
Definition occurs t (kind : TraceEventType) : bool := negb (count t kind =? 0).

(** [_first]; only called for kinds that occur. *)
Definition first_sequence t (kind : TraceEventType) : Z :=
  default 0 (ev_sequence <$> head (filter (λ e, ev_event_type e = kind) (tr_events t))).

Definition when {A} (c : bool) (x : A) : list A := if c then [x] else [].
Definition name_of (kind : TraceEventType) : string := TraceEventType_value kind.

Definition exact_failures t (x : Expectation) : list string :=
  ex_exact x ≫= λ '(kind, n), when (negb (count t kind =? n))
    (name_of kind +:+ ": expected exactly " +:+ str_int n +:+ ", observed " +:+ str_int (count t kind)).
Definition minimum_failures t (x : Expectation) : list string :=
  ex_minimum x ≫= λ '(kind, n), when (count t kind <? n)
    (name_of kind +:+ ": expected at least " +:+ str_int n +:+ ", observed "
     +:+ str_int (count t kind)).
Definition forbidden_failures t (x : Expectation) : list string :=
  ex_forbidden x ≫= λ kind, when (occurs t kind) (name_of kind +:+ ": forbidden event observed").
Definition order_failures t (x : Expectation) : list string :=
  ex_ordered x ≫= λ '(before, after),
    when (occurs t before && occurs t after && (first_sequence t after <=? first_sequence t before))
      ("event order violated: " +:+ name_of before +:+ " must precede " +:+ name_of after).

Definition is_history_read e : bool :=
  bool_decide (ev_event_type e = HISTORY_READ_ALLOWED)
  || bool_decide (ev_event_type e = HISTORY_READ_DENIED).
Definition exercised_scopes t : list (option string) :=
  (λ e, dget (ev_metadata e) "actor_scope") <$> filter (λ e, is_history_read e = true) (tr_events t).
Definition scope_failures t (x : Expectation) : list string :=
  ex_required_scopes x ≫= λ scope, when (negb (bool_decide (Some scope ∈ exercised_scopes t)))
    ("history scope was not exercised: " +:+ scope).

Definition several {A} `{EqDecision A} (l : list A) : bool := (1 <? length (remove_dups l))%nat.

(** [_global_invariants] *)
Definition global_failures t : list string :=
  let times := ev_occurred_at <$> tr_events t in
  when (negb (bool_decide (times = py_sorted Z.le times))) "event timestamps are not monotonic"
  ++ when (several (omap ev_utt_id (tr_events t)))
       "one certification case emitted multiple UTT identities"
  ++ when (occurs t RTT_CREATED && negb (occurs t UTT_CREATED)) "RTT exists without a preceding UTT"
  ++ when (occurs t RTT_SUCCEEDED && negb (occurs t EXTERNAL_EVIDENCE_VERIFIED))
       "RTT succeeded without verified external evidence"
  ++ when (existsb (λ e, bool_decide (ev_event_type e = EXTERNAL_EVIDENCE_VERIFIED)
                         && negb (is_some_b (ev_evidence_sha256 e))) (tr_events t))
       "verified external evidence omitted its evidence hash"
  ++ when (occurs t PLAN_FINALIZED && negb (occurs t RTT_SUCCEEDED))
       "plan finalized without a successful RTT"
  ++ when (occurs t SMS_PREPARED && negb (occurs t PLAN_FINALIZED))
       "settlement SMS was prepared before plan finality"
  ++ when (occurs t TE_OUTCOME_UNKNOWN && (1 <? count t PROVIDER_DISPATCHED))
       "unknown provider outcome caused a blind redispatch"
  ++ when (several (omap ev_rtt_id (tr_events t))
           && negb (bool_decide (tr_scenario t = UNKNOWN_THEN_RECONCILED)))
       "case changed RTT identity without an explicit retry scenario"
  ++ when (negb (bool_decide (NoDup (ev_event_id <$> tr_events t))))
       "duplicate certification event content id".

(** [tuple(sorted(set(l)))] *)
Definition sorted_set (l : list string) : list string := py_sorted str_le (remove_dups l).

Definition evaluate t : list string :=
  let x := EXPECTATIONS (tr_scenario t) in
  sorted_set (exact_failures t x ++ minimum_failures t x ++ forbidden_failures t x
              ++ order_failures t x ++ scope_failures t x ++ global_failures t).
