(* ===== verification/CertificationRun.v ===== *)
(** [railone_certification/runner.py], [store.py] and [service.py]: the suite
    of a manifest, the runner that turns a partner driver's traces into a
    report, the run recorder and the report store, and the coordinator that
    signs a report.  The driver and its world are parameters; so is the time
    that a case takes. *)

From Stdlib Require Import Ascii String.
From S2P Require Import Prelude.
From S2P Require Import PyBase.
From S2P Require Import PyDict.
From S2P Require Import Bytes.
From S2P Require Import CanonicalJson.
From S2P Require Import Keys.
From S2P Require Import Signatures.
From S2P Require Import Operations.
From S2P Require Import Institutions.
From S2P Require Import Certification.

(** ** [CertificationSuite] *)
Record CertificationSuite := Suite {
  su_suite_id : string;
  su_suite_version : string;
  su_scenarios : list CertificationScenario;
  su_per_case_timeout_seconds : Z;
}.

Definition pilot_suite (scenarios : list CertificationScenario) : CertificationSuite :=
  Suite "RAILONE-PARTNER-PILOT" "1.0.0" scenarios 30.
Definition pilot_v1 : CertificationSuite := pilot_suite all_scenarios.

Definition same_set (a b : list string) : bool :=
  forallb (λ x, bool_decide (x ∈ b)) a && forallb (λ x, bool_decide (x ∈ a)) b.

Definition suite_for_manifest (m : InstitutionCapabilityManifest) : res CertificationSuite :=
  let evidence := ma_supports_active_status m || ma_supports_reconciliation m in
  _ ← raise_if (negb (ma_supports_callbacks m || evidence)) ValueError
        "pilot certification requires an external finality evidence path";
  let cross_border :=
    negb (same_set (ma_source_countries m) (ma_destination_countries m))
    || negb (same_set (ma_currencies_from m) (ma_currencies_to m)) in
  mret (pilot_suite
    ([P2P_SETTLED; MERCHANT_SUPPLIER_SETTLED; HISTORY_ACCESS_CONTROL; SMS_FINALITY_GATE;
      ADAPTER_VERSION_PIN; DUPLICATE_SUBMISSION]
     ++ when cross_border CROSS_BORDER_SETTLED ++ when evidence UNKNOWN_THEN_RECONCILED
     ++ (if ma_supports_callbacks m
         then [TAMPERED_CALLBACK_REJECTED; DUPLICATE_CALLBACK_EXACTLY_ONCE;
               SETTLEMENT_AMOUNT_MISMATCH_REJECTED]
         else []))).

(** ** [InMemoryCertificationRunRecorder] *)
Record RunRecord := {
  ru_adapter_binding_ref : string;
  ru_manifest_payload_sha256 : string;
  ru_suite_id : string;
  ru_suite_version : string;
  ru_started_at : instant;
  ru_status : string;
  ru_report : option (string * instant);
}.
#[global] Instance RunRecord_eq_dec : EqDecision RunRecord.
Proof. solve_decision. Defined.

Record RunRecorder := Recorder {
  rr_runs : dict string RunRecord;
  rr_traces : dict (string * CertificationScenario) CertificationTrace;
}.
Definition no_runs : RunRecorder := Recorder [] [].

Definition begin_run (run_id adapter_binding_ref manifest_sha : string) (suite : CertificationSuite)
    (started_at : instant) : M RunRecorder unit :=
  let material := {| ru_adapter_binding_ref := adapter_binding_ref;
    ru_manifest_payload_sha256 := manifest_sha; ru_suite_id := su_suite_id suite;
    ru_suite_version := su_suite_version suite; ru_started_at := started_at;
    ru_status := "RUNNING"; ru_report := None |} in
  s ← getS;
  match dget (rr_runs s) run_id with
  | Some existing =>
      if negb (bool_decide (existing = material))
      then raise RuntimeError "certification run immutability conflict"
      else raise RuntimeError "certification run has already started"
  | None => putS (Recorder (dset (rr_runs s) run_id material) (rr_traces s))
  end.

Definition record_trace (t : CertificationTrace) : M RunRecorder unit :=
  let key := (tr_run_id t, tr_scenario t) in
  s ← getS;
  _ ← raise_if (negb (dmem (rr_runs s) (tr_run_id t))) RuntimeError
        "certification trace has no active run";
  _ ← raise_if (match dget (rr_traces s) key with
                | Some existing => negb (bool_decide (existing = t))
                | None => false
                end) RuntimeError "certification trace immutability conflict";
  putS (Recorder (rr_runs s) (dset (rr_traces s) key t)).

Definition completed_run (run : RunRecord) (r : CertificationReport) : RunRecord :=
  {| ru_adapter_binding_ref := ru_adapter_binding_ref run;
     ru_manifest_payload_sha256 := ru_manifest_payload_sha256 run; ru_suite_id := ru_suite_id run;
     ru_suite_version := ru_suite_version run; ru_started_at := ru_started_at run;
     ru_status := CertificationStatus_value (re_status r);
     ru_report := Some (re_report_id r, re_completed_at r) |}.

Definition complete_run (r : CertificationReport) : M RunRecorder unit :=
  s ← getS;
  match dget (rr_runs s) (re_run_id r) with
  | Some run =>
      _ ← raise_if (negb (String.eqb (ru_status run) "RUNNING")) RuntimeError
            "certification run is not active";
      putS (Recorder (dset (rr_runs s) (re_run_id r) (completed_run run r)) (rr_traces s))
  | None => raise RuntimeError "certification run is not active"
  end.

(** ** [InMemoryCertificationReportStore] *)
Record SignedCertificationReport := SignedReport {
  sr_report : CertificationReport;
  sr_signature : SignatureEnvelope;
}.
#[global] Instance SignatureEnvelope_eq_dec : EqDecision SignatureEnvelope.
Proof. solve_decision. Defined.
#[global] Instance SignedCertificationReport_eq_dec : EqDecision SignedCertificationReport.
Proof. solve_decision. Defined.
Definition ReportStore : Type := dict string SignedCertificationReport.

Definition put_report (signed : SignedCertificationReport)
    : M ReportStore SignedCertificationReport :=
  reports ← getS;
  let id := re_report_id (sr_report signed) in
  _ ← raise_if (match dget reports id with
                | Some existing => negb (bool_decide (existing = signed))
                | None => false
                end) RuntimeError "certification report immutability conflict";
  _ ← putS (dset reports id signed);
  mret signed.

Definition require_report (reports : ReportStore) (report_id : string)
    : res SignedCertificationReport :=
  require (dget reports report_id) LookupError "certification report not found".

(** ** [PartnerCertificationDriver] and [CertificationRunner] *)
Record PartnerDriver (D : Type) := {
  dr_adapter_binding_ref : string;
  dr_evidence_classification : EvidenceClassification;
  dr_execute_case : string → CertificationScenario → M D CertificationTrace;
}.
Arguments dr_adapter_binding_ref {D}.
Arguments dr_evidence_classification {D}.
Arguments dr_execute_case {D}.

Record CertificationWorld (D : Type) := World {
  wo_driver : D;
  wo_recorder : RunRecorder;
  wo_reports : ReportStore;
}.
Arguments World {D}.
Arguments wo_driver {D}.
Arguments wo_recorder {D}.
Arguments wo_reports {D}.

Section runner.
Context {D : Type}.
Implicit Types (w : CertificationWorld D) (driver : PartnerDriver D).

Definition on_driver {A} : M D A → M (CertificationWorld D) A :=
  zoom wo_driver (λ d w, World d (wo_recorder w) (wo_reports w)).
Definition on_recorder {A} : M RunRecorder A → M (CertificationWorld D) A :=
  zoom wo_recorder (λ r w, World (wo_driver w) r (wo_reports w)).
Definition on_reports {A} : M ReportStore A → M (CertificationWorld D) A :=
  zoom wo_reports (λ r w, World (wo_driver w) (wo_recorder w) r).

(** The milliseconds that a case takes. *)
Context (elapsed : CertificationScenario → Z).

(** The failures of a trace in a run of [driver]. *)
Definition case_failures driver (run_id : string) (suite : CertificationSuite)
    (scenario : CertificationScenario) (t : CertificationTrace) : list string :=
  sorted_set (evaluate t
    ++ when (negb (String.eqb (tr_run_id t) run_id))
         "trace run_id does not match certification run"
    ++ when (negb (String.eqb (tr_adapter_binding_ref t) (dr_adapter_binding_ref driver)))
         "driver changed adapter binding"
    ++ when (su_per_case_timeout_seconds suite * 1000 <? elapsed scenario)
         "certification case exceeded its execution timeout").

Definition case_result driver run_id suite scenario (t : CertificationTrace)
    : res CertificationCaseResult :=
  let failures := case_failures driver run_id suite scenario t in
  case_post_init
    {| cr_scenario := scenario;
       cr_status := if bool_decide (failures = []) then CASE_PASSED else CASE_FAILED;
       cr_trace_id := Some (tr_trace_id t); cr_failures := failures;
       cr_duration_ms := elapsed scenario;
       cr_event_count := Z.of_nat (length (tr_events t)) |}.

(** One iteration of the loop, its [except Exception] included; [recorded]
    says whether a recorder was given. *)
Definition run_case driver (recorded : bool) (run_id : string) (suite : CertificationSuite)
    (scenario : CertificationScenario) : M (CertificationWorld D) CertificationCaseResult :=
  catch (λ _, true)
    (t ← on_driver (dr_execute_case driver run_id scenario);
     _ ← (if recorded then on_recorder (record_trace t) else mret tt);
     lift (case_result driver run_id suite scenario t))
    (λ e, lift (case_post_init
       {| cr_scenario := scenario; cr_status := CASE_ERROR; cr_trace_id := None;
          cr_failures := [exn_name (exn_class e) +:+ ": certification case execution failed"];
          cr_duration_ms := elapsed scenario; cr_event_count := 0 |})).

(** [.replace(microsecond=0)] *)
Definition whole_second (t : instant) : instant := seconds (t / 1000000).

(** The report of the cases; [finished] is the clock when the last one ended. *)
Definition build_report driver (run_id manifest_sha : string) (suite : CertificationSuite)
    (start finished : instant) (cases : list CertificationCaseResult) : res CertificationReport :=
  let report id := {| re_report_id := id; re_run_id := run_id; re_suite_id := su_suite_id suite;
    re_suite_version := su_suite_version suite;
    re_adapter_binding_ref := dr_adapter_binding_ref driver;
    re_manifest_payload_sha256 := manifest_sha;
    re_evidence_classification := dr_evidence_classification driver;
    re_status := status_of cases; re_cases := cases; re_started_at := start;
    re_completed_at := Z.max (whole_second finished) start |} in
  id ← report_content_id (report EmptyString);
  report_post_init (report id).

(** [CertificationRunner.run] *)
Definition run driver (recorded : bool) (run_id manifest_sha : string) (suite : CertificationSuite)
    (at_ : option datetime) (clock finished : instant) (local_time : Z → instant)
    : M (CertificationWorld D) CertificationReport :=
  let start := whole_second (registry_instant local_time at_ clock) in
  _ ← (if recorded
       then on_recorder (begin_run run_id (dr_adapter_binding_ref driver) manifest_sha suite start)
       else mret tt);
  cases ← mapM_ (run_case driver recorded run_id suite) (su_scenarios suite);
  report ← lift (build_report driver run_id manifest_sha suite start finished cases);
  _ ← (if recorded then on_recorder (complete_run report) else mret tt);
  mret report.

(** ** [CertificationReportService] and [PartnerCertificationCoordinator] *)
Context {P : Type} `{!SigningKeyProvider P} `{Ed25519}.

Definition sign_and_commit (keys : P) (key : string) (report : CertificationReport) (at_ : instant)
    : M (CertificationWorld D) SignedCertificationReport :=
  _ ← raise_if (bool_decide (re_evidence_classification report = SYNTHETIC_SELF_TEST))
        PermissionError "synthetic self-test reports cannot be signed as partner evidence";
  envelope ← lift (sign_artifact keys PARTNER_CERTIFICATION_REPORT (report_payload report) key at_);
  on_reports (put_report (SignedReport report envelope)).

Definition verify_report (keys : P) (signed : SignedCertificationReport) : res unit :=
  result ← verify_artifact keys (sr_signature signed) (Some PARTNER_CERTIFICATION_REPORT) false;
  _ ← raise_if (negb (valid result)) PermissionError
        ("certification report rejected: " +:+ reason result);
  raise_if (negb (py_eq (PDict (thaw_mapping (payload (sr_signature signed))))
                    (PDict (report_payload (sr_report signed))))) PermissionError
    "certification report object differs from signed payload".

Definition certifiable (m : InstitutionCapabilityManifest) : bool :=
  match de_certification_status (ma_descriptor m) with
  | CONFORMANCE | CERTIFIED => true
  | _ => false
  end.

(** [certify]; [manifest_keys] and [keys] are those of the manifest verifier
    and of the report service. *)
Definition certify (manifest_keys keys : P) (key : string) (run_id : string) driver
    (signed : SignedCapabilityManifest) (at_ : option datetime) (clock finished : instant)
    (local_time : Z → instant) : M (CertificationWorld D) SignedCertificationReport :=
  _ ← lift (verify_manifest manifest_keys signed);
  let m := sm_manifest signed in
  let now := or_now at_ clock in
  active ← lift (is_active_at m now);
  _ ← raise_if (negb active) PermissionError "inactive adapter manifest cannot be certified";
  _ ← raise_if (negb (certifiable m)) PermissionError
        "adapter manifest is not eligible for certification";
  _ ← raise_if (negb (String.eqb (dr_adapter_binding_ref driver) (binding_ref (ma_descriptor m))))
        PermissionError "certification driver does not match the signed adapter version";
  _ ← raise_if (negb (bool_decide (dr_evidence_classification driver = PARTNER_SANDBOX)))
        PermissionError "authoritative certification requires partner sandbox evidence";
  manifest_sha ← lift (str_item (protected (sm_signature signed)) "payload_sha256");
  suite ← lift (suite_for_manifest m);
  report ← run driver true run_id manifest_sha suite (Some now) clock finished local_time;
  sign_and_commit keys key report (re_completed_at report).
End runner.
