(* ===== verification/CertificationFacts.v ===== *)
(** Lemmas about certification: what an evaluation without failures says of a
    trace, and what a run of the certification runner leaves behind. *)

From Stdlib Require Import Ascii String.
From S2P Require Import Prelude.
From S2P Require Import PyBase.
From S2P Require Import PyDict.
From S2P Require Import Bytes.
From S2P Require Import CanonicalJson.
From S2P Require Import CanonicalFacts.
From S2P Require Import Keys.
From S2P Require Import Signatures.
From S2P Require Import Institutions.
From S2P Require Import Certification.
From S2P Require Import CertificationRun.

(** ** Failure lists *)
Lemma when_nil {A} c (x : A) : when c x = [] ↔ c = false.
Proof. by destruct c. Qed.

Lemma bind_nil {A B} (f : A → list B) l : l ≫= f = [] ↔ ∀ x, x ∈ l → f x = [].
Proof.
  induction l as [|x l IH]; [split; [intros _ x Hx; by apply elem_of_nil in Hx|done]|].
  change ((x :: l) ≫= f) with (f x ++ (l ≫= f)). rewrite app_nil, IH. split.
  - intros [Hx Hl] y [->|Hy]%elem_of_cons; auto.
  - intros Hall. split; [apply Hall; left|]. intros y Hy. apply Hall. by right.
Qed.

Lemma sorted_set_nil l : sorted_set l = [] ↔ l = [].
Proof.
  unfold sorted_set. split; [|by intros ->]. intros Hs.
  assert (remove_dups l = []) as Hr.
  { apply Permutation_nil. rewrite <- Hs. apply py_sorted_perm. }
  destruct l as [|x l]; [done|]. assert (x ∈ remove_dups (x :: l)) as Hx
    by (apply elem_of_remove_dups; left). rewrite Hr in Hx. by apply elem_of_nil in Hx.
Qed.

Lemma several_false {A} `{EqDecision A} (l : list A) :
  several l = false ↔ ∀ x y, x ∈ l → y ∈ l → x = y.
Proof.
  unfold several. rewrite Nat.ltb_ge. split.
  - intros Hl x y Hx Hy. rewrite <- elem_of_remove_dups in Hx, Hy.
    destruct (remove_dups l) as [|a [|b k]]; cbn in Hl; [by apply elem_of_nil in Hx| |lia].
    apply list_elem_of_singleton in Hx, Hy. congruence.
  - intros Hl. pose proof (NoDup_remove_dups l) as Hnd.
    assert (∀ x y, x ∈ remove_dups l → y ∈ remove_dups l → x = y) as Hr
      by (intros x y; rewrite !elem_of_remove_dups; apply Hl).
    destruct (remove_dups l) as [|a [|b k]]; cbn; [lia|lia|].
    apply NoDup_cons in Hnd as [Hn _]. destruct Hn. rewrite (Hr a b) by (by repeat constructor). left.
Qed.

Lemma sorted_py_sorted l : l = py_sorted Z.le l ↔ StronglySorted Z.le l.
Proof.
  split; [intros ->; apply py_sorted_sorted; apply _|]. intros Hs. by rewrite py_sorted_id.
Qed.

Lemma head_filter {A} (Q : A → Prop) `{∀ x, Decision (Q x)} l x :
  head (filter Q l) = Some x ↔
  ∃ i, l !! i = Some x ∧ Q x ∧ ∀ j y, (j < i)%nat → l !! j = Some y → ¬ Q y.
Proof.
  induction l as [|a l IH]; [cbn; split; [done|by intros (i & Hi & _)]|].
  rewrite filter_cons. case_decide as Ha.
  - cbn. split; [intros [= <-]; exists 0%nat; split; [done|]; split; [done|lia]|].
    intros ([|i] & Hi & _ & Hmin); [exact Hi|]. destruct (Hmin 0%nat a ltac:(lia) eq_refl Ha).
  - rewrite IH. split; intros (i & Hi & Hx & Hmin).
    + exists (S i). split; [done|]. split; [done|]. intros [|j] y Hj Hy; [by injection Hy as <-|].
      apply (Hmin j); [lia|done].
    + destruct i as [|i]; [cbn in Hi; by simplify_eq|]. exists i. split; [done|]. split; [done|].
      intros j y Hj Hy. apply (Hmin (S j)); [lia|done].
Qed.

(** ** What a trace says *)
Implicit Types (t : CertificationTrace) (e : CertificationTraceEvent) (k : TraceEventType).

Definition has t k : Prop := ∃ e, e ∈ tr_events t ∧ ev_event_type e = k.

(** Every [b] comes after some [a], when there is any [a]. *)
Definition before t (a b : TraceEventType) : Prop :=
  has t a → ∀ j e, tr_events t !! j = Some e → ev_event_type e = b →
  ∃ i e', (i < j)%nat ∧ tr_events t !! i = Some e' ∧ ev_event_type e' = a.

(** The trace of a run that behaved: the expectations of its scenario, and
    what every scenario asks for. *)
Record conforms t : Prop := {
  cf_exact : ∀ k n, (k, n) ∈ ex_exact (EXPECTATIONS (tr_scenario t)) → count t k = n;
  cf_minimum : ∀ k n, (k, n) ∈ ex_minimum (EXPECTATIONS (tr_scenario t)) → n <= count t k;
  cf_forbidden : ∀ k, k ∈ ex_forbidden (EXPECTATIONS (tr_scenario t)) → ¬ has t k;
  cf_order : ∀ a b, (a, b) ∈ ex_ordered (EXPECTATIONS (tr_scenario t)) → before t a b;
  cf_scopes : ∀ scope, scope ∈ ex_required_scopes (EXPECTATIONS (tr_scenario t)) →
    ∃ e, e ∈ tr_events t ∧ is_history_read e = true ∧
      dget (ev_metadata e) "actor_scope" = Some scope;
  cf_times : StronglySorted Z.le (ev_occurred_at <$> tr_events t);
  cf_one_utt : ∀ e e' u u', e ∈ tr_events t → e' ∈ tr_events t →
    ev_utt_id e = Some u → ev_utt_id e' = Some u' → u = u';
  cf_rtt_has_utt : has t RTT_CREATED → has t UTT_CREATED;
  cf_success_has_evidence : has t RTT_SUCCEEDED → has t EXTERNAL_EVIDENCE_VERIFIED;
  cf_evidence_hashed : ∀ e, e ∈ tr_events t → ev_event_type e = EXTERNAL_EVIDENCE_VERIFIED →
    is_Some (ev_evidence_sha256 e);
  cf_final_has_success : has t PLAN_FINALIZED → has t RTT_SUCCEEDED;
  cf_sms_has_final : has t SMS_PREPARED → has t PLAN_FINALIZED;
  cf_no_blind_redispatch : has t TE_OUTCOME_UNKNOWN → count t PROVIDER_DISPATCHED <= 1;
  cf_one_rtt : tr_scenario t ≠ UNKNOWN_THEN_RECONCILED → ∀ e e' u u',
    e ∈ tr_events t → e' ∈ tr_events t → ev_rtt_id e = Some u → ev_rtt_id e' = Some u' → u = u';
  cf_distinct : NoDup (ev_event_id <$> tr_events t);
}.

Lemma occurs_has t k : occurs t k = true ↔ has t k.
Proof.
  unfold occurs, count, has. rewrite negb_true_iff, Z.eqb_neq. split.
  - intros Hn. destruct (filter _ _) as [|e l] eqn:Hf; [done|].
    assert (e ∈ e :: l) as He by left. rewrite <- Hf in He. apply list_elem_of_filter in He as [? ?].
    by exists e.
  - intros (e & He & Hk). assert (e ∈ filter (λ e, ev_event_type e = k) (tr_events t)) as Hf
      by (by apply list_elem_of_filter). destruct (filter _ _); [by apply elem_of_nil in Hf|].
    cbn. lia.
Qed.

Lemma occurs_not t k : occurs t k = false ↔ ¬ has t k.
Proof. rewrite <- occurs_has. destruct (occurs t k); split; done. Qed.

Lemma missing_false t a b : occurs t a && negb (occurs t b) = false ↔ (has t a → has t b).
Proof.
  rewrite andb_false_iff, negb_false_iff, occurs_not, occurs_has.
  destruct (occurs t a) eqn:Ha; [apply occurs_has in Ha|apply occurs_not in Ha]; tauto.
Qed.

(** In a trace whose sequence numbers are the positions, comparing the first
    numbers is comparing positions. *)
Definition numbered t : Prop :=
  ev_sequence <$> tr_events t = Z.of_nat <$> seq 1 (length (tr_events t)).

Lemma numbered_at t i e : numbered t → tr_events t !! i = Some e → ev_sequence e = Z.of_nat (S i).
Proof.
  intros Hn Hi. assert ((ev_sequence <$> tr_events t) !! i = Some (ev_sequence e)) as Hs
    by (by rewrite list_lookup_fmap, Hi).
  rewrite Hn, list_lookup_fmap, lookup_seq_lt in Hs by (by eapply lookup_lt_Some).
  cbn in Hs. congruence.
Qed.

Lemma first_sequence_at t k :
  numbered t → has t k → ∃ i e, tr_events t !! i = Some e ∧ ev_event_type e = k ∧
    first_sequence t k = Z.of_nat (S i) ∧
    ∀ j e', (j < i)%nat → tr_events t !! j = Some e' → ev_event_type e' ≠ k.
Proof.
  intros Hn (e & He & Hk). unfold first_sequence.
  destruct (head (filter (λ e, ev_event_type e = k) (tr_events t))) as [f|] eqn:Hh.
  - apply head_filter in Hh as (i & Hi & Hf & Hmin). exists i, f. split; [done|]. split; [done|].
    split; [by apply (numbered_at t)|done].
  - assert (e ∈ filter (λ e, ev_event_type e = k) (tr_events t)) as Hin
      by (by apply list_elem_of_filter).
    destruct (filter _ _); [by apply elem_of_nil in Hin|done].
Qed.

Lemma order_before t a b :
  numbered t →
  occurs t a && occurs t b && (first_sequence t b <=? first_sequence t a) = false ↔ before t a b.
Proof.
  intros Hn. unfold before. destruct (occurs t a) eqn:Ha; [|rewrite occurs_not in Ha; tauto].
  apply occurs_has in Ha. destruct (first_sequence_at t a Hn Ha) as (i & e & Hi & He & -> & Hmin_a).
  destruct (occurs t b) eqn:Hb; cbn [andb].
  - apply occurs_has in Hb.
    destruct (first_sequence_at t b Hn Hb) as (j & f & Hj & Hf & -> & Hmin).
    rewrite Z.leb_gt. split.
    + intros Hlt _ j' f' Hj' Hf'. exists i, e. split; [|done].
      destruct (decide (j' < j)%nat) as [Hbad|]; [by destruct (Hmin j' f' Hbad Hj')|lia].
    + intros Hall. destruct (Hall Ha j f Hj Hf) as (i' & e' & Hlt & Hi' & He').
      destruct (decide (i' < i)%nat) as [Hbad|]; [by destruct (Hmin_a i' e' Hbad Hi')|lia].
  - apply occurs_not in Hb. split; [|done]. intros _ _ j f Hj Hf. destruct Hb. exists f.
    split; [by eapply list_elem_of_lookup_2|done].
Qed.

Lemma scope_exercised t scope :
  Some scope ∈ exercised_scopes t ↔
  ∃ e, e ∈ tr_events t ∧ is_history_read e = true ∧ dget (ev_metadata e) "actor_scope" = Some scope.
Proof.
  unfold exercised_scopes. rewrite list_elem_of_fmap. split.
  - intros (e & Hs & [He Hin]%list_elem_of_filter). by exists e.
  - intros (e & Hin & He & Hs). exists e. split; [done|]. by apply list_elem_of_filter.
Qed.

Lemma one_identity {A} `{EqDecision A} (f : CertificationTraceEvent → option A) l :
  several (omap f l) = false ↔
  ∀ e e' u u', e ∈ l → e' ∈ l → f e = Some u → f e' = Some u' → u = u'.
Proof.
  rewrite several_false. setoid_rewrite list_elem_of_omap. split.
  - intros Hl e e' u u' He He' Hu Hu'. apply Hl; eauto.
  - intros Hl x y (e & He & Hx) (e' & He' & Hy). eauto.
Qed.

Lemma hashed_false t :
  existsb (λ e, bool_decide (ev_event_type e = EXTERNAL_EVIDENCE_VERIFIED)
                && negb (is_some_b (ev_evidence_sha256 e))) (tr_events t) = false ↔
  ∀ e, e ∈ tr_events t → ev_event_type e = EXTERNAL_EVIDENCE_VERIFIED →
    is_Some (ev_evidence_sha256 e).
Proof.
  induction (tr_events t) as [|x l IH]; cbn [existsb];
    [split; [intros _ e He; by apply elem_of_nil in He|done]|].
  rewrite orb_false_iff, IH, andb_false_iff, bool_decide_eq_false, negb_false_iff, is_some_b_spec.
  split.
  - intros [Hx Hl] e [->|He]%elem_of_cons Ht; [by destruct Hx|by apply Hl].
  - intros Hall. split; [|intros e He; apply Hall; by right].
    destruct (decide (ev_event_type x = EXTERNAL_EVIDENCE_VERIFIED)) as [Hx|]; [right|by left].
    apply Hall; [left|done].
Qed.

Lemma exact_nil t x : exact_failures t x = [] ↔ ∀ k n, (k, n) ∈ ex_exact x → count t k = n.
Proof.
  unfold exact_failures. rewrite bind_nil. split.
  - intros Hall k n Hin. specialize (Hall _ Hin). rewrite when_nil in Hall. guards. done.
  - intros Hall [k n] Hin. rewrite when_nil, negb_false_iff, Z.eqb_eq. by apply Hall.
Qed.

Lemma minimum_nil t x : minimum_failures t x = [] ↔ ∀ k n, (k, n) ∈ ex_minimum x → n <= count t k.
Proof.
  unfold minimum_failures. rewrite bind_nil. split.
  - intros Hall k n Hin. specialize (Hall _ Hin). rewrite when_nil in Hall. by guards.
  - intros Hall [k n] Hin. rewrite when_nil, Z.ltb_ge. by apply Hall.
Qed.

Lemma forbidden_nil t x : forbidden_failures t x = [] ↔ ∀ k, k ∈ ex_forbidden x → ¬ has t k.
Proof. unfold forbidden_failures. rewrite bind_nil. by setoid_rewrite when_nil; setoid_rewrite occurs_not. Qed.

Lemma order_nil t x :
  numbered t → order_failures t x = [] ↔ ∀ a b, (a, b) ∈ ex_ordered x → before t a b.
Proof.
  intros Hn. unfold order_failures. rewrite bind_nil. split.
  - intros Hall a b Hin. specialize (Hall _ Hin). rewrite when_nil in Hall. by apply order_before.
  - intros Hall [a b] Hin. rewrite when_nil. by apply order_before, Hall.
Qed.

Lemma scope_nil t x :
  scope_failures t x = [] ↔ ∀ scope, scope ∈ ex_required_scopes x →
    ∃ e, e ∈ tr_events t ∧ is_history_read e = true ∧ dget (ev_metadata e) "actor_scope" = Some scope.
Proof.
  unfold scope_failures. rewrite bind_nil. setoid_rewrite when_nil.
  setoid_rewrite negb_false_iff. setoid_rewrite bool_decide_eq_true. by setoid_rewrite scope_exercised.
Qed.

Lemma redispatch_false t :
  occurs t TE_OUTCOME_UNKNOWN && (1 <? count t PROVIDER_DISPATCHED) = false ↔
  (has t TE_OUTCOME_UNKNOWN → count t PROVIDER_DISPATCHED <= 1).
Proof.
  rewrite andb_false_iff, Z.ltb_ge, occurs_not. rewrite <- occurs_has.
  destruct (occurs t TE_OUTCOME_UNKNOWN); naive_solver.
Qed.

Lemma evaluate_nil t : numbered t → evaluate t = [] ↔ conforms t.
Proof.
  intros Hn. unfold evaluate. cbv zeta. rewrite sorted_set_nil, !app_nil.
  rewrite exact_nil, minimum_nil, forbidden_nil, order_nil, scope_nil by done.
  unfold global_failures. cbv zeta. rewrite !app_nil, !when_nil.
  rewrite !missing_false, redispatch_false, hashed_false, !negb_false_iff, !bool_decide_eq_true.
  rewrite sorted_py_sorted, andb_false_iff, !one_identity, negb_false_iff, bool_decide_eq_true.
  split.
  - intros (? & ? & ? & ? & ? & ? & ? & ? & ? & ? & ? & ? & ? & Hrtt & ?). split; try done.
    intros Hne. by destruct Hrtt.
  - intros []. split_and!; try done.
    destruct (decide (tr_scenario t = UNKNOWN_THEN_RECONCILED)); [by right|left; intros e e' u u'; eauto].
Qed.

(** ** Runs *)
(** The recorder forgets no trace. *)
Definition keeps_traces (s s' : RunRecorder) : Prop :=
  ∀ key t, dget (rr_traces s) key = Some t → dget (rr_traces s') key = Some t.
#[export] Instance keeps_traces_po : PreOrder keeps_traces.
Proof. split; [by intros s key t|]. intros s1 s2 s3 H12 H23 key t Ht. auto. Qed.

Lemma record_trace_run t s x s' :
  record_trace t s = (x, s') →
  keeps_traces s s' ∧ rr_runs s' = rr_runs s ∧
  (x = Ok tt → dget (rr_traces s') (tr_run_id t, tr_scenario t) = Some t).
Proof.
  unfold record_trace, dmem. intros Hr. run_paths; guards; subst; cbn in *;
    (split; [|split; [done|]]); try done; try (intros _; apply dget_dset_eq).
  all: intros key u Hu; cbn; rewrite dget_dset; case_decide; subst; congruence.
Qed.

Section runs.
Context {D : Type} (elapsed : CertificationScenario → Z).
Implicit Types (w : CertificationWorld D) (driver : PartnerDriver D).

(** A case that passed was judged on a recorded trace. *)
Definition case_backed driver (run_id : string) (suite : CertificationSuite) (s : RunRecorder)
    (c : CertificationCaseResult) : Prop :=
  cr_status c = CASE_PASSED →
  ∃ t, dget (rr_traces s) (run_id, tr_scenario t) = Some t ∧ cr_trace_id c = Some (tr_trace_id t) ∧
    evaluate t = [] ∧ tr_run_id t = run_id ∧
    tr_adapter_binding_ref t = dr_adapter_binding_ref driver ∧
    cr_duration_ms c <= su_per_case_timeout_seconds suite * 1000.

Lemma case_backed_keeps driver run_id suite s s' c :
  keeps_traces s s' → case_backed driver run_id suite s c → case_backed driver run_id suite s' c.
Proof. intros Hk Hc Hp. destruct (Hc Hp) as (t & Ht & Hrest). exists t. split; [by apply Hk|done]. Qed.

Lemma case_failures_nil driver run_id suite scenario t :
  case_failures elapsed driver run_id suite scenario t = [] →
  evaluate t = [] ∧ tr_run_id t = run_id ∧
  tr_adapter_binding_ref t = dr_adapter_binding_ref driver ∧
  elapsed scenario <= su_per_case_timeout_seconds suite * 1000.
Proof. unfold case_failures. rewrite sorted_set_nil, !app_nil, !when_nil. intros. destruct_and!. by guards. Qed.

Lemma case_post_init_ok c c' : case_post_init c = Ok c' → c' = c.
Proof. unfold case_post_init. intros Hc. by inv_ok Hc. Qed.

(** What a case may do to the world besides what the driver does to its own. *)
Definition case_effect w w' : Prop :=
  keeps_traces (wo_recorder w) (wo_recorder w') ∧ rr_runs (wo_recorder w') = rr_runs (wo_recorder w) ∧
  wo_reports w' = wo_reports w.
#[local] Instance case_effect_po : PreOrder case_effect.
Proof.
  split; [by intros w|]. intros w1 w2 w3 (H1 & H2 & H3) (H4 & H5 & H6).
  split; [by etrans|]. split; congruence.
Qed.

Definition case_body driver run_id suite scenario : M (CertificationWorld D) CertificationCaseResult :=
  t ← on_driver (dr_execute_case driver run_id scenario);
  _ ← on_recorder (record_trace t);
  lift (case_result elapsed driver run_id suite scenario t).

Lemma case_body_run driver run_id suite scenario w x w' :
  case_body driver run_id suite scenario w = (x, w') →
  case_effect w w' ∧ ∀ c, x = Ok c → cr_scenario c = scenario ∧
    case_backed driver run_id suite (wo_recorder w') c.
Proof.
  unfold case_body. unfold mbind at 1, M_bind, on_driver, zoom.
  destruct (dr_execute_case driver run_id scenario (wo_driver w)) as [[t|e] d]; [|intros [= <- <-]; done].
  unfold mbind at 1, M_bind, on_recorder, zoom. cbn [wo_recorder].
  destruct (record_trace t (wo_recorder w)) as [y s] eqn:Hrec.
  apply record_trace_run in Hrec as (Hkeep & Hruns & Ht).
  destruct y as [[]|e]; [|intros [= <- <-]; done]. specialize (Ht eq_refl).
  unfold lift. intros [= <- <-]. split; [done|]. intros c Hc. unfold case_result in Hc. cbv zeta in Hc.
  apply case_post_init_ok in Hc as ->. split; [done|]. unfold case_backed. cbn.
  case_bool_decide as Hnil; [|done]. intros _.
  apply case_failures_nil in Hnil as (Hev & Hid & Hb & Hel). exists t. rewrite Hid in Ht. done.
Qed.

Lemma run_case_ok driver run_id suite scenario w c w' :
  run_case elapsed driver true run_id suite scenario w = (Ok c, w') →
  case_effect w w' ∧ cr_scenario c = scenario ∧ case_backed driver run_id suite (wo_recorder w') c.
Proof.
  unfold run_case, catch.
  change (on_driver (dr_execute_case driver run_id scenario) ≫= _)
    with (case_body driver run_id suite scenario).
  destruct (case_body driver run_id suite scenario w) as [[c'|e] w1] eqn:Hb;
    apply case_body_run in Hb as [Heff Hc].
  - intros [= <- <-]. split; [done|]. by apply Hc.
  - unfold lift. intros [= Hp <-]. split; [done|]. apply case_post_init_ok in Hp as ->.
    split; [done|]. by intros [=].
Qed.

Lemma run_cases_ok driver run_id suite scenarios w cases w' :
  mapM_ (run_case elapsed driver true run_id suite) scenarios w = (Ok cases, w') →
  case_effect w w' ∧ cr_scenario <$> cases = scenarios ∧
  Forall (case_backed driver run_id suite (wo_recorder w')) cases.
Proof.
  revert w cases. induction scenarios as [|scenario scenarios IH]; intros w cases Hrun; cbn in Hrun.
  { inv_ok Hrun. done. }
  inv_ok Hrun.
  match goal with Hc : run_case _ _ _ _ _ _ _ = _ |- _ => apply run_case_ok in Hc as (Heff & <- & Hback) end.
  match goal with Hm : mapM_ _ _ _ = _ |- _ => apply IH in Hm as (Heff' & <- & Hall) end.
  split; [by etrans|]. split; [done|]. apply Forall_cons. split; [|done].
  eapply case_backed_keeps; [apply Heff'|done].
Qed.

Lemma report_post_init_ok r r' :
  report_post_init r = Ok r' → r' = r ∧ re_status r = status_of (re_cases r) ∧
    NoDup (cr_scenario <$> re_cases r) ∧ re_cases r ≠ [] ∧ re_started_at r <= re_completed_at r ∧
    report_content_id r = Ok (re_report_id r).
Proof.
  unfold report_post_init. intros Hr. inv_ok Hr. guards. subst. split; [done|]. split; [done|].
  split; [done|]. split; [done|]. split; [done|]. congruence.
Qed.

Lemma begin_run_ok run_id ref manifest_sha suite started s u s' :
  begin_run run_id ref manifest_sha suite started s = (Ok u, s') →
  dget (rr_runs s) run_id = None ∧ rr_traces s' = rr_traces s.
Proof.
  intros Hb. unfold begin_run in Hb. cbv zeta in Hb. inv_ok Hb.
  destruct (dget (rr_runs _) run_id); [|by inv_ok Hb]. by destruct (negb _); inv_ok Hb.
Qed.

Lemma complete_run_ok r s u s' :
  complete_run r s = (Ok u, s') →
  rr_traces s' = rr_traces s ∧
  ∃ run, dget (rr_runs s') (re_run_id r) = Some run ∧
    ru_status run = CertificationStatus_value (re_status r) ∧
    ru_report run = Some (re_report_id r, re_completed_at r).
Proof.
  intros Hc. unfold complete_run in Hc. inv_ok Hc.
  destruct (dget (rr_runs _) _) as [run|]; inv_ok Hc. split; [done|].
  eexists. cbn. by rewrite dget_dset_eq.
Qed.

Lemma on_recorder_run {A} (m : M RunRecorder A) w x w' :
  on_recorder m w = (x, w') →
  m (wo_recorder w) = (x, wo_recorder w') ∧ wo_reports w' = wo_reports w.
Proof. intros (s & Hm & ->)%zoom_run. done. Qed.

(** A recorded run that returned its report. *)
Lemma run_ok driver run_id manifest_sha suite at_ clock finished local_time w r w' :
  run elapsed driver true run_id manifest_sha suite at_ clock finished local_time w = (Ok r, w') →
  re_run_id r = run_id ∧ re_suite_id r = su_suite_id suite ∧
  re_suite_version r = su_suite_version suite ∧
  re_adapter_binding_ref r = dr_adapter_binding_ref driver ∧
  re_manifest_payload_sha256 r = manifest_sha ∧
  re_evidence_classification r = dr_evidence_classification driver ∧
  re_status r = status_of (re_cases r) ∧ cr_scenario <$> re_cases r = su_scenarios suite ∧
  NoDup (su_scenarios suite) ∧ re_started_at r <= re_completed_at r ∧
  report_content_id r = Ok (re_report_id r) ∧
  Forall (case_backed driver run_id suite (wo_recorder w')) (re_cases r) ∧
  dget (rr_runs (wo_recorder w)) run_id = None ∧ wo_reports w' = wo_reports w ∧
  keeps_traces (wo_recorder w) (wo_recorder w') ∧
  ∃ record, dget (rr_runs (wo_recorder w')) run_id = Some record ∧
    ru_status record = CertificationStatus_value (re_status r) ∧
    ru_report record = Some (re_report_id r, re_completed_at r).
Proof.
  intros Hrun. unfold run in Hrun. cbv zeta in Hrun. inv_ok Hrun.
  match goal with Hb : on_recorder (begin_run _ _ _ _ _) _ = _ |- _ =>
    apply on_recorder_run in Hb as [[Hnew Htr]%begin_run_ok Hrep] end.
  match goal with Hm : mapM_ _ _ _ = _ |- _ =>
    apply run_cases_ok in Hm as ((Hkeep & _ & Hrep') & Hscen & Hback) end.
  match goal with Hc : on_recorder (complete_run _) _ = _ |- _ =>
    apply on_recorder_run in Hc as [(Htr' & Hrun)%complete_run_ok Hrep''] end.
  match goal with Hr : build_report _ _ _ _ _ _ _ = Ok ?r |- _ =>
    unfold build_report in Hr; cbv zeta in Hr; inv_ok Hr;
    apply report_post_init_ok in Hr as (-> & Hst & Hnd & _ & Hle & Hid) end.
  cbn in *. rewrite Hscen in Hnd. split_and!; try done.
  - eapply Forall_impl; [exact Hback|]. intros c. apply case_backed_keeps.
    intros key t Ht. by rewrite Htr'.
  - congruence.
  - intros key t Ht. rewrite Htr'. apply Hkeep. by rewrite Htr.
Qed.
End runs.
