(* ===== verification/CertificationClaims.v ===== *)
(** What a certification report is worth: what it means that a trace has no
    failures, and what a signed report says of the manifest, the driver and
    the traces it was made from. *)

From Stdlib Require Import Ascii String.
From S2P Require Import Prelude.
From S2P Require Import PyBase.
From S2P Require Import PyDict.
From S2P Require Import Bytes.
From S2P Require Import CanonicalJson.
From S2P Require Import CanonicalFacts.
From S2P Require Import Keys.
From S2P Require Import Signatures.
From S2P Require Import Contracts.
From S2P Require Import OperationsStore.
From S2P Require Import Operations.
From S2P Require Import PyText.
From S2P Require Import Institutions.
From S2P Require Import InstitutionClaims.
From S2P Require Import Certification.
From S2P Require Import CertificationRun.
From S2P Require Import CertificationFacts.

(** A trace that was constructed is numbered by position. *)
Lemma trace_post_init_numbered t t' : trace_post_init t = Ok t' → numbered t ∧ t' = t.
Proof. unfold trace_post_init. intros Ht. inv_ok Ht. by guards. Qed.

(** C38 The evaluator is exact: for a constructed trace, the list of failures
    is empty exactly when the trace meets its scenario's expectations (counts,
    forbidden kinds, order over positions, history scopes) and the demands on
    every trace: ordered timestamps, one UTT, one RTT (but for the unknown
    outcome scenario), hashed evidence before success counts, no plan without
    success, no message without a final plan, no dispatch repeated after an
    unknown outcome, distinct events. *)
Theorem trace_conforms t t' : trace_post_init t = Ok t' → evaluate t' = [] ↔ conforms t'.
Proof. intros [Hn ->]%trace_post_init_numbered. by apply evaluate_nil. Qed.

Section claims.
Context {D P : Type} `{!SigningKeyProvider P} `{Ed25519}.
Context (elapsed : CertificationScenario → Z).
Implicit Types (w : CertificationWorld D) (driver : PartnerDriver D) (keys : P).

Lemma put_report_ok signed reports signed' reports' :
  put_report signed reports = (Ok signed', reports') →
  signed' = signed ∧ dget reports' (re_report_id (sr_report signed)) = Some signed ∧
  ∀ id old, dget reports id = Some old → dget reports' id = Some old.
Proof.
  intros Hp. unfold put_report in Hp. cbv zeta in Hp. inv_ok Hp. guards.
  split; [done|]. split; [apply dget_dset_eq|]. intros id old Hold. rewrite dget_dset.
  case_decide as Heq; [|done]. rewrite Heq, Hold in *. guards. congruence.
Qed.

Lemma sign_and_commit_ok keys key r at_ w signed w' :
  sign_and_commit keys key r at_ w = (Ok signed, w') →
  sr_report signed = r ∧ re_evidence_classification r = PARTNER_SANDBOX ∧
  sign_artifact keys PARTNER_CERTIFICATION_REPORT (report_payload r) key at_
  = Ok (sr_signature signed) ∧
  wo_recorder w' = wo_recorder w ∧ dget (wo_reports w') (re_report_id r) = Some signed ∧
  ∀ id old, dget (wo_reports w) id = Some old → dget (wo_reports w') id = Some old.
Proof.
  intros Hs. unfold sign_and_commit in Hs. inv_ok Hs. guards.
  match goal with Hp : on_reports _ _ = _ |- _ =>
    apply zoom_run in Hp as (reports & (-> & Hget & Hkeep)%put_report_ok & ->) end.
  split_and!; try done. by destruct (re_evidence_classification r).
Qed.

(** The case of a report that passed, against the recorder. *)
Definition evidence_for driver (run_id : string) (s : RunRecorder) (c : CertificationCaseResult)
    : Prop :=
  ∃ t, dget (rr_traces s) (run_id, tr_scenario t) = Some t ∧ cr_trace_id c = Some (tr_trace_id t) ∧
    tr_run_id t = run_id ∧ tr_adapter_binding_ref t = dr_adapter_binding_ref driver ∧
    evaluate t = [] ∧ (trace_post_init t = Ok t → conforms t).

Lemma status_of_passed cases :
  status_of cases = CERT_PASSED ↔ ∀ c, c ∈ cases → cr_status c = CASE_PASSED.
Proof.
  unfold status_of. destruct (forallb passed cases) eqn:Hall.
  - split; [|done]. intros _ c Hc. rewrite forallb_forall in Hall.
    apply list_elem_of_In, Hall in Hc. unfold passed in Hc. by guards.
  - split; [done|]. intros Hc. assert (forallb passed cases = true); [|congruence].
    apply forallb_forall. intros c Hin%list_elem_of_In. unfold passed. by rewrite Hc.
Qed.

(** C16 A signed report is authentic: when certification returns one, the
    manifest was verified, active and certifiable, the driver ran the signed
    adapter version in the partner's sandbox, and the report carries its
    binding reference and the hash that the manifest's signature protects; the
    run was new and is now recorded as completed by this report; the report
    has one case for each scenario of the manifest's suite, it passed exactly
    when all of them did, and a case that passed is backed by a recorded trace
    of this run and adapter without failures; the envelope signs the report's
    payload, and the report is stored, no stored one replaced. *)
Theorem certification_authentic manifest_keys keys key run_id driver signed at_ clock finished
    local_time w report w' :
  certify elapsed manifest_keys keys key run_id driver signed at_ clock finished local_time w
  = (Ok report, w') →
  let m := sm_manifest signed in
  let r := sr_report report in
  (verify_manifest manifest_keys signed = Ok tt ∧ is_active_at m (or_now at_ clock) = Ok true ∧
   certifiable m = true) ∧
  (dr_adapter_binding_ref driver = binding_ref (ma_descriptor m) ∧
   dr_evidence_classification driver = PARTNER_SANDBOX ∧
   re_run_id r = run_id ∧ re_adapter_binding_ref r = binding_ref (ma_descriptor m) ∧
   re_evidence_classification r = PARTNER_SANDBOX ∧
   str_item (protected (sm_signature signed)) "payload_sha256" = Ok (re_manifest_payload_sha256 r)) ∧
  (dget (rr_runs (wo_recorder w)) run_id = None ∧
   ∃ record, dget (rr_runs (wo_recorder w')) run_id = Some record ∧
     ru_status record = CertificationStatus_value (re_status r) ∧
     ru_report record = Some (re_report_id r, re_completed_at r)) ∧
  (∃ suite, suite_for_manifest m = Ok suite ∧ NoDup (su_scenarios suite) ∧
     cr_scenario <$> re_cases r = su_scenarios suite) ∧
  (re_status r = CERT_PASSED ↔ ∀ c, c ∈ re_cases r → cr_status c = CASE_PASSED) ∧
  (∀ c, c ∈ re_cases r → cr_status c = CASE_PASSED →
     evidence_for driver run_id (wo_recorder w') c) ∧
  (sign_artifact keys PARTNER_CERTIFICATION_REPORT (report_payload r) key (re_completed_at r)
   = Ok (sr_signature report) ∧
   report_content_id r = Ok (re_report_id r) ∧
   dget (wo_reports w') (re_report_id r) = Some report ∧
   ∀ id old, dget (wo_reports w) id = Some old → dget (wo_reports w') id = Some old).
Proof.
  intros Hc. cbv zeta. unfold certify in Hc. cbv zeta in Hc. inv_ok Hc. guards. destruct_all unit.
  match goal with Hr : run _ _ _ _ _ _ _ _ _ _ _ = _ |- _ =>
    apply run_ok in Hr as (Hid & _ & _ & Href & Hsha & Hev & Hst & Hscen & Hnd & _ & Hcid & Hback
      & Hnew & Hrep & _ & Hrec) end.
  match goal with Hs : sign_and_commit _ _ _ _ _ = _ |- _ =>
    apply sign_and_commit_ok in Hs as (-> & Hsandbox & Hsig & Hrr & Hget & Hkeep) end.
  rewrite Hrr in *. rewrite Hrep in Hkeep.
  split_and!; try done; try congruence.
  - eexists. split_and!; done.
  - rewrite Hst. apply status_of_passed.
  - intros c Hin Hp. rewrite Forall_forall in Hback.
    destruct (Hback c Hin Hp) as (t & Ht & Htid & Heval & Hrun & Href' & _). exists t.
    split_and!; try done. intros [Hn _]%trace_post_init_numbered. by apply evaluate_nil.
Qed.
End claims.

(** ** Demonstration data: a sandbox driver for the first bank *)
Module DemoCertification.
Import ToyEd25519 DemoContracts DemoInstitutions.

Definition demo_event (scenario : CertificationScenario) (i : nat)
    (k : TraceEventType * list (string * string)) : CertificationTraceEvent :=
  {| ev_event_id := EmptyString; ev_scenario := scenario; ev_event_type := k.1;
     ev_occurred_at := seconds 200; ev_sequence := Z.of_nat (S i);
     ev_adapter_binding_ref := "BANK1@1.2.0"; ev_utt_id := Some "UTT-1"; ev_rtt_id := None;
     ev_evidence_sha256 := Some (String.concat EmptyString (replicate 64 "a"));
     ev_metadata := k.2 |}.
Definition demo_trace (scenario : CertificationScenario)
    (kinds : list (TraceEventType * list (string * string))) : res CertificationTrace :=
  events ← mapM event_create (imap (demo_event scenario) kinds);
  trace_create {| tr_trace_id := EmptyString; tr_run_id := "RUN-1"; tr_scenario := scenario;
    tr_adapter_binding_ref := "BANK1@1.2.0"; tr_started_at := seconds 200;
    tr_completed_at := seconds 201; tr_events := events |}.

Definition plain (k : TraceEventType) : TraceEventType * list (string * string) := (k, []).
Definition read_as (scope : string) : TraceEventType * list (string * string) :=
  (HISTORY_READ_ALLOWED, [("actor_scope", scope)]).
Definition payment : list TraceEventType :=
  [UTT_CREATED; RTT_CREATED; ADAPTER_BINDING_VERIFIED; PROVIDER_DISPATCHED; PROVIDER_ACCEPTED;
   EXTERNAL_EVIDENCE_VERIFIED; RTT_SUCCEEDED; PLAN_FINALIZED; SMS_PREPARED; SMS_PREPARED].
Definition p2p : list (TraceEventType * list (string * string)) :=
  (plain <$> payment) ++ [read_as "SENDER"; read_as "RECEIVER"].
Definition p2p_trace : CertificationTrace := Eval vm_compute in
  from_ok {| tr_trace_id := EmptyString; tr_run_id := EmptyString; tr_scenario := P2P_SETTLED;
             tr_adapter_binding_ref := EmptyString; tr_started_at := 0; tr_completed_at := 0;
             tr_events := [] |} (demo_trace P2P_SETTLED p2p).

(** A driver that executes a payment for [P2P_SETTLED] and no other case. *)
Definition one_case : PartnerDriver nat :=
  {| dr_adapter_binding_ref := "BANK1@1.2.0"; dr_evidence_classification := PARTNER_SANDBOX;
     dr_execute_case _ scenario := λ n,
       (if bool_decide (scenario = P2P_SETTLED) then Ok p2p_trace
        else Err (Exn RuntimeError "not supported"), S n) |}.
(** A driver that returns the payment's trace, whatever is asked for. *)
Definition replaying : PartnerDriver nat :=
  {| dr_adapter_binding_ref := "BANK1@1.2.0"; dr_evidence_classification := PARTNER_SANDBOX;
     dr_execute_case _ _ := λ n, (Ok p2p_trace, S n) |}.

Definition demo_world : CertificationWorld nat := World 0%nat no_runs [].
Definition demo_certify (driver : PartnerDriver nat) :=
  certify (λ _, 5) demo_keys demo_keys "KX" "RUN-1" driver signed1 None (seconds 200) (seconds 260)
    (λ us, us) demo_world.

Definition no_report : SignedCertificationReport :=
  SignedReport {| re_report_id := EmptyString; re_run_id := EmptyString; re_suite_id := EmptyString;
    re_suite_version := EmptyString; re_adapter_binding_ref := EmptyString;
    re_manifest_payload_sha256 := EmptyString; re_evidence_classification := SYNTHETIC_SELF_TEST;
    re_status := CERT_FAILED; re_cases := []; re_started_at := 0; re_completed_at := 0 |} no_envelope.
Definition one_report : SignedCertificationReport := Eval vm_compute in
  from_ok no_report (demo_certify one_case).1.
Definition one_world : CertificationWorld nat := Eval vm_compute in (demo_certify one_case).2.
Definition replayed_report : SignedCertificationReport := Eval vm_compute in
  from_ok no_report (demo_certify replaying).1.

(** A duplicated callback where the messages go out before the plan is final. *)
Definition early_sms : CertificationTrace := Eval vm_compute in
  from_ok p2p_trace (demo_trace DUPLICATE_CALLBACK_EXACTLY_ONCE
    (plain <$> [CALLBACK_ACCEPTED; CALLBACK_ACCEPTED; SMS_PREPARED; SMS_PREPARED;
                EXTERNAL_EVIDENCE_VERIFIED; RTT_SUCCEEDED; PLAN_FINALIZED])).
End DemoCertification.
Import ToyEd25519 DemoContracts DemoInstitutions DemoCertification.

(** The payment's trace conforms: its messages come after the final plan. *)
Lemma trace_conforms_witness :
  evaluate p2p_trace = [] ∧ conforms p2p_trace ∧ before p2p_trace PLAN_FINALIZED SMS_PREPARED.
Proof.
  assert (evaluate p2p_trace = []) as He by (vm_compute; reflexivity).
  assert (trace_post_init p2p_trace = Ok p2p_trace) as Hp by (vm_compute; reflexivity).
  pose proof (proj1 (trace_conforms p2p_trace p2p_trace Hp) He) as Hc.
  split; [exact He|]. split; [exact Hc|]. apply (cf_order _ Hc). vm_compute.
  apply list_elem_of_In. vm_compute. tauto.
Defined.

Lemma one_certified : demo_certify one_case = (Ok one_report, one_world).
Proof. vm_compute. reflexivity. Qed.

(** One case passed, on a recorded trace that conforms; the report did not. *)
Lemma certification_authentic_witness :
  demo_certify one_case = (Ok one_report, one_world) ∧
  re_status (sr_report one_report) = CERT_FAILED ∧
  dget (wo_reports one_world) (re_report_id (sr_report one_report)) = Some one_report ∧
  ∃ c, c ∈ re_cases (sr_report one_report) ∧ cr_scenario c = P2P_SETTLED ∧
    evidence_for one_case "RUN-1" (wo_recorder one_world) c.
Proof.
  split; [exact one_certified|]. split; [reflexivity|].
  destruct (certification_authentic (λ _, 5) demo_keys demo_keys "KX" "RUN-1" one_case signed1 None
    (seconds 200) (seconds 260) (λ us, us) demo_world one_report one_world one_certified)
    as (_ & _ & _ & _ & _ & Hback & _ & _ & Hget & _).
  split; [exact Hget|].
  exists (default (Build_CertificationCaseResult P2P_SETTLED CASE_ERROR None [] 0 0)
            (head (re_cases (sr_report one_report)))).
  split; [left|]. split; [reflexivity|]. apply Hback; [left|reflexivity].
Defined.

(** The runner does not ask which scenario a trace is of: one payment, replayed
    for every case, certifies the adapter. *)
Lemma replayed_trace_passes :
  (demo_certify replaying).1 = Ok replayed_report ∧
  re_status (sr_report replayed_report) = CERT_PASSED ∧
  cr_scenario <$> re_cases (sr_report replayed_report)
  = su_scenarios (from_ok pilot_v1 (suite_for_manifest bank1)) ∧
  Forall (λ c, cr_trace_id c = Some (tr_trace_id p2p_trace)) (re_cases (sr_report replayed_report)).
Proof.
  split; [vm_compute; reflexivity|]. split; [reflexivity|]. split; [reflexivity|].
  vm_compute. repeat constructor.
Qed.

(** The evaluator asks only that a plan was finalised at some time. *)
Lemma early_sms_passes :
  trace_post_init early_sms = Ok early_sms ∧ evaluate early_sms = [] ∧
  ¬ before early_sms PLAN_FINALIZED SMS_PREPARED.
Proof.
  split; [vm_compute; reflexivity|]. split; [vm_compute; reflexivity|].
  intros Hb. destruct (tr_events early_sms !! 2%nat) as [e|] eqn:He; [|discriminate].
  assert (ev_event_type e = SMS_PREPARED) as Hk by (injection He as <-; reflexivity).
  destruct (Hb ltac:(apply occurs_has; vm_compute; reflexivity) 2%nat e He Hk)
    as (i & f & Hi & Hf & Hfk).
  destruct i as [|[|i]]; [| |lia]; injection Hf as <-; discriminate Hfk.
Qed.
