(* ===== verification/Sandbox.v ===== *)
(** [railone_sandbox]: the simulated providers of the pilot.  A broker answers
    a submission by its scenario and schedules the effects that a provider
    would have ([effects.py]); a store with a logical clock leases due effects
    to workers ([store.py]); a worker hands them to a consumer and a supervisor
    watches it ([workers.py]); two adapters put the broker behind
    [Operations.ProviderAdapter] ([providers.py]).  Broker and workers share
    one metrics registry, as [deployment.py] composes them. *)

From Stdlib Require Import Ascii String.
From S2P Require Import Prelude.
From S2P Require Import PyBase.
From S2P Require Import PyDict.
From S2P Require Import Bytes.
From S2P Require Import Sha256.
From S2P Require Import CanonicalJson.
From S2P Require Import PyText.
From S2P Require Import OperationsStore.
From S2P Require Import Operations.

(** ** [models.py] *)
Inductive EffectScenario :=
  | EFFECT_SUCCESS | EFFECT_REJECTED_RETRYABLE | EFFECT_REJECTED_TERMINAL
  | UNKNOWN_AFTER_SEND | TIMEOUT_THEN_SUCCESS.
#[global] Instance EffectScenario_eq_dec : EqDecision EffectScenario.
Proof. solve_decision. Defined.
Definition EffectScenario_value (s : EffectScenario) : string :=
  match s with
  | EFFECT_SUCCESS => "SUCCESS" | EFFECT_REJECTED_RETRYABLE => "REJECTED_RETRYABLE"
  | EFFECT_REJECTED_TERMINAL => "REJECTED_TERMINAL" | UNKNOWN_AFTER_SEND => "UNKNOWN_AFTER_SEND"
  | TIMEOUT_THEN_SUCCESS => "TIMEOUT_THEN_SUCCESS"
  end.

Inductive EffectDeliveryState := EFF_PENDING | EFF_IN_FLIGHT | EFF_DELIVERED | EFF_DEAD_LETTER.
#[global] Instance EffectDeliveryState_eq_dec : EqDecision EffectDeliveryState.
Proof. solve_decision. Defined.

Record ScheduledProviderEffect := {
  ef_effect_id : string;
  ef_provider_id : string;
  ef_rtt_id : string;
  ef_external_reference : string;
  ef_effect_type : string;
  ef_provider_code : string;
  ef_due_tick : Z;
  ef_payload : bytes;
}.
#[global] Instance ScheduledProviderEffect_eq_dec : EqDecision ScheduledProviderEffect.
Proof. solve_decision. Defined.

Record ProviderEffectRecord := {
  er_effect : ScheduledProviderEffect;
  er_available_tick : Z;
  er_state : EffectDeliveryState;
  er_delivery_attempts : Z;
  er_lease_owner : option string;
  er_lease_until_tick : option Z;
  er_last_error : option string;
  er_delivered_at_tick : option Z;
  er_version : Z;
}.
Implicit Types (rec : ProviderEffectRecord) (effect : ScheduledProviderEffect).

Definition effect_id rec : string := ef_effect_id (er_effect rec).

(** A record with its defaults. *)
Definition new_effect effect (available : Z) : ProviderEffectRecord :=
  {| er_effect := effect; er_available_tick := available; er_state := EFF_PENDING;
     er_delivery_attempts := 0; er_lease_owner := None; er_lease_until_tick := None;
     er_last_error := None; er_delivered_at_tick := None; er_version := 1 |}.

(** [replace(record, ...)] *)
Definition replace_effect rec (state : EffectDeliveryState) (available attempts : Z)
    (owner : option string) (until : option Z) (error : option string) (delivered : option Z)
    : ProviderEffectRecord :=
  {| er_effect := er_effect rec; er_available_tick := available; er_state := state;
     er_delivery_attempts := attempts; er_lease_owner := owner; er_lease_until_tick := until;
     er_last_error := error; er_delivered_at_tick := delivered; er_version := er_version rec + 1 |}.

(** ** [InMemorySandboxEffectStore] *)
Record EffectStore := Effects {
  es_tick : Z;
  es_records : dict string ProviderEffectRecord;
}.
Implicit Types (s : EffectStore).
Definition no_effects : EffectStore := Effects 0 [].

Definition put_effect (id : string) rec s : EffectStore :=
  Effects (es_tick s) (dset (es_records s) id rec).

Definition schedule_effect rec : M EffectStore ProviderEffectRecord :=
  s ← getS;
  match dget (es_records s) (effect_id rec) with
  | Some existing =>
      _ ← raise_if (negb (bool_decide (er_effect existing = er_effect rec))) RuntimeError
            "sandbox effect identifier collision";
      mret existing
  | None =>
      _ ← putS (put_effect (effect_id rec) rec s);
      mret rec
  end.

(** [_claim_policy] *)
Definition within (name : string) (value hi : Z) : res unit :=
  raise_if (negb ((1 <=? value) && (value <=? hi))) ValueError (name +:+ " is outside policy").
Definition claim_policy (worker : string) (ticks lease limit : Z) : res unit :=
  _ ← raise_if (blank worker) ValueError "sandbox worker_id is required";
  _ ← within "ticks" ticks 1000;
  _ ← within "lease_ticks" lease 1000;
  within "limit" limit 1000.

Definition effect_eligible (tick : Z) rec : bool :=
  match er_state rec with
  | EFF_PENDING => er_available_tick rec <=? tick
  | EFF_IN_FLIGHT =>
      match er_lease_until_tick rec with Some until => until <=? tick | None => false end
  | _ => false
  end.

Definition effect_order rec : Z * string := (er_available_tick rec, effect_id rec).

Definition leased_effect (worker : string) (tick lease : Z) rec : ProviderEffectRecord :=
  replace_effect rec EFF_IN_FLIGHT (er_available_tick rec) (er_delivery_attempts rec + 1)
    (Some worker) (Some (tick + lease)) (er_last_error rec) (er_delivered_at_tick rec).

(** The records that a claim takes at [tick]. *)
Definition effect_selection (tick limit : Z) s : list ProviderEffectRecord :=
  take (Z.to_nat limit) (sort_on effect_order (lex_le Z.le)
    (filter (λ rec, effect_eligible tick rec = true) (dvalues (es_records s)))).

Definition put_effects (recs : list ProviderEffectRecord) s : EffectStore :=
  foldl (λ s rec, put_effect (effect_id rec) rec s) s recs.

Definition advance_and_claim (worker : string) (ticks lease limit : Z)
    : M EffectStore (list ProviderEffectRecord) :=
  _ ← lift (claim_policy worker ticks lease limit);
  s ← getS;
  let tick := es_tick s + ticks in
  let s := Effects tick (es_records s) in
  let claimed := leased_effect worker tick lease <$> effect_selection tick limit s in
  _ ← putS (put_effects claimed s);
  mret claimed.

(** [_require_owned] *)
Definition require_effect s (id worker : string) : res ProviderEffectRecord :=
  rec ← require (dget (es_records s) id) LookupError "sandbox effect was not found";
  _ ← raise_if (negb (bool_decide (er_state rec = EFF_IN_FLIGHT))
                || negb (bool_decide (er_lease_owner rec = Some worker))) PermissionError
        "worker does not own the sandbox effect lease";
  mret rec.

Definition delivered_effect (tick : Z) rec : ProviderEffectRecord :=
  replace_effect rec EFF_DELIVERED (er_available_tick rec) (er_delivery_attempts rec) None None None
    (Some tick).

Definition mark_effect_delivered (id worker : string) : M EffectStore ProviderEffectRecord :=
  s ← getS;
  rec ← lift (require_effect s id worker);
  let updated := delivered_effect (es_tick s) rec in
  _ ← putS (put_effect id updated s);
  mret updated.

Definition rescheduled_effect (tick delay max_attempts : Z) (error : string) rec
    : ProviderEffectRecord :=
  let terminal := max_attempts <=? er_delivery_attempts rec in
  replace_effect rec (if terminal then EFF_DEAD_LETTER else EFF_PENDING)
    (if terminal then er_available_tick rec else tick + delay) (er_delivery_attempts rec) None None
    (Some (char_take 1000 error)) (er_delivered_at_tick rec).

Definition reschedule_effect (id worker : string) (delay : Z) (error : string) (max_attempts : Z)
    : M EffectStore ProviderEffectRecord :=
  _ ← raise_if (blank error || negb ((1 <=? delay) && (delay <=? 100))
                || negb ((1 <=? max_attempts) && (max_attempts <=? 100))) ValueError
        "sandbox effect retry policy is invalid";
  s ← getS;
  rec ← lift (require_effect s id worker);
  let updated := rescheduled_effect (es_tick s) delay max_attempts error rec in
  _ ← putS (put_effect id updated s);
  mret updated.

(** ** [MetricsRegistry] *)
Definition MetricsRegistry : Type := dict (string * list (string * string)) Z.
Definition increment (name : string) (labels : list (string * string)) : M MetricsRegistry unit :=
  _ ← raise_if (str_empty name || existsb (λ kv, str_empty kv.1 || str_empty kv.2) labels)
        ValueError "metric name and labels must be non-empty";
  let key := (name, sort_on fst str_le labels) in
  counters ← getS;
  putS (dset counters key (default 0 (dget counters key) + 1)).

(** ** [json.dumps(..., separators=(",", ":"), sort_keys=True)]

    With [ensure_ascii], every character of a string outside the printable
    ASCII range is an escape; a character beyond the basic plane is two. *)
Definition u_escape (n : Z) : string :=
  String backslash ("u" +:+ String (hex_char (n / 4096)) (String (hex_char (n / 256 mod 16))
    (String (hex_char (n / 16 mod 16)) (String (hex_char (n mod 16)) EmptyString)))).
Definition escape_point (n : Z) : string :=
  if n <? 65536 then u_escape n
  else u_escape (55296 + (n - 65536) / 1024) +:+ u_escape (56320 + (n - 65536) mod 1024).
Definition tail_bits (c : ascii) : Z := code c mod 64.
Fixpoint ascii_text (s : string) : string :=
  match s with
  | EmptyString => EmptyString
  | String c t =>
      if code c <? 127 then String c (ascii_text t)
      else if code c =? 127 then escape_point 127 +:+ ascii_text t
      else match t with
      | String c1 t1 =>
          if code c <? 224 then escape_point (code c mod 32 * 64 + tail_bits c1) +:+ ascii_text t1
          else match t1 with
          | String c2 t2 =>
              if code c <? 240
              then escape_point (code c mod 16 * 4096 + tail_bits c1 * 64 + tail_bits c2)
                   +:+ ascii_text t2
              else match t2 with
              | String c3 t3 =>
                  escape_point (code c mod 8 * 262144 + tail_bits c1 * 4096 + tail_bits c2 * 64
                                + tail_bits c3) +:+ ascii_text t3
              | EmptyString => EmptyString
              end
          | EmptyString => EmptyString
          end
      | EmptyString => EmptyString
      end
  end.
Definition dumps_ascii (v : pyval) : res bytes :=
  _ ← raise_if (negb (printable_ints v)) ValueError
        "Exceeds the limit (4300 digits) for integer string conversion";
  mret (encode_utf8 (ascii_text (json_dumps v))).

(** [prefix + sha256(text.encode()).hexdigest().upper()[:n]] *)
Definition digest_name (prefix : string) (n : nat) (text : bytes) : string :=
  prefix +:+ str_take n (upper (sha256_hex text)).
Definition text_name (prefix : string) (n : nat) (text : string) : res string :=
  b ← utf8_encode text;
  mret (digest_name prefix n b).

(** ** [SandboxEffectBroker] *)
Record SandboxBroker := Broker {
  br_metrics : MetricsRegistry;
  br_scenarios : dict string EffectScenario;
  br_submissions : dict (string * string) (string * ProviderSubmissionResult);
  br_effects : EffectStore;
}.
Implicit Types (q : ProviderExecutionRequest) (b : SandboxBroker).
Definition new_broker : SandboxBroker := Broker [] [] [] no_effects.

Definition on_metrics {A} : M MetricsRegistry A → M SandboxBroker A :=
  zoom br_metrics (λ m b, Broker m (br_scenarios b) (br_submissions b) (br_effects b)).
Definition on_effects {A} : M EffectStore A → M SandboxBroker A :=
  zoom br_effects (λ s b, Broker (br_metrics b) (br_scenarios b) (br_submissions b) s).

(** [set_scenario]: its guard looks for [rtt_id] among the second components
    of the submissions' keys. *)
Definition set_scenario (rtt_id : string) (scenario : EffectScenario) : M SandboxBroker unit :=
  b ← getS;
  _ ← raise_if (existsb (λ key, String.eqb key.2 rtt_id) (br_submissions b).*1) RuntimeError
        "scenario cannot change after provider submission";
  putS (Broker (br_metrics b) (dset (br_scenarios b) rtt_id scenario) (br_submissions b)
          (br_effects b)).

(** [_validate_synthetic] *)
Definition validate_synthetic q : res unit :=
  _ ← raise_if (negb (startswith (pr_provider_id q) "SIM-")
                && negb (bool_decide (pr_provider_id q ∈ ["MPESA-KE"; "BANK-KE"]))) ValueError
        "sandbox provider is outside the allowlist";
  _ ← raise_if (negb (startswith (pr_payer_account_reference q) "SIM-")) PermissionError
        "sandbox refuses non-synthetic payer endpoints";
  raise_if (negb (startswith (pr_beneficiary_account_reference q) "SIM-")) PermissionError
    "sandbox refuses non-synthetic beneficiary endpoints".

Inductive EffectType := TYPE_SETTLED | TYPE_TIMEOUT.
Definition EffectType_value (t : EffectType) : string :=
  match t with TYPE_SETTLED => "SETTLED" | TYPE_TIMEOUT => "TIMEOUT" end.

(** The provider's message about an effect. *)
Definition mpesa_message q (external originator transaction_id : string) (t : EffectType)
    : pyval :=
  let settled := match t with TYPE_SETTLED => true | TYPE_TIMEOUT => false end in
  pdict [("Result", pdict
    [("ResultType", PInt 0); ("ResultCode", PInt (if settled then 0 else 2001));
     ("ResultDesc", PStr (if settled then "Simulated settlement" else "Simulated timeout"));
     ("OriginatorConversationID", PStr originator); ("ConversationID", PStr external);
     ("TransactionID", if settled then PStr transaction_id else PNone);
     ("ResultParameters",
        if settled then pdict [("ResultParameter", PList
          [pdict [("Key", PStr "TransactionAmount"); ("Value", PInt (pr_amount_minor q / 100))];
           pdict [("Key", PStr "TransactionReceipt"); ("Value", PStr transaction_id)]])]
        else PNone)])].
Definition bank_message q (external transaction_id : string) (t : EffectType) : pyval :=
  pdict [("provider", PStr (pr_provider_id q)); ("event", PStr (EffectType_value t));
         ("external_reference", PStr external); ("transaction_id", PStr transaction_id);
         ("rtt_id", PStr (pr_rtt_id q)); ("amount_minor", PInt (pr_amount_minor q));
         ("currency", PStr (pr_currency_from q))].
Definition effect_message q external originator transaction_id t : pyval :=
  if String.eqb (pr_provider_id q) "MPESA-KE"
  then mpesa_message q external originator transaction_id t
  else bank_message q external transaction_id t.

Definition effect_material q (t : EffectType) (offset : Z) : pyval :=
  pdict [("provider", PStr (pr_provider_id q)); ("rtt_id", PStr (pr_rtt_id q));
         ("effect", PStr (EffectType_value t)); ("offset", PInt offset)].

(** [_schedule], at [tick] *)
Definition planned_effect q (external originator : string) (t : EffectType) (offset tick : Z)
    : res ScheduledProviderEffect :=
  transaction_id ← text_name "SIMTX-" 20 (external +:+ ":" +:+ EffectType_value t);
  body ← dumps_ascii (effect_message q external originator transaction_id t);
  material ← canonical_json_bytes (effect_material q t offset);
  mret {| ef_effect_id := digest_name "SIMEFF-" 24 material; ef_provider_id := pr_provider_id q;
          ef_rtt_id := pr_rtt_id q; ef_external_reference := external;
          ef_effect_type := EffectType_value t;
          ef_provider_code := match t with TYPE_SETTLED => "0" | TYPE_TIMEOUT => "TIMEOUT" end;
          ef_due_tick := tick + offset; ef_payload := body |}.
Definition schedule q (external originator : string) (t : EffectType) (offset : Z)
    : M SandboxBroker unit :=
  b ← getS;
  effect ← lift (planned_effect q external originator t offset (es_tick (br_effects b)));
  _ ← on_effects (schedule_effect (new_effect effect (ef_due_tick effect)));
  mret tt.

(** [_result] *)
Definition simulated (outcome : ProviderOutcome) (code : string)
    (disposition : option RejectionDisposition) : ProviderSubmissionResult :=
  {| out_outcome := outcome; out_code := code; out_external_reference := None;
     out_disposition := disposition; out_context := [] |}.
Definition effect_result q (scenario : EffectScenario) : M SandboxBroker ProviderSubmissionResult :=
  match scenario with
  | EFFECT_REJECTED_RETRYABLE =>
      mret (simulated OUT_REJECTED "SIM_PROVIDER_TEMPORARY" (Some REJ_RETRYABLE))
  | EFFECT_REJECTED_TERMINAL =>
      mret (simulated OUT_REJECTED "SIM_PROVIDER_TERMINAL" (Some REJ_TERMINAL))
  | UNKNOWN_AFTER_SEND => mret (simulated OUT_UNKNOWN "SIM_OUTCOME_UNKNOWN" None)
  | EFFECT_SUCCESS | TIMEOUT_THEN_SUCCESS =>
      external ← lift (text_name "SIMREF-" 24 (pr_provider_id q +:+ ":" +:+ pr_rtt_id q));
      originator ← lift (text_name "SIMORG-" 20 (pr_idempotency_key q));
      _ ← raise_if (negb (int_printable (pr_amount_minor q))) ValueError
            "Exceeds the limit (4300 digits) for integer string conversion";
      let result :=
        {| out_outcome := OUT_ACCEPTED; out_code := "SIM_ACCEPTED_FOR_PROCESSING";
           out_external_reference := Some external; out_disposition := None;
           out_context := [(PStr "originator_conversation_id", PStr originator);
                           (PStr "amount_minor", PStr (str_int (pr_amount_minor q)))] |} in
      _ ← (if bool_decide (scenario = TIMEOUT_THEN_SUCCESS)
           then _ ← schedule q external originator TYPE_TIMEOUT 1;
                schedule q external originator TYPE_SETTLED 2
           else schedule q external originator TYPE_SETTLED 1);
      mret result
  end.

(** [submit] *)
Definition broker_submit q : M SandboxBroker ProviderSubmissionResult :=
  _ ← lift (validate_synthetic q);
  let key := (pr_provider_id q, pr_idempotency_key q) in
  b ← getS;
  match dget (br_submissions b) key with
  | Some (sha, result) =>
      _ ← raise_if (negb (String.eqb sha (pr_request_sha256 q))) RuntimeError
            "simulator idempotency material changed";
      _ ← on_metrics (increment "railone_sandbox_submit_replay_total"
                        [("provider", pr_provider_id q)]);
      mret result
  | None =>
      let scenario := default EFFECT_SUCCESS (dget (br_scenarios b) (pr_rtt_id q)) in
      result ← effect_result q scenario;
      _ ← modifyS (λ b, Broker (br_metrics b) (br_scenarios b)
                          (dset (br_submissions b) key (pr_request_sha256 q, result))
                          (br_effects b));
      _ ← on_metrics (increment "railone_sandbox_submissions_total"
                        [("provider", pr_provider_id q);
                         ("outcome", ProviderOutcome_value (out_outcome result));
                         ("scenario", EffectScenario_value scenario)]);
      mret result
  end.

(** [advance] *)
Definition inspector : string := "inline-sandbox-inspector".
Definition inspect rec : M SandboxBroker ScheduledProviderEffect :=
  let item := er_effect rec in
  _ ← on_effects (mark_effect_delivered (ef_effect_id item) inspector);
  _ ← on_metrics (increment "railone_sandbox_effects_total"
                    [("provider", ef_provider_id item); ("effect_type", ef_effect_type item)]);
  mret item.
Definition advance (ticks : Z) : M SandboxBroker (list ScheduledProviderEffect) :=
  records ← on_effects (advance_and_claim inspector ticks 1 1000);
  mapM_ inspect records.

Definition claim_due (worker : string) (ticks lease limit : Z)
    : M SandboxBroker (list ProviderEffectRecord) :=
  on_effects (advance_and_claim worker ticks lease limit).
Definition broker_delivered (id worker : string) : M SandboxBroker unit :=
  _ ← on_effects (mark_effect_delivered id worker);
  mret tt.
Definition broker_reschedule (id worker : string) (delay : Z) (error : string) (max_attempts : Z)
    : M SandboxBroker unit :=
  _ ← on_effects (reschedule_effect id worker delay error max_attempts);
  on_metrics (increment "railone_sandbox_effect_requeues_total" []).

(** ** [providers.py] *)
Definition bank_submit q : M SandboxBroker ProviderSubmissionResult :=
  _ ← raise_if (negb (String.eqb (pr_provider_id q) "BANK-KE")) ValueError
        "bank simulator received another provider's request";
  _ ← raise_if (negb (String.eqb (pr_currency_from q) "KES")
                || negb (String.eqb (pr_currency_to q) "KES")) ValueError
        "domestic bank simulator supports KES only";
  _ ← raise_if (negb (bool_decide (pr_rail q ∈ ["DOMESTIC_BANK"; "PESALINK"; "RTGS"]))) ValueError
        "domestic bank simulator received an unsupported rail";
  _ ← raise_if (negb (pr_amount_minor q =? pr_receive_amount_minor q)) ValueError
        "domestic bank simulator requires equal KES amounts";
  broker_submit q.
Definition SandboxBankAdapter : ProviderAdapter SandboxBroker :=
  {| ad_provider_id := "BANK-KE"; ad_supports_idempotency := true; ad_submit := bank_submit |}.

Definition mpesa_submit q : M SandboxBroker ProviderSubmissionResult :=
  _ ← raise_if (negb (String.eqb (pr_provider_id q) "MPESA-KE")) ValueError
        "M-PESA simulator received another provider's request";
  _ ← raise_if (negb (String.eqb (pr_rail q) "MOBILE_MONEY")) ValueError
        "M-PESA simulator requires MOBILE_MONEY rail";
  broker_submit q.
Definition SandboxMpesaAdapter : ProviderAdapter SandboxBroker :=
  {| ad_provider_id := "MPESA-KE"; ad_supports_idempotency := false; ad_submit := mpesa_submit |}.

(** ** [SandboxEffectWorker] *)
Record EffectWorker := Worker {
  wk_worker_id : string;
  wk_retry_delay_ticks : Z;
  wk_lease_ticks : Z;
  wk_max_attempts : Z;
}.
Definition EffectWorker_init (w : EffectWorker) : res EffectWorker :=
  _ ← raise_if (negb ((1 <=? wk_retry_delay_ticks w) && (wk_retry_delay_ticks w <=? 100)))
        ValueError "retry_delay_ticks is outside policy";
  mret w.

Section worker.
(** The consumer and its world. *)
Context {C : Type} (consume : ScheduledProviderEffect → M C unit).
Implicit Types (w : EffectWorker).

(** [f"{type(exc).__name__}: {exc}"] *)
Definition error_text (e : exn) : string := exn_name (exn_class e) +:+ ": " +:+ exn_msg e.

(** One iteration of [run_once]: the identifier of an applied effect. *)
Definition work_effect w rec : M (SandboxBroker * C) (option string) :=
  let effect := er_effect rec in
  let labels := [("provider", ef_provider_id effect); ("effect_type", ef_effect_type effect)] in
  applied ← on_snd (outcome (consume effect));
  match applied with
  | Err exc =>
      _ ← on_fst (broker_reschedule (ef_effect_id effect) (wk_worker_id w)
                    (wk_retry_delay_ticks w) (error_text exc) (wk_max_attempts w));
      _ ← on_fst (on_metrics (increment "railone_sandbox_worker_failures_total" labels));
      mret None
  | Ok _ =>
      _ ← on_fst (broker_delivered (ef_effect_id effect) (wk_worker_id w));
      _ ← on_fst (on_metrics (increment "railone_sandbox_worker_applied_total" labels));
      mret (Some (ef_effect_id effect))
  end.

Definition run_once w : M (SandboxBroker * C) (list string) :=
  records ← on_fst (claim_due (wk_worker_id w) 1 (wk_lease_ticks w) 100);
  applied ← mapM_ (work_effect w) records;
  mret (omap id applied).

(** ** [WorkerSupervisor] *)
Record WorkerSupervisor := Supervisor {
  ws_failures : Z;
  ws_cycles : Z;
  ws_last_error : option string;
  ws_stopped : bool;
}.
Definition WorkerSupervisor_init (threshold : Z) : res WorkerSupervisor :=
  _ ← raise_if (negb ((1 <=? threshold) && (threshold <=? 100))) ValueError
        "worker failure threshold is outside policy";
  mret (Supervisor 0 0 None false).

Definition on_run {A} : M (SandboxBroker * C) A → M (WorkerSupervisor * (SandboxBroker * C)) A :=
  on_snd.
Definition on_supervisor {A} : M WorkerSupervisor A → M (WorkerSupervisor * (SandboxBroker * C)) A :=
  on_fst.

Definition supervisor_tick w : M (WorkerSupervisor * (SandboxBroker * C)) (list string) :=
  sup ← on_supervisor getS;
  _ ← raise_if (ws_stopped sup) RuntimeError "worker supervisor is stopped";
  ran ← on_run (outcome (run_once w));
  match ran with
  | Err exc =>
      _ ← on_supervisor (putS (Supervisor (ws_failures sup + 1) (ws_cycles sup + 1)
                                 (Some (char_take 1000 (error_text exc))) false));
      mret []
  | Ok applied =>
      _ ← on_supervisor (putS (Supervisor 0 (ws_cycles sup + 1) None false));
      mret applied
  end.
End worker.
Definition supervisor_stop : M WorkerSupervisor unit :=
  modifyS (λ sup, Supervisor (ws_failures sup) (ws_cycles sup) (ws_last_error sup) true).

Inductive SupervisorState := SUP_RUNNING | SUP_DEGRADED | SUP_STOPPED.
(** The state of [status()]; its other fields are those of the supervisor. *)
Definition supervisor_state (threshold : Z) (sup : WorkerSupervisor) : SupervisorState :=
  if ws_stopped sup then SUP_STOPPED
  else if threshold <=? ws_failures sup then SUP_DEGRADED else SUP_RUNNING.
