(* ===== verification/SandboxFacts.v ===== *)
(** Lemmas about the sandbox: the lifecycle of a simulated effect, the store
    operations as steps of it, and what every computation of the broker keeps. *)

From Stdlib Require Import Ascii String.
From S2P Require Import Prelude.
From S2P Require Import PyBase.
From S2P Require Import PyDict.
From S2P Require Import Bytes.
From S2P Require Import Sha256.
From S2P Require Import CanonicalJson.
From S2P Require Import PyText.
From S2P Require Import OperationsStore.
From S2P Require Import Operations.
From S2P Require Import Sandbox.

Implicit Types (rec : ProviderEffectRecord) (s : EffectStore) (b : SandboxBroker).

Lemma blank_head c t : is_space c = false → blank (String c t) = false.
Proof.
  intros Hc. unfold blank, strip. assert (lstrip (String c t) = String c t) as -> by (by apply lstrip_head).
  cbn [rstrip]. rewrite Hc. by destruct (rstrip t).
Qed.

(** ** One effect *)
Definition effect_settled rec : Prop :=
  er_state rec = EFF_DELIVERED ∨ er_state rec = EFF_DEAD_LETTER.

(** A lease is held exactly while the effect is in flight; the delivery tick
    is set exactly when it was delivered. *)
Definition effect_ok rec : Prop :=
  match er_state rec with
  | EFF_IN_FLIGHT => is_Some (er_lease_owner rec) ∧ is_Some (er_lease_until_tick rec) ∧
                     1 <= er_delivery_attempts rec
  | _ => er_lease_owner rec = None ∧ er_lease_until_tick rec = None ∧ 0 <= er_delivery_attempts rec
  end ∧
  (is_Some (er_delivered_at_tick rec) ↔ er_state rec = EFF_DELIVERED).

(** The metrics of the effect have labels. *)
Definition labelled effect : Prop :=
  str_empty (ef_provider_id effect) = false ∧ str_empty (ef_effect_type effect) = false.

Inductive effect_step : ProviderEffectRecord → ProviderEffectRecord → Prop :=
  | effect_leased rec worker tick lease :
      effect_eligible tick rec = true → 1 <= lease <= 1000 →
      effect_step rec (leased_effect worker tick lease rec)
  | effect_delivered rec worker tick :
      er_state rec = EFF_IN_FLIGHT → er_lease_owner rec = Some worker →
      effect_step rec (delivered_effect tick rec)
  | effect_rescheduled rec worker tick delay max error :
      er_state rec = EFF_IN_FLIGHT → er_lease_owner rec = Some worker →
      1 <= delay <= 100 → 1 <= max <= 100 →
      effect_step rec (rescheduled_effect tick delay max error rec).

Lemma effect_eligible_state tick rec :
  effect_eligible tick rec = true → er_state rec = EFF_PENDING ∨ er_state rec = EFF_IN_FLIGHT.
Proof. unfold effect_eligible. destruct (er_state rec); auto; discriminate. Qed.

Lemma effect_step_facts rec rec' :
  effect_step rec rec' →
  er_effect rec' = er_effect rec ∧ er_version rec' = er_version rec + 1 ∧
  er_delivery_attempts rec <= er_delivery_attempts rec' ∧ ¬ effect_settled rec ∧
  (effect_ok rec → effect_ok rec').
Proof.
  unfold effect_settled, effect_ok. intros [r worker tick lease He Hl|r worker tick Hs Ho|r worker tick delay mx error Hs Ho Hd Hm].
  - apply effect_eligible_state in He. cbn. split; [done|]. split; [done|]. split; [lia|].
    destruct He as [He|He]; rewrite He; (split; [naive_solver|]); intros [Hr Hdel];
      (split; [split; [by eexists|]; split; [by eexists|]; intuition lia|]);
      (split; [intros Hx; by apply Hdel in Hx|done]).
  - cbn. rewrite Hs. split; [done|]. split; [done|]. split; [lia|]. split; [naive_solver|].
    intros [(_ & _ & ?) _]. split; [auto with lia|]. split; [done|by eexists].
  - cbn. rewrite Hs. split; [done|]. split; [done|]. split; [lia|]. split; [naive_solver|].
    intros [(_ & _ & ?) Hdel]. destruct (mx <=? er_delivery_attempts r); (split; [auto with lia|]);
      (split; [intros Hx; by apply Hdel in Hx|done]).
Qed.

Lemma effect_steps_facts rec rec' :
  rtc effect_step rec rec' →
  er_effect rec' = er_effect rec ∧ er_version rec <= er_version rec' ∧
  er_delivery_attempts rec <= er_delivery_attempts rec' ∧
  (effect_settled rec → rec' = rec) ∧ (effect_ok rec → effect_ok rec').
Proof.
  induction 1 as [rec|rec rec1 rec2 Hstep _ (He & Hv & Ha & Hs & Hok)]; [by auto with lia|].
  apply effect_step_facts in Hstep as (He1 & Hv1 & Ha1 & Hs1 & Hok1).
  split_and!; [congruence|lia|lia|done|auto].
Qed.

(** ** The store *)
Record effects_wf s : Prop := {
  ew_dict : dict_wf (es_records s);
  ew_key k rec : dget (es_records s) k = Some rec → effect_id rec = k;
  ew_ok k rec : dget (es_records s) k = Some rec → effect_ok rec;
  ew_labelled k rec : dget (es_records s) k = Some rec → labelled (er_effect rec);
}.
Lemma no_effects_wf : effects_wf no_effects.
Proof. split; [apply dict_wf_empty|done..]. Qed.

(** Time advances and effects only take steps. *)
Definition effects_evolve s s' : Prop :=
  es_tick s <= es_tick s' ∧
  ∀ k rec, dget (es_records s) k = Some rec →
    ∃ rec', dget (es_records s') k = Some rec' ∧ rtc effect_step rec rec'.
#[export] Instance effects_evolve_po : PreOrder effects_evolve.
Proof.
  split; [intros s; split; [lia|eauto using rtc_refl]|].
  intros s1 s2 s3 [Ht1 H12] [Ht2 H23]. split; [lia|]. intros k rec Hk.
  destruct (H12 _ _ Hk) as (r2 & Hk2 & Hr). destruct (H23 _ _ Hk2) as (r3 & Hk3 & Hr').
  exists r3. split; [done|]. by etrans.
Qed.

Definition effects_safe {A} (m : M EffectStore A) : Prop :=
  ∀ s x s', m s = (x, s') → effects_wf s → effects_wf s' ∧ effects_evolve s s'.

(** Replacing records by their successors. *)
Lemma put_effect_wf k rec s :
  effects_wf s → effect_id rec = k → effect_ok rec → labelled (er_effect rec) →
  effects_wf (put_effect k rec s).
Proof.
  intros [] Hid Hok Hl. split; cbn; [by apply dict_wf_dset|..];
    intros j r; rewrite dget_dset_Some; naive_solver.
Qed.

Lemma put_step k rec rec' s :
  effects_wf s → dget (es_records s) k = Some rec → effect_step rec rec' →
  effects_wf (put_effect k rec' s) ∧ effects_evolve s (put_effect k rec' s).
Proof.
  intros Hwf Hk Hstep. destruct (effect_step_facts _ _ Hstep) as (He & _ & _ & _ & Hok). split.
  - apply put_effect_wf; [done|..].
    + rewrite <- (ew_key _ Hwf _ _ Hk). unfold effect_id. by rewrite He.
    + by eapply Hok, ew_ok.
    + rewrite He. by eapply ew_labelled.
  - split; [cbn; lia|]. intros j r Hj. cbn. rewrite dget_dset. case_decide as Heq; [|eauto using rtc_refl].
    subst j. rewrite Hk in Hj. injection Hj as <-. eauto using rtc_once.
Qed.

Lemma schedule_effect_safe effect due :
  labelled effect → effects_safe (schedule_effect (new_effect effect due)).
Proof.
  intros Hl s x s' Hrun Hwf. unfold schedule_effect in Hrun. cbn in Hrun.
  destruct (dget (es_records s) (effect_id (new_effect effect due))) as [old|] eqn:Hk.
  - assert (s' = s) as -> by (run_paths; congruence). done.
  - assert (s' = put_effect (effect_id (new_effect effect due)) (new_effect effect due) s) as ->
      by (run_paths; congruence). split.
    + apply put_effect_wf; try done. split; cbn; [auto with lia|]. split; [intros []|]; done.
    + split; [cbn; lia|]. intros j r Hj. cbn. rewrite dget_dset_ne by congruence.
      eauto using rtc_refl.
Qed.

Lemma schedule_effect_ok effect due s rec s' :
  schedule_effect (new_effect effect due) s = (Ok rec, s') →
  dget (es_records s') (ef_effect_id effect) = Some rec ∧ er_effect rec = effect.
Proof.
  unfold schedule_effect. intros Hrun. rewrite run_get_bind in Hrun.
  destruct (dget (es_records s) (effect_id (new_effect effect due))) as [old|] eqn:Hk; inv_ok Hrun.
  - guards. by subst.
  - split; [apply dget_dset_eq|done].
Qed.

(** ** Claims *)
Lemma put_effects_tick recs s : es_tick (put_effects recs s) = es_tick s.
Proof. unfold put_effects. revert s. induction recs as [|r recs IH]; intros s; [done|]. cbn. by rewrite IH. Qed.

Lemma put_effects_dict recs s : dict_wf (es_records s) → dict_wf (es_records (put_effects recs s)).
Proof.
  unfold put_effects. revert s. induction recs as [|r recs IH]; intros s Hd; [done|].
  by apply IH, dict_wf_dset.
Qed.

Lemma put_effects_get recs s k rec :
  NoDup (effect_id <$> recs) →
  dget (es_records (put_effects recs s)) k = Some rec ↔
  (rec ∈ recs ∧ effect_id rec = k) ∨
  (k ∉ effect_id <$> recs ∧ dget (es_records s) k = Some rec).
Proof.
  revert s. induction recs as [|r recs IH]; intros s; [cbn; set_solver|].
  cbn [fmap list_fmap]. intros [Hr Hnd]%NoDup_cons.
  change (put_effects (r :: recs) s) with (put_effects recs (put_effect (effect_id r) r s)).
  rewrite IH by done. cbn [es_records put_effect]. rewrite dget_dset_Some.
  change (list_fmap _ _ effect_id recs) with (effect_id <$> recs). split.
  - intros [[? ?]|[Hk [[? ?]|[? ?]]]]; subst; [by left; set_solver|left; set_solver|].
    right. split; [|done]. set_solver.
  - intros [[[->|?]%elem_of_cons ?]|[Hk ?]]; subst; [|by left|].
    + right. split; [done|]. by left.
    + right. split; [set_solver|]. right. set_solver.
Qed.

Lemma put_effects_wf recs s :
  effects_wf s → Forall (λ rec, effect_ok rec ∧ labelled (er_effect rec)) recs →
  effects_wf (put_effects recs s).
Proof.
  unfold put_effects. intros Hwf Hr. revert s Hwf. induction Hr as [|r recs [Hok Hl] _ IH]; intros s Hwf;
    [done|]. by apply IH, put_effect_wf.
Qed.

Lemma put_effects_length recs s :
  (∀ rec, rec ∈ recs → is_Some (dget (es_records s) (effect_id rec))) →
  length (es_records (put_effects recs s)) = length (es_records s).
Proof.
  unfold put_effects. revert s. induction recs as [|r recs IH]; intros s Hin; [done|]. cbn [foldl].
  destruct (Hin r (list_elem_of_here _ _)) as [old Hold].
  rewrite IH.
  - cbn. rewrite <- (length_fmap fst), dkeys_dset, decide_True; [apply length_fmap|].
    apply dget_elem in Hold. apply list_elem_of_fmap. by exists (effect_id r, old).
  - intros rec Hrec. cbn. rewrite dget_dset. case_decide; [done|]. apply Hin. by right.
Qed.

Lemma effect_ids s : effects_wf s → effect_id <$> dvalues (es_records s) = (es_records s).*1.
Proof.
  intros Hwf. assert (∀ k rec, (k, rec) ∈ es_records s → effect_id rec = k) as Hin
    by (intros; eapply ew_key, elem_dget; [done|apply Hwf|done]).
  unfold dvalues. induction (es_records s) as [|[k rec] d IH]; [done|].
  cbn. f_equal; [by apply Hin; constructor|]. apply IH. intros. apply Hin. by constructor.
Qed.

Lemma elem_of_records s rec :
  effects_wf s → rec ∈ dvalues (es_records s) ↔ dget (es_records s) (effect_id rec) = Some rec.
Proof.
  intros Hwf. rewrite elem_of_dvalues by apply Hwf. split; [|eauto].
  intros [k Hk]. by rewrite (ew_key _ Hwf _ _ Hk).
Qed.

Section selection.
Context (tick limit : Z) (s : EffectStore) (Hwf : effects_wf s).

Lemma effect_selection_elem rec :
  rec ∈ effect_selection tick limit s →
  effect_eligible tick rec = true ∧ dget (es_records s) (effect_id rec) = Some rec.
Proof.
  unfold effect_selection. intros (i & Hi%list_elem_of_lookup_2 & _)%elem_of_take.
  rewrite elem_of_sort_on in Hi. apply list_elem_of_filter in Hi as [? Hin].
  by rewrite elem_of_records in Hin.
Qed.

Lemma effect_selection_ids : NoDup (effect_id <$> effect_selection tick limit s).
Proof.
  unfold effect_selection. rewrite fmap_take. eapply sublist_NoDup; [|apply sublist_take].
  rewrite sort_on_perm. eapply sublist_NoDup; [|apply fmap_sublist, sublist_filter].
  rewrite effect_ids by done. apply Hwf.
Qed.

(** A claim that may take all of the store takes every eligible effect. *)
Lemma effect_selection_all rec :
  Z.of_nat (length (es_records s)) <= limit → effect_eligible tick rec = true →
  dget (es_records s) (effect_id rec) = Some rec → rec ∈ effect_selection tick limit s.
Proof.
  intros Hlen He Hg. unfold effect_selection. rewrite take_ge.
  - rewrite elem_of_sort_on. apply list_elem_of_filter. split; [done|]. by apply elem_of_records.
  - rewrite sort_on_length. etrans; [apply length_filter|]. unfold dvalues. rewrite length_fmap. lia.
Qed.
End selection.

Lemma claim_policy_ok worker ticks lease limit u :
  claim_policy worker ticks lease limit = Ok u →
  blank worker = false ∧ 1 <= ticks <= 1000 ∧ 1 <= lease <= 1000 ∧ 1 <= limit <= 1000.
Proof. unfold claim_policy, within. intros Hp. inv_ok Hp. guards. done. Qed.

Lemma claim_effects_run worker ticks lease limit s :
  claim_policy worker ticks lease limit = Ok tt →
  let tick := es_tick s + ticks in
  let s1 := Effects tick (es_records s) in
  let us := leased_effect worker tick lease <$> effect_selection tick limit s1 in
  advance_and_claim worker ticks lease limit s = (Ok us, put_effects us s1).
Proof. intros Hp. unfold advance_and_claim. by rewrite Hp. Qed.

Lemma later_wf tick s : effects_wf s → effects_wf (Effects tick (es_records s)).
Proof. intros []. by split. Qed.

(** A claim that returned: the tick, and the record of each effect. *)
Lemma claim_effects_ok worker ticks lease limit s us s' :
  effects_wf s → advance_and_claim worker ticks lease limit s = (Ok us, s') →
  let tick := es_tick s + ticks in
  claim_policy worker ticks lease limit = Ok tt ∧ es_tick s' = tick ∧
  us = leased_effect worker tick lease <$> effect_selection tick limit (Effects tick (es_records s)) ∧
  (∀ k rec, dget (es_records s') k = Some rec ↔
    (rec ∈ us ∧ effect_id rec = k) ∨ (k ∉ effect_id <$> us ∧ dget (es_records s) k = Some rec)).
Proof.
  intros Hwf Hc. unfold advance_and_claim in Hc. inv_ok Hc. destruct_all unit. cbv zeta.
  split; [done|]. split; [by rewrite put_effects_tick|]. split; [done|].
  intros k rec. rewrite put_effects_get; [done|]. rewrite <- list_fmap_compose.
  apply (effect_selection_ids _ _ (Effects _ (es_records s))).
  destruct Hwf. by split.
Qed.

Lemma claim_effects_safe worker ticks lease limit :
  effects_safe (advance_and_claim worker ticks lease limit).
Proof.
  intros s x s' Hrun Hwf. destruct x as [us|e].
  2: { unfold advance_and_claim in Hrun. err_keeps Hrun. }
  pose proof (claim_effects_ok _ _ _ _ _ _ _ Hwf Hrun) as (Hp & Htick & Hus & Hget).
  apply claim_policy_ok in Hp as (_ & Ht & Hl & _).
  assert (effects_wf (Effects (es_tick s + ticks) (es_records s))) as Hwf1 by (destruct Hwf; by split).
  assert (∀ u, u ∈ us → ∃ rec, dget (es_records s) (effect_id u) = Some rec ∧ effect_step rec u) as Hfrom.
  { intros u Hu. rewrite Hus in Hu. apply list_elem_of_fmap in Hu as (rec & -> & Hin).
    apply effect_selection_elem in Hin as [He Hg]; [|done]. exists rec. split; [done|].
    by apply effect_leased. }
  split.
  - assert (dict_wf (es_records s')) as Hd.
    { unfold advance_and_claim in Hrun. inv_ok Hrun. apply put_effects_dict, Hwf. }
    split; [done|..]; intros k rec [[Hu <-]|[_ Hk]]%Hget; try done; try (by eapply Hwf).
    all: destruct (Hfrom _ Hu) as (rec0 & Hg & (He & _ & _ & _ & Hok)%effect_step_facts).
    + by eapply Hok, ew_ok.
    + rewrite He. by eapply ew_labelled.
  - split; [lia|]. intros k rec Hk. destruct (decide (k ∈ effect_id <$> us)) as [Hin|Hnot].
    + apply list_elem_of_fmap in Hin as (u & -> & Hu). exists u. split; [apply Hget; by left|].
      destruct (Hfrom _ Hu) as (rec0 & Hg & Hstep). simplify_eq. by apply rtc_once.
    + exists rec. split; [apply Hget; by right|done].
Qed.

(** ** Settling *)
Lemma require_effect_ok s id worker rec :
  require_effect s id worker = Ok rec ↔
  dget (es_records s) id = Some rec ∧ er_state rec = EFF_IN_FLIGHT ∧ er_lease_owner rec = Some worker.
Proof.
  unfold require_effect. split.
  - intros Hr. inv_ok Hr. by guards.
  - intros (Hg & Hs & Ho). rewrite Hg. cbn. rewrite Hs, Ho. by rewrite !bool_decide_eq_true_2.
Qed.

Lemma mark_effect_run id worker s rec :
  require_effect s id worker = Ok rec →
  mark_effect_delivered id worker s =
  (Ok (delivered_effect (es_tick s) rec), put_effect id (delivered_effect (es_tick s) rec) s).
Proof.
  intros Ho. unfold mark_effect_delivered, lift, mbind, M_bind, getS. lazy beta iota. by rewrite Ho.
Qed.

Lemma mark_effect_cases id worker s x s' :
  mark_effect_delivered id worker s = (x, s') →
  s' = s ∨ ∃ rec, require_effect s id worker = Ok rec ∧
    s' = put_effect id (delivered_effect (es_tick s) rec) s.
Proof. unfold mark_effect_delivered. intros Hm. run_paths; eauto. Qed.

Lemma mark_effect_safe id worker : effects_safe (mark_effect_delivered id worker).
Proof.
  intros s x s' [->|(rec & (Hg & Hs & Ho)%require_effect_ok & ->)]%mark_effect_cases Hwf; [done|].
  by eapply put_step, effect_delivered.
Qed.

Definition retry_policy (error : string) (delay max : Z) : Prop :=
  blank error = false ∧ 1 <= delay <= 100 ∧ 1 <= max <= 100.

Lemma reschedule_effect_run id worker delay error max s rec :
  retry_policy error delay max → require_effect s id worker = Ok rec →
  reschedule_effect id worker delay error max s =
  (Ok (rescheduled_effect (es_tick s) delay max error rec),
   put_effect id (rescheduled_effect (es_tick s) delay max error rec) s).
Proof.
  intros (He & Hd & Hm) Ho. unfold reschedule_effect. rewrite run_guard_bind.
  - unfold lift, mbind, M_bind, getS. lazy beta iota. by rewrite Ho.
  - rewrite He. cbn [orb]. apply orb_false_iff. split; apply negb_false_iff, andb_true_iff;
      split; apply Z.leb_le; lia.
Qed.

Lemma reschedule_effect_cases id worker delay error max s x s' :
  reschedule_effect id worker delay error max s = (x, s') →
  s' = s ∨ ∃ rec, retry_policy error delay max ∧ require_effect s id worker = Ok rec ∧
    s' = put_effect id (rescheduled_effect (es_tick s) delay max error rec) s.
Proof.
  unfold reschedule_effect. intros Hm.
  destruct (blank error || _ || _) eqn:Hp; [left; by injection Hm|].
  assert (retry_policy error delay max) as Hr.
  { guards. split_and!; try done; lia. }
  run_paths; eauto.
Qed.

Lemma reschedule_effect_safe id worker delay error max :
  effects_safe (reschedule_effect id worker delay error max).
Proof.
  intros s x s' [->|(rec & (_ & Hd & Hm) & (Hg & Hs & Ho)%require_effect_ok & ->)]%reschedule_effect_cases Hwf;
    [done|].
  by eapply put_step, effect_rescheduled.
Qed.

(** ** The broker *)
Definition submissions_kept b b' : Prop :=
  ∀ key v, dget (br_submissions b) key = Some v → dget (br_submissions b') key = Some v.

Definition broker_kept b b' : Prop :=
  (effects_wf (br_effects b) → effects_wf (br_effects b') ∧
     effects_evolve (br_effects b) (br_effects b')) ∧ submissions_kept b b'.
#[export] Instance broker_kept_po : PreOrder broker_kept.
Proof.
  split; [intros b; split; [by split|by intros key v]|].
  intros b1 b2 b3 [H1 Hs1] [H2 Hs2]. split; [|intros key v Hv; by apply Hs2, Hs1].
  intros Hwf. destruct (H1 Hwf) as [Hwf2 He]. destruct (H2 Hwf2) as [Hwf3 He']. split; [done|by etrans].
Qed.

(** The relation holds between the brokers before and after the computation. *)
Definition runs_in {A} (R : relation SandboxBroker) (m : M SandboxBroker A) : Prop :=
  ∀ b x b', m b = (x, b') → R b b'.

Section runs_in.
Context (R : relation SandboxBroker) `{!PreOrder R}.

Lemma runs_ret {A} (a : A) : runs_in R (mret a).
Proof. intros b x b' [= _ <-]. done. Qed.
Lemma runs_lift {A} (r : res A) : runs_in R (lift r).
Proof. intros b x b' [= _ <-]. done. Qed.
Lemma runs_raise_if c k msg : runs_in R (raise_if c k msg).
Proof. intros b x b'. destruct c; intros [= _ <-]; done. Qed.
Lemma runs_bind {A B} (m : M SandboxBroker A) (f : A → M SandboxBroker B) :
  runs_in R m → (∀ a, runs_in R (f a)) → runs_in R (m ≫= f).
Proof.
  intros Hm Hf b x b' Hrun. unfold mbind, M_bind in Hrun.
  destruct (m b) as [[a|e] b1] eqn:H1; apply Hm in H1; [|by injection Hrun as _ <-].
  apply Hf in Hrun. by etrans.
Qed.
Lemma runs_get {A} (f : SandboxBroker → M SandboxBroker A) :
  (∀ b, runs_in R (f b)) → runs_in R (getS ≫= f).
Proof. intros Hf b x b' Hrun. by apply (Hf b) in Hrun. Qed.
Lemma runs_mapM {A B} (f : A → M SandboxBroker B) l :
  (∀ a, runs_in R (f a)) → runs_in R (mapM_ f l).
Proof.
  intros Hf. induction l as [|a l IH]; [apply runs_ret|]. apply runs_bind; [apply Hf|].
  intros y. apply runs_bind; [exact IH|]. intros ys. apply runs_ret.
Qed.
End runs_in.

(** A computation that keeps the broker in order, and one that does not touch
    the submissions. *)
Notation keeps := (runs_in broker_kept).
Definition same_submissions b b' : Prop := br_submissions b' = br_submissions b.
#[export] Instance same_submissions_po : PreOrder same_submissions.
Proof. split; [done|]. intros b1 b2 b3 H1 H2. unfold same_submissions in *. congruence. Qed.

Lemma keeps_effects {A} (m : M EffectStore A) : effects_safe m → keeps (on_effects m).
Proof.
  intros Hm b x b' Hrun. unfold on_effects, zoom in Hrun.
  destruct (m (br_effects b)) as [y s] eqn:Hs. injection Hrun as _ <-. split; [|by intros key v].
  intros Hwf. exact (Hm _ _ _ Hs Hwf).
Qed.
Lemma keeps_metrics {A} (m : M MetricsRegistry A) : keeps (on_metrics m).
Proof.
  intros b x b' Hrun. unfold on_metrics, zoom in Hrun. destruct (m (br_metrics b)) as [y s].
  injection Hrun as _ <-. split; [by cbn|by intros key v].
Qed.
Lemma same_effects {A} (m : M EffectStore A) : runs_in same_submissions (on_effects m).
Proof. intros b x b' Hrun. unfold on_effects, zoom in Hrun. case_match. by injection Hrun as _ <-. Qed.
Lemma same_metrics {A} (m : M MetricsRegistry A) : runs_in same_submissions (on_metrics m).
Proof. intros b x b' Hrun. unfold on_metrics, zoom in Hrun. case_match. by injection Hrun as _ <-. Qed.
#[export] Hint Resolve runs_ret runs_lift runs_raise_if runs_bind runs_get runs_mapM
  keeps_effects keeps_metrics same_effects same_metrics claim_effects_safe mark_effect_safe reschedule_effect_safe : railone.

Lemma keeps_advance ticks : keeps (advance ticks).
Proof. unfold advance, inspect. auto 10 with railone typeclass_instances. Qed.
Lemma keeps_claim worker ticks lease limit : keeps (claim_due worker ticks lease limit).
Proof. unfold claim_due. auto with railone typeclass_instances. Qed.
Lemma keeps_delivered id worker : keeps (broker_delivered id worker).
Proof. unfold broker_delivered. auto with railone typeclass_instances. Qed.
Lemma keeps_reschedule id worker delay error max : keeps (broker_reschedule id worker delay error max).
Proof. unfold broker_reschedule. auto with railone typeclass_instances. Qed.

Lemma keeps_scenario rtt scenario : keeps (set_scenario rtt scenario).
Proof.
  intros b x b' Hrun. unfold set_scenario in Hrun. run_paths; try done; (split; [by cbn|by intros key v]).
Qed.

Lemma validate_synthetic_provider q u :
  validate_synthetic q = Ok u → str_empty (pr_provider_id q) = false.
Proof.
  unfold validate_synthetic. intros Hv. inv_ok Hv. guards. by destruct (pr_provider_id q).
Qed.

Lemma planned_effect_labelled q external originator t offset tick effect :
  str_empty (pr_provider_id q) = false →
  planned_effect q external originator t offset tick = Ok effect →
  labelled effect ∧ ef_external_reference effect = external ∧ ef_provider_id effect = pr_provider_id q ∧
  ef_rtt_id effect = pr_rtt_id q ∧ ef_effect_type effect = EffectType_value t.
Proof.
  intros Hp He. unfold planned_effect in He. inv_ok He. by destruct t.
Qed.

Lemma keeps_schedule q external originator t offset :
  str_empty (pr_provider_id q) = false → keeps (schedule q external originator t offset).
Proof.
  intros Hp b x b' Hrun. unfold schedule in Hrun. rewrite run_get_bind in Hrun.
  destruct (planned_effect _ _ _ _ _ _) as [effect|e] eqn:He; [|by injection Hrun as _ <-].
  apply planned_effect_labelled in He as [Hl _]; [|done].
  rewrite (run_lift_bind _ _ effect) in Hrun by done. revert Hrun.
  apply (runs_bind _ (on_effects _)); [by apply keeps_effects, schedule_effect_safe|].
  auto with railone typeclass_instances.
Qed.
#[export] Hint Resolve keeps_schedule keeps_advance keeps_claim keeps_delivered keeps_reschedule
  keeps_scenario : railone.

Lemma keeps_result q scenario : str_empty (pr_provider_id q) = false → keeps (effect_result q scenario).
Proof. intros Hp. destruct scenario; cbn; try case_bool_decide; auto 10 with railone typeclass_instances. Qed.

Lemma same_result q scenario : runs_in same_submissions (effect_result q scenario).
Proof.
  assert (∀ external originator t offset,
    runs_in same_submissions (schedule q external originator t offset)) as Hs
    by (intros; unfold schedule; auto 10 with railone typeclass_instances).
  destruct scenario; cbn; try case_bool_decide; auto 10 with railone typeclass_instances.
Qed.

(** *** Submissions *)
Definition key_of q : string * string := (pr_provider_id q, pr_idempotency_key q).

Lemma increment_run name labels (m : MetricsRegistry) :
  str_empty name = false → existsb (λ kv, str_empty kv.1 || str_empty kv.2) labels = false →
  ∃ m', increment name labels m = (Ok tt, m').
Proof. intros Hn Hl. unfold increment. rewrite Hn, Hl. cbn. eauto. Qed.

Lemma on_metrics_run name labels b :
  str_empty name = false → existsb (λ kv, str_empty kv.1 || str_empty kv.2) labels = false →
  ∃ m', on_metrics (increment name labels) b
        = (Ok tt, Broker m' (br_scenarios b) (br_submissions b) (br_effects b)).
Proof.
  intros Hn Hl. destruct (increment_run name labels (br_metrics b) Hn Hl) as [m' Hm].
  exists m'. unfold on_metrics, zoom. by rewrite Hm.
Qed.

(** The three ways of a submission: refused, known and new. *)
Lemma broker_submit_refused q b e :
  validate_synthetic q = Err e → broker_submit q b = (Err e, b).
Proof. intros Hv. unfold broker_submit. by rewrite Hv. Qed.

Lemma broker_submit_known q b sha r :
  validate_synthetic q = Ok tt → dget (br_submissions b) (key_of q) = Some (sha, r) →
  if String.eqb sha (pr_request_sha256 q)
  then ∃ m, broker_submit q b = (Ok r, Broker m (br_scenarios b) (br_submissions b) (br_effects b))
  else broker_submit q b = (Err (Exn RuntimeError "simulator idempotency material changed"), b).
Proof.
  intros Hv Hk. pose proof (validate_synthetic_provider _ _ Hv) as Hp. unfold broker_submit.
  rewrite (run_lift_bind _ _ tt), run_get_bind by done. unfold key_of in Hk. cbv zeta. rewrite Hk.
  destruct (String.eqb sha (pr_request_sha256 q)) eqn:Hs; [|done].
  rewrite run_guard_bind by done.
  edestruct (on_metrics_run "railone_sandbox_submit_replay_total" [("provider", pr_provider_id q)] b)
    as [m Hm]; [done|cbn; by rewrite Hp|]. exists m. by rewrite (run_bind_eq _ _ _ _ _ Hm).
Qed.

Definition scenario_of q b : EffectScenario := default EFFECT_SUCCESS (dget (br_scenarios b) (pr_rtt_id q)).

Lemma broker_submit_new q b :
  validate_synthetic q = Ok tt → dget (br_submissions b) (key_of q) = None →
  match effect_result q (scenario_of q b) b with
  | (Ok r, b1) => ∃ m, broker_submit q b = (Ok r, Broker m (br_scenarios b1)
      (dset (br_submissions b1) (key_of q) (pr_request_sha256 q, r)) (br_effects b1))
  | (Err e, b1) => broker_submit q b = (Err e, b1)
  end.
Proof.
  intros Hv Hk. pose proof (validate_synthetic_provider _ _ Hv) as Hp. unfold broker_submit.
  rewrite (run_lift_bind _ _ tt), run_get_bind by done. unfold key_of in Hk. cbv zeta. rewrite Hk.
  fold (scenario_of q b). destruct (effect_result q (scenario_of q b) b) as [[r|e] b1] eqn:Hr;
    [rewrite (run_bind_eq _ _ _ _ _ Hr)|by rewrite (run_bind_err _ _ _ _ _ Hr)].
  erewrite run_bind_eq by done. fold (key_of q).
  edestruct (on_metrics_run "railone_sandbox_submissions_total"
    [("provider", pr_provider_id q); ("outcome", ProviderOutcome_value (out_outcome r));
     ("scenario", EffectScenario_value (scenario_of q b))]) as [m Hm];
    [done|cbn; rewrite Hp; by destruct (out_outcome r), (scenario_of q b)|].
  exists m. by rewrite (run_bind_eq _ _ _ _ _ Hm).
Qed.

(** A submission is stored at most once, by a computation that keeps the rest. *)
Lemma keeps_submit q : keeps (broker_submit q).
Proof.
  intros b x b' Hrun. destruct (validate_synthetic q) as [[]|e] eqn:Hv;
    [|rewrite (broker_submit_refused _ _ _ Hv) in Hrun; by injection Hrun as _ <-].
  destruct (dget (br_submissions b) (key_of q)) as [[sha r]|] eqn:Hk.
  { pose proof (broker_submit_known q b sha r Hv Hk) as Hc.
    destruct (String.eqb sha _); [destruct Hc as [m Hc]|]; rewrite Hc in Hrun;
      injection Hrun as _ <-; [|done]. split; [by cbn|by intros key v]. }
  pose proof (broker_submit_new q b Hv Hk) as Hc.
  destruct (effect_result q _ b) as [[r|e] b1] eqn:Hr.
  2: { rewrite Hc in Hrun. injection Hrun as _ <-. eapply keeps_result; [|done].
       by eapply validate_synthetic_provider. }
  destruct Hc as [m Hc]. rewrite Hc in Hrun. injection Hrun as _ <-.
  pose proof (same_result _ _ _ _ _ Hr) as Hs.
  etrans; [eapply keeps_result; [|exact Hr]; by eapply validate_synthetic_provider|].
  split; [by cbn|]. intros key v Hkey. unfold same_submissions in Hs. cbn.
  rewrite dget_dset_ne; [done|]. intros <-. congruence.
Qed.

(** *** Settling through the broker *)
Lemma on_effects_run {A} (m : M EffectStore A) b x s :
  m (br_effects b) = (x, s) →
  on_effects m b = (x, Broker (br_metrics b) (br_scenarios b) (br_submissions b) s).
Proof. intros Hm. unfold on_effects, zoom. by rewrite Hm. Qed.

Definition settled_broker b m (id : string) rec : SandboxBroker :=
  Broker m (br_scenarios b) (br_submissions b) (put_effect id rec (br_effects b)).

Lemma broker_delivered_run id worker b rec :
  require_effect (br_effects b) id worker = Ok rec →
  broker_delivered id worker b = (Ok tt, settled_broker b (br_metrics b) id
    (delivered_effect (es_tick (br_effects b)) rec)).
Proof.
  intros Ho. unfold broker_delivered.
  by rewrite (run_bind_eq _ _ _ _ _ (on_effects_run _ _ _ _ (mark_effect_run _ _ _ _ Ho))).
Qed.

Lemma broker_reschedule_run id worker delay error max b rec :
  retry_policy error delay max → require_effect (br_effects b) id worker = Ok rec →
  ∃ m, broker_reschedule id worker delay error max b = (Ok tt, settled_broker b m id
    (rescheduled_effect (es_tick (br_effects b)) delay max error rec)).
Proof.
  intros Hp Ho. unfold broker_reschedule.
  rewrite (run_bind_eq _ _ _ _ _ (on_effects_run _ _ _ _ (reschedule_effect_run _ _ _ _ _ _ _ Hp Ho))).
  edestruct (on_metrics_run "railone_sandbox_effect_requeues_total" [] (settled_broker b (br_metrics b) id
    (rescheduled_effect (es_tick (br_effects b)) delay max error rec))) as [m Hm]; [done..|].
  exists m. exact Hm.
Qed.
