(* ===== verification/SandboxClaims.v ===== *)
(** What the sandbox promises the pilot: a submission is answered once and for
    all, a settlement is scheduled with every accepted one, effects are settled
    once, and a worker settles all of them. *)

From Stdlib Require Import Ascii String.
From S2P Require Import Prelude.
From S2P Require Import PyBase.
From S2P Require Import PyDict.
From S2P Require Import Bytes.
From S2P Require Import Sha256.
From S2P Require Import CanonicalJson.
From S2P Require Import PyText.
From S2P Require Import OperationsStore.
From S2P Require Import Operations.
From S2P Require Import Sandbox.
From S2P Require Import SandboxFacts.

Implicit Types (rec : ProviderEffectRecord) (b : SandboxBroker) (q : ProviderExecutionRequest).

(** ** The broker's operations *)
Inductive broker_op :=
  | BrSubmit q
  | BrScenario (rtt_id : string) (scenario : EffectScenario)
  | BrAdvance (ticks : Z)
  | BrClaim (worker : string) (ticks lease limit : Z)
  | BrDelivered (id worker : string)
  | BrReschedule (id worker : string) (delay : Z) (error : string) (max_attempts : Z).

(** The broker after an operation, whether it returned or raised. *)
Definition broker_after (o : broker_op) b : SandboxBroker :=
  match o with
  | BrSubmit q => (broker_submit q b).2
  | BrScenario rtt scenario => (set_scenario rtt scenario b).2
  | BrAdvance ticks => (advance ticks b).2
  | BrClaim w ticks lease limit => (claim_due w ticks lease limit b).2
  | BrDelivered id w => (broker_delivered id w b).2
  | BrReschedule id w delay error mx => (broker_reschedule id w delay error mx b).2
  end.
Definition run_broker (ops : list broker_op) b : SandboxBroker :=
  foldl (λ b o, broker_after o b) b ops.

Lemma runs_in_after {A} R (m : M SandboxBroker A) b : runs_in R m → R b (m b).2.
Proof. intros Hm. destruct (m b) as [x b'] eqn:Hr. by apply Hm in Hr. Qed.

Lemma broker_after_kept o b : broker_kept b (broker_after o b).
Proof. destruct o; apply (runs_in_after broker_kept); auto using keeps_submit with railone. Qed.

Lemma run_broker_kept ops b : broker_kept b (run_broker ops b).
Proof.
  revert b. induction ops as [|o ops IH]; intros b; [done|]. etrans; [apply broker_after_kept|apply IH].
Qed.

(** ** What a submission leaves *)

(** A scheduled settlement of the provider under the external reference. *)
Definition settlement_planned b (provider : string) (external : option string) : Prop :=
  ∃ k rec, dget (es_records (br_effects b)) k = Some rec ∧
    ef_provider_id (er_effect rec) = provider ∧ ef_effect_type (er_effect rec) = "SETTLED" ∧
    external = Some (ef_external_reference (er_effect rec)).

Lemma settlement_planned_kept b b' provider external :
  effects_wf (br_effects b) → broker_kept b b' → settlement_planned b provider external →
  settlement_planned b' provider external.
Proof.
  intros Hwf [Heff _] (k & rec & Hk & Hp & Ht & He). destruct (proj2 (proj2 (Heff Hwf)) _ _ Hk)
    as (rec' & Hk' & (Hsame & _)%effect_steps_facts).
  exists k, rec'. by rewrite Hsame.
Qed.

Definition broker_wf b : Prop :=
  effects_wf (br_effects b) ∧
  ∀ key sha r, dget (br_submissions b) key = Some (sha, r) → out_outcome r = OUT_ACCEPTED →
    settlement_planned b key.1 (out_external_reference r).

Lemma schedule_planned q external originator t offset b u b' :
  str_empty (pr_provider_id q) = false →
  schedule q external originator t offset b = (Ok u, b') →
  ∃ k rec, dget (es_records (br_effects b')) k = Some rec ∧
    ef_provider_id (er_effect rec) = pr_provider_id q ∧
    ef_effect_type (er_effect rec) = EffectType_value t ∧
    ef_external_reference (er_effect rec) = external.
Proof.
  intros Hp Hrun. unfold schedule in Hrun. inv_ok Hrun.
  match goal with He : planned_effect _ _ _ _ _ _ = Ok ?e |- _ =>
    apply planned_effect_labelled in He as (_ & He & Hpr & _ & Ht); [|done]; rename e into effect end.
  match goal with Hs : on_effects _ _ = _ |- _ =>
    apply zoom_run in Hs as (recs & [Hk Heq]%schedule_effect_ok & ->) end.
  exists (ef_effect_id effect), v0. rewrite Heq. done.
Qed.

Lemma effect_result_planned q scenario b r b' :
  str_empty (pr_provider_id q) = false → effects_wf (br_effects b) →
  effect_result q scenario b = (Ok r, b') → out_outcome r = OUT_ACCEPTED →
  settlement_planned b' (pr_provider_id q) (out_external_reference r).
Proof.
  intros Hp Hwf Hrun Hacc. destruct scenario; cbn in Hrun; inv_ok Hrun; try discriminate.
  all: match goal with Hs : (if bool_decide _ then _ else _) _ = _ |- _ =>
    case_bool_decide; try done; inv_ok Hs end.
  all: match goal with Hs : schedule _ _ _ TYPE_SETTLED _ _ = _ |- _ =>
    apply schedule_planned in Hs as (k & rec & Hk & Hpr & Ht & He); [|done] end.
  all: exists k, rec; by rewrite He.
Qed.

Lemma submit_wf q b : broker_wf b → broker_wf (broker_submit q b).2.
Proof.
  intros [Hwf Hback]. pose proof (runs_in_after _ _ b (keeps_submit q)) as Hkept.
  split; [by apply Hkept|]. intros key sha r Hk Ha.
  destruct (dget (br_submissions b) key) as [[sha0 r0]|] eqn:Hk0.
  { pose proof (proj2 Hkept _ _ Hk0) as Hk0'. rewrite Hk in Hk0'. injection Hk0' as -> ->.
    eapply settlement_planned_kept; eauto. }
  destruct (validate_synthetic q) as [[]|e] eqn:Hv;
    [|rewrite (broker_submit_refused _ _ _ Hv) in Hk; cbn in Hk; congruence].
  destruct (dget (br_submissions b) (key_of q)) as [[sha1 r1]|] eqn:Hq.
  { pose proof (broker_submit_known q b sha1 r1 Hv Hq) as Hc.
    destruct (String.eqb sha1 _); [destruct Hc as [m Hc]|]; rewrite Hc in Hk; cbn in Hk; congruence. }
  pose proof (broker_submit_new q b Hv Hq) as Hc.
  destruct (effect_result q _ b) as [[r1|e] b1] eqn:Hr; pose proof (same_result _ _ _ _ _ Hr) as Hs;
    unfold same_submissions in Hs; [destruct Hc as [m Hc]|]; rewrite Hc in Hk |- *; cbn in Hk |- *;
    [|congruence].
  rewrite dget_dset, Hs in Hk. case_decide as Heq; [|congruence]. injection Hk as _ <-. subst key.
  eapply effect_result_planned in Hr; [exact Hr|by eapply validate_synthetic_provider|done|done].
Qed.

Lemma other_ops_same o b :
  match o with BrSubmit _ => True | _ => same_submissions b (broker_after o b) end.
Proof.
  destruct o; [done|..]; apply (runs_in_after same_submissions).
  - intros b0 x b' Hrun. unfold set_scenario in Hrun. by run_paths.
  - unfold advance, inspect. auto 10 with railone typeclass_instances.
  - unfold claim_due. auto with railone typeclass_instances.
  - unfold broker_delivered. auto with railone typeclass_instances.
  - unfold broker_reschedule. auto with railone typeclass_instances.
Qed.

Lemma broker_after_wf o b : broker_wf b → broker_wf (broker_after o b).
Proof.
  pose proof (other_ops_same o b) as Hsame. pose proof (broker_after_kept o b) as Hkept.
  assert (broker_wf b → same_submissions b (broker_after o b) → broker_wf (broker_after o b)) as Hother.
  { intros [Hwf Hback] Hs. split; [by apply Hkept|]. intros key sha r. rewrite Hs. intros Hk Ha.
    eapply settlement_planned_kept; eauto. }
  destruct o; auto using submit_wf. apply submit_wf.
Qed.

Lemma run_broker_wf ops : broker_wf (run_broker ops new_broker).
Proof.
  assert (broker_wf new_broker) as Hnew by (split; [apply no_effects_wf|done]).
  revert Hnew. generalize new_broker. unfold run_broker.
  induction ops as [|o ops IH]; intros b Hb; [done|]. by apply IH, broker_after_wf.
Qed.

(** C29 Submissions are idempotent, as the bank adapter declares.  Once the
    broker of the sandbox has answered a request, then after any operations
    the same request is answered with the same result, and neither the
    scenarios, the submissions nor the scheduled effects change; a request
    with its provider and idempotency key but other content is refused and
    changes nothing; and if the answer was an acceptance, a settlement under
    its external reference is scheduled for good. *)
Theorem simulated_submission_idempotent ops q r b1 ops' :
  broker_submit q (run_broker ops new_broker) = (Ok r, b1) →
  let b2 := run_broker ops' b1 in
  (∀ q', key_of q' = key_of q → validate_synthetic q' = Ok tt →
     if String.eqb (pr_request_sha256 q) (pr_request_sha256 q')
     then ∃ m, broker_submit q' b2 = (Ok r, Broker m (br_scenarios b2) (br_submissions b2) (br_effects b2))
     else broker_submit q' b2 =
          (Err (Exn RuntimeError "simulator idempotency material changed"), b2)) ∧
  (out_outcome r = OUT_ACCEPTED →
     settlement_planned b2 (pr_provider_id q) (out_external_reference r)).
Proof.
  intros Hrun b2. set (b := run_broker ops new_broker) in Hrun.
  assert (broker_wf b1) as [Hwf Hback].
  { pose proof (submit_wf q b (run_broker_wf ops)) as Hw. by rewrite Hrun in Hw. }
  assert (dget (br_submissions b1) (key_of q) = Some (pr_request_sha256 q, r)) as Hk.
  { destruct (validate_synthetic q) as [[]|e] eqn:Hv;
      [|rewrite (broker_submit_refused _ _ _ Hv) in Hrun; discriminate].
    destruct (dget (br_submissions b) (key_of q)) as [[sha1 r1]|] eqn:Hq.
    - pose proof (broker_submit_known q b sha1 r1 Hv Hq) as Hc.
      destruct (String.eqb sha1 _) eqn:Hs; [destruct Hc as [m Hc]|]; rewrite Hc in Hrun; [|discriminate].
      apply String.eqb_eq in Hs as <-. by injection Hrun as <- <-.
    - pose proof (broker_submit_new q b Hv Hq) as Hc.
      destruct (effect_result q _ b) as [[r1|e] b0]; [destruct Hc as [m Hc]|]; rewrite Hc in Hrun;
        [|discriminate]. injection Hrun as <- <-. apply dget_dset_eq. }
  pose proof (run_broker_kept ops' b1) as Hkept. fold b2 in Hkept. split.
  - intros q' Hkey Hv'. apply broker_submit_known; [done|]. rewrite Hkey. by apply Hkept.
  - intros Ha. eapply settlement_planned_kept; [done..|]. by apply (Hback (key_of q) _ _ Hk).
Qed.

(** ** The worker *)
Section worker.
Context {C : Type} (consume : ScheduledProviderEffect → M C unit) (w : EffectWorker).

(** The policy that store and worker accept. *)
Definition valid_worker : Prop :=
  blank (wk_worker_id w) = false ∧ 1 <= wk_lease_ticks w <= 1000 ∧
  1 <= wk_retry_delay_ticks w <= 100 ∧ 1 <= wk_max_attempts w <= 100.
Hypothesis Hvalid : valid_worker.

(** What the consumer's answer makes of a leased effect. *)
Definition settle_effect (tick : Z) rec (answer : res unit) : ProviderEffectRecord :=
  match answer with
  | Ok _ => delivered_effect tick rec
  | Err e => rescheduled_effect tick (wk_retry_delay_ticks w) (wk_max_attempts w) (error_text e) rec
  end.

(** The consumer is handed the effects in turn. *)
Fixpoint consumed (recs : list ProviderEffectRecord) (c : C) : list (res unit) * C :=
  match recs with
  | [] => ([], c)
  | rec :: recs' =>
      let '(y, c1) := consume (er_effect rec) c in
      let '(ys, c2) := consumed recs' c1 in (y :: ys, c2)
  end.

Lemma error_text_not_blank e : blank (error_text e) = false.
Proof.
  unfold error_text. destruct (exn_name (exn_class e)) as [|c t] eqn:Hn; [by destruct (exn_class e)|].
  apply blank_head. destruct (exn_class e); cbn in Hn; by injection Hn as <- _.
Qed.

Lemma settle_effect_id tick rec y : effect_id (settle_effect tick rec y) = effect_id rec.
Proof. by destruct y. Qed.

Definition applied_id rec (answer : res unit) : option string :=
  match answer with Ok _ => Some (effect_id rec) | Err _ => None end.

Lemma work_effect_run rec b c :
  require_effect (br_effects b) (effect_id rec) (wk_worker_id w) = Ok rec → labelled (er_effect rec) →
  let '(y, c') := consume (er_effect rec) c in
  ∃ m, work_effect consume w rec (b, c) = (Ok (applied_id rec y),
    (Broker m (br_scenarios b) (br_submissions b)
       (put_effect (effect_id rec) (settle_effect (es_tick (br_effects b)) rec y) (br_effects b)), c')).
Proof.
  intros Hown [Hp Ht]. destruct Hvalid as (_ & _ & Hd & Hmax). unfold work_effect. cbv zeta.
  destruct (consume (er_effect rec) c) as [y c'] eqn:Hc.
  assert (on_snd (outcome (consume (er_effect rec))) (b, c) = (Ok y, (b, c'))) as Hrun
    by (unfold on_snd, zoom, outcome; cbn; by rewrite Hc).
  rewrite (run_bind_eq _ _ _ _ _ Hrun). clear Hrun Hc. fold (effect_id rec). destruct y as [u|e].
  all: pose (labels := [("provider", ef_provider_id (er_effect rec));
                        ("effect_type", ef_effect_type (er_effect rec))]).
  all: assert (existsb (λ kv, str_empty kv.1 || str_empty kv.2) labels = false) as Hlab
    by (cbn; by rewrite Hp, Ht).
  - rewrite (run_bind_eq _ _ _ _ _ (on_fst_run _ _ _ _ _ (broker_delivered_run _ _ _ _ Hown))).
    edestruct (on_metrics_run "railone_sandbox_worker_applied_total" labels) as [m Hm]; [done|done|].
    rewrite (run_bind_eq _ _ _ _ _ (on_fst_run _ _ _ _ _ Hm)). by exists m.
  - edestruct (broker_reschedule_run (effect_id rec) (wk_worker_id w) (wk_retry_delay_ticks w)
      (error_text e) (wk_max_attempts w) b rec) as [m0 Hm0];
      [split; [apply error_text_not_blank|done]|done|].
    rewrite (run_bind_eq _ _ _ _ _ (on_fst_run _ _ _ _ _ Hm0)).
    edestruct (on_metrics_run "railone_sandbox_worker_failures_total" labels) as [m Hm]; [done|done|].
    rewrite (run_bind_eq _ _ _ _ _ (on_fst_run _ _ _ _ _ Hm)). by exists m.
Qed.

(** The work on a batch that the worker owns. *)
Lemma work_run recs b c :
  NoDup (effect_id <$> recs) →
  (∀ rec, rec ∈ recs → require_effect (br_effects b) (effect_id rec) (wk_worker_id w) = Ok rec ∧
     labelled (er_effect rec)) →
  let '(ys, c') := consumed recs c in
  ∃ m, mapM_ (work_effect consume w) recs (b, c) = (Ok (zip_with applied_id recs ys),
    (Broker m (br_scenarios b) (br_submissions b)
       (put_effects (zip_with (settle_effect (es_tick (br_effects b))) recs ys) (br_effects b)), c')).
Proof.
  revert b c. induction recs as [|rec recs IH]; intros b c Hnd Hown; cbn [consumed mapM_].
  { exists (br_metrics b). by destruct b. }
  cbn [fmap list_fmap] in Hnd. apply NoDup_cons in Hnd as [Hnew Hnd].
  destruct (Hown rec (list_elem_of_here _ _)) as [Ho Hl].
  pose proof (work_effect_run rec b c Ho Hl) as Hw.
  destruct (consume (er_effect rec) c) as [y c1]. destruct Hw as [m0 Hw].
  rewrite (run_bind_eq _ _ _ _ _ Hw). set (b1 := Broker m0 _ _ _) in *.
  assert (∀ rec0, rec0 ∈ recs →
    require_effect (br_effects b1) (effect_id rec0) (wk_worker_id w) = Ok rec0 ∧ labelled (er_effect rec0)) as Hown1.
  { intros rec0 Hin. destruct (Hown rec0 (list_elem_of_further _ _ _ Hin)) as [Ho0 Hl0].
    split; [|done]. apply require_effect_ok in Ho0 as (Hg & ? & ?). apply require_effect_ok.
    split; [|done]. cbn. rewrite dget_dset_ne; [done|]. intros Heq. apply Hnew.
    rewrite Heq. by apply list_elem_of_fmap_2. }
  specialize (IH b1 c1 Hnd Hown1). destruct (consumed recs c1) as [ys c2]. destruct IH as [m Hm].
  rewrite (run_bind_eq _ _ _ _ _ Hm). exists m. cbn [zip_with].
  unfold put_effects. cbn [foldl]. by rewrite settle_effect_id.
Qed.

(** The batch of one run from [b], as the worker leases it. *)
Definition next_tick b : Z := es_tick (br_effects b) + 1.
Definition batch b : list ProviderEffectRecord :=
  effect_selection (next_tick b) 100 (Effects (next_tick b) (es_records (br_effects b))).
Definition leased_batch b : list ProviderEffectRecord :=
  leased_effect (wk_worker_id w) (next_tick b) (wk_lease_ticks w) <$> batch b.

Lemma leased_batch_ids b : effect_id <$> leased_batch b = effect_id <$> batch b.
Proof. unfold leased_batch. by rewrite <- list_fmap_compose. Qed.

Lemma consumed_length recs c : length (consumed recs c).1 = length recs.
Proof.
  revert c. induction recs as [|rec recs IH]; intros c; [done|]. cbn.
  destruct (consume (er_effect rec) c) as [y c1]. specialize (IH c1).
  destruct (consumed recs c1) as [ys c2]. cbn in *. by rewrite IH.
Qed.

Lemma settled_ids tick recs ys :
  length ys = length recs →
  effect_id <$> zip_with (settle_effect tick) recs ys = effect_id <$> recs.
Proof.
  revert ys. induction recs as [|rec recs IH]; intros [|y ys] Hl; try done. cbn.
  f_equal; [apply settle_effect_id|]. apply IH. cbn in Hl. lia.
Qed.

(** One run: it returns, the consumer gets the batch in order, and every
    effect of the batch is settled by the consumer's answer. *)
Lemma run_once_run b c :
  effects_wf (br_effects b) →
  let '(ys, c') := consumed (leased_batch b) c in
  ∃ b', run_once consume w (b, c) = (Ok (omap id (zip_with applied_id (leased_batch b) ys)), (b', c')) ∧
    br_effects b' = put_effects (zip_with (settle_effect (next_tick b)) (leased_batch b) ys)
      (put_effects (leased_batch b) (Effects (next_tick b) (es_records (br_effects b)))) ∧
    ∀ k rec', dget (es_records (br_effects b')) k = Some rec' ↔
      (rec' ∈ zip_with (settle_effect (next_tick b)) (leased_batch b) ys ∧ effect_id rec' = k) ∨
      (k ∉ effect_id <$> batch b ∧ dget (es_records (br_effects b)) k = Some rec').
Proof.
  intros Hwf. pose proof (consumed_length (leased_batch b) c) as Hlen.
  assert (claim_policy (wk_worker_id w) 1 (wk_lease_ticks w) 100 = Ok tt) as Hpol.
  { destruct Hvalid as (Hb & Hl & _). unfold claim_policy, within. rewrite Hb. cbn.
    destruct (Z.leb_spec 1 (wk_lease_ticks w)), (Z.leb_spec (wk_lease_ticks w) 1000); (done || lia). }
  pose proof (claim_effects_run _ _ _ _ (br_effects b) Hpol) as Hclaim. cbv zeta in Hclaim.
  fold (next_tick b) in Hclaim. fold (batch b) in Hclaim. fold (leased_batch b) in Hclaim.
  set (s1 := Effects (next_tick b) (es_records (br_effects b))) in *.
  assert (effects_wf s1) as Hwf1 by (by apply later_wf).
  assert (NoDup (effect_id <$> leased_batch b)) as Hnd
    by (rewrite leased_batch_ids; by apply effect_selection_ids).
  pose (b1 := Broker (br_metrics b) (br_scenarios b) (br_submissions b) (put_effects (leased_batch b) s1)).
  assert (∀ rec, rec ∈ leased_batch b →
    require_effect (br_effects b1) (effect_id rec) (wk_worker_id w) = Ok rec ∧ labelled (er_effect rec)) as Hown.
  { intros rec Hin. split.
    - apply require_effect_ok. split; [apply put_effects_get; [done|by left]|].
      apply list_elem_of_fmap in Hin as (rec0 & -> & _). done.
    - apply list_elem_of_fmap in Hin as (rec0 & -> & Hin).
      apply effect_selection_elem in Hin as [_ Hg]; [|done]. exact (ew_labelled _ Hwf1 _ _ Hg). }
  pose proof (work_run (leased_batch b) b1 c Hnd Hown) as Hwork.
  destruct (consumed (leased_batch b) c) as [ys c']. destruct Hwork as [m Hwork]. cbn [fst] in Hlen.
  eexists. unfold run_once, claim_due.
  rewrite (run_bind_eq _ _ _ _ _ (on_fst_run _ _ _ _ _ (on_effects_run _ _ _ _ Hclaim))).
  rewrite (run_bind_eq _ _ _ _ _ Hwork). split; [reflexivity|].
  subst b1. cbn [br_effects] in *. rewrite put_effects_tick. split; [done|]. intros k rec'.
  rewrite put_effects_get by (by rewrite settled_ids by done).
  rewrite put_effects_get by done. rewrite settled_ids, leased_batch_ids by done. cbn [es_records s1].
  split; [|naive_solver]. intros [?|[Hk [[Hin <-]|?]]]; [by left| |by right].
  destruct Hk. rewrite <- leased_batch_ids. by apply list_elem_of_fmap_2.
Qed.

(** *** Draining *)

(** How many runs an effect may still wait: until it is due, and then a retry
    delay for every attempt that is left. *)
Definition patience (tick : Z) rec : Z :=
  let left := Z.max 0 (wk_max_attempts w - er_delivery_attempts rec) * (wk_retry_delay_ticks w + 1) in
  match er_state rec with
  | EFF_PENDING => Z.max 0 (er_available_tick rec - tick) + left
  | EFF_IN_FLIGHT => Z.max 0 (default 0 (er_lease_until_tick rec) - tick) + left
  | _ => 0
  end.

Lemma patience_waits tick rec :
  effect_ok rec → ¬ effect_settled rec → effect_eligible (tick + 1) rec = false →
  patience (tick + 1) rec + 1 <= patience tick rec.
Proof.
  unfold effect_ok, effect_settled, effect_eligible, patience. intros [Hok _] Hs He.
  destruct (er_state rec); [|destruct Hok as (_ & [u Hu] & _); rewrite Hu in He |- *|naive_solver..];
    guards; cbn [default];
    generalize (Z.max 0 (wk_max_attempts w - er_delivery_attempts rec) * (wk_retry_delay_ticks w + 1));
    unfold id; intros; lia.
Qed.

Lemma patience_retried tick lease rec y :
  effect_ok rec → effect_eligible (tick + 1) rec = true →
  let rec' := settle_effect (tick + 1) (leased_effect (wk_worker_id w) (tick + 1) lease rec) y in
  effect_settled rec' ∨ patience (tick + 1) rec' + 1 <= patience tick rec.
Proof.
  destruct Hvalid as (_ & _ & Hd & Hm). intros [Hok _] He. destruct y as [u|e]; [by left; left|].
  cbn. unfold rescheduled_effect. cbn. destruct (Z.leb_spec (wk_max_attempts w) (er_delivery_attempts rec + 1));
    [by left; right|right]. unfold patience. cbn.
  assert (Z.max 0 (wk_max_attempts w - er_delivery_attempts rec) * (wk_retry_delay_ticks w + 1)
    = Z.max 0 (wk_max_attempts w - (er_delivery_attempts rec + 1)) * (wk_retry_delay_ticks w + 1)
      + (wk_retry_delay_ticks w + 1)) as -> by nia.
  apply effect_eligible_state in He as [He|He]; rewrite He; lia.
Qed.

(** What one run makes of one effect, when the batch holds all that are due. *)
Lemma run_once_effect b c k rec :
  effects_wf (br_effects b) → (length (es_records (br_effects b)) <= 100)%nat →
  dget (es_records (br_effects b)) k = Some rec →
  ∃ xs b' c' rec', run_once consume w (b, c) = (Ok xs, (b', c')) ∧
    dget (es_records (br_effects b')) k = Some rec' ∧
    if effect_eligible (next_tick b) rec
    then ∃ y, rec' = settle_effect (next_tick b)
                       (leased_effect (wk_worker_id w) (next_tick b) (wk_lease_ticks w) rec) y
    else rec' = rec.
Proof.
  intros Hwf Hlen Hk. pose proof (run_once_run b c Hwf) as Hrun.
  pose proof (consumed_length (leased_batch b) c) as Hl.
  destruct (consumed (leased_batch b) c) as [ys c']. destruct Hrun as (b' & Hrun & _ & Hget).
  cbn [fst] in Hl. eexists _, b', c'.
  assert (effects_wf (Effects (next_tick b) (es_records (br_effects b)))) as Hwf1 by (by apply later_wf).
  pose proof (ew_key _ Hwf _ _ Hk) as Hid.
  destruct (effect_eligible (next_tick b) rec) eqn:He.
  - assert (rec ∈ batch b) as [i Hi]%list_elem_of_lookup
      by (apply effect_selection_all; [done|cbn; lia|done|cbn; congruence]).
    destruct (lookup_lt_is_Some_2 ys i) as [y Hy].
    { rewrite Hl. unfold leased_batch. rewrite length_fmap. by eapply lookup_lt_Some. }
    exists (settle_effect (next_tick b) (leased_effect (wk_worker_id w) (next_tick b) (wk_lease_ticks w) rec) y).
    split; [exact Hrun|]. split; [|by exists y]. apply Hget. left. split.
    + apply list_elem_of_lookup. exists i. rewrite lookup_zip_with. unfold leased_batch.
      by rewrite list_lookup_fmap, Hi, Hy.
    + rewrite settle_effect_id. exact Hid.
  - exists rec. split; [exact Hrun|]. split; [|done]. apply Hget. right. split; [|done].
    intros (rec0 & Heq & Hin)%list_elem_of_fmap. apply effect_selection_elem in Hin as [He0 Hg]; [|done].
    cbn in Hg. rewrite <- Heq, Hk in Hg. injection Hg as <-. congruence.
Qed.

(** [n] runs of the worker, one after the other; [None] when one raises. *)
Fixpoint worker_runs (n : nat) (state : SandboxBroker * C) : option (SandboxBroker * C) :=
  match n with
  | O => Some state
  | S n' =>
      match run_once consume w state with
      | (Ok _, state') => worker_runs n' state'
      | (Err _, _) => None
      end
  end.

(** The next run finds a store in order, with no new effects. *)
Lemma run_once_keeps b c :
  effects_wf (br_effects b) →
  ∃ xs b' c', run_once consume w (b, c) = (Ok xs, (b', c')) ∧ effects_wf (br_effects b') ∧
    es_tick (br_effects b') = next_tick b ∧
    (length (es_records (br_effects b')) <= length (es_records (br_effects b)))%nat.
Proof.
  intros Hwf. pose proof (run_once_run b c Hwf) as Hrun.
  pose proof (consumed_length (leased_batch b) c) as Hl.
  destruct (consumed (leased_batch b) c) as [ys c']. destruct Hrun as (b' & Hrun & Heff & _).
  cbn [fst] in Hl. eexists _, b', c'. split; [exact Hrun|]. rewrite Heff.
  assert (effects_wf (Effects (next_tick b) (es_records (br_effects b)))) as Hwf1 by (by apply later_wf).
  assert (∀ rec, rec ∈ leased_batch b → (effect_ok rec ∧ labelled (er_effect rec)) ∧
    er_state rec = EFF_IN_FLIGHT ∧ er_lease_owner rec = Some (wk_worker_id w) ∧
    is_Some (dget (es_records (br_effects b)) (effect_id rec))) as Hin.
  { intros rec (rec0 & -> & [He Hg]%effect_selection_elem)%list_elem_of_fmap; [|done].
    destruct Hvalid as (_ & Hlease & _). split; [|by eauto]. split; [|exact (ew_labelled _ Hwf1 _ _ Hg)].
    eapply (effect_step_facts rec0); [by apply effect_leased|]. exact (ew_ok _ Hwf1 _ _ Hg). }
  assert (Forall (λ rec, effect_ok rec ∧ labelled (er_effect rec)) (leased_batch b)) as Hleased
    by (apply Forall_forall; intros rec Hr; apply Hin, Hr).
  split; [|split].
  - apply put_effects_wf; [by apply put_effects_wf|]. apply Forall_forall. intros rec' Hr.
    apply list_elem_of_lookup in Hr as [i Hi]. apply lookup_zip_with_Some in Hi as (rec & y & -> & Hrec & _).
    apply list_elem_of_lookup_2 in Hrec. destruct (Hin rec Hrec) as ([Hok Hlab] & Hst & Hown & _).
    destruct Hvalid as (_ & _ & Hd & Hm).
    assert (effect_step rec (settle_effect (next_tick b) rec y)) as Hstep
      by (destruct y; [by eapply effect_delivered|by eapply effect_rescheduled]).
    destruct (effect_step_facts _ _ Hstep) as (Hsame & _ & _ & _ & Hok'). rewrite Hsame. auto.
  - by rewrite !put_effects_tick.
  - rewrite !put_effects_length; [done|intros rec Hr; by apply Hin|]. intros rec' Hr.
    apply list_elem_of_lookup in Hr as [i Hi]. apply lookup_zip_with_Some in Hi as (rec & y & -> & Hrec & _).
    apply list_elem_of_lookup_2 in Hrec. rewrite settle_effect_id. exists rec.
    apply put_effects_get; [|by left]. rewrite leased_batch_ids. by apply effect_selection_ids.
Qed.

Lemma drained n b c :
  effects_wf (br_effects b) → (length (es_records (br_effects b)) <= 100)%nat →
  ∃ b' c', worker_runs n (b, c) = Some (b', c') ∧
    ∀ k rec, dget (es_records (br_effects b)) k = Some rec →
      effect_settled rec ∨ patience (es_tick (br_effects b)) rec < Z.of_nat n →
      ∃ rec', dget (es_records (br_effects b')) k = Some rec' ∧ effect_settled rec' ∧
        er_effect rec' = er_effect rec.
Proof.
  revert b c. induction n as [|n IH]; intros b c Hwf Hlen.
  { exists b, c. split; [done|]. intros k rec Hk [Hs|Hp]; [by exists rec|]. revert Hp. unfold patience.
    destruct Hvalid as (_ & _ & Hd & _). destruct (er_state rec); cbn; nia. }
  destruct (run_once_keeps b c Hwf) as (xs & b1 & c1 & Hrun & Hwf1 & Htick & Hlen1).
  destruct (IH b1 c1 Hwf1 ltac:(lia)) as (b' & c' & Hruns & Hall).
  exists b', c'. cbn [worker_runs]. rewrite Hrun. split; [done|]. intros k rec Hk Hs.
  destruct (run_once_effect b c k rec Hwf Hlen Hk) as (xs0 & b0 & c0 & rec1 & Hrun0 & Hk1 & Hrec1).
  rewrite Hrun in Hrun0. injection Hrun0 as <- <- <-.
  pose proof (ew_ok _ Hwf _ _ Hk) as Hok.
  assert (er_effect rec1 = er_effect rec ∧
    (effect_settled rec1 ∨ patience (es_tick (br_effects b1)) rec1 < Z.of_nat n)) as [Hsame Hs1].
  { rewrite Htick. unfold next_tick in *.
    destruct (effect_eligible (es_tick (br_effects b) + 1) rec) eqn:He.
    - destruct Hrec1 as [y ->]. split; [by destruct y|].
      destruct (patience_retried (es_tick (br_effects b)) (wk_lease_ticks w) rec y Hok He) as [Hd|Hd];
        [by left|right].
      destruct Hs as [Hs|Hs]; [|lia]. apply effect_eligible_state in He. unfold effect_settled in Hs.
      destruct He, Hs; congruence.
    - subst rec1. split; [done|]. destruct Hs as [Hs|Hs]; [by left|].
      destruct (decide (er_state rec = EFF_DELIVERED ∨ er_state rec = EFF_DEAD_LETTER)) as [Hd|Hd]; [by left|].
      right. pose proof (patience_waits (es_tick (br_effects b)) rec Hok Hd He). lia. }
  destruct (Hall k rec1 Hk1 Hs1) as (rec' & Hk' & Hset & Heff). exists rec'. split; [done|].
  split; [done|]. congruence.
Qed.
End worker.

(** C30 The worker drains the sandbox.  From every reachable broker with at
    most 100 effects, a worker whose policy the store accepts can run alone as
    often as it likes without an exception, whatever the consumer answers; and
    after more runs than an effect's patience (the ticks until it is due or
    its lease ends, and a retry delay and a run for each attempt that is left)
    the effect is delivered or dead-lettered. *)
Theorem worker_drains {C} (consume : ScheduledProviderEffect → M C unit) w ops n c :
  valid_worker w →
  let b := run_broker ops new_broker in
  (length (es_records (br_effects b)) <= 100)%nat →
  ∃ b' c', worker_runs consume w n (b, c) = Some (b', c') ∧
    ∀ k rec, dget (es_records (br_effects b)) k = Some rec →
      patience w (es_tick (br_effects b)) rec < Z.of_nat n →
      ∃ rec', dget (es_records (br_effects b')) k = Some rec' ∧ effect_settled rec' ∧
        er_effect rec' = er_effect rec.
Proof.
  intros Hw b Hlen. destruct (run_broker_wf ops) as [Hwf _].
  destruct (drained consume w Hw n b c Hwf Hlen) as (b' & c' & Hruns & Hall).
  exists b', c'. split; [done|]. intros k rec Hk Hp. eauto.
Qed.

(** The lifecycle of an effect: it is stored under its own identifier, holds a
    lease exactly while it is in flight and a delivery tick exactly when
    delivered; whatever operations follow keep its content, and change it no
    more once it is delivered or dead-lettered. *)
Theorem effect_lifecycle ops ops' k rec :
  dget (es_records (br_effects (run_broker ops new_broker))) k = Some rec →
  effect_id rec = k ∧ effect_ok rec ∧
  ∃ rec', dget (es_records (br_effects (run_broker (ops ++ ops') new_broker))) k = Some rec' ∧
    rtc effect_step rec rec' ∧ er_effect rec' = er_effect rec ∧ effect_ok rec' ∧
    er_delivery_attempts rec <= er_delivery_attempts rec' ∧ (effect_settled rec → rec' = rec).
Proof.
  intros Hk. destruct (run_broker_wf ops) as [Hwf _]. pose proof (ew_ok _ Hwf _ _ Hk) as Hok.
  split; [by eapply ew_key|]. split; [done|].
  destruct (run_broker_kept ops' (run_broker ops new_broker)) as [Heff _].
  destruct (proj2 (proj2 (Heff Hwf)) _ _ Hk) as (rec' & Hk' & Hsteps). exists rec'.
  unfold run_broker in *. rewrite foldl_app. destruct (effect_steps_facts _ _ Hsteps) as (He & _ & Ha & Hs & Hok').
  auto 10.
Qed.

(** ** Demonstration data: a bank transfer, a mobile payment, a flaky consumer *)
Module DemoSandbox.
Definition request (provider rail rtt key : string) (amount : Z) : ProviderExecutionRequest :=
  {| pr_idempotency_key := key; pr_request_sha256 := "HASH-" +:+ key; pr_utt_id := "UTT-1";
     pr_rtt_id := rtt; pr_attempt_number := 1; pr_provider_id := provider;
     pr_adapter_binding_ref := "SIM@1.0.0"; pr_rail := rail; pr_amount_minor := amount;
     pr_currency_from := "KES"; pr_receive_amount_minor := amount; pr_currency_to := "KES";
     pr_source_institution_id := "BANK-A"; pr_destination_institution_id := "BANK-B";
     pr_payer_account_reference := "SIM-ACC-1"; pr_beneficiary_account_reference := "SIM-ACC-2" |}.
Definition transfer : ProviderExecutionRequest :=
  request "BANK-KE" "PESALINK" "RTT-1" "R1IDEM-1" 70000.
Definition payment : ProviderExecutionRequest :=
  request "MPESA-KE" "MOBILE_MONEY" "RTT-2" "R1IDEM-2" 12345.

Definition transferred := Eval vm_compute in broker_submit transfer (run_broker [] new_broker).
Definition accepted : ProviderSubmissionResult := Eval vm_compute in
  from_ok (simulated OUT_UNKNOWN EmptyString None) transferred.1.
Definition two_payments : list broker_op :=
  [BrSubmit transfer; BrScenario "RTT-2" TIMEOUT_THEN_SUCCESS; BrSubmit payment].

(** It refuses its first effect. *)
Definition flaky (effect : ScheduledProviderEffect) : M nat unit := λ n,
  (if Nat.eqb n 0 then Err (Exn RuntimeError "not yet") else Ok tt, S n).
Definition demo_worker : EffectWorker := Worker "worker-1" 1 2 5.
End DemoSandbox.
Import DemoSandbox.

Lemma transferred_eq : broker_submit transfer (run_broker [] new_broker) = (Ok accepted, transferred.2).
Proof. vm_compute. reflexivity. Qed.

(** The transfer is replayed after the worker had its effect. *)
Lemma simulated_submission_idempotent_witness :
  out_outcome accepted = OUT_ACCEPTED ∧
  (broker_submit transfer (run_broker [BrAdvance 1] transferred.2)).1 = Ok accepted ∧
  settlement_planned (run_broker [BrAdvance 1] transferred.2) "BANK-KE" (out_external_reference accepted).
Proof.
  destruct (simulated_submission_idempotent [] transfer accepted transferred.2 [BrAdvance 1] transferred_eq)
    as [Hreplay Hplanned].
  split; [reflexivity|]. split; [|apply Hplanned; reflexivity].
  destruct (Hreplay transfer eq_refl eq_refl) as [m Hm]. rewrite Hm. reflexivity.
Defined.

(** Three effects, of which one is retried and one is a timeout, within 13 runs. *)
Lemma worker_drains_witness :
  let b := run_broker two_payments new_broker in
  length (es_records (br_effects b)) = 3%nat ∧
  Forall (λ kv, patience demo_worker (es_tick (br_effects b)) kv.2 < 13) (es_records (br_effects b)) ∧
  ∃ b' c', worker_runs flaky demo_worker 13 (b, 0%nat) = Some (b', c') ∧
    ∀ k rec, dget (es_records (br_effects b)) k = Some rec →
      patience demo_worker (es_tick (br_effects b)) rec < 13 →
      ∃ rec', dget (es_records (br_effects b')) k = Some rec' ∧ effect_settled rec' ∧
        er_effect rec' = er_effect rec.
Proof.
  split; [vm_compute; reflexivity|]. split.
  - assert (forallb (λ kv, patience demo_worker (es_tick (br_effects (run_broker two_payments new_broker)))
      kv.2 <? 13) (es_records (br_effects (run_broker two_payments new_broker))) = true) as Hall
      by (vm_compute; reflexivity).
    apply Forall_forall. intros kv Hin%list_elem_of_In.
    exact (proj1 (Z.ltb_lt _ _) (proj1 (forallb_forall _ _) Hall kv Hin)).
  - refine (worker_drains flaky demo_worker two_payments 13 0%nat _ _).
    + vm_compute. intuition discriminate.
    + apply Nat.leb_le. vm_compute. reflexivity.
Defined.

(** The guard compares [rtt_id] with idempotency keys: the scenario of a
    submitted attempt changes. *)
Lemma scenario_changes_after_submission :
  pr_rtt_id transfer = "RTT-1" ∧
  (set_scenario "RTT-1" UNKNOWN_AFTER_SEND transferred.2).1 = Ok tt.
Proof. split; vm_compute; reflexivity. Qed.

(** The simulated mobile settlement reports whole shillings: 123.45 and 123.00
    are settled by the same message. *)
Lemma settled_amount_truncated external originator transaction_id :
  mpesa_message payment external originator transaction_id TYPE_SETTLED
  = mpesa_message (request "MPESA-KE" "MOBILE_MONEY" "RTT-2" "R1IDEM-2" 12300)
      external originator transaction_id TYPE_SETTLED.
Proof. reflexivity. Qed.
