(* ===== verification/Security.v ===== *)
(** [railone_security]: envelope encryption of stored contact data.  AES-GCM
    ([cryptography]) is a parameter, the class [AesGcm]; so are the random
    bytes of a call ([secrets.token_bytes]).  [models.py]: the envelope;
    [key_provider.py]: the boundary of key-encryption keys, the in-memory
    provider and the remote one; [envelope.py]: the service; [store.py],
    [vaults.py], [notification.py]: what is kept encrypted.
    [railone_providers/encrypted_credentials.py]: the provider's credentials. *)

From Stdlib Require Import Ascii String Strings.Byte.
From S2P Require Import Prelude.
From S2P Require Import PyBase.
From S2P Require Import PyDict.
From S2P Require Import Bytes.
From S2P Require Import Sha256.
From S2P Require Import CanonicalJson.
From S2P Require Import PyText.
From S2P Require Import OperationsStore.

(** ** [base64.b64decode(value, altchars=b"-_", validate=True)], as CPython
    3.11 decodes: nothing outside the alphabet, no leading padding, nothing
    after a pad sequence that completes a group *)
Fixpoint a2b_strict (s : string) (quad_pos : nat) (leftchar : Z) (pads : nat) (padding : bool)
    : res bytes :=
  match s with
  | EmptyString =>
      if (quad_pos =? 0)%nat then mret [] else raise BinasciiError "Incorrect padding"
  | String c s' =>
      if Ascii.eqb c b64_pad then
        if (2 <=? quad_pos)%nat && (4 <=? quad_pos + S pads)%nat
        then if str_empty s' then mret [] else raise BinasciiError "Excess data after padding"
        else a2b_strict s' quad_pos leftchar (if (2 <=? quad_pos)%nat then S pads else pads) true
      else
        match b64_value c with
        | None => raise BinasciiError "Only base64 data is allowed"
        | Some v =>
            if padding then raise BinasciiError "Discontinuous padding not allowed"
            else match quad_pos with
            | 0%nat => a2b_strict s' 1 v 0 false
            | 1%nat => l ← a2b_strict s' 2 (v mod 16) 0 false;
                       mret (byte_of (leftchar * 4 + v / 16) :: l)
            | 2%nat => l ← a2b_strict s' 3 (v mod 4) 0 false;
                       mret (byte_of (leftchar * 16 + v / 4) :: l)
            | _ => l ← a2b_strict s' 0 0 0 false;
                   mret (byte_of (leftchar * 64 + v) :: l)
            end
        end
  end.
Definition b64decode_strict (s : string) : res bytes :=
  _ ← raise_if (negb (str_forall (λ c, code c <? 128) s)) ValueError
        "string argument should contain only ASCII characters";
  _ ← raise_if (startswith s "=") BinasciiError "Leading padding not allowed";
  a2b_strict s 0 0 0 false.

(** ** [models.py] *)
Inductive EncryptionPurpose :=
  | ACCOUNT_ENDPOINT | CONTACT_DESTINATION | PROVIDER_CREDENTIAL | NOTIFICATION_BODY.
#[global] Instance EncryptionPurpose_eq_dec : EqDecision EncryptionPurpose.
Proof. solve_decision. Defined.
Definition all_purposes : list EncryptionPurpose :=
  [ACCOUNT_ENDPOINT; CONTACT_DESTINATION; PROVIDER_CREDENTIAL; NOTIFICATION_BODY].
Definition EncryptionPurpose_value (p : EncryptionPurpose) : string :=
  match p with
  | ACCOUNT_ENDPOINT => "ACCOUNT_ENDPOINT" | CONTACT_DESTINATION => "CONTACT_DESTINATION"
  | PROVIDER_CREDENTIAL => "PROVIDER_CREDENTIAL" | NOTIFICATION_BODY => "NOTIFICATION_BODY"
  end.

Definition byte_len (l : bytes) : Z := Z.of_nat (length l).

Definition decode_base64url (name value : string) (minimum maximum : Z) : res bytes :=
  _ ← raise_if (str_empty value) ValueError (name +:+ " must be non-empty base64url text");
  _ ← raise_if (maximum * 4 / 3 + 8 <? char_len value) ValueError
        (name +:+ " exceeds the encoded size policy");
  decoded ← catch_res (λ k, subclass k ValueError) (b64decode_strict (b64_repad value))
    (λ _, raise ValueError (name +:+ " is not valid base64url"));
  _ ← raise_if (negb ((minimum <=? byte_len decoded) && (byte_len decoded <=? maximum))) ValueError
        (name +:+ " is outside the byte-length policy");
  mret decoded.

Record EncryptedEnvelope := {
  en_version : Z;
  en_algorithm : string;
  en_key_id : string;
  en_purpose : EncryptionPurpose;
  en_wrapped_data_key : string;
  en_nonce : string;
  en_ciphertext : string;
  en_aad_sha256 : string;
}.
#[global] Instance EncryptedEnvelope_eq_dec : EqDecision EncryptedEnvelope.
Proof. solve_decision. Defined.
Implicit Types (env : EncryptedEnvelope).

(** [bytes.fromhex] accepts pairs of digits with white space between them. *)
Definition hex_digit (c : ascii) : bool :=
  is_digit c || (let l := code (lower_char c) in (97 <=? l) && (l <=? 102)).
Definition hex_space (c : ascii) : bool := let n := code c in (n =? 32) || ((9 <=? n) && (n <=? 13)).
Fixpoint fromhex_ok (s : string) : bool :=
  match s with
  | EmptyString => true
  | String c t =>
      if hex_space c then fromhex_ok t
      else match t with
      | String d u => hex_digit c && hex_digit d && fromhex_ok u
      | EmptyString => false
      end
  end.

(** [validate] *)
Definition validate_envelope env : res unit :=
  _ ← raise_if (negb (en_version env =? 1) || negb (String.eqb (en_algorithm env) "A256GCM")) ValueError
        "unsupported encrypted-envelope profile";
  _ ← raise_if (negb ((1 <=? char_len (en_key_id env)) && (char_len (en_key_id env) <=? 128))) ValueError
        "encryption key_id is invalid";
  _ ← decode_base64url "wrapped_data_key" (en_wrapped_data_key env) 29 512;
  _ ← decode_base64url "nonce" (en_nonce env) 12 12;
  _ ← decode_base64url "ciphertext" (en_ciphertext env) 16 1048592;
  _ ← raise_if (negb (char_len (en_aad_sha256 env) =? 64)) ValueError
        "aad_sha256 must be a SHA-256 hex digest";
  raise_if (negb (fromhex_ok (en_aad_sha256 env))) ValueError "aad_sha256 must be hexadecimal".

(** [to_dict] *)
Definition envelope_to_dict env : res pyval :=
  _ ← validate_envelope env;
  mret (pdict [("version", PInt (en_version env)); ("algorithm", PStr (en_algorithm env));
               ("key_id", PStr (en_key_id env)); ("purpose", PStr (EncryptionPurpose_value (en_purpose env)));
               ("wrapped_data_key", PStr (en_wrapped_data_key env)); ("nonce", PStr (en_nonce env));
               ("ciphertext", PStr (en_ciphertext env)); ("aad_sha256", PStr (en_aad_sha256 env))]).

(** ** AES-GCM and the keys that wrap data keys *)

(** [AESGCM(key).encrypt(nonce, data, aad)] and [.decrypt]: a key, nonce or
    ciphertext that the library refuses raises [ValueError], a failed
    authentication [InvalidTag]. *)
Class AesGcm := {
  gcm_encrypt : bytes → bytes → bytes → bytes → bytes;
  gcm_decrypt : bytes → bytes → bytes → bytes → res bytes;
}.
(** What its documentation says: decryption inverts encryption, and the tag is
    16 bytes. *)
Class AesGcmLaws `{AesGcm} := {
  gcm_inverse : ∀ key nonce data aad, length key = 32%nat → length nonce = 12%nat →
    gcm_decrypt key nonce (gcm_encrypt key nonce data aad) aad = Ok data;
  gcm_tag : ∀ key nonce data aad, length (gcm_encrypt key nonce data aad) = (length data + 16)%nat;
}.

(** [KeyEncryptionProvider]; [wrap_key] is given its random bytes. *)
Class KeyEncryptionProvider (K : Type) := {
  wrap_key : K → bytes → string → bytes → bytes → res bytes;
  unwrap_key : K → string → bytes → bytes → res bytes;
}.
(** What a provider in order promises to the service: what it wraps it can
    unwrap. *)
Class KeyEncryptionSpec (K : Type) `{!KeyEncryptionProvider K} := {
  kek_ok : K → Prop;
  wrap_inverse : ∀ k random id data_key context wrapped, kek_ok k → length random = 12%nat →
    wrap_key k random id data_key context = Ok wrapped → unwrap_key k id wrapped context = Ok data_key;
}.

(** [RemoteKeyEncryptionProvider]: a client of a key service. *)
Record IsolatedKeyServiceClient := {
  client_wrap : bytes → string → bytes → bytes → res bytes;
  client_unwrap : string → bytes → bytes → res bytes;
}.
#[global] Instance RemoteKeyEncryptionProvider : KeyEncryptionProvider IsolatedKeyServiceClient := {
  wrap_key client random id data_key context :=
    _ ← raise_if (negb (byte_len data_key =? 32)) ValueError "AES-256 data key must contain 32 bytes";
    client_wrap client random id data_key context;
  unwrap_key client id wrapped context :=
    value ← client_unwrap client id wrapped context;
    _ ← raise_if (negb (byte_len value =? 32)) ValueError
          "isolated key service returned an invalid data key";
    mret value;
}.

(** [InMemoryAesGcmKeyEncryptionProvider] *)
Definition KekStore : Type := dict string bytes.
Definition register_kek (id : string) (key : bytes) : M KekStore unit :=
  _ ← raise_if (blank id || (128 <? char_len id)) ValueError "key_id is invalid";
  _ ← raise_if (negb (byte_len key =? 32)) ValueError "AES-256 KEK must contain exactly 32 bytes";
  keys ← getS;
  _ ← raise_if (dmem keys id) ValueError "key_id is already registered";
  putS (dset keys id key).
Definition require_kek (keys : KekStore) (id : string) : res bytes :=
  require (dget keys id) LookupError ("encryption key is unavailable: " +:+ id).

(** [b"RAILONE-DEK-WRAP-V1\x00"] *)
Definition wrap_domain : bytes := encode_utf8 "RAILONE-DEK-WRAP-V1" ++ [Byte.x00].

#[global] Instance InMemoryAesGcmKeyEncryptionProvider `{AesGcm} : KeyEncryptionProvider KekStore := {
  wrap_key keys random id data_key context :=
    _ ← raise_if (negb (byte_len data_key =? 32)) ValueError "AES-256 data key must contain exactly 32 bytes";
    key ← require_kek keys id;
    mret (random ++ gcm_encrypt key random data_key (wrap_domain ++ context));
  unwrap_key keys id wrapped context :=
    _ ← raise_if (negb ((40 <=? byte_len wrapped) && (byte_len wrapped <=? 512))) ValueError
          "wrapped data key is outside policy";
    key ← require_kek keys id;
    value ← gcm_decrypt key (take 12 wrapped) (drop 12 wrapped) (wrap_domain ++ context);
    _ ← raise_if (negb (byte_len value =? 32)) ValueError "unwrapped data key is invalid";
    mret value;
}.

(** ** [EnvelopeEncryptionService] *)

(** The random bytes of one encryption. *)
Record Randomness := Random {
  rn_data_key : bytes;
  rn_nonce : bytes;
  rn_wrap : bytes;
}.

(** [_encode] *)
Definition b64_encode (l : bytes) : string := rstrip_pad (urlsafe_b64encode l).

(** [_context] *)
Definition context_text (name value : string) : res unit :=
  raise_if (blank value || (256 <? char_len value)) ValueError (name +:+ " is invalid").
Definition context_values (purpose : EncryptionPurpose) (record_id owner_id field_name : string)
    : pyval :=
  pdict [("domain", PStr "RAILONE-ENVELOPE-AAD-V1"); ("purpose", PStr (EncryptionPurpose_value purpose));
         ("record_id", PStr record_id); ("owner_id", PStr owner_id); ("field_name", PStr field_name)].
Definition envelope_context (purpose : EncryptionPurpose) (record_id owner_id field_name : string)
    : res bytes :=
  _ ← context_text "record_id" record_id;
  _ ← context_text "owner_id" owner_id;
  _ ← context_text "field_name" field_name;
  canonical_json_bytes (context_values purpose record_id owner_id field_name).

Section service.
Context `{AesGcm} {K : Type} `{!KeyEncryptionProvider K}.

Record EnvelopeEncryptionService := Encryption {
  sv_keys : K;
  sv_active_key_ids : dict EncryptionPurpose string;
}.
Implicit Types (svc : EnvelopeEncryptionService).

Definition EnvelopeEncryptionService_init (keys : K) (active : dict EncryptionPurpose string)
    : res EnvelopeEncryptionService :=
  _ ← raise_if (negb (forallb (λ p, dmem active p) all_purposes)) ValueError
        "active encryption key mapping is incomplete";
  mret (Encryption keys active).

Definition max_plaintext : Z := 1048576.

Definition encrypt svc (r : Randomness) (purpose : EncryptionPurpose)
    (record_id owner_id field_name : string) (plaintext : bytes) : res EncryptedEnvelope :=
  _ ← raise_if (negb ((1 <=? byte_len plaintext) && (byte_len plaintext <=? max_plaintext))) ValueError
        "sensitive plaintext is outside the size policy";
  context ← envelope_context purpose record_id owner_id field_name;
  key_id ← require (dget (sv_active_key_ids svc) purpose) KeyError (EncryptionPurpose_value purpose);
  let ciphertext := gcm_encrypt (rn_data_key r) (rn_nonce r) plaintext context in
  wrapped ← wrap_key (sv_keys svc) (rn_wrap r) key_id (rn_data_key r) (sha256 context);
  let result :=
    {| en_version := 1; en_algorithm := "A256GCM"; en_key_id := key_id; en_purpose := purpose;
       en_wrapped_data_key := b64_encode wrapped; en_nonce := b64_encode (rn_nonce r);
       en_ciphertext := b64_encode ciphertext; en_aad_sha256 := sha256_hex context |} in
  _ ← validate_envelope result;
  mret result.

Definition encrypt_text svc r purpose (record_id owner_id field_name plaintext : string)
    : res EncryptedEnvelope :=
  _ ← raise_if (str_empty plaintext) ValueError "sensitive plaintext must be non-empty text";
  data ← utf8_encode plaintext;
  encrypt svc r purpose record_id owner_id field_name data.

(** [except (InvalidTag, ValueError, LookupError)] *)
Definition authentication_failure (k : exn_kind) : bool :=
  subclass k InvalidTag || subclass k ValueError || subclass k LookupError.

(** The body of the [try]. *)
Definition open_envelope svc env (context : bytes) : res bytes :=
  wrapped ← decode_base64url "wrapped_data_key" (en_wrapped_data_key env) 29 512;
  nonce ← decode_base64url "nonce" (en_nonce env) 12 12;
  ciphertext ← decode_base64url "ciphertext" (en_ciphertext env) 16 1048592;
  data_key ← unwrap_key (sv_keys svc) (en_key_id env) wrapped (sha256 context);
  gcm_decrypt data_key nonce ciphertext context.

(** [hmac.compare_digest] sees two ASCII texts: the envelope is validated. *)
Definition decrypt svc env (purpose : EncryptionPurpose) (record_id owner_id field_name : string)
    : res bytes :=
  _ ← validate_envelope env;
  _ ← raise_if (negb (bool_decide (en_purpose env = purpose))) EnvelopeIntegrityError
        "encrypted value purpose mismatch";
  context ← envelope_context purpose record_id owner_id field_name;
  _ ← raise_if (negb (String.eqb (sha256_hex context) (en_aad_sha256 env))) EnvelopeIntegrityError
        "encrypted value context mismatch";
  catch_res authentication_failure (open_envelope svc env context)
    (λ _, raise EnvelopeIntegrityError "encrypted value failed authentication").

Definition decrypt_text svc env purpose (record_id owner_id field_name : string) : res string :=
  catch_res (λ k, subclass k UnicodeDecodeError)
    (data ← decrypt svc env purpose record_id owner_id field_name; decode_utf8 data)
    (λ _, raise EnvelopeIntegrityError "decrypted value is not UTF-8").

(** ** [InMemoryEncryptedSecretStore] *)
Record EncryptedSecretRecord := {
  sc_vault_name : string;
  sc_record_id : string;
  sc_owner_id : string;
  sc_envelope : EncryptedEnvelope;
  sc_plaintext_sha256 : string;
}.
#[global] Instance EncryptedSecretRecord_eq_dec : EqDecision EncryptedSecretRecord.
Proof. solve_decision. Defined.
Definition SecretStore : Type := dict (string * string) EncryptedSecretRecord.

Definition put_secret (record : EncryptedSecretRecord) : M SecretStore EncryptedSecretRecord :=
  let key := (sc_vault_name record, sc_record_id record) in
  records ← getS;
  match dget records key with
  | Some existing =>
      _ ← raise_if (negb (bool_decide (existing = record))) RuntimeError
            "encrypted secret immutability conflict";
      mret existing
  | None =>
      _ ← putS (dset records key record);
      mret record
  end.
Definition require_secret (records : SecretStore) (vault_name record_id : string)
    : res EncryptedSecretRecord :=
  require (dget records (vault_name, record_id)) LookupError "encrypted secret was not found".

(** ** [vaults.py] *)

(** Encrypting a secret and putting its record, as every vault does. *)
Definition store_secret svc r (purpose : EncryptionPurpose) (vault record_id owner_id field_name
    secret : string) : M SecretStore unit :=
  envelope ← lift (encrypt_text svc r purpose record_id owner_id field_name secret);
  data ← lift (utf8_encode secret);
  _ ← put_secret {| sc_vault_name := vault; sc_record_id := record_id; sc_owner_id := owner_id;
                    sc_envelope := envelope; sc_plaintext_sha256 := sha256_hex data |};
  mret tt.

Definition account_record_id (institution_id account_binding_id : string) : res string :=
  _ ← raise_if (blank institution_id || blank account_binding_id) ValueError
        "institution and account binding identifiers are required";
  mret (institution_id +:+ ":" +:+ account_binding_id).
Definition register_account svc r (institution_id account_binding_id provider_reference : string)
    : M SecretStore unit :=
  record_id ← lift (account_record_id institution_id account_binding_id);
  store_secret svc r ACCOUNT_ENDPOINT "ACCOUNT_ENDPOINT" record_id institution_id
    "provider_account_reference" provider_reference.
Definition resolve_account svc (records : SecretStore) (institution_id account_binding_id : string)
    : res string :=
  record_id ← account_record_id institution_id account_binding_id;
  record ← require_secret records "ACCOUNT_ENDPOINT" record_id;
  _ ← raise_if (negb (String.eqb (sc_owner_id record) institution_id)) PermissionError
        "account endpoint owner mismatch";
  decrypt_text svc (sc_envelope record) ACCOUNT_ENDPOINT record_id institution_id
    "provider_account_reference".

Definition register_contact svc r (contact_binding_id owner_id sms_destination : string)
    : M SecretStore unit :=
  store_secret svc r CONTACT_DESTINATION "CONTACT_DESTINATION" contact_binding_id owner_id
    "sms_destination" sms_destination.
Definition resolve_contact svc (records : SecretStore) (contact_binding_id : string) : res string :=
  record ← require_secret records "CONTACT_DESTINATION" contact_binding_id;
  decrypt_text svc (sc_envelope record) CONTACT_DESTINATION contact_binding_id (sc_owner_id record)
    "sms_destination".

Definition credential_record_id (provider_id credential_name : string) : res string :=
  _ ← raise_if (blank provider_id || blank credential_name) ValueError
        "provider and credential identifiers are required";
  mret (provider_id +:+ ":" +:+ credential_name).
Definition register_credential svc r (provider_id credential_name secret : string)
    : M SecretStore unit :=
  record_id ← lift (credential_record_id provider_id credential_name);
  store_secret svc r PROVIDER_CREDENTIAL "PROVIDER_CREDENTIAL" record_id provider_id credential_name
    secret.
Definition resolve_credential svc (records : SecretStore) (provider_id credential_name : string)
    : res string :=
  record_id ← credential_record_id provider_id credential_name;
  record ← require_secret records "PROVIDER_CREDENTIAL" record_id;
  _ ← raise_if (negb (String.eqb (sc_owner_id record) provider_id)) PermissionError
        "provider credential owner mismatch";
  decrypt_text svc (sc_envelope record) PROVIDER_CREDENTIAL record_id provider_id credential_name.

(** The vault as the resolver of [Operations]. *)
Record EncryptedAccountEndpointVault := AccountVault {
  va_encryption : EnvelopeEncryptionService;
  va_store : SecretStore;
}.
#[global] Instance resolve_vault : AccountEndpointResolver EncryptedAccountEndpointVault :=
  λ vault institution_id account_binding_id,
    resolve_account (va_encryption vault) (va_store vault) institution_id account_binding_id.

(** ** [NotificationBodyProtector] *)
Definition protect_body svc r (notification_id utt_id body : string) : res EncryptedEnvelope :=
  encrypt_text svc r NOTIFICATION_BODY notification_id utt_id "rendered_body" body.
Definition reveal_body svc (notification_id utt_id : string) env (expected_sha256 : string) : res string :=
  body ← decrypt_text svc env NOTIFICATION_BODY notification_id utt_id "rendered_body";
  data ← utf8_encode body;
  _ ← raise_if (negb (String.eqb (sha256_hex data) expected_sha256)) EnvelopeIntegrityError
        "notification body fingerprint mismatch";
  mret body.

(** ** [EncryptedMpesaCredentialProvider] *)
Record MpesaCredentials := {
  mc_consumer_key : string;
  mc_consumer_secret : string;
  mc_initiator_name : string;
  mc_security_credential : string;
  mc_business_shortcode : string;
}.
Definition credential_fields : list string :=
  ["consumer_key"; "consumer_secret"; "initiator_name"; "security_credential"; "business_shortcode"].

(** [{**defaults, **references}], which must have no other field. *)
Definition credential_references (references : dict string string) : res (dict string string) :=
  let merged := foldl (λ d kv, dset d kv.1 kv.2) ((λ f, (f, f)) <$> credential_fields) references in
  _ ← raise_if (negb (forallb (λ f, bool_decide (f ∈ credential_fields)) merged.*1)) ValueError
        "M-PESA credential reference mapping is invalid";
  mret merged.
Definition get_credentials svc (records : SecretStore) (references : dict string string)
    : res MpesaCredentials :=
  let value field :=
    name ← require (dget references field) KeyError field;
    resolve_credential svc records "MPESA-KE" name in
  consumer_key ← value "consumer_key";
  consumer_secret ← value "consumer_secret";
  initiator_name ← value "initiator_name";
  security_credential ← value "security_credential";
  business_shortcode ← value "business_shortcode";
  mret {| mc_consumer_key := consumer_key; mc_consumer_secret := consumer_secret;
          mc_initiator_name := initiator_name; mc_security_credential := security_credential;
          mc_business_shortcode := business_shortcode |}.
End service.
Arguments EnvelopeEncryptionService : clear implicits.
Arguments EncryptedAccountEndpointVault : clear implicits.
