(* ===== verification/SecurityFacts.v ===== *)
(** Facts about the envelopes of [Security]: strict base64 inverts the
    encoding, a provider of keys unwraps what it wrapped, and a plaintext comes
    back from the envelope it was sealed in. *)

From Stdlib Require Import Ascii String Strings.Byte.
From S2P Require Import Prelude.
From S2P Require Import PyBase.
From S2P Require Import PyDict.
From S2P Require Import Bytes.
From S2P Require Import Sha256.
From S2P Require Import CanonicalJson.
From S2P Require Import CanonicalFacts.
From S2P Require Import PyText.
From S2P Require Import OperationsStore.
From S2P Require Import Security.

Implicit Types (env : EncryptedEnvelope) (r : Randomness).

(** ** base64url texts *)
Lemma a2b_strict_encode l : a2b_strict (urlsafe_b64encode l) 0 0 0 false = Ok l.
Proof.
  induction l as [|a|a b|a b c l IH] using bytes_ind3; [done|..]; bz_ranges.
  all: cbn [urlsafe_b64encode]; b64_chars; cbn [a2b_strict];
    repeat match goal with H : _ = _ |- _ => rewrite H end; cbn.
  all: unfold mret, res_ret; repeat f_equal; apply byte_of_eq; div_lia.
Qed.

Lemma encoded_head l : startswith (urlsafe_b64encode l) "=" = false.
Proof.
  destruct l as [|a [|b [|c l]]]; [done|..]; bz_ranges.
  all: cbn [urlsafe_b64encode startswith String.prefix]; unfold startswith; cbn [String.prefix];
    destruct (ascii_dec "=" (b64_char (bz a / 4))) as [Heq|]; [|done].
  all: destruct (b64_char_spec (bz a / 4)) as (_ & Hc & _); [div_lia|].
  all: by rewrite <- Heq in Hc.
Qed.

Lemma b64_encode_text l : b64_encode l = b64_text l.
Proof. apply rstrip_pad_encode. Qed.

Lemma b64_text_empty l : str_empty (b64_text l) = (byte_len l =? 0).
Proof.
  destruct l as [|a [|b [|c l]]]; cbn [b64_text str_empty]; [done|..].
  all: symmetry; apply Z.eqb_neq; unfold byte_len; cbn [length]; lia.
Qed.

Lemma b64_text_len l : 3 * len (b64_text l) <= 4 * byte_len l + 2.
Proof.
  unfold len, byte_len.
  induction l as [|a|a b|a b c l IH] using bytes_ind3; cbn [b64_text String.length length] in *; lia.
Qed.

Lemma decode_encoded name l minimum maximum :
  1 <= minimum <= byte_len l → byte_len l <= maximum →
  decode_base64url name (b64_encode l) minimum maximum = Ok l.
Proof.
  intros Hmin Hmax. unfold decode_base64url. rewrite b64_encode_text, b64_text_empty.
  destruct (Z.eqb_spec (byte_len l) 0); [lia|].
  pose proof (char_len_bounds (b64_text l)). pose proof (b64_text_len l).
  destruct (Z.ltb_spec (maximum * 4 / 3 + 8) (char_len (b64_text l))) as [Hlt|_]; [div_lia|].
  rewrite repad_text. unfold b64decode_strict. rewrite text_ascii, encoded_head, a2b_strict_encode.
  cbn. destruct (Z.leb_spec minimum (byte_len l)), (Z.leb_spec (byte_len l) maximum); done || lia.
Qed.

(** A field that decodes holds the bytes that were encoded, within the bounds. *)
Lemma decoded_field name l minimum maximum v :
  decode_base64url name (b64_encode l) minimum maximum = Ok v → v = l ∧ minimum <= byte_len l <= maximum.
Proof.
  unfold decode_base64url. rewrite b64_encode_text, repad_text. unfold b64decode_strict.
  rewrite text_ascii, encoded_head, a2b_strict_encode. intros Hd. inv_ok Hd. guards.
  match goal with H : catch_res _ _ _ = Ok ?w |- _ => injection H as <- end. split; [done|lia].
Qed.

(** ** Hexadecimal texts *)
Lemma hex_digit_char n : 0 <= n < 16 →
  hex_digit (hex_char n) = true ∧ hex_space (hex_char n) = false ∧ starts_char (hex_char n) = true.
Proof.
  intros Hn.
  assert (forallb (λ k, let c := hex_char (Z.of_nat k) in
    hex_digit c && negb (hex_space c) && starts_char c) (seq 0 16) = true) as Hall by reflexivity.
  rewrite forallb_forall in Hall. specialize (Hall (Z.to_nat n) ltac:(apply in_seq; lia)).
  rewrite Z2Nat.id in Hall by lia. cbv beta zeta in Hall. guards. done.
Qed.

Lemma fromhex_hex l : fromhex_ok (hex l) = true ∧ char_len (hex l) = 2 * byte_len l.
Proof.
  unfold byte_len. induction l as [|b l [IHf IHl]]; [done|]. cbn [hex fromhex_ok char_len].
  pose proof (bz_range b).
  destruct (hex_digit_char (bz b / 16)) as (-> & -> & ->); [div_lia|].
  destruct (hex_digit_char (bz b mod 16)) as (-> & _ & ->); [div_lia|].
  rewrite IHf, IHl. cbn [length]. split; [done|lia].
Qed.

(** ** Contexts *)
Lemma context_text_inj purpose record owner field purpose' record' owner' field' context :
  envelope_context purpose record owner field = Ok context →
  envelope_context purpose' record' owner' field' = Ok context →
  purpose = purpose' ∧ record = record' ∧ owner = owner' ∧ field = field'.
Proof.
  unfold envelope_context. intros Hc Hc'. inv_ok Hc. inv_ok Hc'.
  match goal with H : canonical_json_bytes (context_values purpose _ _ _) = _,
    H' : canonical_json_bytes (context_values purpose' _ _ _) = _ |- _ =>
    pose proof (canonical_bytes_inj _ _ _ H H') as Hs end.
  unfold py_same in Hs. injection Hs. intros -> Hp -> ->. by destruct purpose, purpose'.
Qed.

(** ** Keys that wrap keys *)
#[global] Opaque wrap_domain.

Definition kek_sizes (keys : KekStore) : Prop :=
  ∀ id key, dget keys id = Some key → length key = 32%nat.

Lemma kek_wrap_inverse `{AesGcmLaws} (keys : KekStore) random id data_key context wrapped :
  kek_sizes keys → length random = 12%nat →
  wrap_key keys random id data_key context = Ok wrapped → unwrap_key keys id wrapped context = Ok data_key.
Proof.
  intros Hok Hr Hw. cbn in Hw |- *. inv_ok Hw. guards.
  match goal with H : byte_len data_key = 32 |- _ => unfold byte_len in H; rename H into Hd end.
  match goal with H : require_kek keys id = Ok ?k |- _ =>
    rewrite H; unfold require_kek in H; inv_ok H; rename k into key, H into Hk end.
  pose proof (gcm_tag key random data_key (wrap_domain ++ context)) as Htag.
  assert (byte_len (random ++ gcm_encrypt key random data_key (wrap_domain ++ context)) = 60) as ->
    by (unfold byte_len; rewrite length_app; lia).
  cbn. rewrite take_app_length', drop_app_length' by done. rewrite gcm_inverse by eauto. cbn.
  assert (byte_len data_key = 32) as -> by done. done.
Qed.

#[global] Instance kek_in_order `{AesGcmLaws} : KeyEncryptionSpec KekStore :=
  {| kek_ok := kek_sizes; wrap_inverse := kek_wrap_inverse |}.

Lemma register_kek_kept id key keys x keys' :
  register_kek id key keys = (x, keys') →
  (kek_sizes keys → kek_sizes keys') ∧ ∀ i k, dget keys i = Some k → dget keys' i = Some k.
Proof.
  unfold register_kek. intros Hr. destruct x as [u|e]; [inv_ok Hr|err_keeps Hr]. guards.
  split.
  - intros Hok i k. rewrite dget_dset. case_decide; [|apply Hok]. unfold byte_len in *. intros [= <-]. lia.
  - intros i k Hi. rewrite dget_dset_ne; [done|]. intros ->. unfold dmem in *. by rewrite Hi in *.
Qed.

(** What a key wraps stays readable as keys are added. *)
Lemma unwrap_kept `{AesGcm} (keys keys' : KekStore) id wrapped context data_key :
  (∀ i k, dget keys i = Some k → dget keys' i = Some k) →
  unwrap_key keys id wrapped context = Ok data_key → unwrap_key keys' id wrapped context = Ok data_key.
Proof.
  intros Hk. cbn. destruct (_ && _); cbn; [|done]. unfold require_kek.
  destruct (dget keys id) as [key|] eqn:Hi; [|done]. by rewrite (Hk _ _ Hi).
Qed.

(** ** Envelopes *)

(** [secrets.token_bytes] returns what it is asked for. *)
Definition random_ok r : Prop :=
  length (rn_data_key r) = 32%nat ∧ length (rn_nonce r) = 12%nat ∧ length (rn_wrap r) = 12%nat.

Section envelopes.
Context `{AesGcm} {K : Type} `{!KeyEncryptionProvider K}.
Implicit Types (svc : EnvelopeEncryptionService K).

(** [svc'] unwraps whatever [svc] does. *)
Definition reads_more svc svc' : Prop := ∀ id wrapped context data_key,
  unwrap_key (sv_keys svc) id wrapped context = Ok data_key →
  unwrap_key (sv_keys svc') id wrapped context = Ok data_key.

Lemma encrypt_inv svc r purpose record owner field p env :
  encrypt svc r purpose record owner field p = Ok env →
  ∃ context wrapped, envelope_context purpose record owner field = Ok context ∧
    wrap_key (sv_keys svc) (rn_wrap r) (en_key_id env) (rn_data_key r) (sha256 context) = Ok wrapped ∧
    validate_envelope env = Ok tt ∧ en_purpose env = purpose ∧
    en_wrapped_data_key env = b64_encode wrapped ∧ en_nonce env = b64_encode (rn_nonce r) ∧
    en_ciphertext env = b64_encode (gcm_encrypt (rn_data_key r) (rn_nonce r) p context) ∧
    en_aad_sha256 env = sha256_hex context.
Proof. unfold encrypt. intros He. inv_ok He. destruct v3. by eexists _, _. Qed.

Lemma decrypt_inv svc env purpose record owner field p :
  decrypt svc env purpose record owner field = Ok p →
  ∃ context, envelope_context purpose record owner field = Ok context ∧
    en_purpose env = purpose ∧ en_aad_sha256 env = sha256_hex context ∧
    open_envelope svc env context = Ok p.
Proof.
  unfold decrypt. intros Hd. inv_ok Hd. guards. exists v1.
  unfold catch_res in Hd. repeat case_match; by simplify_eq/=.
Qed.

(** A fresh envelope opens to the plaintext. *)
Lemma envelope_opens `{!AesGcmLaws, !KeyEncryptionSpec K} svc svc' r purpose record owner field p env :
  kek_ok (sv_keys svc) → random_ok r → reads_more svc svc' →
  encrypt svc r purpose record owner field p = Ok env →
  decrypt svc' env purpose record owner field = Ok p.
Proof.
  intros Hok (Hd & Hn & Hw) Hmore (context & wrapped & Hc & Hwrap & Hv & Hp & Hew & Hen & Hec & Ha)%encrypt_inv.
  pose proof Hv as Hvalid. unfold validate_envelope in Hvalid. inv_ok Hvalid.
  rewrite Hew, Hen, Hec in *. repeat match goal with
  | H : decode_base64url _ (b64_encode _) _ _ = Ok _ |- _ =>
      let Hf := fresh in pose proof H as Hf; apply decoded_field in Hf as [-> _]; revert H end.
  intros. unfold decrypt. rewrite Hv, Hc, Ha, bool_decide_true by done. cbn. rewrite String.eqb_refl. cbn.
  unfold open_envelope. rewrite Hew, Hen, Hec. repeat match goal with
  | H : decode_base64url _ _ _ _ = Ok _ |- _ => rewrite H; clear H end.
  cbn. rewrite (Hmore _ _ _ _ (wrap_inverse _ _ _ _ _ _ Hok Hw Hwrap)). cbn.
  by rewrite gcm_inverse.
Qed.

Lemma text_opens `{!AesGcmLaws, !KeyEncryptionSpec K} svc svc' r purpose record owner field text env :
  kek_ok (sv_keys svc) → random_ok r → reads_more svc svc' → utf8_valid (encode_utf8 text) = true →
  encrypt_text svc r purpose record owner field text = Ok env →
  decrypt_text svc' env purpose record owner field = Ok text.
Proof.
  intros Hok Hr Hmore Hu He. unfold encrypt_text in He. inv_ok He.
  match goal with H : utf8_encode text = Ok _ |- _ => apply utf8_encode_ok in H as [_ ->] end.
  unfold decrypt_text. rewrite (envelope_opens _ _ _ _ _ _ _ _ _ Hok Hr Hmore He). cbn.
  by rewrite decode_encode.
Qed.

(** ** The store of secrets *)
Lemma put_secret_run rec records x records' :
  put_secret rec records = (x, records') →
  let key := (sc_vault_name rec, sc_record_id rec) in
  match dget records key with
  | Some old => records' = records ∧ (is_ok x = true ↔ old = rec)
  | None => records' = dset records key rec
  end.
Proof.
  unfold put_secret. rewrite run_get_bind. intros Hr. cbn zeta.
  destruct (dget records _) as [old|]; [|by injection Hr].
  unfold raise_if in Hr. case_bool_decide; by injection Hr as <- <-.
Qed.

Lemma put_secret_kept rec records x records' :
  put_secret rec records = (x, records') →
  ∀ key rec', dget records key = Some rec' → dget records' key = Some rec'.
Proof.
  intros Hr%put_secret_run key rec' Hk. cbn zeta in Hr.
  destruct (dget records (sc_vault_name rec, sc_record_id rec)) eqn:Ho; [by destruct Hr as [-> _]|].
  subst records'. rewrite dget_dset_ne; [done|congruence].
Qed.

Lemma put_secret_stored rec records x records' :
  put_secret rec records = (Ok x, records') →
  dget records' (sc_vault_name rec, sc_record_id rec) = Some rec.
Proof.
  intros Hr%put_secret_run. cbn zeta in Hr.
  destruct (dget records (sc_vault_name rec, sc_record_id rec)) eqn:Ho.
  - destruct Hr as [-> Hx]. rewrite Ho. f_equal. by apply Hx.
  - subst records'. apply dget_dset_eq.
Qed.

Lemma store_secret_kept svc r purpose vault record owner field secret records x records' :
  store_secret svc r purpose vault record owner field secret records = (x, records') →
  ∀ key rec', dget records key = Some rec' → dget records' key = Some rec'.
Proof.
  unfold store_secret. intros Hr.
  destruct x as [u|e].
  - inv_ok Hr. by eapply put_secret_kept.
  - apply run_bind_err_inv in Hr as [Hr|(env & s1 & He & Hr)]; [by injection Hr as _ <-|inv_ok He].
    apply run_bind_err_inv in Hr as [Hr|(data & s2 & Hu & Hr)]; [by injection Hr as _ <-|inv_ok Hu].
    apply run_bind_err_inv in Hr as [Hr|(? & ? & _ & Hr)]; [by eapply put_secret_kept|done].
Qed.

Lemma store_secret_stored svc r purpose vault record owner field secret records u records' :
  store_secret svc r purpose vault record owner field secret records = (Ok u, records') →
  ∃ rec, dget records' (vault, record) = Some rec ∧ sc_owner_id rec = owner ∧
    encrypt_text svc r purpose record owner field secret = Ok (sc_envelope rec).
Proof.
  unfold store_secret. intros Hr. inv_ok Hr.
  match goal with H : put_secret ?rec _ = _ |- _ => apply put_secret_stored in H; by exists rec end.
Qed.
End envelopes.
