(* ===== verification/SecurityClaims.v ===== *)
(** What the vaults promise: an envelope opens only in the context it was
    sealed in, and a registered secret is resolved, as it was, whatever is
    registered later. *)

From Stdlib Require Import Ascii String Strings.Byte.
From S2P Require Import Prelude.
From S2P Require Import PyBase.
From S2P Require Import PyDict.
From S2P Require Import Bytes.
From S2P Require Import Sha256.
From S2P Require Import CanonicalJson.
From S2P Require Import PyText.
From S2P Require Import OperationsStore.
From S2P Require Import Security.
From S2P Require Import SecurityFacts.

Implicit Types (env : EncryptedEnvelope) (r : Randomness).

(** ** The three vaults as one *)
Inductive VaultKey :=
  | Account (institution_id account_binding_id : string)
  | Contact (contact_binding_id owner_id : string)
  | Credential (provider_id credential_name : string).

Section vaults.
Context `{AesGcm} {K : Type} `{!KeyEncryptionProvider K}.
Implicit Types (svc : EnvelopeEncryptionService K).

Definition register_key svc r (v : VaultKey) (secret : string) : M SecretStore unit :=
  match v with
  | Account institution binding => register_account svc r institution binding secret
  | Contact binding owner => register_contact svc r binding owner secret
  | Credential provider name => register_credential svc r provider name secret
  end.
Definition resolve_key svc (records : SecretStore) (v : VaultKey) : res string :=
  match v with
  | Account institution binding => resolve_account svc records institution binding
  | Contact binding _ => resolve_contact svc records binding
  | Credential provider name => resolve_credential svc records provider name
  end.

Lemma register_key_kept svc r v secret records x records' :
  register_key svc r v secret records = (x, records') →
  ∀ key rec, dget records key = Some rec → dget records' key = Some rec.
Proof.
  destruct v as [i b|b o|p n]; cbn [register_key]; unfold register_account, register_contact,
    register_credential; [|apply store_secret_kept|].
  - unfold mbind, M_bind, lift. destruct (account_record_id i b); [apply store_secret_kept|congruence].
  - unfold mbind, M_bind, lift. destruct (credential_record_id p n); [apply store_secret_kept|congruence].
Qed.

(** A secret found where it was registered is opened. *)
Lemma resolve_registered `{!AesGcmLaws, !KeyEncryptionSpec K} svc svc' r v secret records u records' :
  kek_ok (sv_keys svc) → random_ok r → reads_more svc svc' → utf8_valid (encode_utf8 secret) = true →
  register_key svc r v secret records = (Ok u, records') →
  ∀ later : SecretStore,
    (∀ key rec, dget records' key = Some rec → dget later key = Some rec) →
    resolve_key svc' later v = Ok secret.
Proof.
  intros Hok Hr Hmore Hu Hrun later Hlater. destruct v as [i b|b o|p n];
    cbn [register_key resolve_key] in *;
    unfold register_account, register_contact, register_credential in Hrun;
    unfold resolve_account, resolve_contact, resolve_credential;
    [inv_ok Hrun| |inv_ok Hrun];
    apply store_secret_stored in Hrun as (rec & Hk & <- & He); apply Hlater in Hk;
    repeat match goal with H : _ = Ok _ |- _ => lazymatch type of H with
      | encrypt_text _ _ _ _ _ _ _ = _ => fail | _ => rewrite H; clear H end end;
    cbn; unfold require_secret; rewrite Hk; cbn; rewrite ?String.eqb_refl; cbn;
    by eapply text_opens.
Qed.
End vaults.

(** ** Context binding *)

(** C31: an envelope made for one purpose, record, owner and field opens, under
    whatever service and keys, only as that purpose, record, owner and field,
    or two contexts with one SHA-256 digest are exhibited: a ciphertext moved
    to another row, column or owner of the database is refused. *)
Theorem envelope_context_bound `{AesGcm} {K : Type} `{!KeyEncryptionProvider K}
    (svc svc' : EnvelopeEncryptionService K) r
    purpose record_id owner_id field_name plaintext env
    purpose' record_id' owner_id' field_name' opened :
  encrypt svc r purpose record_id owner_id field_name plaintext = Ok env →
  decrypt svc' env purpose' record_id' owner_id' field_name' = Ok opened →
  (purpose' = purpose ∧ record_id' = record_id ∧ owner_id' = owner_id ∧ field_name' = field_name)
  ∨ ∃ m m', sha256_collision m m'.
Proof.
  intros (context & _ & Hc & _ & _ & Hp & _ & _ & _ & Ha)%encrypt_inv
    (context' & Hc' & Hp' & Ha' & _)%decrypt_inv.
  destruct (decide (context = context')) as [<-|Hne].
  - left. by destruct (context_text_inj _ _ _ _ _ _ _ _ _ Hc' Hc) as (? & ? & ? & ?).
  - right. exists context, context'. split; [done|]. apply sha256_hex_inj. congruence.
Qed.

(** ** Histories of the vaults *)

(** Keys are added and secrets registered, by any of the three vaults. *)
Inductive vault_op :=
  | VaKey (key_id : string) (key : bytes)
  | VaRegister r (v : VaultKey) (secret : string).
Definition VaultWorld : Type := KekStore * SecretStore.

Section histories.
Context `{AesGcm} (active : dict EncryptionPurpose string).
Implicit Types (w : VaultWorld).

(** The vaults of a world share its store, and its keys. *)
Definition vault_service w : EnvelopeEncryptionService KekStore := Encryption w.1 active.
Definition register_in r (v : VaultKey) (secret : string) : M VaultWorld unit := λ w,
  let '(x, records) := register_key (vault_service w) r v secret w.2 in (x, (w.1, records)).
Definition resolve_in w (v : VaultKey) : res string := resolve_key (vault_service w) w.2 v.
Definition vault_after w (o : vault_op) : VaultWorld :=
  match o with
  | VaKey id key => ((register_kek id key w.1).2, w.2)
  | VaRegister r v secret => (register_in r v secret w).2
  end.

Definition world_kept w w' : Prop :=
  (∀ id key, dget w.1 id = Some key → dget w'.1 id = Some key) ∧
  (∀ key rec, dget w.2 key = Some rec → dget w'.2 key = Some rec).
#[global] Instance world_kept_preorder : PreOrder world_kept.
Proof. split; [done|]. intros ??? [? ?] [? ?]. split; eauto. Qed.

Lemma vault_after_kept w o : world_kept w (vault_after w o).
Proof.
  destruct o as [id key|r v secret]; cbn [vault_after].
  - destruct (register_kek id key w.1) as [x keys'] eqn:Hr. apply register_kek_kept in Hr as [_ Hk]. by split.
  - unfold register_in. destruct (register_key _ r v secret w.2) as [x records'] eqn:Hr.
    split; [done|]. exact (register_key_kept _ _ _ _ _ _ _ Hr).
Qed.
Lemma vault_run_kept w ops : world_kept w (foldl vault_after w ops).
Proof.
  revert w. induction ops as [|o ops IH]; intros w; [done|]. etrans; [apply vault_after_kept|apply IH].
Qed.
End histories.

(** C32: a secret that a vault has registered under envelope encryption is
    resolved to exactly the registered text after any number of later
    operations: new key-encryption keys, other registrations in the same store
    by any vault, and registrations that were refused. *)
Theorem registered_secret_resolves `{AesGcmLaws} (active : dict EncryptionPurpose string)
    (w w' : VaultWorld) r v secret ops :
  kek_sizes w.1 → random_ok r → utf8_valid (encode_utf8 secret) = true →
  register_in active r v secret w = (Ok tt, w') →
  resolve_in active (foldl (vault_after active) w' ops) v = Ok secret.
Proof.
  intros Hok Hr Hu Hreg. unfold register_in in Hreg.
  destruct (register_key (vault_service active w) r v secret w.2) as [x records'] eqn:Hrun.
  injection Hreg as -> <-. destruct (vault_run_kept active (w.1, records') ops) as [Hkeys Hrecords].
  unfold resolve_in.
  eapply (resolve_registered (vault_service active w)); [exact Hok|exact Hr| |exact Hu|exact Hrun|done].
  intros ? ? ? ?. by apply unwrap_kept.
Qed.

(** ** A demonstration *)

(** A cipher that hides nothing and whose tag is a digest: enough to satisfy
    the laws. *)
Module DemoVault.
Definition tag (key nonce data aad : bytes) : bytes := take 16 (sha256 (key ++ nonce ++ aad ++ data)).
Lemma tag_length key nonce data aad : length (tag key nonce data aad) = 16%nat.
Proof. unfold tag. by rewrite length_take, sha256_length. Qed.

#[global] Instance demo_gcm : AesGcm := {
  gcm_encrypt key nonce data aad := data ++ tag key nonce data aad;
  gcm_decrypt key nonce sealed aad :=
    let data := take (length sealed - 16) sealed in
    _ ← raise_if (negb (bool_decide (drop (length sealed - 16) sealed = tag key nonce data aad)))
          InvalidTag "invalid tag";
    mret data;
}.
#[global] Instance demo_gcm_laws : AesGcmLaws.
Proof.
  split.
  - intros key nonce data aad _ _. cbn.
    assert (length (data ++ tag key nonce data aad) - 16 = length data)%nat as ->
      by (rewrite length_app, tag_length; lia).
    rewrite take_app_length, drop_app_length. by rewrite bool_decide_true.
  - intros key nonce data aad. cbn. by rewrite length_app, tag_length.
Qed.

Definition fill (n : nat) (c : Byte.byte) : bytes := repeat c n.
Definition random1 : Randomness := Random (fill 32 Byte.x01) (fill 12 Byte.x02) (fill 12 Byte.x03).
Definition random2 : Randomness := Random (fill 32 Byte.x11) (fill 12 Byte.x12) (fill 12 Byte.x13).
Definition keys1 : KekStore := [("kek-1", fill 32 Byte.x41)].
Definition active1 : dict EncryptionPurpose string := (λ p, (p, "kek-1")) <$> all_purposes.
Definition service1 : EnvelopeEncryptionService KekStore := Encryption keys1 active1.
Definition no_envelope : EncryptedEnvelope :=
  {| en_version := 0; en_algorithm := EmptyString; en_key_id := EmptyString;
     en_purpose := ACCOUNT_ENDPOINT; en_wrapped_data_key := EmptyString; en_nonce := EmptyString;
     en_ciphertext := EmptyString; en_aad_sha256 := EmptyString |}.
Definition sealed : EncryptedEnvelope := Eval vm_compute in
  from_ok no_envelope (encrypt service1 random1 CONTACT_DESTINATION "CB-1" "u1" "sms_destination"
    (encode_utf8 "+254700000001")).

Lemma random_ok1 : random_ok random1.
Proof. by split. Qed.
Lemma kek_sizes1 : kek_sizes keys1.
Proof. intros id key. cbn. case_decide; [by intros [= <-]|done]. Qed.

(** An account endpoint, then a new key, a contact and the account again. *)
Definition world1 : VaultWorld := (keys1, []).
Definition account1 : VaultKey := Account "BANK" "AB-1".
Definition world2 : VaultWorld := (register_in active1 random1 account1 "254700000001" world1).2.
Definition later_ops : list vault_op :=
  [VaKey "kek-2" (fill 32 Byte.x42); VaRegister random2 (Contact "CB-1" "u1") "+254700000001";
   VaRegister random2 account1 "254700000002"].
End DemoVault.
Import DemoVault.

(** The sealed destination opens in its context, and in no other. *)
Lemma envelope_context_bound_witness :
  (CONTACT_DESTINATION = CONTACT_DESTINATION ∧ "CB-1" = "CB-1" ∧ "u1" = "u1"
   ∧ "sms_destination" = "sms_destination")
  ∨ ∃ m m', sha256_collision m m'.
Proof.
  eapply (envelope_context_bound service1 service1 random1 CONTACT_DESTINATION "CB-1" "u1" "sms_destination"
    (encode_utf8 "+254700000001") sealed); vm_compute; reflexivity.
Defined.
Lemma moved_envelope_refused :
  decrypt service1 sealed CONTACT_DESTINATION "CB-2" "u1" "sms_destination"
  = Err (Exn EnvelopeIntegrityError "encrypted value context mismatch") ∧
  decrypt service1 sealed ACCOUNT_ENDPOINT "CB-1" "u1" "sms_destination"
  = Err (Exn EnvelopeIntegrityError "encrypted value purpose mismatch").
Proof. split; vm_compute; reflexivity. Qed.

Lemma registered_secret_resolves_witness :
  resolve_in active1 (foldl (vault_after active1) world2 later_ops) account1 = Ok "254700000001".
Proof.
  apply (registered_secret_resolves active1 world1 world2 random1 account1 "254700000001" later_ops).
  - exact kek_sizes1.
  - exact random_ok1.
  - vm_compute. reflexivity.
  - vm_compute. reflexivity.
Defined.

(** Registering the same secret again is refused: the envelope is made with
    fresh randomness, so it never equals the stored one. *)
Lemma same_secret_conflicts :
  (register_in active1 random2 account1 "254700000001" world2).1
  = Err (Exn RuntimeError "encrypted secret immutability conflict").
Proof. vm_compute. reflexivity. Qed.

(** Two bindings whose colon-joined identifiers are one text share a row: the
    second cannot be registered, nor does it resolve. *)
Lemma bindings_share_row :
  account_record_id "BANK:KE" "AB-1" = account_record_id "BANK" "KE:AB-1" ∧
  let w := (register_in active1 random1 (Account "BANK:KE" "AB-1") "254700000001" world1).2 in
  (register_in active1 random2 (Account "BANK" "KE:AB-1") "254700000002" w).1
  = Err (Exn RuntimeError "encrypted secret immutability conflict") ∧
  resolve_in active1 w (Account "BANK" "KE:AB-1")
  = Err (Exn PermissionError "account endpoint owner mismatch").
Proof. repeat split; vm_compute; reflexivity. Qed.
